(** * Recurrence lifecycle of the TPS Global Context Menu plugin

    A shallow embedding of [bulk-edit-service.ts], [recurrence-service.ts]
    and [logger.ts]: the session tracker, the recurrence prompts, successor
    creation and the bulk mutation entry points, together with the host
    (vault, metadata cache, clock, modal dialogs) they run against. *)

From Stdlib Require Import ZArith String Ascii List Bool Lia.
From stdpp Require Import base option list gmap strings fin_maps pretty.
Import ListNotations.
Local Open Scope string_scope.
Local Open Scope Z_scope.

(** ** Frontmatter values *)

(** YAML scalars as the metadata cache hands them to JavaScript. *)
Inductive atom : Type :=
| AStr (s : string)
| ANum (n : Z)
| ABool (b : bool)
| ANull.

(** A frontmatter value is a scalar or a flat array of scalars (nested
    YAML, which none of the functions below looks into, is left out). *)
Inductive value : Type :=
| VAtom (a : atom)
| VList (l : list atom).

#[global] Instance atom_eq_dec : EqDecision atom.
Proof. solve_decision. Defined.

#[global] Instance value_eq_dec : EqDecision value.
Proof. solve_decision. Defined.

(** JavaScript truthiness. *)
Definition atom_truthy (a : atom) : bool :=
  match a with
  | AStr s => negb (String.eqb s "")
  | ANum n => negb (n =? 0)
  | ABool b => b
  | ANull => false
  end.

Definition truthy (v : value) : bool :=
  match v with
  | VAtom a => atom_truthy a
  | VList _ => true
  end.

(** [o] read from an object field: an absent field is [undefined], falsy. *)
Definition field_truthy (o : option value) : bool :=
  match o with
  | Some v => truthy v
  | None => false
  end.

(** [a || b] on two field reads. *)
Definition js_or (a b : option value) : option value :=
  if field_truthy a then a else b.

(** [x === 'lit'] for a field read [x]. *)
Definition is_str (o : option value) (lit : string) : bool :=
  match o with
  | Some (VAtom (AStr s)) => String.eqb s lit
  | _ => false
  end.

Definition is_null (v : value) : bool :=
  match v with
  | VAtom ANull => true
  | _ => false
  end.

(** ** Strings *)

Definition lower_ascii (c : ascii) : ascii :=
  let n := nat_of_ascii c in
  if (Nat.leb 65 n && Nat.leb n 90)%bool then ascii_of_nat (n + 32) else c.

Fixpoint toLowerCase (s : string) : string :=
  match s with
  | EmptyString => EmptyString
  | String c r => String (lower_ascii c) (toLowerCase r)
  end.

Fixpoint starts_with (p s : string) : bool :=
  match p, s with
  | EmptyString, _ => true
  | String a p', String b s' => (Ascii.eqb a b && starts_with p' s')%bool
  | String _ _, EmptyString => false
  end.

(** [s.includes(p)] *)
Fixpoint includes_str (p s : string) : bool :=
  (starts_with p s ||
   match s with
   | EmptyString => false
   | String _ s' => includes_str p s'
   end)%bool.

Definition is_digit (c : ascii) : bool :=
  let n := nat_of_ascii c in (Nat.leb 48 n && Nat.leb n 57)%bool.

(** The regular expression [/ \d{4}-\d{2}-\d{2}$/] against a whole string
    of exactly eleven characters. *)
Definition is_date_suffix (s : string) : bool :=
  match list_ascii_of_string s with
  | [sp; y1; y2; y3; y4; d1; m1; m2; d2; a1; a2] =>
      (Ascii.eqb sp " " && is_digit y1 && is_digit y2 && is_digit y3 && is_digit y4
       && Ascii.eqb d1 "-" && is_digit m1 && is_digit m2
       && Ascii.eqb d2 "-" && is_digit a1 && is_digit a2)%bool
  | _ => false
  end.

(** [basename.replace(/ \d{4}-\d{2}-\d{2}$/, '')]: the pattern can only
    match the last eleven characters. *)
Fixpoint strip_date_suffix (s : string) : string :=
  match s with
  | EmptyString => EmptyString
  | String c r => if is_date_suffix s then EmptyString else String c (strip_date_suffix r)
  end.

(** ** Files and notes *)

Record TFile : Type := mkTFile {
  path : string;
  basename : string;
  extension : string;
  parent : option string      (* [file.parent.path] when [file.parent] is set *)
}.

(** The content of a file: its frontmatter block as the host parses and
    patches it, and the text below it.  (The block as it is written is
    kept beside it, in [frontmatterBlock] below.) *)
Record Note : Type := mkNote {
  frontmatter : gmap string value;
  body : string
}.

Inductive Choice : Type := UpdateAll | Split | Cancel.

Inductive ChecklistAction : Type :=
| ActOpen | ActComplete | ActProgress | ActIgnore | ActCancel.

Inductive LogLevel : Type := LvlLog | LvlWarn | LvlError.

#[global] Instance Choice_eq_dec : EqDecision Choice.
Proof. solve_decision. Defined.

#[global] Instance LogLevel_eq_dec : EqDecision LogLevel.
Proof. solve_decision. Defined.

(** ** Settings *)

Record Settings : Type := mkSettings {
  enableLogging : bool;
  enableRecurrence : bool;
  promptOnRecurrenceEdit : bool;
  recurrencePromptTimeout : Z;                   (* minutes *)
  recurrenceCompletionStatuses : list string;
  recurrenceDefaultStatus : string;
  checkOpenChecklistItems : bool
}.

(** [DEFAULT_SETTINGS] of main.ts, restricted to the fields read here. *)
Definition DEFAULT_SETTINGS : Settings :=
  {| enableLogging := false;
     enableRecurrence := true;
     promptOnRecurrenceEdit := true;
     recurrencePromptTimeout := 5;
     recurrenceCompletionStatuses := ["complete"; "wont-do"];
     recurrenceDefaultStatus := "open";
     checkOpenChecklistItems := true |}.

(** ** The host and the libraries *)

(** A JavaScript [Date]: milliseconds since the epoch, [None] for
    [Invalid Date]. *)
Definition JSDate : Type := option Z.

Inductive HostOp : Type :=
| OpPatch      (* fileManager.processFrontMatter *)
| OpRead       (* vault.read *)
| OpCreate     (* vault.create *)
| OpModify     (* vault.modify *)
| OpExists.    (* vault.adapter.exists *)

(** What the plugin consumes and does not implement: the rrule evaluator,
    moment's formatter, the [Date] constructor, and the behaviour of the
    host's storage (which calls reject, and whether the metadata cache is
    re-indexed before the write returns or only later), and the host's
    handling of frontmatter in a file text: where the block of a text
    ends, the frontmatter it reads from a text, and the block it writes
    for a patched frontmatter in place of the block that was there. *)
Record Env : Type := mkEnv {
  RuleOptions : Type;
  RRule_parseString : value -> option RuleOptions;          (* [None]: throws *)
  set_dtstart : RuleOptions -> JSDate -> RuleOptions;
  RRule_after : RuleOptions -> JSDate -> bool -> option (option Z);
                                                             (* [None]: throws; [Some None]: null *)
  new_Date : value -> JSDate;
  moment_format : Z -> string -> string;
  io_fails : HostOp -> string -> bool;
  eager_index : bool;
  contentStart : string -> nat;
  parseFrontMatter : string -> gmap string value;
  writeFrontMatter : string -> gmap string value -> string
}.

(** What the plugin shows to the user, and every call of
    [createNextRecurrenceInstance] with the status handed to it. *)
Inductive Event : Type :=
| EvNotice (msg : string)
| EvPrompt (file : string) (changeType : string)
| EvChecklistPrompt (file : string) (items : list string)
| EvOpenFile (file : string)
| EvCreateNext (file : string) (carryStatus : option value).

Record World : Type := mkWorld {
  settings : Settings;
  vault : gmap string Note;
  metadataCache : gmap string (gmap string value);
  modifiedFiles : gmap string Z;          (* SessionTracker.modifiedFiles *)
  sessionDuration : Z;                    (* SessionTracker.sessionDuration *)
  clock : Z;                              (* what Date.now() returns *)
  loggingEnabled : bool;                  (* logger's module variable *)
  console : list (LogLevel * string);
  trace : list Event;                     (* newest first *)
  answers : list Choice;                  (* the user's coming recurrence choices *)
  checklistAnswers : list ChecklistAction;
  frontmatterBlock : gmap string string   (* the frontmatter block of each file as it is
                                             written, fences included; no entry: no block *)
}.

Definition set_vault (v : gmap string Note) (w : World) : World :=
  mkWorld (settings w) v (metadataCache w) (modifiedFiles w) (sessionDuration w)
          (clock w) (loggingEnabled w) (console w) (trace w) (answers w) (checklistAnswers w)
          (frontmatterBlock w).

Definition set_metadataCache (c : gmap string (gmap string value)) (w : World) : World :=
  mkWorld (settings w) (vault w) c (modifiedFiles w) (sessionDuration w)
          (clock w) (loggingEnabled w) (console w) (trace w) (answers w) (checklistAnswers w)
          (frontmatterBlock w).

Definition set_modifiedFiles (m : gmap string Z) (w : World) : World :=
  mkWorld (settings w) (vault w) (metadataCache w) m (sessionDuration w)
          (clock w) (loggingEnabled w) (console w) (trace w) (answers w) (checklistAnswers w)
          (frontmatterBlock w).

Definition set_sessionDuration (d : Z) (w : World) : World :=
  mkWorld (settings w) (vault w) (metadataCache w) (modifiedFiles w) d
          (clock w) (loggingEnabled w) (console w) (trace w) (answers w) (checklistAnswers w)
          (frontmatterBlock w).

Definition set_clock (t : Z) (w : World) : World :=
  mkWorld (settings w) (vault w) (metadataCache w) (modifiedFiles w) (sessionDuration w)
          t (loggingEnabled w) (console w) (trace w) (answers w) (checklistAnswers w)
          (frontmatterBlock w).

Definition set_loggingEnabled (b : bool) (w : World) : World :=
  mkWorld (settings w) (vault w) (metadataCache w) (modifiedFiles w) (sessionDuration w)
          (clock w) b (console w) (trace w) (answers w) (checklistAnswers w)
          (frontmatterBlock w).

Definition set_console (c : list (LogLevel * string)) (w : World) : World :=
  mkWorld (settings w) (vault w) (metadataCache w) (modifiedFiles w) (sessionDuration w)
          (clock w) (loggingEnabled w) c (trace w) (answers w) (checklistAnswers w)
          (frontmatterBlock w).

Definition set_trace (t : list Event) (w : World) : World :=
  mkWorld (settings w) (vault w) (metadataCache w) (modifiedFiles w) (sessionDuration w)
          (clock w) (loggingEnabled w) (console w) t (answers w) (checklistAnswers w)
          (frontmatterBlock w).

Definition set_answers (a : list Choice) (w : World) : World :=
  mkWorld (settings w) (vault w) (metadataCache w) (modifiedFiles w) (sessionDuration w)
          (clock w) (loggingEnabled w) (console w) (trace w) a (checklistAnswers w)
          (frontmatterBlock w).

Definition set_checklistAnswers (a : list ChecklistAction) (w : World) : World :=
  mkWorld (settings w) (vault w) (metadataCache w) (modifiedFiles w) (sessionDuration w)
          (clock w) (loggingEnabled w) (console w) (trace w) (answers w) a
          (frontmatterBlock w).

Definition set_frontmatterBlock (b : gmap string string) (w : World) : World :=
  mkWorld (settings w) (vault w) (metadataCache w) (modifiedFiles w) (sessionDuration w)
          (clock w) (loggingEnabled w) (console w) (trace w) (answers w) (checklistAnswers w)
          b.

Definition emit (e : Event) (w : World) : World := set_trace (e :: trace w) w.

(** ** Asynchronous computations *)

(** How an [async] function ends: it resolves, it rejects, it waits for
    ever on a dialog nobody answers, or the model ran out of fuel. *)
Inductive Outcome (A : Type) : Type :=
| Ret (a : A) (w : World)
| Throw (w : World)
| Pending (w : World)
| OutOfFuel.

Arguments Ret {A} a w.
Arguments Throw {A} w.
Arguments Pending {A} w.
Arguments OutOfFuel {A}.

(** The value an outcome resolved to, and the world it stopped in. *)
Definition result_of {A} (o : Outcome A) : option A :=
  match o with
  | Ret a _ => Some a
  | _ => None
  end.

Definition world_of {A} (o : Outcome A) : option World :=
  match o with
  | Ret _ w | Throw w | Pending w => Some w
  | OutOfFuel => None
  end.

Definition M (A : Type) : Type := World -> Outcome A.

Definition ret {A} (a : A) : M A := fun w => Ret a w.

Definition bind {A B} (m : M A) (k : A -> M B) : M B :=
  fun w =>
    match m w with
    | Ret a w' => k a w'
    | Throw w' => Throw w'
    | Pending w' => Pending w'
    | OutOfFuel => OutOfFuel
    end.

(** [try { m } catch { h }] *)
Definition try_catch {A} (m : M A) (h : M A) : M A :=
  fun w =>
    match m w with
    | Throw w' => h w'
    | o => o
    end.

(** A synchronous effect that cannot fail. *)
Definition lift (f : World -> World) : M unit := fun w => Ret tt (f w).

Declare Scope async_scope.
Delimit Scope async_scope with async.
Notation "x <- m ;; k" := (bind m (fun x => k))
  (at level 100, m at next level, right associativity) : async_scope.
Notation "m ;;; k" := (bind m (fun _ => k))
  (at level 100, right associativity) : async_scope.
Local Open Scope async_scope.

(** ** logger.ts *)

Definition setLoggingEnabled (b : bool) (w : World) : World := set_loggingEnabled b w.

Definition logger_log (msg : string) (w : World) : World :=
  if loggingEnabled w then set_console ((LvlLog, msg) :: console w) w else w.

Definition logger_warn (msg : string) (w : World) : World :=
  if loggingEnabled w then set_console ((LvlWarn, msg) :: console w) w else w.

Definition logger_error (msg : string) (w : World) : World :=
  if loggingEnabled w then set_console ((LvlError, msg) :: console w) w else w.

(** ** SessionTracker *)

Module SessionTracker.

(** [constructor(durationMinutes)] and [updateDuration]. *)
Definition updateDuration (durationMinutes : Z) (w : World) : World :=
  set_sessionDuration (durationMinutes * 60 * 1000) w.

Definition markAsModified (filePath : string) (w : World) : World :=
  set_modifiedFiles (<[filePath := clock w]> (modifiedFiles w)) w.

Definition wasRecentlyModified (filePath : string) (w : World) : bool * World :=
  match modifiedFiles w !! filePath with
  | None => (false, w)
  | Some lastModified =>
      if lastModified =? 0 then (false, w)          (* [!lastModified] *)
      else
        let elapsed := clock w - lastModified in
        if elapsed >? sessionDuration w
        then (false, set_modifiedFiles (delete filePath (modifiedFiles w)) w)
        else (true, w)
  end.

Definition clear (w : World) : World := set_modifiedFiles ∅ w.

End SessionTracker.

(** ** Host primitives *)

(** [text.slice(0, k)] and [text.slice(k)] *)
Definition text_take (k : nat) (t : string) : string :=
  string_of_list_ascii (firstn k (list_ascii_of_string t)).

Definition text_drop (k : nat) (t : string) : string :=
  string_of_list_ascii (skipn k (list_ascii_of_string t)).

(** The content of a file as [vault.read] returns it and [vault.create]
    and [vault.modify] take it: a text, held as the frontmatter block and
    the body it is made of, with the frontmatter the host reads from it. *)
Record FileContent : Type := mkFileContent {
  content_block : string;
  content_note : Note
}.

Definition content_text (c : FileContent) : string :=
  content_block c ++ body (content_note c).

(** The frontmatter block of the file at [p] as it is written. *)
Definition block_at (p : string) (w : World) : string :=
  default "" (frontmatterBlock w !! p).

Definition put_block (p : string) (b : string) (w : World) : World :=
  set_frontmatterBlock (<[p := b]> (frontmatterBlock w)) w.

Section Host.

Context (E : Env).

(** A text the plugin has computed, as the host takes it apart. *)
Definition content_of_text (t : string) : FileContent :=
  {| content_block := text_take (contentStart E t) t;
     content_note := mkNote (parseFrontMatter E t) (text_drop (contentStart E t) t) |}.

(** The metadata cache follows a write at once when the host indexes
    eagerly; otherwise it keeps the entry it had. *)
Definition reindex (p : string) (w : World) : World :=
  if eager_index E then
    match vault w !! p with
    | Some n => set_metadataCache (<[p := frontmatter n]> (metadataCache w)) w
    | None => w
    end
  else w.

(** The cache after a write of frontmatter [fm] at [p]. *)
Definition cache_after (p : string) (fm : gmap string value)
    (c : gmap string (gmap string value)) : gmap string (gmap string value) :=
  if eager_index E then <[p := fm]> c else c.

(** [app.metadataCache.getFileCache(file)?.frontmatter] *)
Definition getFileCache (file : TFile) (w : World) : option (gmap string value) :=
  metadataCache w !! path file.

(** The host writes the block of [p] anew, for the frontmatter [fm]. *)
Definition rewrite_block (p : string) (fm : gmap string value) (w : World) : World :=
  put_block p (writeFrontMatter E (block_at p w) fm) w.

(** [app.fileManager.processFrontMatter(file, fn)]: a scoped
    read-modify-write of the file's own frontmatter; the host writes the
    block anew and leaves the body. *)
Definition processFrontMatter (p : string)
    (fn : gmap string value -> gmap string value) : M unit :=
  fun w =>
    if io_fails E OpPatch p then Throw w
    else match vault w !! p with
         | None => Throw w
         | Some n =>
             Ret tt (reindex p
               (set_vault (<[p := mkNote (fn (frontmatter n)) (body n)]> (vault w))
                  (rewrite_block p (fn (frontmatter n)) w)))
         end.

Definition vault_read (p : string) : M FileContent :=
  fun w =>
    if io_fails E OpRead p then Throw w
    else match vault w !! p with
         | None => Throw w
         | Some n => Ret (mkFileContent (block_at p w) n) w
         end.

(** What a write of [content] at [p] leaves. *)
Definition store (p : string) (content : FileContent) (w : World) : World :=
  reindex p (set_vault (<[p := content_note content]> (vault w))
               (put_block p (content_block content) w)).

Definition vault_create (p : string) (content : FileContent) : M unit :=
  fun w =>
    if io_fails E OpCreate p then Throw w
    else match vault w !! p with
         | Some _ => Throw w
         | None => Ret tt (store p content w)
         end.

Definition vault_modify (p : string) (content : FileContent) : M unit :=
  fun w =>
    if io_fails E OpModify p then Throw w
    else match vault w !! p with
         | None => Throw w
         | Some _ => Ret tt (store p content w)
         end.

Definition adapter_exists (p : string) : M bool :=
  fun w =>
    if io_fails E OpExists p then Throw w
    else Ret (bool_decide (is_Some (vault w !! p))) w.

(** [new Notice(msg)] *)
Definition Notice (msg : string) : M unit := lift (emit (EvNotice msg)).

End Host.

(** ** Text *)

(** A JavaScript string is held as the bytes of its UTF-8 encoding.  The
    regular expressions of the plugin and [trim] look at characters;
    [chars] cuts a text into them: a byte below 192 on its own, a lead
    byte with the continuation bytes that follow it, at most as many as it
    announces.  (A character beyond the basic plane is one piece here and
    two code units in JavaScript; no pattern of the plugin tells the two
    apart.) *)
Definition Char : Type := list ascii.

Definition lead_width (c : ascii) : nat :=
  let n := N_of_ascii c in
  if (n <? 192)%N then 0%nat
  else if (n <? 224)%N then 1%nat
  else if (n <? 240)%N then 2%nat
  else if (n <? 248)%N then 3%nat else 0%nat.

Definition is_continuation (c : ascii) : bool :=
  let n := N_of_ascii c in ((128 <=? n) && (n <? 192))%N.

(** The continuation bytes [l] starts with that belong to a character
    opened before it, [pending] of them at most, and the characters after
    them. *)
Fixpoint cut (pending : nat) (l : list ascii) : list ascii * list Char :=
  match l with
  | [] => ([], [])
  | c :: r =>
      match pending with
      | S k =>
          if is_continuation c then let '(t, cs) := cut k r in (c :: t, cs)
          else let '(t, cs) := cut (lead_width c) r in ([], (c :: t) :: cs)
      | O => let '(t, cs) := cut (lead_width c) r in ([], (c :: t) :: cs)
      end
  end.

Definition chars (s : string) : list Char := snd (cut 0 (list_ascii_of_string s)).

Definition text (cs : list Char) : string := string_of_list_ascii (concat cs).

(** The character with the given UTF-8 bytes. *)
Definition utf8 (l : list nat) : Char := List.map ascii_of_nat l.

(** The class [\s], which is also what [trim] strips: tab, line feed,
    vertical tab, form feed, carriage return, space, U+00A0, U+1680,
    U+2000 to U+200A, U+2028, U+2029, U+202F, U+205F, U+3000, U+FEFF. *)
Definition white_space : list Char :=
  List.map utf8
    [[9]; [10]; [11]; [12]; [13]; [32]; [194; 160]; [225; 154; 128];
     [226; 128; 128]; [226; 128; 129]; [226; 128; 130]; [226; 128; 131];
     [226; 128; 132]; [226; 128; 133]; [226; 128; 134]; [226; 128; 135];
     [226; 128; 136]; [226; 128; 137]; [226; 128; 138];
     [226; 128; 168]; [226; 128; 169]; [226; 128; 175]; [226; 129; 159];
     [227; 128; 128]; [239; 187; 191]]%nat.

(** The line terminators, which [.] refuses and [^] follows under the
    [m] flag: line feed, carriage return, U+2028, U+2029. *)
Definition line_terminators : list Char :=
  List.map utf8 [[10]; [13]; [226; 128; 168]; [226; 128; 169]]%nat.

Definition is_ws (c : Char) : bool := bool_decide (c ∈ white_space).

Definition is_line_terminator (c : Char) : bool := bool_decide (c ∈ line_terminators).

Fixpoint skip_ws (l : list Char) : list Char :=
  match l with
  | c :: r => if is_ws c then skip_ws r else l
  | [] => []
  end.

Fixpoint take_ws (l : list Char) : list Char :=
  match l with
  | c :: r => if is_ws c then c :: take_ws r else []
  | [] => []
  end.

Definition trim_end (l : list Char) : list Char := rev (skip_ws (rev l)).

(** [v.trim()] *)
Definition trim (l : list Char) : list Char := trim_end (skip_ws l).

(** [l] without the prefix [p], when it starts with it. *)
Fixpoint drop_prefix (p l : list Char) : option (list Char) :=
  match p, l with
  | [], _ => Some l
  | a :: p', b :: l' => if bool_decide (a = b) then drop_prefix p' l' else None
  | _ :: _, [] => None
  end.

(** ** Checklist text *)

Definition dash : list Char := chars "-".
Definition open_box : list Char := chars "[ ]".

(** The item pattern of [scanChecklistItems] on one line: leading blanks,
    a dash, blanks, an open box, at least one blank, then the rest of the
    line as the captured group, which is trimmed. *)
Definition match_incomplete_item (line : list Char) : option (list Char) :=
  match drop_prefix dash (skip_ws line) with
  | Some l1 =>
      match drop_prefix open_box (skip_ws l1) with
      | Some l2 =>
          match l2 with
          | c :: _ =>
              if is_ws c then
                let rest := skip_ws l2 in
                if forallb (fun x => negb (is_line_terminator x)) rest
                then Some (trim rest) else None
              else None
          | [] => None
          end
      | None => None
      end
  | None => None
  end.

(** [content.split('\n')] *)
Fixpoint split_lines (cur : list Char) (l : list Char) : list (list Char) :=
  match l with
  | [] => [rev cur]
  | c :: r => if bool_decide (c = utf8 [10%nat]) then rev cur :: split_lines [] r
              else split_lines (c :: cur) r
  end.

Definition incomplete_items (content : string) : list string :=
  omap (fun line => text <$> match_incomplete_item line)
       (split_lines [] (chars content)).

(** One attempt of the pattern of [updateChecklistItems] at a line start
    (blanks, a dash, blanks, an open box): the captured prefix and what
    follows the match. *)
Definition match_open_box (l : list Char) : option (list Char * list Char) :=
  match drop_prefix dash (skip_ws l) with
  | Some l1 =>
      match drop_prefix open_box (skip_ws l1) with
      | Some l2 => Some ((take_ws l ++ dash ++ take_ws l1)%list, l2)
      | None => None
      end
  | None => None
  end.

(** The global, multi-line replace of [updateChecklistItems]: every open
    box matched at a line start gets [mark] between its brackets. *)
Fixpoint replace_open_boxes (fuel : nat) (mark : Char) (at_start : bool)
    (l : list Char) : list Char :=
  match fuel with
  | O => l
  | S fuel' =>
      match l with
      | [] => []
      | c :: r =>
          match (if at_start then match_open_box l else None) with
          | Some (pre, rest) =>
              (pre ++ chars "[" ++ mark :: chars "]"
                   ++ replace_open_boxes fuel' mark false rest)%list
          | None => c :: replace_open_boxes fuel' mark (is_line_terminator c) r
          end
      end
  end.

Definition mark_checklist (mark : ascii) (content : string) : string :=
  let l := chars content in
  text (replace_open_boxes (S (List.length l)) [mark] true l).

(** ** BulkEditService and RecurrenceService *)

Definition dquote : string := String (ascii_of_nat 34) EmptyString.

Definition is_markdown (file : TFile) : bool :=
  String.eqb (toLowerCase (extension file)) "md".

(** [fm.recurrenceRule || fm.recurrence] *)
Definition rule_of (fm : gmap string value) : option value :=
  js_or (fm !! "recurrenceRule") (fm !! "recurrence").

Definition has_rule (fm : gmap string value) : bool := field_truthy (rule_of fm).

(** [fm.status === 'complete' || fm.status === 'wont-do'] *)
Definition status_is_done (fm : gmap string value) : bool :=
  (is_str (fm !! "status") "complete" || is_str (fm !! "status") "wont-do")%bool.

(** The callback of [clearRecurrenceRule]. *)
Definition strip_rule (fm : gmap string value) : gmap string value :=
  delete "recurrence" (delete "recurrenceRule" fm).

(** The callback of [updateFrontmatter]: a null entry deletes its key,
    any other entry overwrites it. *)
Definition apply_updates (updates fm : gmap string value) : gmap string value :=
  merge (fun u o => match u with
                    | Some v => if is_null v then None else Some v
                    | None => o
                    end) updates fm.

Definition includes_atom (a : atom) (l : list atom) : bool :=
  existsb (fun x => bool_decide (x = a)) l.

(** The callback of [addTag]. *)
Definition add_tag_cb (tag key : string) (fm : gmap string value) : gmap string value :=
  let tags :=
    match fm !! key with
    | Some v => if truthy v
                then match v with VList l => l | VAtom a => [a] end
                else []
    | None => []
    end in
  if includes_atom (AStr tag) tags then fm
  else <[key := VList (tags ++ [AStr tag])]> fm.

(** The callback of [removeTag]. *)
Definition remove_tag_cb (tag key : string) (fm : gmap string value) : gmap string value :=
  match fm !! key with
  | Some v =>
      if truthy v then
        let tags := match v with VList l => l | VAtom a => [a] end in
        <[key := VList (List.filter (fun t => negb (bool_decide (t = AStr tag))) tags)]> fm
      else fm
  | None => fm
  end.

(** The wording handed to the prompt by [updateFrontmatter]. *)
Definition change_description (updates : gmap string value) : string :=
  if bool_decide (is_Some (updates !! "scheduled")) then "changing the scheduled time of"
  else if bool_decide (is_Some (updates !! "priority")) then "changing the priority of"
  else if existsb (fun kv => includes_str "tag" (fst kv)) (map_to_list updates)
       then "modifying tags on"
  else "updating".

(** [settings.recurrenceCompletionStatuses?.length ? ... : ['complete', 'wont-do']] *)
Definition recurrenceStatuses (s : Settings) : list string :=
  match recurrenceCompletionStatuses s with
  | [] => ["complete"; "wont-do"]
  | l => l
  end.

Definition includes_string (x : string) (l : list string) : bool :=
  existsb (String.eqb x) l.

Section Services.

Context (E : Env).

(** *** RecurrenceService: tracker access and the modal *)

Definition markFileAsModified (filePath : string) (w : World) : World :=
  SessionTracker.markAsModified filePath w.

Definition updateSettings (w : World) : World :=
  SessionTracker.updateDuration (recurrencePromptTimeout (settings w)) w.

(** [sessionTracker.wasRecentlyModified] as a computation. *)
Definition wasRecentlyModified (filePath : string) : M bool :=
  fun w => let '(b, w') := SessionTracker.wasRecentlyModified filePath w in Ret b w'.

(** [promptUser]: the modal opens; the promise resolves with the user's
    next choice, or never. *)
Definition promptUser (changeType : string) (file : TFile) : M Choice :=
  fun w =>
    let w1 := emit (EvPrompt (path file) changeType) w in
    match answers w1 with
    | [] => Pending w1
    | c :: rest => Ret c (set_answers rest w1)
    end.

(** *** BulkEditService: successor creation *)

Definition clearRecurrenceRule (file : TFile) : M unit :=
  processFrontMatter E (path file) strip_rule.

(** [currentDate ? new Date(currentDate) : new Date()] *)
Definition startDate_of (currentDate : option value) (w : World) : JSDate :=
  match currentDate with
  | Some v => if truthy v then new_Date E v else Some (clock w)
  | None => Some (clock w)
  end.

Definition getNextOccurrence (recurrenceRule : value) (currentDate : option value)
    (w : World) : option Z * World :=
  let startDate := startDate_of currentDate w in
  match RRule_parseString E recurrenceRule with
  | None => (None, logger_error "[TPS GCM] Failed to calculate next recurrence:" w)
  | Some options =>
      match RRule_after E (set_dtstart E options startDate) startDate false with
      | None => (None, logger_error "[TPS GCM] Failed to calculate next recurrence:" w)
      | Some nextDate => (nextDate, w)
      end
  end.

(** The three names computed by [createNextRecurrenceInstance]. *)
Definition successor_baseName (file : TFile) : string :=
  strip_date_suffix (basename file).

Definition successor_fileName (file : TFile) (nextDate : Z) : string :=
  successor_baseName file ++ " " ++ moment_format E nextDate "YYYY-MM-DD" ++ ".md".

Definition successor_path (file : TFile) (nextDate : Z) : string :=
  match parent file with
  | Some dir => dir ++ "/" ++ successor_fileName file nextDate
  | None => successor_fileName file nextDate
  end.

(** The field patch applied to the new file. *)
Definition successor_patch (file : TFile) (nextDate : Z) (s : Settings)
    (fm : gmap string value) : gmap string value :=
  let newScheduled := moment_format E nextDate "YYYY-MM-DDTHH:mm:ss" in
  let newStatus := if String.eqb (recurrenceDefaultStatus s) "" then "open"
                   else recurrenceDefaultStatus s in
  <["status" := VAtom (AStr newStatus)]>
    (<["title" := VAtom (AStr (successor_baseName file))]>
       (<["scheduled" := VAtom (AStr newScheduled)]> fm)).

Definition createNextRecurrenceInstance_try (file : TFile)
    (frontmatter : gmap string value) : M bool :=
  match rule_of frontmatter with
  | None => ret false
  | Some recurrenceRule =>
      if negb (truthy recurrenceRule) then ret false
      else
        fun w =>
          let '(nextDate, w1) :=
            getNextOccurrence recurrenceRule (frontmatter !! "scheduled") w in
          match nextDate with
          | None =>
              (lift (logger_warn "[TPS GCM] Could not calculate next recurrence date") ;;;
               clearRecurrenceRule file ;;;
               ret true) w1
          | Some d =>
              let newFilePath := successor_path file d in
              (found <- adapter_exists E newFilePath ;;
               if found : bool then
                 lift (logger_warn
                         "[TPS GCM] Next recurrence already exists, skipping creation:") ;;;
                 clearRecurrenceRule file ;;;
                 ret true
               else
                 content <- vault_read E (path file) ;;
                 vault_create E newFilePath content ;;;
                 fun w2 =>
                   match vault w2 !! newFilePath with
                   | None =>
                       Ret false
                         (logger_error "[TPS GCM] Could not get newly created file" w2)
                   | Some _ =>
                       (processFrontMatter E newFilePath
                          (successor_patch file d (settings w2)) ;;;
                        clearRecurrenceRule file ;;;
                        Notice ("Created next recurrence: " ++ successor_fileName file d) ;;;
                        ret true) w2
                   end) w1
          end
  end.

Definition createNextRecurrenceInstance (file : TFile)
    (frontmatter : gmap string value) (carryStatus : option value) : M bool :=
  lift (emit (EvCreateNext (path file) carryStatus)) ;;;
  try_catch (createNextRecurrenceInstance_try file frontmatter)
    (lift (logger_error "[TPS GCM] Failed to create next recurrence instance:") ;;;
     Notice "Failed to create next recurrence instance" ;;;
     ret false).

(** *** BulkEditService: applying a mutation to a batch *)

(** The loop of [applyToFiles].  [plugin.recurrenceService] is created in
    [onload] before any bulk edit can run, so the optional call to
    [markFileAsModified] always happens; the delayed menu refresh after the
    loop touches nothing of the world modelled here. *)

Fixpoint applyToFiles_from (count : nat) (files : list TFile)
    (callback : gmap string value -> TFile -> gmap string value) : M nat :=
  match files with
  | [] => ret count
  | file :: rest =>
      if negb (is_markdown file) then applyToFiles_from count rest callback
      else
        count' <- try_catch
                    (lift (markFileAsModified (path file)) ;;;
                     processFrontMatter E (path file) (fun fm => callback fm file) ;;;
                     ret (S count))
                    (lift (logger_error ("[TPS GCM] Failed to update " ++ path file ++ ":")) ;;;
                     ret count) ;;
        applyToFiles_from count' rest callback
  end.

Definition applyToFiles (files : list TFile)
    (callback : gmap string value -> TFile -> gmap string value) : M nat :=
  applyToFiles_from O files callback.

End Services.

(** *** The prompt cycle

    [updateFrontmatter] prompts through [promptForFrontmatterChange], whose
    split answer runs [splitInstance], which calls [updateFrontmatter]
    again.  The bodies below take that inner [updateFrontmatter] as an
    argument; the knot is tied on a fuel counter afterwards. *)

Definition rule_nulls : gmap string value :=
  <["recurrenceRule" := VAtom ANull]> (<["recurrence" := VAtom ANull]> ∅).

Section Cycle.

Context (E : Env).
Context (updateFrontmatter_inner : list TFile -> gmap string value -> M nat).

Definition splitInstance_with (file : TFile) : M unit :=
  fun w =>
    match getFileCache file w with
    | None => Ret tt w
    | Some fm =>
        (createNextRecurrenceInstance E file fm None ;;;
         updateFrontmatter_inner [file] rule_nulls ;;;
         Notice "Split recurring event. Next instance created.") w
    end.

Definition promptForFrontmatterChange_with (file : TFile)
    (changeDescription : string) : M Choice :=
  recent <- wasRecentlyModified (path file) ;;
  if recent : bool then ret UpdateAll
  else
    result <- promptUser changeDescription file ;;
    match result with
    | UpdateAll => lift (SessionTracker.markAsModified (path file)) ;;; ret result
    | Split =>
        splitInstance_with file ;;;
        lift (SessionTracker.markAsModified (path file)) ;;;
        ret result
    | Cancel => ret result
    end.

(** The loop at the head of [updateFrontmatter]; [true] when it left
    through [return 0]. *)
Fixpoint updateFrontmatter_prompts (files : list TFile)
    (updates : gmap string value) : M bool :=
  match files with
  | [] => ret false
  | file :: rest =>
      fun w =>
        match getFileCache file w with
        | Some fm =>
            if has_rule fm then
              if status_is_done fm then updateFrontmatter_prompts rest updates w
              else if bool_decide (is_Some (updates !! "status"))
                   then updateFrontmatter_prompts rest updates w
              else
                (result <- promptForFrontmatterChange_with file
                             (change_description updates) ;;
                 match result with
                 | Cancel => ret true
                 | _ => updateFrontmatter_prompts rest updates
                 end) w
            else updateFrontmatter_prompts rest updates w
        | None => updateFrontmatter_prompts rest updates w
        end
  end.

Definition updateFrontmatter_body (files : list TFile)
    (updates : gmap string value) : M nat :=
  fun w =>
    (cancelled <-
       (if (enableRecurrence (settings w) && promptOnRecurrenceEdit (settings w))%bool
        then updateFrontmatter_prompts files updates
        else ret false) ;;
     if cancelled : bool then ret O
     else applyToFiles E files (fun fm _ => apply_updates updates fm)) w.

End Cycle.

Fixpoint updateFrontmatter (E : Env) (fuel : nat) (files : list TFile)
    (updates : gmap string value) : M nat :=
  match fuel with
  | O => fun _ => OutOfFuel
  | S fuel' => updateFrontmatter_body E (updateFrontmatter E fuel') files updates
  end.

Section Entry.

Context (E : Env).

Definition splitInstance (fuel : nat) : TFile -> M unit :=
  splitInstance_with E (updateFrontmatter E fuel).

Definition promptForFrontmatterChange (fuel : nat) : TFile -> string -> M Choice :=
  promptForFrontmatterChange_with E (updateFrontmatter E fuel).

(** *** RecurrenceService: focus and edit listeners *)

Definition promptOnFocus (fuel : nat) (file : TFile) : M unit :=
  result <- promptUser "focus" file ;;
  match result with
  | UpdateAll => lift (SessionTracker.markAsModified (path file))
  | Split => splitInstance fuel file ;;; lift (SessionTracker.markAsModified (path file))
  | Cancel => lift (SessionTracker.markAsModified (path file))
  end.

Definition handleFileFocus (fuel : nat) (file : TFile) : M unit :=
  recent <- wasRecentlyModified (path file) ;;
  if recent : bool then ret tt
  else fun w =>
    match getFileCache file w with
    | None => Ret tt w
    | Some fm =>
        if negb (has_rule fm) then Ret tt w
        else if status_is_done fm then Ret tt w
        else promptOnFocus fuel file w
    end.

Definition promptForContentChange (fuel : nat) (file : TFile) : M unit :=
  result <- promptUser "editing" file ;;
  match result with
  | UpdateAll => lift (SessionTracker.markAsModified (path file))
  | Split => splitInstance fuel file ;;; lift (SessionTracker.markAsModified (path file))
  | Cancel => lift (SessionTracker.markAsModified (path file))
  end.

Definition handleFileModification (fuel : nat) (file : TFile) : M unit :=
  recent <- wasRecentlyModified (path file) ;;
  if recent : bool then ret tt
  else fun w =>
    match getFileCache file w with
    | None => Ret tt w
    | Some fm =>
        if negb (has_rule fm) then Ret tt w
        else if status_is_done fm then Ret tt w
        else promptForContentChange fuel file w
    end.

(** *** BulkEditService: tags *)

(** The loop at the head of [addTag] and [removeTag]: it prompts for the
    first eligible file only; [true] when it left through [return 0]. *)
Fixpoint tag_prompts (fuel : nat) (files : list TFile) (desc : string) : M bool :=
  match files with
  | [] => ret false
  | file :: rest =>
      fun w =>
        match getFileCache file w with
        | Some fm =>
            if (has_rule fm && negb (status_is_done fm))%bool then
              (result <- promptForFrontmatterChange fuel file desc ;;
               match result with
               | Cancel => ret true
               | _ => ret false
               end) w
            else tag_prompts fuel rest desc w
        | None => tag_prompts fuel rest desc w
        end
  end.

Definition addTag (fuel : nat) (files : list TFile) (tag key : string) : M nat :=
  fun w =>
    (cancelled <-
       (if (enableRecurrence (settings w) && promptOnRecurrenceEdit (settings w))%bool
        then tag_prompts fuel files ("adding tag " ++ dquote ++ tag ++ dquote ++ " to")
        else ret false) ;;
     if cancelled : bool then ret O
     else applyToFiles E files (fun fm _ => add_tag_cb tag key fm)) w.

Definition removeTag (fuel : nat) (files : list TFile) (tag key : string) : M nat :=
  fun w =>
    (cancelled <-
       (if (enableRecurrence (settings w) && promptOnRecurrenceEdit (settings w))%bool
        then tag_prompts fuel files ("removing tag " ++ dquote ++ tag ++ dquote ++ " from")
        else ret false) ;;
     if cancelled : bool then ret O
     else applyToFiles E files (fun fm _ => remove_tag_cb tag key fm)) w.

(** *** BulkEditService: status *)

Definition scanChecklistItems (file : TFile) : M (list string) :=
  content <- vault_read E (path file) ;;
  ret (incomplete_items (content_text content)).

(** [mark] is the character written into the boxes: x for 'complete',
    a question mark for 'progress'. *)
Definition updateChecklistItems (file : TFile) (mark : ascii) : M unit :=
  content <- vault_read E (path file) ;;
  vault_modify E (path file)
    (content_of_text E (mark_checklist mark (content_text content))).

(** [ChecklistPromptModal]: resolves with the user's next action, or never. *)
Definition checklistPrompt (file : TFile) (items : list string) : M ChecklistAction :=
  fun w =>
    let w1 := emit (EvChecklistPrompt (path file) items) w in
    match checklistAnswers w1 with
    | [] => Pending w1
    | a :: rest => Ret a (set_checklistAnswers rest w1)
    end.

(** The checklist block of [setStatus]; [true] when it left through
    [return 0]. *)
Definition checklist_gate (files : list TFile) (status : string) : M bool :=
  fun w =>
    match files with
    | [file] =>
        if (checkOpenChecklistItems (settings w) && String.eqb status "complete")%bool then
          (incompleteItems <- scanChecklistItems file ;;
           match incompleteItems with
           | [] => ret false
           | _ :: _ =>
               userAction <- checklistPrompt file incompleteItems ;;
               match userAction with
               | ActCancel => ret true
               | ActOpen => lift (emit (EvOpenFile (path file))) ;;; ret true
               | ActComplete => updateChecklistItems file "x"%char ;;; ret false
               | ActProgress => updateChecklistItems file "?"%char ;;; ret false
               | ActIgnore => ret false
               end
           end) w
        else Ret false w
    | _ => Ret false w
    end.

(** The recurrence loop of [setStatus]. *)
Fixpoint complete_recurrences (files : list TFile) : M unit :=
  match files with
  | [] => ret tt
  | file :: rest =>
      fun w =>
        match getFileCache file w with
        | Some fm =>
            if has_rule fm then
              let previousStatus := js_or (fm !! "status") (Some (VAtom ANull)) in
              (handled <- createNextRecurrenceInstance E file fm previousStatus ;;
               (if handled : bool then ret tt else clearRecurrenceRule E file) ;;;
               complete_recurrences rest) w
            else complete_recurrences rest w
        | None => complete_recurrences rest w
        end
  end.

Definition setStatus (fuel : nat) (files : list TFile) (status : string) : M nat :=
  fun w =>
    (aborted <- checklist_gate files status ;;
     if aborted : bool then ret O
     else
       (if (enableRecurrence (settings w)
            && includes_string status (recurrenceStatuses (settings w)))%bool
        then complete_recurrences files else ret tt) ;;;
       updateFrontmatter E fuel files (<["status" := VAtom (AStr status)]> ∅)) w.

End Entry.

(** *** BulkEditService: the direct setters and the startup scan *)

(** A JavaScript [number] argument: an integer or [NaN]. *)
Inductive JSNumber : Type :=
| JSNum (n : Z)
| JSNaN.

(** Truthiness of a [string | null] argument. *)
Definition str_truthy (s : option string) : bool :=
  match s with
  | Some x => negb (String.eqb x "")
  | None => false
  end.

(** The callback of [setRecurrence]. *)
Definition set_recurrence_cb (rule : option string) (fm : gmap string value)
    : gmap string value :=
  match rule with
  | Some r =>
      if negb (String.eqb r "")
      then delete "recurrence" (<["recurrenceRule" := VAtom (AStr r)]> fm)
      else delete "recurrence" (delete "recurrenceRule" fm)
  | None => delete "recurrence" (delete "recurrenceRule" fm)
  end.

(** The callback of [setScheduled]. *)
Definition set_scheduled_cb (date : option string) (fm : gmap string value)
    : gmap string value :=
  match date with
  | Some d => if negb (String.eqb d "") then <["scheduled" := VAtom (AStr d)]> fm
              else delete "scheduled" fm
  | None => delete "scheduled" fm
  end.

(** The callback of [updateScheduledDetails]: three assignments in a row. *)
Definition update_scheduled_cb (scheduled : option string) (timeEstimate : option JSNumber)
    (allDay : bool) (key : string) (fm : gmap string value) : gmap string value :=
  let fm1 :=
    match scheduled with
    | Some s => if negb (String.eqb s "") then <[key := VAtom (AStr s)]> fm
                else delete key fm
    | None => delete key fm
    end in
  let fm2 :=
    match timeEstimate with
    | Some (JSNum n) => <["timeEstimate" := VAtom (ANum n)]> fm1
    | Some JSNaN | None => delete "timeEstimate" fm1
    end in
  if allDay then <["allDay" := VAtom (ABool true)]> fm2 else delete "allDay" fm2.

(** [recurrenceStatuses.includes(fm.status)]: the statuses are strings, so
    only a string status can be a member. *)
Definition status_in (statuses : list string) (fm : gmap string value) : bool :=
  match fm !! "status" with
  | Some (VAtom (AStr s)) => includes_string s statuses
  | _ => false
  end.

(** What [setRecurrence] hands to [setTimeout] for one file: the file and
    the terminal statuses as computed when the timer was set. *)
Record Timer : Type := mkTimer {
  timer_file : TFile;
  timer_statuses : list string
}.

Section Setters.

Context (E : Env).

Definition setPriority (fuel : nat) (files : list TFile) (priority : string) : M nat :=
  updateFrontmatter E fuel files (<["priority" := VAtom (AStr priority)]> ∅).

(** [setRecurrence] resolves with the count; the timers it has set by then
    are returned beside it. *)
Definition setRecurrence (files : list TFile) (rule : option string)
    : M (nat * list Timer) :=
  count <- applyToFiles E files (fun fm _ => set_recurrence_cb rule fm) ;;
  fun w =>
    if (str_truthy rule && enableRecurrence (settings w))%bool
    then Ret (count,
              List.map (fun file => mkTimer file (recurrenceStatuses (settings w))) files) w
    else Ret (count, []) w.

(** The body of one timer of [setRecurrence], which the host runs 200 ms
    after the call. *)
Definition setRecurrence_timer (t : Timer) : M unit :=
  fun w =>
    match getFileCache (timer_file t) w with
    | Some fm =>
        if status_in (timer_statuses t) fm
        then (createNextRecurrenceInstance E (timer_file t) fm None ;;; ret tt) w
        else Ret tt w
    | None => Ret tt w
    end.

Definition setScheduled (files : list TFile) (date : option string) : M nat :=
  applyToFiles E files (fun fm _ => set_scheduled_cb date fm).

Definition updateScheduledDetails (files : list TFile) (scheduled : option string)
    (timeEstimate : option JSNumber) (allDay : bool) (key : string) : M nat :=
  applyToFiles E files (fun fm _ => update_scheduled_cb scheduled timeEstimate allDay key fm).

(** [showNotice]; the [action] argument is not used. *)
Definition showNotice (action detail suffix : string) (count : nat) : M unit :=
  Notice (detail ++ " " ++ suffix ++ " on " ++ pretty count ++ " file"
          ++ (if Nat.eqb count 1 then "" else "s")).

(** The loop of [checkMissingRecurrences] over the files that
    [vault.getMarkdownFiles()] returned. *)
Fixpoint heal_recurrences (statuses : list string) (files : list TFile)
    (createdCount : nat) : M nat :=
  match files with
  | [] => ret createdCount
  | file :: rest =>
      fun w =>
        match getFileCache file w with
        | None => heal_recurrences statuses rest createdCount w
        | Some fm =>
            if (has_rule fm && status_in statuses fm)%bool then
              (handled <- createNextRecurrenceInstance E file fm None ;;
               heal_recurrences statuses rest
                 (if handled : bool then S createdCount else createdCount)) w
            else heal_recurrences statuses rest createdCount w
        end
  end.

Definition checkMissingRecurrences (markdownFiles : list TFile) : M unit :=
  fun w =>
    if negb (enableRecurrence (settings w)) then Ret tt w
    else
      (createdCount <- heal_recurrences (recurrenceStatuses (settings w)) markdownFiles O ;;
       if Nat.ltb 0 createdCount
       then lift (logger_log ("[TPS GCM] Healed " ++ pretty createdCount
                              ++ " recurring event chains."))
       else ret tt) w.

(** *** RecurrenceService: construction, listeners, cleanup *)

(** [new SessionTracker(settings.recurrencePromptTimeout)], as the
    constructor of the service installs it. *)
Definition RecurrenceService_new (w : World) : World :=
  set_modifiedFiles ∅
    (set_sessionDuration (recurrencePromptTimeout (settings w) * 60 * 1000) w).

Definition cleanup (w : World) : World := SessionTracker.clear w.

(** [setup] calls [cleanup] and registers the two listeners below. *)
Definition setup (w : World) : World := cleanup w.

(** The listener for active-leaf-change; [active] is what
    [workspace.getActiveFile()] returns. *)
Definition on_active_leaf_change (fuel : nat) (active : option TFile) : M unit :=
  match active with
  | Some file =>
      if String.eqb (extension file) "md" then handleFileFocus E fuel file else ret tt
  | None => ret tt
  end.

(** The listener for the vault's modify event; a folder is no [TFile]. *)
Definition on_modify (fuel : nat) (file : TFile + string) : M unit :=
  match file with
  | inl f =>
      if String.eqb (extension f) "md" then handleFileModification E fuel f else ret tt
  | inr _ => ret tt
  end.

End Setters.

(** *** The statuses field of the settings tab *)

(** [value.split(',')] *)
Fixpoint split_commas (cur : list Char) (l : list Char) : list (list Char) :=
  match l with
  | [] => [rev cur]
  | c :: r => if bool_decide (c = utf8 [44%nat]) then rev cur :: split_commas [] r
              else split_commas (c :: cur) r
  end.

(** The change handler of the field: split at the commas, trim, drop the
    empty pieces. *)
Definition parse_statuses (value : string) : list string :=
  List.map text
    (List.filter (fun piece => negb (Nat.eqb (List.length piece) 0))
       (List.map trim (split_commas [] (chars value)))).

(** What the field shows: the statuses joined by a comma and a blank. *)
Fixpoint show_statuses (l : list string) : string :=
  match l with
  | [] => ""
  | [x] => x
  | x :: rest => x ++ ", " ++ show_statuses rest
  end.

(** ** A sample environment

    A small concrete host used to run the operations: UTC calendar dates,
    an evaluator for the rules [FREQ=DAILY] and [FREQ=WEEKLY], storage
    that fails exactly on the listed calls, and frontmatter blocks of the
    plainest kind: a line of three dashes, one line [key: value] for every
    field (an array as [key: [a, b]], a text of several lines as a literal
    block after [key: |], indented by two blanks), a line of three
    dashes. *)

Module Sample.

Definition day_ms : Z := 86400000.

(** Days since 1970-01-01 of a civil date, and back (proleptic Gregorian). *)
Definition days_from_civil (y m d : Z) : Z :=
  let y' := if m <=? 2 then y - 1 else y in
  let era := y' / 400 in
  let yoe := y' - era * 400 in
  let doy := (153 * (if 2 <? m then m - 3 else m + 9) + 2) / 5 + d - 1 in
  let doe := yoe * 365 + yoe / 4 - yoe / 100 + doy in
  era * 146097 + doe - 719468.

Definition civil_from_days (z : Z) : Z * Z * Z :=
  let z' := z + 719468 in
  let era := z' / 146097 in
  let doe := z' - era * 146097 in
  let yoe := (doe - doe / 1460 + doe / 36524 - doe / 146096) / 365 in
  let doy := doe - (365 * yoe + yoe / 4 - yoe / 100) in
  let mp := (5 * doy + 2) / 153 in
  let d := doy - (153 * mp + 2) / 5 + 1 in
  let m := if mp <? 10 then mp + 3 else mp - 9 in
  ((if m <=? 2 then yoe + era * 400 + 1 else yoe + era * 400), m, d).

Definition digit (n : Z) : string :=
  String (ascii_of_nat (48 + Z.to_nat (n mod 10))) EmptyString.

Definition pad2 (n : Z) : string := digit (n / 10) ++ digit n.
Definition pad4 (n : Z) : string := pad2 (n / 100) ++ pad2 n.

Definition format (t : Z) (fmt : string) : string :=
  let '(y, m, d) := civil_from_days (t / day_ms) in
  let date := pad4 y ++ "-" ++ pad2 m ++ "-" ++ pad2 d in
  if String.eqb fmt "YYYY-MM-DD" then date
  else
    let s := (t mod day_ms) / 1000 in
    date ++ "T" ++ pad2 (s / 3600) ++ ":" ++ pad2 ((s / 60) mod 60) ++ ":" ++ pad2 (s mod 60).

Definition digit_val (c : ascii) : Z := Z.of_nat (nat_of_ascii c) - 48.

(** [new Date(v)] for a number and for a string of the shape YYYY-MM-DD. *)
Definition parse_date (v : value) : JSDate :=
  match v with
  | VAtom (ANum n) => Some n
  | VAtom (AStr s) =>
      match list_ascii_of_string s with
      | [y1; y2; y3; y4; d1; m1; m2; d2; a1; a2] =>
          if (is_digit y1 && is_digit y2 && is_digit y3 && is_digit y4
              && Ascii.eqb d1 "-" && is_digit m1 && is_digit m2
              && Ascii.eqb d2 "-" && is_digit a1 && is_digit a2)%bool
          then Some (day_ms * days_from_civil
                       (1000 * digit_val y1 + 100 * digit_val y2
                        + 10 * digit_val y3 + digit_val y4)
                       (10 * digit_val m1 + digit_val m2)
                       (10 * digit_val a1 + digit_val a2))
          else None
      | _ => None
      end
  | _ => None
  end.

Record Options : Type := mkOptions { period : Z; dtstart : JSDate }.

Definition parseString (v : value) : option Options :=
  match v with
  | VAtom (AStr s) =>
      if (String.eqb s "FREQ=DAILY" || String.eqb s "RRULE:FREQ=DAILY")%bool
      then Some (mkOptions day_ms None)
      else if (String.eqb s "FREQ=WEEKLY" || String.eqb s "RRULE:FREQ=WEEKLY")%bool
      then Some (mkOptions (7 * day_ms) None)
      else None
  | _ => None
  end.

(** The first member of [start, start + period, ...] after [dt]. *)
Definition after (o : Options) (dt : JSDate) (inc : bool) : option (option Z) :=
  match dtstart o, dt with
  | Some start, Some d =>
      if period o <=? 0 then None
    else if d <? start then Some (Some start)
      else
        let k := (d - start) / period o in
        if (inc && (start + k * period o =? d))%bool then Some (Some d)
        else Some (Some (start + (k + 1) * period o))
  | _, _ => None
  end.

Definition newline : string := String (ascii_of_nat 10) EmptyString.

Definition show_atom (a : atom) : string :=
  match a with
  | AStr s => s
  | ANum n => pretty n
  | ABool true => "true"
  | ABool false => "false"
  | ANull => "null"
  end.

Fixpoint join (sep : string) (l : list string) : string :=
  match l with
  | [] => ""
  | [x] => x
  | x :: rest => x ++ sep ++ join sep rest
  end.

Definition show_value (v : value) : string :=
  match v with
  | VAtom a => show_atom a
  | VList l => "[" ++ join ", " (List.map show_atom l) ++ "]"
  end.

(** [l] cut at every occurrence of [sep], which is not empty; the first
    [skip] characters belong to an occurrence found before. *)
Fixpoint split_from (sep : string) (skip : nat) (cur : string) (l : string) : list string :=
  match l with
  | EmptyString => [cur]
  | String c r =>
      match skip with
      | S k => split_from sep k cur r
      | O =>
          if starts_with sep l
          then cur :: split_from sep (String.length sep - 1) "" r
          else split_from sep O (cur ++ String c EmptyString) r
      end
  end.

Definition split_at (sep : string) (l : string) : list string := split_from sep O "" l.

Definition show_field (kv : string * value) : string :=
  match snd kv with
  | VAtom (AStr s) =>
      if includes_str newline s
      then fst kv ++ ": |" ++ newline
           ++ join "" (List.map (fun l => "  " ++ l ++ newline)
                         (removelast (split_at newline s)))
      else fst kv ++ ": " ++ s ++ newline
  | v => fst kv ++ ": " ++ show_value v ++ newline
  end.

(** The block written for a frontmatter; no block for no field. *)
Definition write_block (old : string) (fm : gmap string value) : string :=
  match map_to_list fm with
  | [] => ""
  | kvs => "---" ++ newline ++ join "" (List.map show_field kvs) ++ "---" ++ newline
  end.

(** The length of the block a text starts with: from a first line of
    three dashes to the next such line, 0 when there is none. *)
Fixpoint fence_end (at_start : bool) (l : string) : option nat :=
  match l with
  | EmptyString => None
  | String c r =>
      if (at_start && starts_with ("---" ++ newline) l)%bool then Some 4%nat
      else S <$> fence_end (Ascii.eqb c (ascii_of_nat 10)) r
  end.

Definition block_end (t : string) : nat :=
  if starts_with ("---" ++ newline) t
  then match fence_end true (text_drop 4 t) with
       | Some k => (4 + k)%nat
       | None => 0%nat
       end
  else 0%nat.

Definition read_atom (s : string) : atom :=
  if String.eqb s "null" then ANull
  else if String.eqb s "true" then ABool true
  else if String.eqb s "false" then ABool false
  else AStr s.

Definition read_value (s : string) : value :=
  match s with
  | String "[" r =>
      match split_at "]" r with
      | [inner; ""] => VList (List.map read_atom (split_at ", " inner))
      | _ => VAtom (read_atom s)
      end
  | _ => VAtom (read_atom s)
  end.

(** The fields of the lines of a block; [literal] is the field whose
    literal text is being read, with the lines read so far. *)
Fixpoint read_fields (literal : option (string * string)) (lines : list string)
    : list (string * value) :=
  match lines with
  | [] => match literal with
          | Some (key, acc) => [(key, VAtom (AStr acc))]
          | None => []
          end
  | line :: rest =>
      match literal with
      | Some (key, acc) =>
          if starts_with "  " line
          then read_fields (Some (key, acc ++ text_drop 2 line ++ newline)) rest
          else (key, VAtom (AStr acc))
               :: match split_at ": " line with
                  | k :: v :: more =>
                      if String.eqb (join ": " (v :: more)) "|"
                      then read_fields (Some (k, "")) rest
                      else (k, read_value (join ": " (v :: more))) :: read_fields None rest
                  | _ => read_fields None rest
                  end
      | None =>
          match split_at ": " line with
          | k :: v :: more =>
              if String.eqb (join ": " (v :: more)) "|"
              then read_fields (Some (k, "")) rest
              else (k, read_value (join ": " (v :: more))) :: read_fields None rest
          | _ => read_fields None rest
          end
      end
  end.

(** The fields of the block a text starts with. *)
Definition read_block (t : string) : gmap string value :=
  list_to_map (read_fields None (split_at newline (text_take (block_end t) t))).

Definition env (fails : list (HostOp * string)) (eager : bool) : Env :=
  {| RuleOptions := Options;
     RRule_parseString := parseString;
     set_dtstart := fun o d => mkOptions (period o) d;
     RRule_after := after;
     new_Date := parse_date;
     moment_format := format;
     io_fails := fun op p =>
       existsb (fun x => (match fst x, op with
                          | OpPatch, OpPatch | OpRead, OpRead | OpCreate, OpCreate
                          | OpModify, OpModify | OpExists, OpExists => true
                          | _, _ => false
                          end && String.eqb (snd x) p)%bool) fails;
     eager_index := eager;
     contentStart := block_end;
     parseFrontMatter := read_block;
     writeFrontMatter := write_block |}.

(** A world holding the given notes, indexed, their blocks as this host
    writes them, with the tracker empty and the clock at [now]. *)
Definition world (s : Settings) (notes : list (string * Note)) (now : Z)
    (choices : list Choice) (actions : list ChecklistAction) : World :=
  {| settings := s;
     vault := list_to_map notes;
     metadataCache := list_to_map (List.map (fun x => (fst x, frontmatter (snd x))) notes);
     modifiedFiles := ∅;
     sessionDuration := recurrencePromptTimeout s * 60 * 1000;
     clock := now;
     loggingEnabled := enableLogging s;
     console := [];
     trace := [];
     answers := choices;
     checklistAnswers := actions;
     frontmatterBlock :=
       list_to_map (List.map (fun x => (fst x, write_block "" (frontmatter (snd x)))) notes) |}.

Definition water_plants : TFile :=
  {| path := "Tasks/Water plants.md"; basename := "Water plants";
     extension := "md"; parent := Some "Tasks" |}.

Definition water_plants_fm : gmap string value :=
  list_to_map [("recurrenceRule", VAtom (AStr "RRULE:FREQ=WEEKLY"));
               ("scheduled", VAtom (AStr "2024-01-01"));
               ("status", VAtom (AStr "open"));
               ("tags", VList [AStr "garden"])].

Definition water_plants_note : Note :=
  {| frontmatter := water_plants_fm; body := "Water the ferns." |}.

(** 2024-03-01T00:00:00Z *)
Definition now0 : Z := 1709251200000.

Definition logging_settings : Settings :=
  {| enableLogging := true;
     enableRecurrence := true;
     promptOnRecurrenceEdit := true;
     recurrencePromptTimeout := 5;
     recurrenceCompletionStatuses := ["complete"; "wont-do"];
     recurrenceDefaultStatus := "open";
     checkOpenChecklistItems := true |}.

(** A host that accepts every call and indexes lazily. *)
Definition calm : Env := env [] false.

(** A host that indexes before a write returns. *)
Definition eager : Env := env [] true.

(** A host that refuses to create next week's successor file. *)
Definition read_only : Env := env [(OpCreate, "Tasks/Water plants 2024-01-08.md")] false.

(** A host that rejects every patch of Tasks/Broken.md. *)
Definition flaky : Env := env [(OpPatch, "Tasks/Broken.md")] false.

Definition broken : TFile :=
  {| path := "Tasks/Broken.md"; basename := "Broken"; extension := "md";
     parent := Some "Tasks" |}.

Definition picture : TFile :=
  {| path := "Tasks/fern.png"; basename := "fern"; extension := "png";
     parent := Some "Tasks" |}.

(** The vault with the one recurring note, open. *)
Definition garden (s : Settings) (choices : list Choice) : World :=
  world s [(path water_plants, water_plants_note)] now0 choices [].

(** The recurring note with a rule the evaluator cannot parse. *)
Definition garbage_fm : gmap string value :=
  <["recurrenceRule" := VAtom (AStr "garbage")]> water_plants_fm.

Definition garbage_garden : World :=
  world logging_settings [(path water_plants, mkNote garbage_fm "Water the ferns.")]
    now0 [] [].

(** 2024-01-08T00:00:00Z, a week after the note's scheduled date. *)
Definition next_week : Z := 1704672000000.

(** A completed recurring note with an open checklist item, and the user
    about to answer the checklist dialog with "Open Note". *)
Definition chore_note : Note :=
  {| frontmatter := <["status" := VAtom (AStr "complete")]> water_plants_fm;
     body := "- [ ] buy soil" |}.

Definition chore_world : World :=
  world DEFAULT_SETTINGS [(path water_plants, chore_note)] now0 [] [ActOpen].

(** The garden before the host has indexed the note. *)
Definition unindexed_garden : World :=
  set_metadataCache ∅ (garden DEFAULT_SETTINGS []).

(** The garden with the user about to answer split, then update-all. *)
Definition split_world : World := garden DEFAULT_SETTINGS [Split; UpdateAll].

(** The garden with the user about to answer cancel. *)
Definition cancel_world : World := garden DEFAULT_SETTINGS [Cancel].

Definition raise_priority : gmap string value := <["priority" := VAtom (AStr "high")]> ∅.

(** A vault in which next week's file name is already taken by an
    unrelated note, and the user about to answer split, then cancel. *)
Definition other_note : Note :=
  {| frontmatter := <["title" := VAtom (AStr "Shopping list")]> ∅;
     body := "soil, seeds" |}.

Definition crowded_world : World :=
  world DEFAULT_SETTINGS
    [(path water_plants, water_plants_note);
     ("Tasks/Water plants 2024-01-08.md", other_note)]
    now0 [Split; Cancel] [].

(** Settings whose only terminal status is "done". *)
Definition done_settings : Settings :=
  {| enableLogging := false;
     enableRecurrence := true;
     promptOnRecurrenceEdit := true;
     recurrencePromptTimeout := 5;
     recurrenceCompletionStatuses := ["done"];
     recurrenceDefaultStatus := "open";
     checkOpenChecklistItems := true |}.

Definition with_status (st : string) : Note :=
  {| frontmatter := <["status" := VAtom (AStr st)]> water_plants_fm;
     body := "Water the ferns." |}.

(** The vault with the one recurring note in the given status. *)
Definition garden_in (st : string) (s : Settings) (choices : list Choice) : World :=
  world s [(path water_plants, with_status st)] now0 choices [].

End Sample.

(** ** More sample data *)

Module Cases.

Definition nl : string := String (ascii_of_nat 10) EmptyString.

(** A shopping note: two open items (one nested), a checked item, a bare
    open box and a line of prose. *)
Definition errands_body : string :=
  "Errands" ++ nl ++ "- [ ] buy soil" ++ nl ++ "  - [ ] two bags  " ++ nl
  ++ "- [x] seeds" ++ nl ++ "- [ ]" ++ nl ++ "see [ ] above".

Definition errands : TFile :=
  {| path := "Errands.md"; basename := "Errands"; extension := "md"; parent := None |}.

Definition errands_note : Note :=
  {| frontmatter := <["status" := VAtom (AStr "open")]> ∅; body := errands_body |}.

(** U+00A0, the no-break space. *)
Definition nbsp : string := String (ascii_of_nat 194) (String (ascii_of_nat 160) EmptyString).

(** A note written by hand: an open box inside a literal text of the
    frontmatter block, an item indented with a no-break space, and an item
    with a no-break space between the dash and the box. *)
Definition musings : TFile :=
  {| path := "Musings.md"; basename := "Musings"; extension := "md"; parent := None |}.

Definition musings_block : string :=
  "---" ++ nl ++ "notes: |" ++ nl ++ "  - [ ] call plumber" ++ nl ++ "---" ++ nl.

Definition musings_note : Note :=
  {| frontmatter := <["notes" := VAtom (AStr ("- [ ] call plumber" ++ nl))]> ∅;
     body := nbsp ++ "- [ ] buy milk" ++ nl ++ "-" ++ nbsp ++ "[ ] feed cat" |}.

Definition musings_text : string := musings_block ++ body musings_note.

(** A vault with that note, and the user about to answer the checklist
    dialog with the given actions. *)
Definition musings_world (actions : list ChecklistAction) : World :=
  put_block (path musings) musings_block
    (Sample.world DEFAULT_SETTINGS [(path musings, musings_note)] Sample.now0 [] actions).

(** The default settings with the edit prompt switched off. *)
Definition quiet_settings : Settings :=
  {| enableLogging := false;
     enableRecurrence := true;
     promptOnRecurrenceEdit := false;
     recurrencePromptTimeout := 5;
     recurrenceCompletionStatuses := ["complete"; "wont-do"];
     recurrenceDefaultStatus := "open";
     checkOpenChecklistItems := true |}.

(** An open recurring note beside a completed one. *)
Definition feed_cat : TFile :=
  {| path := "Tasks/Feed cat.md"; basename := "Feed cat"; extension := "md";
     parent := Some "Tasks" |}.

Definition feed_cat_note : Note :=
  {| frontmatter := list_to_map [("recurrenceRule", VAtom (AStr "FREQ=DAILY"));
                                 ("scheduled", VAtom (AStr "2024-01-01"));
                                 ("status", VAtom (AStr "open"))];
     body := "Half a tin." |}.

(** The vault as the plugin finds it at startup: the recurring note was
    completed while the plugin was off. *)
Definition startup_world : World :=
  Sample.world DEFAULT_SETTINGS
    [(path errands, errands_note);
     (path Sample.water_plants, Sample.with_status "complete");
     (path feed_cat, feed_cat_note)]
    Sample.now0 [] [].

(** A vault with two open recurring notes and a plain one, and the user's
    coming answers to the recurrence dialog. *)
Definition busy_world (choices : list Choice) : World :=
  Sample.world DEFAULT_SETTINGS
    [(path errands, errands_note);
     (path Sample.water_plants, Sample.water_plants_note);
     (path feed_cat, feed_cat_note)]
    Sample.now0 choices [].

(** A completed note that does not recur (yet). *)
Definition taxes : TFile :=
  {| path := "Tasks/Taxes.md"; basename := "Taxes"; extension := "md";
     parent := Some "Tasks" |}.

Definition taxes_note : Note :=
  {| frontmatter := list_to_map [("scheduled", VAtom (AStr "2024-01-01"));
                                 ("status", VAtom (AStr "complete"))];
     body := "File the return." |}.

Definition taxes_world : World :=
  Sample.world DEFAULT_SETTINGS [(path taxes, taxes_note)] Sample.now0 [] [].

(** The default settings with a timeout of one minute. *)
Definition one_minute : Settings :=
  {| enableLogging := false;
     enableRecurrence := true;
     promptOnRecurrenceEdit := true;
     recurrencePromptTimeout := 1;
     recurrenceCompletionStatuses := ["complete"; "wont-do"];
     recurrenceDefaultStatus := "open";
     checkOpenChecklistItems := true |}.

End Cases.

(** ** Vocabulary of the specifications *)

(** [m] run from [w] resolves with [Q] or rejects with [Qt]; it neither
    waits on a dialog nor runs out of fuel. *)
Definition wp {A} (m : M A) (w : World) (Q : A -> World -> Prop)
    (Qt : World -> Prop) : Prop :=
  match m w with
  | Ret a w' => Q a w'
  | Throw w' => Qt w'
  | Pending _ => False
  | OutOfFuel => False
  end.

(** [P] holds wherever [m] stops when started from a world with [P]. *)
Definition preserves {A} (P : World -> Prop) (m : M A) : Prop :=
  forall w, P w ->
    match m w with
    | Ret _ w' | Throw w' | Pending w' => P w'
    | OutOfFuel => True
    end.

(** What successor creation for the note at [pN] may have done between
    [w0] and [w]: every other note that existed is as it was, in the vault
    and in the cache; the note itself kept its body and either kept its
    frontmatter or lost exactly the rule fields, and was not created if it
    did not exist; the tracker, clock, settings and pending answers are as
    they were; the trace only grew. *)
Definition Evo (pN : string) (w0 w : World) : Prop :=
  settings w = settings w0
  /\ modifiedFiles w = modifiedFiles w0
  /\ sessionDuration w = sessionDuration w0
  /\ clock w = clock w0
  /\ answers w = answers w0
  /\ checklistAnswers w = checklistAnswers w0
  /\ loggingEnabled w = loggingEnabled w0
  /\ (forall p n, p <> pN -> vault w0 !! p = Some n ->
        vault w !! p = Some n /\ metadataCache w !! p = metadataCache w0 !! p)
  /\ (forall n, vault w0 !! pN = Some n ->
        exists fm', vault w !! pN = Some (mkNote fm' (body n))
                    /\ (fm' = frontmatter n \/ fm' = strip_rule (frontmatter n)))
  /\ (vault w0 !! pN = None -> vault w !! pN = None)
  /\ (exists evs, trace w = (evs ++ trace w0)%list).

(** Between [w] and [w'] every note that existed kept its body and either
    kept its frontmatter or lost exactly the rule fields. *)
Definition only_stripped (w w' : World) : Prop :=
  forall p n, vault w !! p = Some n ->
    exists fm', vault w' !! p = Some (mkNote fm' (body n))
                /\ (fm' = frontmatter n \/ fm' = strip_rule (frontmatter n)).

(** An invariant that reads the vault, the cache and the settings only. *)
Definition storage_only (P : World -> Prop) : Prop :=
  forall w w', vault w' = vault w -> metadataCache w' = metadataCache w ->
               settings w' = settings w -> P w -> P w'.

(** The note of [f] exists and carries no rule. *)
Definition clean (w : World) (f : TFile) : Prop :=
  exists n, vault w !! path f = Some n /\ has_rule (frontmatter n) = false.

(** The note of [f] exists, and if it carries a rule the metadata cache
    shows a rule for it too. *)
Definition seen (w : World) (f : TFile) : Prop :=
  exists n, vault w !! path f = Some n
    /\ (has_rule (frontmatter n) = false
        \/ exists fm, metadataCache w !! path f = Some fm /\ has_rule fm = true).

(** [updateFrontmatter] would ask about [f]: the cache shows a rule, the
    status is neither complete nor wont-do, and no status is being set. *)
Definition update_candidate (updates : gmap string value) (f : TFile) (w : World) : bool :=
  match metadataCache w !! path f with
  | Some fm => (has_rule fm && negb (status_is_done fm)
                && negb (bool_decide (is_Some (updates !! "status"))))%bool
  | None => false
  end.

(** [addTag] and [removeTag] would ask about [f]. *)
Definition tag_candidate (f : TFile) (w : World) : bool :=
  match metadataCache w !! path f with
  | Some fm => (has_rule fm && negb (status_is_done fm))%bool
  | None => false
  end.

(** The computation came to rest (it resolved, or it waits on a dialog)
    with at most [k] answers still pending. *)
Definition settled {A} (k : nat) (o : Outcome A) : Prop :=
  match o with
  | Ret _ w' | Pending w' => (List.length (answers w') <= k)%nat
  | Throw _ => False
  | OutOfFuel => False
  end.

(** Started with at most [k] pending answers, [m] comes to rest and
    consumes answers only. *)
Definition bounded {A} (k : nat) (m : M A) : Prop :=
  forall w, (List.length (answers w) <= k)%nat -> settled (List.length (answers w)) (m w).

(** The same when started with fewer than [k] pending answers. *)
Definition sbounded {A} (k : nat) (m : M A) : Prop :=
  forall w, (List.length (answers w) < k)%nat -> settled (List.length (answers w)) (m w).

(** [note'] is the successor spawned from the source note [n] of [N] for the
    date [d]: the same body, the three patched fields, every other field
    as in [n]. *)
Definition successor_of (E : Env) (N : TFile) (d : Z) (s : Settings)
    (n note' : Note) : Prop :=
  body note' = body n
  /\ frontmatter note' !! "scheduled"
     = Some (VAtom (AStr (moment_format E d "YYYY-MM-DDTHH:mm:ss")))
  /\ frontmatter note' !! "title" = Some (VAtom (AStr (strip_date_suffix (basename N))))
  /\ frontmatter note' !! "status"
     = Some (VAtom (AStr (if String.eqb (recurrenceDefaultStatus s) "" then "open"
                          else recurrenceDefaultStatus s)))
  /\ forall k, k <> "scheduled" -> k <> "title" -> k <> "status" ->
       frontmatter note' !! k = frontmatter n !! k.

(** [src'] is the source note [n] made standalone: the same body, no rule
    field, every other field as in [n]. *)
Definition standalone_of (n src' : Note) : Prop :=
  body src' = body n
  /\ frontmatter src' !! "recurrenceRule" = None
  /\ frontmatter src' !! "recurrence" = None
  /\ forall k, k <> "recurrenceRule" -> k <> "recurrence" ->
       frontmatter src' !! k = frontmatter n !! k.

(** The vault [v'] is [v] after a split of [N] for the date [d]. *)
Definition split_done (E : Env) (N : TFile) (d : Z) (s : Settings) (n : Note)
    (v v' : gmap string Note) : Prop :=
  (exists note', v' !! successor_path E N d = Some note' /\ successor_of E N d s n note')
  /\ (exists src', v' !! path N = Some src' /\ standalone_of n src')
  /\ forall p, p <> successor_path E N d -> p <> path N -> v' !! p = v !! p.

(** *** Vocabulary for the further properties *)

(** The patch of [applyToFiles] for [f] goes through: [f] is a markdown
    file, the host does not reject the patch, and the file is there. *)
Definition patch_accepted (E : Env) (w : World) (f : TFile) : bool :=
  (is_markdown f && negb (io_fails E OpPatch (path f))
   && bool_decide (is_Some (vault w !! path f)))%bool.

(** [f] is a markdown file whose patch does not go through. *)
Definition patch_refused (E : Env) (w : World) (f : TFile) : bool :=
  (is_markdown f && negb (patch_accepted E w f))%bool.

(** What [applyToFiles] logs for a file it could not patch. *)
Definition failure_entry (f : TFile) : LogLevel * string :=
  (LvlError, "[TPS GCM] Failed to update " ++ path f ++ ":").

(** The batch holds a markdown entry at path [p] whose patch the host
    does not reject. *)
Definition touched (E : Env) (files : list TFile) (p : string) : bool :=
  existsb (fun f => (is_markdown f && negb (io_fails E OpPatch (path f))
                     && String.eqb (path f) p)%bool) files.

(** Every character of [u] is white space. *)
Definition all_ws (u : list Char) : Prop := Forall (fun c => is_ws c = true) u.

(** [after] is [before] with some blanks replaced by [mark], byte by
    byte. *)
Definition only_boxes_marked (mark : ascii) (before after : list ascii) : Prop :=
  Forall2 (fun a b => b = a \/ (a = " "%char /\ b = mark)) before after.

(** The same, character by character. *)
Definition marked_chars (mark : ascii) (before after : list Char) : Prop :=
  Forall2 (fun a b => b = a \/ (a = [" "%char] /\ b = [mark])) before after.

(** The box pattern of [updateChecklistItems] matches at no line start of
    [l]; [at_start] tells whether [l] itself begins at one. *)
Fixpoint no_box_at_line_starts (at_start : bool) (l : list Char) : Prop :=
  match l with
  | [] => True
  | c :: r =>
      (at_start = true -> match_open_box l = None)
      /\ no_box_at_line_starts (is_line_terminator c) r
  end.

(** A byte that is neither a lead byte nor a continuation byte is a
    character wherever it stands. *)
Definition plain (c : ascii) : Prop := is_continuation c = false /\ lead_width c = 0%nat.

(** The two marks [updateChecklistItems] writes. *)
Definition is_mark (m : ascii) : Prop := m = "x"%char \/ m = "?"%char.

(** The text of the file at [p], as [vault.read] returns it. *)
Definition file_text (p : string) (w : World) : option string :=
  (fun n => block_at p w ++ body n) <$> vault w !! p.

(** The content of a file after the user's answer to the checklist
    dialog. *)
Definition answered (E : Env) (act : ChecklistAction) (content : FileContent) : FileContent :=
  match act with
  | ActComplete => content_of_text E (mark_checklist "x"%char (content_text content))
  | ActProgress => content_of_text E (mark_checklist "?"%char (content_text content))
  | _ => content
  end.

(** The tags of a frontmatter field as [addTag] and [removeTag] read them:
    an array as it is, a truthy scalar as a one-element array, anything
    else as no tags. *)
Definition tags_of (o : option value) : list atom :=
  match o with
  | Some v => if truthy v then match v with VList l => l | VAtom a => [a] end else []
  | None => []
  end.

(** [checkMissingRecurrences] rolls [f] forward: the cache shows a rule and
    a status of the terminal set. *)
Definition heal_target (statuses : list string) (w : World) (f : TFile) : bool :=
  match metadataCache w !! path f with
  | Some fm => (has_rule fm && status_in statuses fm)%bool
  | None => false
  end.

(** The [TFile] the host hands out for the successor of [file] created for
    the date [d]: the same folder, the new name. *)
Definition successor_file (E : Env) (file : TFile) (d : Z) : TFile :=
  {| path := successor_path E file d;
     basename := successor_baseName file ++ " " ++ moment_format E d "YYYY-MM-DD";
     extension := "md";
     parent := parent file |}.

(** A status as the settings tab can show and read back: not empty, no
    comma, no white space at either end. *)
Definition status_word (s : string) : Prop :=
  s <> ""
  /\ ~ In ","%char (list_ascii_of_string s)
  /\ trim (chars s) = chars s.

(** Logging is off and the console holds [c]. *)
Definition silent (c : list (LogLevel * string)) (w : World) : Prop :=
  loggingEnabled w = false /\ console w = c.

(** * Properties *)

(** ** Frames: what the primitives leave alone *)

Lemma reindex_vault E p w : vault (reindex E p w) = vault w.
Proof. unfold reindex. destruct (eager_index E); [destruct (vault w !! p)|]; reflexivity. Qed.

Lemma reindex_modifiedFiles E p w : modifiedFiles (reindex E p w) = modifiedFiles w.
Proof. unfold reindex. destruct (eager_index E); [destruct (vault w !! p)|]; reflexivity. Qed.

Lemma reindex_sessionDuration E p w : sessionDuration (reindex E p w) = sessionDuration w.
Proof. unfold reindex. destruct (eager_index E); [destruct (vault w !! p)|]; reflexivity. Qed.

Lemma reindex_clock E p w : clock (reindex E p w) = clock w.
Proof. unfold reindex. destruct (eager_index E); [destruct (vault w !! p)|]; reflexivity. Qed.

Lemma reindex_settings E p w : settings (reindex E p w) = settings w.
Proof. unfold reindex. destruct (eager_index E); [destruct (vault w !! p)|]; reflexivity. Qed.

Lemma reindex_answers E p w : answers (reindex E p w) = answers w.
Proof. unfold reindex. destruct (eager_index E); [destruct (vault w !! p)|]; reflexivity. Qed.

Lemma reindex_console E p w : console (reindex E p w) = console w.
Proof. unfold reindex. destruct (eager_index E); [destruct (vault w !! p)|]; reflexivity. Qed.

Lemma reindex_loggingEnabled E p w : loggingEnabled (reindex E p w) = loggingEnabled w.
Proof. unfold reindex. destruct (eager_index E); [destruct (vault w !! p)|]; reflexivity. Qed.

Lemma reindex_trace E p w : trace (reindex E p w) = trace w.
Proof. unfold reindex. destruct (eager_index E); [destruct (vault w !! p)|]; reflexivity. Qed.

Lemma reindex_checklistAnswers E p w :
  checklistAnswers (reindex E p w) = checklistAnswers w.
Proof. unfold reindex. destruct (eager_index E); [destruct (vault w !! p)|]; reflexivity. Qed.

Lemma reindex_frontmatterBlock E p w :
  frontmatterBlock (reindex E p w) = frontmatterBlock w.
Proof. unfold reindex. destruct (eager_index E); [destruct (vault w !! p)|]; reflexivity. Qed.

Lemma reindex_metadataCache E p w n :
  vault w !! p = Some n ->
  metadataCache (reindex E p w) = cache_after E p (frontmatter n) (metadataCache w).
Proof.
  intros H. unfold reindex, cache_after. destruct (eager_index E); [|reflexivity].
  now rewrite H.
Qed.

Lemma cache_after_twice E p a b c :
  cache_after E p a (cache_after E p b c) = cache_after E p a c.
Proof. unfold cache_after. destruct (eager_index E); [apply insert_insert_eq|reflexivity]. Qed.

Lemma logger_error_fields msg w :
  let w' := logger_error msg w in
  settings w' = settings w /\ vault w' = vault w /\ metadataCache w' = metadataCache w
  /\ modifiedFiles w' = modifiedFiles w /\ sessionDuration w' = sessionDuration w
  /\ clock w' = clock w /\ loggingEnabled w' = loggingEnabled w
  /\ trace w' = trace w /\ answers w' = answers w
  /\ checklistAnswers w' = checklistAnswers w.
Proof. unfold logger_error. destruct (loggingEnabled w) eqn:H; cbn; rewrite ?H; tauto. Qed.

Lemma logger_warn_fields msg w :
  let w' := logger_warn msg w in
  settings w' = settings w /\ vault w' = vault w /\ metadataCache w' = metadataCache w
  /\ modifiedFiles w' = modifiedFiles w /\ sessionDuration w' = sessionDuration w
  /\ clock w' = clock w /\ loggingEnabled w' = loggingEnabled w
  /\ trace w' = trace w /\ answers w' = answers w
  /\ checklistAnswers w' = checklistAnswers w.
Proof. unfold logger_warn. destruct (loggingEnabled w) eqn:H; cbn; rewrite ?H; tauto. Qed.

(** The two ways [processFrontMatter] can end. *)
Lemma processFrontMatter_cases E p fn w :
  processFrontMatter E p fn w = Throw w
  \/ exists n, vault w !! p = Some n /\ io_fails E OpPatch p = false
       /\ processFrontMatter E p fn w
          = Ret tt (reindex E p
                      (set_vault (<[p := mkNote (fn (frontmatter n)) (body n)]> (vault w))
                         (rewrite_block E p (fn (frontmatter n)) w))).
Proof.
  unfold processFrontMatter.
  destruct (io_fails E OpPatch p); [now left|].
  destruct (vault w !! p) as [n|]; [right; exists n; auto | now left].
Qed.

(** ** The session tracker *)

Module TrackerFacts.

Import SessionTracker.

Lemma fresh_after_mark p t w :
  clock w <> 0 ->
  t <= clock w + sessionDuration w ->
  wasRecentlyModified p (set_clock t (markAsModified p w))
  = (true, set_clock t (markAsModified p w)).
Proof.
  intros Hnz Hle. unfold wasRecentlyModified, markAsModified. cbn.
  rewrite lookup_insert_eq.
  destruct (Z.eqb_spec (clock w) 0) as [|_]; [contradiction|].
  destruct (Z.gtb_spec (t - clock w) (sessionDuration w)); [lia|reflexivity].
Qed.

Lemma expired_after_mark p t w :
  clock w <> 0 ->
  clock w + sessionDuration w < t ->
  wasRecentlyModified p (set_clock t (markAsModified p w))
  = (false, set_modifiedFiles (delete p (modifiedFiles w)) (set_clock t w)).
Proof.
  intros Hnz Hlt. unfold wasRecentlyModified, markAsModified. cbn.
  rewrite lookup_insert_eq.
  destruct (Z.eqb_spec (clock w) 0) as [|_]; [contradiction|].
  destruct (Z.gtb_spec (t - clock w) (sessionDuration w)); [|lia].
  unfold set_modifiedFiles, set_clock. cbn. now rewrite delete_insert_eq.
Qed.

Lemma unknown_path p w :
  modifiedFiles w !! p = None -> wasRecentlyModified p w = (false, w).
Proof. intros H. unfold wasRecentlyModified. now rewrite H. Qed.

(** A lookup that answers [true] changes nothing. *)
Lemma recent_keeps_world p w w' :
  wasRecentlyModified p w = (true, w') -> w' = w.
Proof.
  unfold wasRecentlyModified.
  destruct (modifiedFiles w !! p) as [t|]; [|discriminate].
  destruct (t =? 0); [discriminate|].
  destruct (clock w - t >? sessionDuration w); now inversion 1.
Qed.

(** A lookup never touches anything but the tracker's map. *)
Lemma lookup_frame p w :
  let w' := (wasRecentlyModified p w).2 in
  settings w' = settings w /\ vault w' = vault w /\ metadataCache w' = metadataCache w
  /\ sessionDuration w' = sessionDuration w /\ clock w' = clock w
  /\ loggingEnabled w' = loggingEnabled w /\ console w' = console w
  /\ trace w' = trace w /\ answers w' = answers w
  /\ checklistAnswers w' = checklistAnswers w.
Proof.
  unfold wasRecentlyModified.
  destruct (modifiedFiles w !! p) as [t|]; [|cbn; tauto].
  destruct (t =? 0); [cbn; tauto|].
  destruct (clock w - t >? sessionDuration w); cbn; tauto.
Qed.

End TrackerFacts.

(** C7. An entry recorded by [markAsModified] at time [T] (any instant but
    the epoch itself, which [Date.now()] never returns in practice and
    which the falsy test would read as "no entry") with window [W] makes
    [wasRecentlyModified] answer [true] at every time up to [T + W], leaving
    the tracker as it is, and [false] at every later time, where the lookup
    itself deletes the entry; a path without an entry always yields [false]. *)
Theorem suppression_window (p : string) (T W t : Z) (w : World) :
  T <> 0 ->
  clock w = T ->
  sessionDuration w = W ->
  let marked := SessionTracker.markAsModified p w in
  (t <= T + W ->
   SessionTracker.wasRecentlyModified p (set_clock t marked) = (true, set_clock t marked))
  /\ (T + W < t ->
      exists w2,
        SessionTracker.wasRecentlyModified p (set_clock t marked) = (false, w2)
        /\ modifiedFiles w2 = delete p (modifiedFiles marked)
        /\ modifiedFiles w2 !! p = None)
  /\ (forall w0 : World,
        modifiedFiles w0 !! p = None ->
        SessionTracker.wasRecentlyModified p w0 = (false, w0)).
Proof.
  intros HT Hc Hd marked. subst T W. repeat split.
  - intros Hle. now apply TrackerFacts.fresh_after_mark.
  - intros Hlt. eexists. split; [now apply TrackerFacts.expired_after_mark|].
    cbn. split; [now rewrite delete_insert_eq | apply lookup_delete_eq].
  - intros w0. apply TrackerFacts.unknown_path.
Qed.

Lemma suppression_window_witness :
  SessionTracker.wasRecentlyModified "a.md"
    (set_clock (Sample.now0 + 300000)
       (SessionTracker.markAsModified "a.md"
          (Sample.world DEFAULT_SETTINGS [] Sample.now0 [] [])))
  = (true,
     set_clock (Sample.now0 + 300000)
       (SessionTracker.markAsModified "a.md"
          (Sample.world DEFAULT_SETTINGS [] Sample.now0 [] []))).
Proof.
  apply (suppression_window "a.md" Sample.now0 300000 (Sample.now0 + 300000)
           (Sample.world DEFAULT_SETTINGS [] Sample.now0 [] []));
    [discriminate | reflexivity | reflexivity | unfold Sample.now0; lia].
Defined.

(** ** Bulk edits and the tracker *)

(** [applyToFiles] always resolves; it stamps every markdown file of the
    batch with the current time, whatever happens to the file's patch. *)
Lemma applyToFiles_from_marks E cb files :
  forall count w,
  exists n w',
    applyToFiles_from E count files cb w = Ret n w'
    /\ clock w' = clock w
    /\ sessionDuration w' = sessionDuration w
    /\ forall p,
         modifiedFiles w' !! p
         = if existsb (fun f => (is_markdown f && String.eqb (path f) p)%bool) files
           then Some (clock w) else modifiedFiles w !! p.
Proof.
  induction files as [|f rest IH]; intros count w.
  - exists count, w. cbn. auto.
  - cbn [applyToFiles_from existsb]. destruct (is_markdown f) eqn:Hmd; cbn [negb andb orb].
    + set (w1 := markFileAsModified (path f) w).
      assert (Hstep : exists c wx,
                 try_catch
                   (bind (lift (markFileAsModified (path f)))
                      (fun _ => bind (processFrontMatter E (path f) (fun fm => cb fm f))
                                  (fun _ => ret (S count))))
                   (bind (lift (logger_error ("[TPS GCM] Failed to update " ++ path f ++ ":")))
                      (fun _ => ret count)) w = Ret c wx
                 /\ clock wx = clock w /\ sessionDuration wx = sessionDuration w
                 /\ modifiedFiles wx = <[path f := clock w]> (modifiedFiles w)).
      { unfold try_catch, bind, lift, ret. fold w1.
        destruct (processFrontMatter_cases E (path f) (fun fm => cb fm f) w1)
          as [Hthrow | (n & _ & _ & Hok)].
        - rewrite Hthrow. eexists _, _. split; [reflexivity|].
          destruct (logger_error_fields ("[TPS GCM] Failed to update " ++ path f ++ ":") w1)
            as (_ & _ & _ & Hm & Hd & Hc & _).
          rewrite Hm, Hd, Hc. auto.
        - rewrite Hok. eexists _, _. split; [reflexivity|].
          rewrite reindex_clock, reindex_sessionDuration, reindex_modifiedFiles. auto. }
      destruct Hstep as (c & wx & Hrun & Hc & Hd & Hm).
      destruct (IH c wx) as (n & w' & Hrest & Hc' & Hd' & Hm').
      exists n, w'. unfold bind at 1. rewrite Hrun. split; [exact Hrest|].
      split; [congruence|]. split; [congruence|].
      intros p. rewrite Hm', Hc, Hm.
      destruct (String.eqb_spec (path f) p) as [->|Hne].
      * destruct (existsb _ rest); [reflexivity | apply lookup_insert_eq].
      * destruct (existsb _ rest); [reflexivity | now apply lookup_insert_ne].
    + destruct (IH count w) as (n & w' & Hrest & Hc' & Hd' & Hm').
      exists n, w'. auto.
Qed.

Lemma recent_skips_focus E fuel f w :
  SessionTracker.wasRecentlyModified (path f) w = (true, w) ->
  handleFileFocus E fuel f w = Ret tt w
  /\ handleFileModification E fuel f w = Ret tt w
  /\ forall desc, promptForFrontmatterChange E fuel f desc w = Ret UpdateAll w.
Proof.
  intros H.
  unfold handleFileFocus, handleFileModification, promptForFrontmatterChange,
    promptForFrontmatterChange_with, bind, wasRecentlyModified.
  rewrite H. auto.
Qed.

(** C10. [applyToFiles] resolves for every batch and callback, and whatever
    the host does to the individual patches (including rejecting them),
    every markdown file of the batch carries a tracker entry stamped with
    the time of the edit; so for the whole window after the edit
    [wasRecentlyModified] answers [true] for it, the focus and edit
    listeners return without a prompt, and [promptForFrontmatterChange]
    answers update-all without asking. *)
Theorem applyToFiles_suppresses_prompts (E : Env) (files : list TFile)
    (cb : gmap string value -> TFile -> gmap string value) (w : World) :
  clock w <> 0 ->
  exists n w',
    applyToFiles E files cb w = Ret n w'
    /\ forall f, In f files -> is_markdown f = true ->
         modifiedFiles w' !! path f = Some (clock w)
         /\ forall t, t <= clock w + sessionDuration w ->
              SessionTracker.wasRecentlyModified (path f) (set_clock t w')
              = (true, set_clock t w')
              /\ (forall fuel, handleFileFocus E fuel f (set_clock t w')
                               = Ret tt (set_clock t w'))
              /\ (forall fuel, handleFileModification E fuel f (set_clock t w')
                               = Ret tt (set_clock t w'))
              /\ (forall fuel desc,
                    promptForFrontmatterChange E fuel f desc (set_clock t w')
                    = Ret UpdateAll (set_clock t w')).
Proof.
  intros Hnz. unfold applyToFiles.
  destruct (applyToFiles_from_marks E cb files O w) as (n & w' & Hrun & Hc & Hd & Hm).
  exists n, w'. split; [exact Hrun|].
  intros f Hin Hmd.
  assert (Hmark : modifiedFiles w' !! path f = Some (clock w)).
  { rewrite Hm.
    assert (Hex : existsb (fun g => (is_markdown g && String.eqb (path g) (path f))%bool) files
                  = true).
    { apply existsb_exists. exists f. rewrite Hmd, String.eqb_refl. auto. }
    now rewrite Hex. }
  split; [exact Hmark|].
  intros t Hle. set (later := set_clock t w').
  assert (Hrecent : SessionTracker.wasRecentlyModified (path f) later = (true, later)).
  { unfold SessionTracker.wasRecentlyModified, later. cbn. rewrite Hmark.
    destruct (Z.eqb_spec (clock w) 0) as [|_]; [contradiction|].
    rewrite Hd. destruct (Z.gtb_spec (t - clock w) (sessionDuration w)); [lia|reflexivity]. }
  split; [exact Hrecent|].
  repeat split; intros; now apply recent_skips_focus.
Qed.

(** ** Successor creation *)

Lemma strip_rule_lookup fm :
  strip_rule fm !! "recurrenceRule" = None /\ strip_rule fm !! "recurrence" = None.
Proof.
  unfold strip_rule. split.
  - rewrite lookup_delete_ne by discriminate. apply lookup_delete_eq.
  - apply lookup_delete_eq.
Qed.

Lemma strip_rule_other fm k :
  k <> "recurrenceRule" -> k <> "recurrence" -> strip_rule fm !! k = fm !! k.
Proof.
  intros H1 H2. unfold strip_rule.
  rewrite lookup_delete_ne by congruence. now rewrite lookup_delete_ne by congruence.
Qed.

Lemma strip_rule_idem fm : strip_rule (strip_rule fm) = strip_rule fm.
Proof.
  apply map_eq. intros k.
  destruct (decide (k = "recurrenceRule")) as [->|H1];
    [destruct (strip_rule_lookup (strip_rule fm)) as [-> _];
     destruct (strip_rule_lookup fm) as [-> _]; reflexivity|].
  destruct (decide (k = "recurrence")) as [->|H2];
    [destruct (strip_rule_lookup (strip_rule fm)) as [_ ->];
     destruct (strip_rule_lookup fm) as [_ ->]; reflexivity|].
  now rewrite !strip_rule_other.
Qed.

Lemma strip_rule_has_rule fm : has_rule (strip_rule fm) = false.
Proof.
  unfold has_rule, rule_of, js_or.
  destruct (strip_rule_lookup fm) as [-> ->]. reflexivity.
Qed.

(** The date computed by [getNextOccurrence] depends on the world through
    the clock only, and the call changes nothing but the console. *)
Lemma getNextOccurrence_clock E r sched w1 w2 :
  clock w1 = clock w2 ->
  (getNextOccurrence E r sched w1).1 = (getNextOccurrence E r sched w2).1.
Proof.
  intros Hc. unfold getNextOccurrence, startDate_of. rewrite Hc.
  destruct (RRule_parseString E r) as [o|]; [|reflexivity].
  destruct (RRule_after E _ _ false); reflexivity.
Qed.

Lemma getNextOccurrence_frame E r sched w :
  let w' := (getNextOccurrence E r sched w).2 in
  settings w' = settings w /\ vault w' = vault w /\ metadataCache w' = metadataCache w
  /\ modifiedFiles w' = modifiedFiles w /\ sessionDuration w' = sessionDuration w
  /\ clock w' = clock w /\ loggingEnabled w' = loggingEnabled w
  /\ trace w' = trace w /\ answers w' = answers w
  /\ checklistAnswers w' = checklistAnswers w.
Proof.
  unfold getNextOccurrence.
  destruct (RRule_parseString E r) as [o|]; [|apply logger_error_fields].
  destruct (RRule_after E _ _ false); [cbn; tauto | apply logger_error_fields].
Qed.

Lemma getNextOccurrence_console E r sched w1 w2 :
  clock w1 = clock w2 -> console w1 = console w2 -> loggingEnabled w1 = loggingEnabled w2 ->
  console (getNextOccurrence E r sched w1).2 = console (getNextOccurrence E r sched w2).2.
Proof.
  intros Hc Hk Hl. unfold getNextOccurrence, startDate_of, logger_error. rewrite Hc, Hl.
  destruct (RRule_parseString E r) as [o|];
    [destruct (RRule_after E _ _ false)|];
    cbn; try destruct (loggingEnabled w2); cbn; congruence.
Qed.

Lemma logger_warn_console msg w :
  console (logger_warn msg w)
  = if loggingEnabled w then (LvlWarn, msg) :: console w else console w.
Proof. unfold logger_warn. destruct (loggingEnabled w); reflexivity. Qed.

Lemma logger_error_console msg w :
  console (logger_error msg w)
  = if loggingEnabled w then (LvlError, msg) :: console w else console w.
Proof. unfold logger_error. destruct (loggingEnabled w); reflexivity. Qed.

(** [clearRecurrenceRule] on a note the host lets us patch. *)
Lemma clearRecurrenceRule_ok E file w n :
  vault w !! path file = Some n ->
  io_fails E OpPatch (path file) = false ->
  clearRecurrenceRule E file w
  = Ret tt (reindex E (path file)
              (set_vault (<[path file := mkNote (strip_rule (frontmatter n)) (body n)]> (vault w))
                 (rewrite_block E (path file) (strip_rule (frontmatter n)) w))).
Proof.
  intros Hn Hio. unfold clearRecurrenceRule, processFrontMatter. now rewrite Hio, Hn.
Qed.

(** C6. When [getNextOccurrence] yields no date for a rule-bearing note
    (whose file the host lets the plugin patch), [createNextRecurrenceInstance]
    resolves to [true]; the vault afterwards is the old one with both rule
    fields deleted from the source note, so no file was created and every
    other note is untouched; and [logger.warn] was called once with the
    "could not calculate" message (written to the console when logging is
    enabled). *)
Theorem no_next_date_clears_rule (E : Env) (file : TFile) (fm : gmap string value)
    (carry : option value) (w : World) (r : value) (n : Note) :
  rule_of fm = Some r ->
  truthy r = true ->
  (getNextOccurrence E r (fm !! "scheduled") w).1 = None ->
  vault w !! path file = Some n ->
  io_fails E OpPatch (path file) = false ->
  exists w',
    createNextRecurrenceInstance E file fm carry w = Ret true w'
    /\ vault w' = <[path file := mkNote (strip_rule (frontmatter n)) (body n)]> (vault w)
    /\ dom (vault w') = dom (vault w)
    /\ strip_rule (frontmatter n) !! "recurrenceRule" = None
    /\ strip_rule (frontmatter n) !! "recurrence" = None
    /\ console w'
       = if loggingEnabled w
         then (LvlWarn, "[TPS GCM] Could not calculate next recurrence date")
              :: console (getNextOccurrence E r (fm !! "scheduled") w).2
         else console w.
Proof.
  intros Hr Ht Hnone Hn Hio.
  unfold createNextRecurrenceInstance, createNextRecurrenceInstance_try.
  rewrite Hr. rewrite Ht. cbn [negb].
  unfold bind at 1. unfold lift at 1. unfold try_catch.
  set (w0 := emit (EvCreateNext (path file) carry) w).
  assert (Hnone0 : (getNextOccurrence E r (fm !! "scheduled") w0).1 = None).
  { rewrite <- Hnone. now apply getNextOccurrence_clock. }
  destruct (getNextOccurrence E r (fm !! "scheduled") w0) as [nd w1] eqn:Hg.
  cbn in Hnone0. subst nd.
  assert (Hw1 : w1 = (getNextOccurrence E r (fm !! "scheduled") w0).2)
    by (rewrite Hg; reflexivity).
  destruct (getNextOccurrence_frame E r (fm !! "scheduled") w0)
    as (_ & Hv1 & _). rewrite <- Hw1 in Hv1.
  set (msg := "[TPS GCM] Could not calculate next recurrence date").
  destruct (logger_warn_fields msg w1) as (_ & Hv2 & _).
  unfold bind, lift.
  rewrite (clearRecurrenceRule_ok E file (logger_warn msg w1) n)
    by (rewrite ?Hv2, ?Hv1; auto).
  cbn [ret]. eexists. split; [reflexivity|].
  rewrite reindex_vault. cbn [vault set_vault rewrite_block
        put_block set_frontmatterBlock]. rewrite Hv2, Hv1. cbn [vault emit set_trace].
  split; [reflexivity|].
  split.
  { rewrite dom_insert_L. apply elem_of_dom_2 in Hn.
    apply set_eq. intros x. rewrite elem_of_union, elem_of_singleton.
    split; [intros [->|]; assumption | auto]. }
  destruct (strip_rule_lookup (frontmatter n)) as [-> ->].
  split; [reflexivity|]. split; [reflexivity|].
  rewrite reindex_console. cbn [console set_vault rewrite_block put_block set_frontmatterBlock].
  destruct (getNextOccurrence_frame E r (fm !! "scheduled") w0)
    as (_ & _ & _ & _ & _ & _ & Hl1 & _). rewrite <- Hw1 in Hl1.
  rewrite logger_warn_console, Hl1.
  change (loggingEnabled w0) with (loggingEnabled w). rewrite Hw1.
  rewrite (getNextOccurrence_console E r (fm !! "scheduled") w0 w) by reflexivity.
  destruct (loggingEnabled w) eqn:Hl; [reflexivity|].
  unfold getNextOccurrence, logger_error. rewrite Hl.
  destruct (RRule_parseString E r); [destruct (RRule_after E _ _ false)|]; reflexivity.
Qed.

(** Running [createNextRecurrenceInstance] up to the computed date: with a
    truthy rule, the call is the [try] body run on the world that
    [getNextOccurrence] leaves behind. *)
Lemma createNext_with_date E file fm carry w r d :
  rule_of fm = Some r ->
  truthy r = true ->
  (getNextOccurrence E r (fm !! "scheduled") w).1 = Some d ->
  exists w1,
    vault w1 = vault w /\ metadataCache w1 = metadataCache w /\ settings w1 = settings w
    /\ modifiedFiles w1 = modifiedFiles w /\ sessionDuration w1 = sessionDuration w
    /\ clock w1 = clock w /\ answers w1 = answers w /\ loggingEnabled w1 = loggingEnabled w
    /\ console w1 = console w
    /\ trace w1 = EvCreateNext (path file) carry :: trace w
    /\ checklistAnswers w1 = checklistAnswers w
    /\ createNextRecurrenceInstance E file fm carry w
       = try_catch
           (fun w1 =>
              (found <- adapter_exists E (successor_path E file d) ;;
               if found : bool then
                 lift (logger_warn
                         "[TPS GCM] Next recurrence already exists, skipping creation:") ;;;
                 clearRecurrenceRule E file ;;;
                 ret true
               else
                 content <- vault_read E (path file) ;;
                 vault_create E (successor_path E file d) content ;;;
                 fun w2 =>
                   match vault w2 !! successor_path E file d with
                   | None =>
                       Ret false
                         (logger_error "[TPS GCM] Could not get newly created file" w2)
                   | Some _ =>
                       (processFrontMatter E (successor_path E file d)
                          (successor_patch E file d (settings w2)) ;;;
                        clearRecurrenceRule E file ;;;
                        Notice ("Created next recurrence: " ++ successor_fileName E file d) ;;;
                        ret true) w2
                   end) w1)
           (lift (logger_error "[TPS GCM] Failed to create next recurrence instance:") ;;;
            Notice "Failed to create next recurrence instance" ;;;
            ret false) w1.
Proof.
  intros Hr Ht Hd.
  unfold createNextRecurrenceInstance, createNextRecurrenceInstance_try.
  rewrite Hr, Ht. cbn [negb].
  unfold bind at 1. unfold lift at 1.
  set (w0 := emit (EvCreateNext (path file) carry) w).
  assert (Hd0 : (getNextOccurrence E r (fm !! "scheduled") w0).1 = Some d).
  { rewrite <- Hd. now apply getNextOccurrence_clock. }
  assert (Hsame : getNextOccurrence E r (fm !! "scheduled") w0 = (Some d, w0)).
  { revert Hd0. unfold getNextOccurrence.
    destruct (RRule_parseString E r); [|discriminate].
    destruct (RRule_after E _ _ false); [|discriminate]. cbn. congruence. }
  exists w0. repeat (split; [reflexivity|]).
  unfold try_catch at 1 2. rewrite Hsame. reflexivity.
Qed.

Lemma adapter_exists_ok E p w :
  io_fails E OpExists p = false ->
  adapter_exists E p w = Ret (bool_decide (is_Some (vault w !! p))) w.
Proof. intros H. unfold adapter_exists. now rewrite H. Qed.

(** The successor is already there: nothing is created, the source loses
    its rule, the call resolves to [true]. *)
Lemma createNext_target_exists E file fm carry w r d n :
  rule_of fm = Some r ->
  truthy r = true ->
  (getNextOccurrence E r (fm !! "scheduled") w).1 = Some d ->
  is_Some (vault w !! successor_path E file d) ->
  io_fails E OpExists (successor_path E file d) = false ->
  vault w !! path file = Some n ->
  io_fails E OpPatch (path file) = false ->
  exists w',
    createNextRecurrenceInstance E file fm carry w = Ret true w'
    /\ vault w' = <[path file := mkNote (strip_rule (frontmatter n)) (body n)]> (vault w)
    /\ settings w' = settings w /\ modifiedFiles w' = modifiedFiles w
    /\ sessionDuration w' = sessionDuration w /\ clock w' = clock w
    /\ answers w' = answers w
    /\ trace w' = EvCreateNext (path file) carry :: trace w
    /\ console w'
       = (if loggingEnabled w
          then (LvlWarn, "[TPS GCM] Next recurrence already exists, skipping creation:")
               :: console w
          else console w)
    /\ metadataCache w'
       = cache_after E (path file) (strip_rule (frontmatter n)) (metadataCache w).
Proof.
  intros Hr Ht Hd Hex Hioe Hn Hio.
  destruct (createNext_with_date E file fm carry w r d Hr Ht Hd)
    as (w1 & Hv & Hmc & Hs & Hm & Hsd & Hc & Ha & Hl & Hk & Htr & Hca & ->).
  unfold try_catch, bind. rewrite (adapter_exists_ok E _ w1 Hioe).
  rewrite Hv. rewrite bool_decide_eq_true_2 by exact Hex.
  unfold lift.
  set (msg := "[TPS GCM] Next recurrence already exists, skipping creation:").
  destruct (logger_warn_fields msg w1)
    as (Hs2 & Hv2 & Hmc2 & Hm2 & Hsd2 & Hc2 & Hl2 & Htr2 & Ha2 & Hca2).
  rewrite (clearRecurrenceRule_ok E file (logger_warn msg w1) n)
    by (rewrite ?Hv2, ?Hv; auto).
  cbn [ret]. eexists. split; [reflexivity|].
  rewrite reindex_vault, reindex_settings, reindex_modifiedFiles, reindex_sessionDuration,
    reindex_clock, reindex_answers, reindex_trace, reindex_console.
  cbn [vault settings modifiedFiles sessionDuration clock answers trace console set_vault
       rewrite_block put_block set_frontmatterBlock].
  rewrite Hv2, Hv, Hs2, Hs, Hm2, Hm, Hsd2, Hsd, Hc2, Hc, Ha2, Ha, Htr2, Htr.
  repeat (split; [reflexivity|]).
  split. { rewrite logger_warn_console, Hl, Hk. reflexivity. }
  erewrite reindex_metadataCache by (cbn [vault set_vault rewrite_block
        put_block set_frontmatterBlock]; apply lookup_insert_eq).
  cbn [frontmatter metadataCache set_vault rewrite_block
        put_block set_frontmatterBlock]. congruence.
Qed.

Ltac frame_simpl :=
  repeat (unfold store;
          rewrite ?reindex_vault, ?reindex_settings, ?reindex_modifiedFiles,
            ?reindex_sessionDuration, ?reindex_clock, ?reindex_answers, ?reindex_trace,
            ?reindex_console, ?reindex_loggingEnabled, ?reindex_checklistAnswers,
            ?reindex_frontmatterBlock;
          cbn [vault settings modifiedFiles sessionDuration clock answers trace console
               loggingEnabled checklistAnswers metadataCache frontmatterBlock
               set_vault set_metadataCache set_modifiedFiles set_trace set_console
               set_answers emit rewrite_block put_block set_frontmatterBlock
               content_note content_block]).

Lemma vault_read_ok E p w n :
  vault w !! p = Some n -> io_fails E OpRead p = false ->
  vault_read E p w = Ret (mkFileContent (block_at p w) n) w.
Proof. intros Hn Hio. unfold vault_read. now rewrite Hio, Hn. Qed.

Lemma vault_create_ok E p content w :
  vault w !! p = None -> io_fails E OpCreate p = false ->
  vault_create E p content w = Ret tt (store E p content w).
Proof. intros Hn Hio. unfold vault_create. now rewrite Hio, Hn. Qed.

Lemma processFrontMatter_ok E p fn w n :
  vault w !! p = Some n -> io_fails E OpPatch p = false ->
  processFrontMatter E p fn w
  = Ret tt (reindex E p (set_vault (<[p := mkNote (fn (frontmatter n)) (body n)]> (vault w))
                           (rewrite_block E p (fn (frontmatter n)) w))).
Proof. intros Hn Hio. unfold processFrontMatter. now rewrite Hio, Hn. Qed.

(** The successor does not exist yet and the host accepts every call: the
    new note is a copy of the source carrying the three patched fields, the
    source loses its rule, the call resolves to [true]. *)
Lemma createNext_fresh E file fm carry w r d n :
  rule_of fm = Some r ->
  truthy r = true ->
  (getNextOccurrence E r (fm !! "scheduled") w).1 = Some d ->
  vault w !! successor_path E file d = None ->
  io_fails E OpExists (successor_path E file d) = false ->
  vault w !! path file = Some n ->
  io_fails E OpRead (path file) = false ->
  io_fails E OpCreate (successor_path E file d) = false ->
  io_fails E OpPatch (successor_path E file d) = false ->
  io_fails E OpPatch (path file) = false ->
  exists w',
    createNextRecurrenceInstance E file fm carry w = Ret true w'
    /\ vault w'
       = <[path file := mkNote (strip_rule (frontmatter n)) (body n)]>
           (<[successor_path E file d
              := mkNote (successor_patch E file d (settings w) (frontmatter n)) (body n)]>
              (vault w))
    /\ settings w' = settings w /\ modifiedFiles w' = modifiedFiles w
    /\ sessionDuration w' = sessionDuration w /\ clock w' = clock w
    /\ answers w' = answers w
    /\ console w' = console w
    /\ trace w'
       = EvNotice ("Created next recurrence: " ++ successor_fileName E file d)
         :: EvCreateNext (path file) carry :: trace w
    /\ metadataCache w'
       = cache_after E (path file) (strip_rule (frontmatter n))
           (cache_after E (successor_path E file d)
              (successor_patch E file d (settings w) (frontmatter n)) (metadataCache w)).
Proof.
  intros Hr Ht Hd Hfree Hioe Hn Hior Hioc Hiop Hio.
  destruct (createNext_with_date E file fm carry w r d Hr Ht Hd)
    as (w1 & Hv & Hmc & Hs & Hm & Hsd & Hc & Ha & Hl & Hk & Htr & Hca & ->).
  set (t := successor_path E file d) in *.
  assert (Hne : t <> path file) by congruence.
  unfold try_catch, bind. rewrite (adapter_exists_ok E _ w1 Hioe).
  rewrite Hv. rewrite bool_decide_eq_false_2 by (rewrite Hfree; apply is_Some_None).
  rewrite (vault_read_ok E _ w1 n) by (rewrite ?Hv; auto).
  rewrite (vault_create_ok E t _ w1) by (rewrite ?Hv; auto).
  set (w2 := store E t _ w1).
  assert (Hv2 : vault w2 = <[t:=n]> (vault w)) by (unfold w2; frame_simpl; congruence).
  rewrite Hv2, lookup_insert_eq.
  rewrite (processFrontMatter_ok E t _ w2 n) by (rewrite ?Hv2, ?lookup_insert_eq; auto).
  set (w3 := reindex E t (set_vault _ _)).
  assert (Hs2 : settings w2 = settings w) by (unfold w2; frame_simpl; congruence).
  assert (Hv3 : vault w3
                = <[t := mkNote (successor_patch E file d (settings w) (frontmatter n)) (body n)]>
                    (vault w)).
  { unfold w3. frame_simpl. rewrite Hv2, Hs2. apply insert_insert_eq. }
  assert (Hmc3 : metadataCache w3
                 = cache_after E t (successor_patch E file d (settings w) (frontmatter n))
                     (metadataCache w)).
  { unfold w3. erewrite reindex_metadataCache
      by (cbn [vault set_vault rewrite_block
            put_block set_frontmatterBlock]; apply lookup_insert_eq).
    cbn [frontmatter metadataCache set_vault rewrite_block put_block set_frontmatterBlock].
    unfold w2, store.
    erewrite reindex_metadataCache by (cbn [vault set_vault rewrite_block
          put_block set_frontmatterBlock]; apply lookup_insert_eq).
    cbn [metadataCache set_vault rewrite_block put_block set_frontmatterBlock content_note].
    frame_simpl. rewrite Hs, Hmc. apply cache_after_twice. }
  rewrite (clearRecurrenceRule_ok E file w3 n)
    by (rewrite ?Hv3, ?lookup_insert_ne; auto).
  unfold Notice, lift, ret. eexists. split; [reflexivity|].
  frame_simpl. rewrite Hv3.
  split; [reflexivity|].
  erewrite reindex_metadataCache by (cbn [vault set_vault rewrite_block
        put_block set_frontmatterBlock]; apply lookup_insert_eq).
  cbn [frontmatter]. frame_simpl. rewrite Hmc3.
  unfold w3. frame_simpl. unfold w2. frame_simpl.
  rewrite Hs, Hm, Hsd, Hc, Ha, Hk, Htr.
  repeat (split; [reflexivity|]). reflexivity.
Qed.

(** C2. For a rule-bearing source note whose next date is computed, on a
    host that answers the existence check and accepts the patch of the
    source: (1) if the successor's path already exists, the call resolves
    to [true], the set of files is unchanged and the only change to the
    vault is that the source lost both rule fields; (2) if the path is free
    and the host accepts the copy, two calls in a row with the same snapshot
    both resolve to [true], the first adds exactly the successor's path, the
    second adds nothing and leaves the vault as the first left it, and the
    source is without rule fields after each. *)
Theorem existing_successor_not_duplicated (E : Env) (file : TFile)
    (fm : gmap string value) (carry : option value) (w : World)
    (r : value) (d : Z) (n : Note) :
  rule_of fm = Some r ->
  truthy r = true ->
  (getNextOccurrence E r (fm !! "scheduled") w).1 = Some d ->
  vault w !! path file = Some n ->
  io_fails E OpPatch (path file) = false ->
  io_fails E OpExists (successor_path E file d) = false ->
  (is_Some (vault w !! successor_path E file d) ->
   exists w',
     createNextRecurrenceInstance E file fm carry w = Ret true w'
     /\ dom (vault w') = dom (vault w)
     /\ vault w' = <[path file := mkNote (strip_rule (frontmatter n)) (body n)]> (vault w)
     /\ has_rule (strip_rule (frontmatter n)) = false)
  /\ (vault w !! successor_path E file d = None ->
      io_fails E OpRead (path file) = false ->
      io_fails E OpCreate (successor_path E file d) = false ->
      io_fails E OpPatch (successor_path E file d) = false ->
      exists w1 w2,
        createNextRecurrenceInstance E file fm carry w = Ret true w1
        /\ createNextRecurrenceInstance E file fm carry w1 = Ret true w2
        /\ dom (vault w1) = {[successor_path E file d]} ∪ dom (vault w)
        /\ vault w2 = vault w1
        /\ vault w1 !! path file = Some (mkNote (strip_rule (frontmatter n)) (body n))
        /\ vault w2 !! path file = Some (mkNote (strip_rule (frontmatter n)) (body n))).
Proof.
  intros Hr Ht Hd Hn Hio Hioe. split.
  - intros Hex.
    destruct (createNext_target_exists E file fm carry w r d n Hr Ht Hd Hex Hioe Hn Hio)
      as (w' & Hrun & Hv & _).
    exists w'. split; [exact Hrun|]. split.
    + rewrite Hv, dom_insert_L. apply elem_of_dom_2 in Hn.
      apply set_eq. intros x. rewrite elem_of_union, elem_of_singleton.
      split; [intros [->|]; assumption | auto].
    + split; [exact Hv | apply strip_rule_has_rule].
  - intros Hfree Hior Hioc Hiop.
    destruct (createNext_fresh E file fm carry w r d n Hr Ht Hd Hfree Hioe Hn Hior Hioc
                Hiop Hio)
      as (w1 & Hrun1 & Hv1 & _ & _ & _ & Hc1 & _).
    assert (Hsrc : vault w1 !! path file
                   = Some (mkNote (strip_rule (frontmatter n)) (body n)))
      by (rewrite Hv1; apply lookup_insert_eq).
    assert (Hne : successor_path E file d <> path file) by congruence.
    assert (Hex1 : is_Some (vault w1 !! successor_path E file d)).
    { rewrite Hv1, lookup_insert_ne, lookup_insert_eq by congruence. eauto. }
    assert (Hd1 : (getNextOccurrence E r (fm !! "scheduled") w1).1 = Some d).
    { rewrite <- Hd. now apply getNextOccurrence_clock. }
    destruct (createNext_target_exists E file fm carry w1 r d _ Hr Ht Hd1 Hex1 Hioe Hsrc Hio)
      as (w2 & Hrun2 & Hv2 & _).
    cbn [frontmatter body] in Hv2. rewrite strip_rule_idem in Hv2.
    assert (Hsame : vault w2 = vault w1) by (rewrite Hv2; now apply insert_id).
    exists w1, w2. split; [exact Hrun1|]. split; [exact Hrun2|].
    split.
    { rewrite Hv1, !dom_insert_L. apply elem_of_dom_2 in Hn.
      apply set_eq. intros x. rewrite !elem_of_union, !elem_of_singleton.
      split; [intros [->|[->|]]; auto | intros [->|]; auto]. }
    split; [exact Hsame|]. split; [exact Hsrc|]. now rewrite Hsame.
Qed.

(** ** The next occurrence *)

(** The sample evaluator answers strictly after the date it is asked about. *)
Lemma sample_after_strict (o : Sample.Options) (dt res : Z) :
  Sample.after o (Some dt) false = Some (Some res) -> dt < res.
Proof.
  unfold Sample.after. destruct (Sample.dtstart o) as [start|]; [|discriminate].
  destruct (Z.leb_spec (Sample.period o) 0) as [|Hp]; [discriminate|].
  destruct (Z.ltb_spec dt start) as [Hlt|Hge].
  - intros [= <-]. exact Hlt.
  - cbn [andb]. intros [= <-].
    pose proof (Z.mod_pos_bound (dt - start) (Sample.period o) Hp) as Hb.
    pose proof (Z.div_mod (dt - start) (Sample.period o) ltac:(lia)) as Hdm.
    nia.
Qed.

(** C3, the claim as stated, fails on the log level: an evaluator error is
    reported through [logger.error]; no warning is written. *)
Lemma evaluator_error_is_logged_as_error :
  (getNextOccurrence Sample.calm (VAtom (AStr "garbage")) (Some (VAtom (AStr "2024-01-01")))
     (Sample.world Sample.logging_settings [] Sample.now0 [] [])).1 = None
  /\ console
       (getNextOccurrence Sample.calm (VAtom (AStr "garbage"))
          (Some (VAtom (AStr "2024-01-01")))
          (Sample.world Sample.logging_settings [] Sample.now0 [] [])).2
     = [(LvlError, "[TPS GCM] Failed to calculate next recurrence:")]
  /\ ~ In LvlWarn
       (List.map fst
          (console
             (getNextOccurrence Sample.calm (VAtom (AStr "garbage"))
                (Some (VAtom (AStr "2024-01-01")))
                (Sample.world Sample.logging_settings [] Sample.now0 [] [])).2)).
Proof.
  split; [reflexivity|]. split; [reflexivity|].
  cbn. intros [H|[]]. discriminate H.
Qed.

(** C3, amended. Given an evaluator whose [after(dt, false)] answers
    strictly after [dt], [getNextOccurrence] is a total function that asks
    the evaluator about the rule with [dtstart] set to the anchor, from the
    anchor, exclusively; it returns that date, strictly after the anchor,
    leaving the world as it is, or null when the evaluator answers null; when
    parsing or evaluating throws it returns null and reports the failure
    through [logger.error] (not as a warning); and the anchor is the clock's
    current time whenever the scheduled field is absent or falsy. *)
Theorem next_occurrence_after_anchor (E : Env) (rule : value) (sched : option value)
    (w : World) :
  (forall o dt res, RRule_after E o (Some dt) false = Some (Some res) -> dt < res) ->
  match RRule_parseString E rule with
  | Some o =>
      match RRule_after E (set_dtstart E o (startDate_of E sched w))
              (startDate_of E sched w) false with
      | Some (Some next) =>
          getNextOccurrence E rule sched w = (Some next, w)
          /\ forall D, startDate_of E sched w = Some D -> D < next
      | Some None => getNextOccurrence E rule sched w = (None, w)
      | None =>
          getNextOccurrence E rule sched w
          = (None, logger_error "[TPS GCM] Failed to calculate next recurrence:" w)
      end
  | None =>
      getNextOccurrence E rule sched w
      = (None, logger_error "[TPS GCM] Failed to calculate next recurrence:" w)
  end
  /\ (field_truthy sched = false -> startDate_of E sched w = Some (clock w)).
Proof.
  intros Hstrict. split.
  - unfold getNextOccurrence.
    destruct (RRule_parseString E rule) as [o|]; [|reflexivity].
    destruct (RRule_after E _ _ false) as [[next|]|] eqn:Ha; try reflexivity.
    split; [reflexivity|]. intros D HD. rewrite HD in Ha. now apply (Hstrict _ _ _ Ha).
  - unfold startDate_of, field_truthy. destruct sched as [v|]; [|reflexivity].
    now intros ->.
Qed.

Lemma next_occurrence_after_anchor_witness :
  getNextOccurrence Sample.calm (VAtom (AStr "RRULE:FREQ=WEEKLY"))
    (Some (VAtom (AStr "2024-01-01")))
    (Sample.world DEFAULT_SETTINGS [] Sample.now0 [] [])
  = (Some 1704672000000, Sample.world DEFAULT_SETTINGS [] Sample.now0 [] [])
  /\ forall D,
       startDate_of Sample.calm (Some (VAtom (AStr "2024-01-01")))
         (Sample.world DEFAULT_SETTINGS [] Sample.now0 [] []) = Some D ->
       D < 1704672000000.
Proof.
  exact (proj1 (next_occurrence_after_anchor Sample.calm (VAtom (AStr "RRULE:FREQ=WEEKLY"))
                  (Some (VAtom (AStr "2024-01-01")))
                  (Sample.world DEFAULT_SETTINGS [] Sample.now0 [] [])
                  sample_after_strict)).
Defined.

(** ** Prompts on focus and on edit *)

(** C8, the claim as stated, fails: with "done" configured as the only
    terminal status, a recurring note in status "done" is still prompted
    for, on focus and on edit. *)
Lemma configured_terminal_status_still_prompts :
  includes_string "done" (recurrenceStatuses Sample.done_settings) = true
  /\ (trace <$> world_of (handleFileFocus Sample.calm 1 Sample.water_plants
                            (Sample.garden_in "done" Sample.done_settings [Cancel])))
     = Some [EvPrompt "Tasks/Water plants.md" "focus"]
  /\ (trace <$> world_of (handleFileModification Sample.calm 1 Sample.water_plants
                            (Sample.garden_in "done" Sample.done_settings [Cancel])))
     = Some [EvPrompt "Tasks/Water plants.md" "editing"].
Proof. repeat split; vm_compute; reflexivity. Qed.

(** C8, amended. For a note whose indexed status is exactly "complete" or
    "wont-do", the two statuses the listeners test for, neither
    [handleFileFocus] nor [handleFileModification] shows a prompt, whatever
    the settings say: both resolve at once, in the world the tracker lookup
    left, with no event added and no answer consumed. *)
Theorem done_notes_are_not_prompted (E : Env) (fuel : nat) (file : TFile) (w : World)
    (fm : gmap string value) :
  getFileCache file w = Some fm ->
  status_is_done fm = true ->
  handleFileFocus E fuel file w
  = Ret tt (SessionTracker.wasRecentlyModified (path file) w).2
  /\ handleFileModification E fuel file w
     = Ret tt (SessionTracker.wasRecentlyModified (path file) w).2
  /\ trace (SessionTracker.wasRecentlyModified (path file) w).2 = trace w
  /\ answers (SessionTracker.wasRecentlyModified (path file) w).2 = answers w.
Proof.
  intros Hfm Hdone.
  destruct (TrackerFacts.lookup_frame (path file) w)
    as (_ & _ & Hmc & _ & _ & _ & _ & Htr & Ha & _).
  unfold handleFileFocus, handleFileModification, bind, wasRecentlyModified, ret.
  destruct (SessionTracker.wasRecentlyModified (path file) w) as [[|] w1] eqn:Hq;
    cbn [snd] in *.
  - auto.
  - unfold getFileCache in *. rewrite Hmc, Hfm, Hdone.
    destruct (has_rule fm); cbn [negb]; auto.
Qed.

Lemma done_notes_are_not_prompted_witness :
  handleFileFocus Sample.calm 1 Sample.water_plants
    (Sample.garden_in "complete" Sample.done_settings [Cancel])
  = Ret tt (SessionTracker.wasRecentlyModified (path Sample.water_plants)
              (Sample.garden_in "complete" Sample.done_settings [Cancel])).2
  /\ handleFileModification Sample.calm 1 Sample.water_plants
       (Sample.garden_in "complete" Sample.done_settings [Cancel])
     = Ret tt (SessionTracker.wasRecentlyModified (path Sample.water_plants)
                 (Sample.garden_in "complete" Sample.done_settings [Cancel])).2
  /\ trace (SessionTracker.wasRecentlyModified (path Sample.water_plants)
              (Sample.garden_in "complete" Sample.done_settings [Cancel])).2
     = trace (Sample.garden_in "complete" Sample.done_settings [Cancel])
  /\ answers (SessionTracker.wasRecentlyModified (path Sample.water_plants)
                (Sample.garden_in "complete" Sample.done_settings [Cancel])).2
     = answers (Sample.garden_in "complete" Sample.done_settings [Cancel]).
Proof.
  apply (done_notes_are_not_prompted Sample.calm 1 Sample.water_plants
           (Sample.garden_in "complete" Sample.done_settings [Cancel])
           (frontmatter (Sample.with_status "complete")));
    vm_compute; reflexivity.
Defined.

(** C9, the claim as stated, fails: after cancel on the prompt of a
    frontmatter mutation the tracker holds no entry for the note, and the
    same mutation retried at once prompts a second time. *)
Lemma cancel_does_not_mark_interacted :
  result_of (promptForFrontmatterChange Sample.calm 1 Sample.water_plants "updating"
               (Sample.garden DEFAULT_SETTINGS [Cancel; Cancel]))
  = Some Cancel
  /\ (modifiedFiles <$>
        world_of (promptForFrontmatterChange Sample.calm 1 Sample.water_plants "updating"
                    (Sample.garden DEFAULT_SETTINGS [Cancel; Cancel])))
     = Some ∅
  /\ (trace <$>
        world_of
          (bind (updateFrontmatter Sample.calm 2 [Sample.water_plants]
                   (<["priority" := VAtom (AStr "high")]> ∅))
                (fun _ => updateFrontmatter Sample.calm 2 [Sample.water_plants]
                            (<["priority" := VAtom (AStr "high")]> ∅))
                (Sample.garden DEFAULT_SETTINGS [Cancel; Cancel])))
     = Some [EvPrompt "Tasks/Water plants.md" "changing the priority of";
             EvPrompt "Tasks/Water plants.md" "changing the priority of"].
Proof. repeat split; vm_compute; reflexivity. Qed.

(** C9, amended. When the prompt of a frontmatter mutation is really shown
    (the tracker does not report the note as recent) and the user answers
    cancel, [promptForFrontmatterChange] resolves to cancel without
    recording anything: the tracker's map is what the lookup left, so the
    note is still not recent and a mutation retried at once prompts again;
    the vault is untouched; the only trace is the prompt itself. *)
Theorem cancel_leaves_tracker_unmarked (E : Env) (fuel : nat) (file : TFile)
    (desc : string) (w : World) (rest : list Choice) :
  (SessionTracker.wasRecentlyModified (path file) w).1 = false ->
  answers w = Cancel :: rest ->
  exists w',
    promptForFrontmatterChange E fuel file desc w = Ret Cancel w'
    /\ modifiedFiles w' = modifiedFiles (SessionTracker.wasRecentlyModified (path file) w).2
    /\ SessionTracker.wasRecentlyModified (path file) w' = (false, w')
    /\ vault w' = vault w
    /\ trace w' = EvPrompt (path file) desc :: trace w
    /\ answers w' = rest.
Proof.
  intros Hq Ha.
  destruct (TrackerFacts.lookup_frame (path file) w)
    as (_ & Hv & _ & Hsd & Hc & _ & _ & Htr & Hans & _).
  unfold promptForFrontmatterChange, promptForFrontmatterChange_with, bind, wasRecentlyModified.
  destruct (SessionTracker.wasRecentlyModified (path file) w) as [b w1] eqn:Hlook.
  cbn [fst snd] in *. subst b.
  unfold promptUser. cbn [answers emit set_trace]. rewrite Hans, Ha. cbn [ret].
  eexists. split; [reflexivity|]. frame_simpl.
  split; [reflexivity|]. split; [|rewrite Hv, Htr; auto].
  revert Hlook. unfold SessionTracker.wasRecentlyModified. frame_simpl.
  destruct (modifiedFiles w !! path file) as [t|] eqn:Ht.
  - destruct (t =? 0) eqn:Hz.
    + intros [= <-]. now rewrite Ht, Hz.
    + destruct (clock w - t >? sessionDuration w) eqn:Hgt; [|discriminate].
      intros [= <-]. cbn [modifiedFiles set_modifiedFiles]. now rewrite lookup_delete_eq.
  - intros [= <-]. now rewrite Ht.
Qed.

Lemma cancel_leaves_tracker_unmarked_witness :
  exists w',
    promptForFrontmatterChange Sample.calm 1 Sample.water_plants "updating"
      (Sample.garden DEFAULT_SETTINGS [Cancel]) = Ret Cancel w'
    /\ modifiedFiles w'
       = modifiedFiles (SessionTracker.wasRecentlyModified (path Sample.water_plants)
                          (Sample.garden DEFAULT_SETTINGS [Cancel])).2
    /\ SessionTracker.wasRecentlyModified (path Sample.water_plants) w' = (false, w')
    /\ vault w' = vault (Sample.garden DEFAULT_SETTINGS [Cancel])
    /\ trace w' = EvPrompt (path Sample.water_plants) "updating"
                  :: trace (Sample.garden DEFAULT_SETTINGS [Cancel])
    /\ answers w' = [].
Proof.
  apply (cancel_leaves_tracker_unmarked Sample.calm 1 Sample.water_plants "updating"
           (Sample.garden DEFAULT_SETTINGS [Cancel]) []); reflexivity.
Defined.

(** ** Witnesses for the successor theorems *)

Lemma no_next_date_clears_rule_witness :
  exists w',
    createNextRecurrenceInstance Sample.calm Sample.water_plants Sample.garbage_fm None
      Sample.garbage_garden = Ret true w'
    /\ vault w'
       = <[path Sample.water_plants
           := mkNote (strip_rule (frontmatter (mkNote Sample.garbage_fm "Water the ferns.")))
                (body (mkNote Sample.garbage_fm "Water the ferns."))]>
           (vault Sample.garbage_garden)
    /\ dom (vault w') = dom (vault Sample.garbage_garden)
    /\ strip_rule (frontmatter (mkNote Sample.garbage_fm "Water the ferns."))
         !! "recurrenceRule" = None
    /\ strip_rule (frontmatter (mkNote Sample.garbage_fm "Water the ferns."))
         !! "recurrence" = None
    /\ console w'
       = if loggingEnabled Sample.garbage_garden
         then (LvlWarn, "[TPS GCM] Could not calculate next recurrence date")
              :: console (getNextOccurrence Sample.calm (VAtom (AStr "garbage"))
                            (Sample.garbage_fm !! "scheduled") Sample.garbage_garden).2
         else console Sample.garbage_garden.
Proof.
  apply (no_next_date_clears_rule Sample.calm Sample.water_plants Sample.garbage_fm None
           Sample.garbage_garden (VAtom (AStr "garbage"))
           (mkNote Sample.garbage_fm "Water the ferns."));
    vm_compute; reflexivity.
Defined.

Lemma existing_successor_not_duplicated_witness :
  vault (Sample.garden DEFAULT_SETTINGS [])
    !! successor_path Sample.calm Sample.water_plants Sample.next_week = None
  /\ exists w1 w2,
       createNextRecurrenceInstance Sample.calm Sample.water_plants Sample.water_plants_fm
         None (Sample.garden DEFAULT_SETTINGS []) = Ret true w1
       /\ createNextRecurrenceInstance Sample.calm Sample.water_plants
            Sample.water_plants_fm None w1 = Ret true w2
       /\ dom (vault w1)
          = {[successor_path Sample.calm Sample.water_plants Sample.next_week]}
            ∪ dom (vault (Sample.garden DEFAULT_SETTINGS []))
       /\ vault w2 = vault w1
       /\ vault w1 !! path Sample.water_plants
          = Some (mkNote (strip_rule (frontmatter Sample.water_plants_note))
                    (body Sample.water_plants_note))
       /\ vault w2 !! path Sample.water_plants
          = Some (mkNote (strip_rule (frontmatter Sample.water_plants_note))
                    (body Sample.water_plants_note)).
Proof.
  split; [vm_compute; reflexivity|].
  apply (proj2 (existing_successor_not_duplicated Sample.calm Sample.water_plants
                  Sample.water_plants_fm None (Sample.garden DEFAULT_SETTINGS [])
                  (VAtom (AStr "RRULE:FREQ=WEEKLY")) Sample.next_week
                  Sample.water_plants_note
                  ltac:(vm_compute; reflexivity) ltac:(vm_compute; reflexivity)
                  ltac:(vm_compute; reflexivity) ltac:(vm_compute; reflexivity)
                  ltac:(vm_compute; reflexivity) ltac:(vm_compute; reflexivity)));
    vm_compute; reflexivity.
Defined.

Lemma applyToFiles_suppresses_prompts_witness :
  clock (Sample.garden DEFAULT_SETTINGS []) <> 0
  /\ exists n w',
       applyToFiles Sample.flaky [Sample.broken; Sample.picture; Sample.water_plants]
         (fun fm _ => add_tag_cb "urgent" "tags" fm) (Sample.garden DEFAULT_SETTINGS [])
       = Ret n w'
       /\ forall f,
            In f [Sample.broken; Sample.picture; Sample.water_plants] ->
            is_markdown f = true ->
            modifiedFiles w' !! path f = Some (clock (Sample.garden DEFAULT_SETTINGS []))
            /\ forall t,
                 t <= clock (Sample.garden DEFAULT_SETTINGS [])
                      + sessionDuration (Sample.garden DEFAULT_SETTINGS []) ->
                 SessionTracker.wasRecentlyModified (path f) (set_clock t w')
                 = (true, set_clock t w')
                 /\ (forall fuel,
                       handleFileFocus Sample.flaky fuel f (set_clock t w')
                       = Ret tt (set_clock t w'))
                 /\ (forall fuel,
                       handleFileModification Sample.flaky fuel f (set_clock t w')
                       = Ret tt (set_clock t w'))
                 /\ (forall fuel desc,
                       promptForFrontmatterChange Sample.flaky fuel f desc (set_clock t w')
                       = Ret UpdateAll (set_clock t w')).
Proof.
  split; [discriminate|].
  apply (applyToFiles_suppresses_prompts Sample.flaky
           [Sample.broken; Sample.picture; Sample.water_plants]
           (fun fm _ => add_tag_cb "urgent" "tags" fm) (Sample.garden DEFAULT_SETTINGS [])).
  discriminate.
Defined.

(** ** Rules for running computations *)

Lemma bind_assoc {A B C} (m : M A) (k1 : A -> M B) (k2 : B -> M C) w :
  bind (bind m k1) k2 w = bind m (fun a => bind (k1 a) k2) w.
Proof. unfold bind. destruct (m w); reflexivity. Qed.

Lemma wp_ret {A} (a : A) w (Q : A -> World -> Prop) Qt : Q a w -> wp (ret a) w Q Qt.
Proof. intros H. exact H. Qed.

Lemma wp_lift f w (Q : unit -> World -> Prop) Qt : Q tt (f w) -> wp (lift f) w Q Qt.
Proof. intros H. exact H. Qed.

Lemma wp_bind {A B} (m : M A) (k : A -> M B) w (Q : B -> World -> Prop) Qt :
  wp m w (fun a w' => wp (k a) w' Q Qt) Qt -> wp (bind m k) w Q Qt.
Proof. unfold wp, bind. destruct (m w); auto. Qed.

Lemma wp_try_catch {A} (m h : M A) w (Q : A -> World -> Prop) Qt :
  wp m w Q (fun w' => wp h w' Q Qt) -> wp (try_catch m h) w Q Qt.
Proof. unfold wp, try_catch. destruct (m w); auto. Qed.

Lemma wp_conseq {A} (m : M A) w (Q Q' : A -> World -> Prop) (Qt Qt' : World -> Prop) :
  wp m w Q Qt -> (forall a w', Q a w' -> Q' a w') -> (forall w', Qt w' -> Qt' w') ->
  wp m w Q' Qt'.
Proof. unfold wp. destruct (m w); auto. Qed.

Lemma wp_processFrontMatter E p fn w (Q : unit -> World -> Prop) (Qt : World -> Prop) :
  Qt w ->
  (forall n, vault w !! p = Some n ->
     Q tt (reindex E p
             (set_vault (<[p := mkNote (fn (frontmatter n)) (body n)]> (vault w))
                (rewrite_block E p (fn (frontmatter n)) w)))) ->
  wp (processFrontMatter E p fn) w Q Qt.
Proof.
  intros Ht Hq. unfold wp.
  destruct (processFrontMatter_cases E p fn w) as [-> | (n & Hn & _ & ->)]; auto.
Qed.

Lemma wp_vault_read E p w (Q : FileContent -> World -> Prop) (Qt : World -> Prop) :
  Qt w -> (forall n, vault w !! p = Some n -> Q (mkFileContent (block_at p w) n) w) ->
  wp (vault_read E p) w Q Qt.
Proof.
  intros Ht Hq. unfold wp, vault_read.
  destruct (io_fails E OpRead p); [exact Ht|].
  destruct (vault w !! p); auto.
Qed.

Lemma wp_vault_create E p c w (Q : unit -> World -> Prop) (Qt : World -> Prop) :
  Qt w ->
  (vault w !! p = None -> Q tt (store E p c w)) ->
  wp (vault_create E p c) w Q Qt.
Proof.
  intros Ht Hq. unfold wp, vault_create.
  destruct (io_fails E OpCreate p); [exact Ht|].
  destruct (vault w !! p); auto.
Qed.

Lemma wp_adapter_exists E p w (Q : bool -> World -> Prop) (Qt : World -> Prop) :
  Qt w -> Q (bool_decide (is_Some (vault w !! p))) w -> wp (adapter_exists E p) w Q Qt.
Proof.
  intros Ht Hq. unfold wp, adapter_exists. destruct (io_fails E OpExists p); auto.
Qed.

(** ** What successor creation can do to the world *)

Lemma Evo_refl pN w : Evo pN w w.
Proof.
  unfold Evo. repeat (split; [reflexivity|]). split; [auto|]. split; [|split].
  - intros n Hn. exists (frontmatter n). destruct n. auto.
  - auto.
  - now exists [].
Qed.

(** A step that writes to the console or the trace only. *)
Lemma Evo_quiet pN w0 w w' :
  Evo pN w0 w ->
  settings w' = settings w -> vault w' = vault w -> metadataCache w' = metadataCache w ->
  modifiedFiles w' = modifiedFiles w -> sessionDuration w' = sessionDuration w ->
  clock w' = clock w -> answers w' = answers w ->
  checklistAnswers w' = checklistAnswers w -> loggingEnabled w' = loggingEnabled w ->
  (exists evs, trace w' = (evs ++ trace w)%list) ->
  Evo pN w0 w'.
Proof.
  intros (H1 & H2 & H3 & H4 & H5 & H6 & H7 & H8 & H9 & H9' & evs & H10)
    E1 E2 E3 E4 E5 E6 E7 E8 E9 (evs' & E10).
  unfold Evo. rewrite E1, E2, E3, E4, E5, E6, E7, E8, E9.
  repeat (split; [assumption|]).
  exists (evs' ++ evs)%list. now rewrite E10, H10, app_assoc.
Qed.

Lemma Evo_logger_warn pN w0 w msg : Evo pN w0 w -> Evo pN w0 (logger_warn msg w).
Proof.
  intros H. destruct (logger_warn_fields msg w)
    as (E1 & E2 & E3 & E4 & E5 & E6 & E7 & E8 & E9 & E10).
  apply (Evo_quiet pN w0 w); auto. exists []. exact E8.
Qed.

Lemma Evo_logger_error pN w0 w msg : Evo pN w0 w -> Evo pN w0 (logger_error msg w).
Proof.
  intros H. destruct (logger_error_fields msg w)
    as (E1 & E2 & E3 & E4 & E5 & E6 & E7 & E8 & E9 & E10).
  apply (Evo_quiet pN w0 w); auto. exists []. exact E8.
Qed.

Lemma Evo_emit pN w0 w ev : Evo pN w0 w -> Evo pN w0 (emit ev w).
Proof. intros H. apply (Evo_quiet pN w0 w); auto. now exists [ev]. Qed.

Lemma reindex_cache_other E q p w :
  p <> q -> metadataCache (reindex E q w) !! p = metadataCache w !! p.
Proof.
  intros Hne. unfold reindex. destruct (eager_index E); [|reflexivity].
  destruct (vault w !! q); [|reflexivity]. cbn. now rewrite lookup_insert_ne.
Qed.

(** A path that is free now was free before. *)
Lemma Evo_free pN w0 w t : Evo pN w0 w -> vault w !! t = None -> vault w0 !! t = None.
Proof.
  intros (_ & _ & _ & _ & _ & _ & _ & H8 & H9 & _) Hfree.
  destruct (vault w0 !! t) as [n|] eqn:Hn; [|reflexivity].
  destruct (decide (t = pN)) as [->|Hne].
  - destruct (H9 n Hn) as (fm' & Hv & _). congruence.
  - destruct (H8 t n Hne Hn) as [Hv _]. congruence.
Qed.

(** A write at another path, one that did not exist in [w0]. *)
Lemma Evo_write_new E pN w0 w t c b :
  Evo pN w0 w -> vault w0 !! t = None -> t <> pN ->
  Evo pN w0 (reindex E t (set_vault (<[t := c]> (vault w)) (set_frontmatterBlock b w))).
Proof.
  intros (H1 & H2 & H3 & H4 & H5 & H6 & H7 & H8 & H9 & H9' & H10) Hfree HtN.
  unfold Evo. frame_simpl. repeat (split; [assumption|]). split; [|split; [|split]].
  - intros p n Hne Hn. assert (p <> t) by congruence.
    rewrite lookup_insert_ne by congruence. rewrite reindex_cache_other by assumption.
    cbn [metadataCache set_vault rewrite_block put_block set_frontmatterBlock]. now apply H8.
  - intros n Hn. rewrite lookup_insert_ne by congruence. now apply H9.
  - intros Hn. rewrite lookup_insert_ne by congruence. now apply H9'.
  - exact H10.
Qed.

(** The note the world holds at [pN] descends from the one [w0] held. *)
Lemma Evo_source pN w0 w n :
  Evo pN w0 w -> vault w !! pN = Some n ->
  exists n0, vault w0 !! pN = Some n0
             /\ mkNote (strip_rule (frontmatter n)) (body n)
                = mkNote (strip_rule (frontmatter n0)) (body n0).
Proof.
  intros (_ & _ & _ & _ & _ & _ & _ & _ & H9 & H9' & _) Hn.
  destruct (vault w0 !! pN) as [n0|] eqn:Hn0.
  - exists n0. split; [reflexivity|].
    destruct (H9 n0 eq_refl) as (fm' & Hv & Hfm). rewrite Hv in Hn. injection Hn as <-.
    cbn [frontmatter body]. destruct Hfm as [->| ->]; [reflexivity|].
    now rewrite strip_rule_idem.
  - rewrite H9' in Hn by reflexivity. discriminate.
Qed.

(** The rule fields of the note itself are deleted. *)
Lemma Evo_strip E pN w0 w n b :
  Evo pN w0 w -> vault w !! pN = Some n ->
  Evo pN w0
    (reindex E pN (set_vault (<[pN := mkNote (strip_rule (frontmatter n)) (body n)]> (vault w))
                     (set_frontmatterBlock b w))).
Proof.
  intros HE Hn. destruct (Evo_source pN w0 w n HE Hn) as (n0 & Hn0 & Heq).
  destruct HE as (H1 & H2 & H3 & H4 & H5 & H6 & H7 & H8 & H9 & H9' & H10).
  unfold Evo. frame_simpl. repeat (split; [assumption|]). split; [|split; [|split]].
  - intros p n' Hne Hn'. rewrite lookup_insert_ne by congruence.
    rewrite reindex_cache_other by assumption. cbn [metadataCache set_vault rewrite_block
          put_block set_frontmatterBlock]. now apply H8.
  - intros n1 Hn1. rewrite lookup_insert_eq. rewrite Heq.
    assert (n1 = n0) as -> by congruence. eexists. split; [reflexivity|]. now right.
  - intros Hnone. congruence.
  - exact H10.
Qed.

Lemma rule_of_truthy fm r : rule_of fm = Some r -> truthy r = true -> has_rule fm = true.
Proof. intros Hr Ht. unfold has_rule. now rewrite Hr. Qed.

(** Everything [createNextRecurrenceInstance] can do, whatever the host
    does: it always resolves; the world evolves as [Evo] allows; the call
    is recorded in the trace; and [true] is returned only for a rule-bearing
    snapshot, after the rule fields of the note itself were deleted. *)
Lemma createNext_effect E file fm carry w :
  wp (createNextRecurrenceInstance E file fm carry) w
    (fun b w' =>
       Evo (path file) (emit (EvCreateNext (path file) carry) w) w'
       /\ (b = true ->
           has_rule fm = true
           /\ exists n0, vault w !! path file = Some n0
                /\ vault w' !! path file
                   = Some (mkNote (strip_rule (frontmatter n0)) (body n0))))
    (fun _ => False).
Proof.
  unfold createNextRecurrenceInstance.
  apply wp_bind, wp_lift.
  set (w0 := emit (EvCreateNext (path file) carry) w).
  set (pN := path file).
  set (Q := fun (b : bool) (w' : World) =>
              Evo pN w0 w'
              /\ (b = true ->
                  has_rule fm = true
                  /\ exists n0, vault w !! pN = Some n0
                       /\ vault w' !! pN
                          = Some (mkNote (strip_rule (frontmatter n0)) (body n0)))).
  change (wp (try_catch (createNextRecurrenceInstance_try E file fm)
                (lift (logger_error "[TPS GCM] Failed to create next recurrence instance:") ;;;
                 Notice "Failed to create next recurrence instance" ;;;
                 ret false)) w0 Q (fun _ => False)).
  apply wp_try_catch.
  assert (Hhandler : forall wc, Evo pN w0 wc ->
            wp (lift (logger_error "[TPS GCM] Failed to create next recurrence instance:") ;;;
                Notice "Failed to create next recurrence instance" ;;;
                ret false) wc Q (fun _ => False)).
  { intros wc HE. apply wp_bind, wp_lift, wp_bind, wp_lift, wp_ret.
    split; [|discriminate]. now apply Evo_emit, Evo_logger_error. }
  assert (Hclear : forall wc, Evo pN w0 wc -> has_rule fm = true ->
            wp (clearRecurrenceRule E file) wc
              (fun _ w' =>
                 Evo pN w0 w'
                 /\ exists n0, vault w !! pN = Some n0
                      /\ vault w' !! pN
                         = Some (mkNote (strip_rule (frontmatter n0)) (body n0)))
              (fun w' => Evo pN w0 w')).
  { intros wc HE Hrule. apply wp_processFrontMatter; [exact HE|].
    intros n Hn. split; [now apply Evo_strip|].
    destruct (Evo_source pN w0 wc n HE Hn) as (n0 & Hn0 & Heq).
    exists n0. split; [exact Hn0|]. frame_simpl. now rewrite lookup_insert_eq, Heq. }
  unfold createNextRecurrenceInstance_try.
  destruct (rule_of fm) as [r|] eqn:Hr;
    [|apply wp_ret; split; [apply Evo_refl | discriminate]].
  destruct (truthy r) eqn:Ht; cbn [negb];
    [|apply wp_ret; split; [apply Evo_refl | discriminate]].
  pose proof (rule_of_truthy fm r Hr Ht) as Hrule.
  unfold wp at 1.
  destruct (getNextOccurrence E r (fm !! "scheduled") w0) as [nd w1] eqn:Hg.
  assert (HE1 : Evo pN w0 w1).
  { destruct (getNextOccurrence_frame E r (fm !! "scheduled") w0)
      as (E1 & E2 & E3 & E4 & E5 & E6 & E7 & E8 & E9 & E10).
    rewrite Hg in *. cbn [snd] in *.
    apply (Evo_quiet pN w0 w0); auto using Evo_refl. exists []. exact E8. }
  clear Hg. destruct nd as [d|].
  - (* a date was computed *)
    fold (wp (A := bool)).
    change (wp (found <- adapter_exists E (successor_path E file d) ;;
                if found : bool then
                  lift (logger_warn
                          "[TPS GCM] Next recurrence already exists, skipping creation:") ;;;
                  clearRecurrenceRule E file ;;; ret true
                else
                  content <- vault_read E (path file) ;;
                  vault_create E (successor_path E file d) content ;;;
                  fun w2 =>
                    match vault w2 !! successor_path E file d with
                    | None =>
                        Ret false
                          (logger_error "[TPS GCM] Could not get newly created file" w2)
                    | Some _ =>
                        (processFrontMatter E (successor_path E file d)
                           (successor_patch E file d (settings w2)) ;;;
                         clearRecurrenceRule E file ;;;
                         Notice ("Created next recurrence: " ++ successor_fileName E file d) ;;;
                         ret true) w2
                    end) w1 Q (fun w' => wp
                (lift (logger_error "[TPS GCM] Failed to create next recurrence instance:") ;;;
                 Notice "Failed to create next recurrence instance" ;;;
                 ret false) w' Q (fun _ => False))).
    set (t := successor_path E file d).
    apply wp_bind, wp_adapter_exists; [now apply Hhandler|].
    destruct (bool_decide (is_Some (vault w1 !! t))).
    + apply wp_bind, wp_lift, wp_bind.
      eapply wp_conseq; [apply Hclear; [now apply Evo_logger_warn | exact Hrule]| |].
      * intros _ w' [HE' Hn']. apply wp_ret. split; auto.
      * intros w' HE'. now apply Hhandler.
    + apply wp_bind, wp_vault_read; [now apply Hhandler|]. intros n Hn.
      apply wp_bind, wp_vault_create; [now apply Hhandler|]. intros Hfree.
      assert (Hfree0 : vault w0 !! t = None) by now apply (Evo_free pN w0 w1).
      assert (HtN : t <> pN) by (intros ->; unfold pN in Hfree; congruence).
      set (w2 := store E t _ w1).
      assert (HE2 : Evo pN w0 w2)
        by (unfold w2, store, put_block; cbn [content_note content_block];
            now apply Evo_write_new).
      unfold wp at 1.
      assert (Hv2 : vault w2 !! t = Some n)
        by (unfold w2; frame_simpl; apply lookup_insert_eq).
      rewrite Hv2. fold (wp (A := bool)).
      change (wp (processFrontMatter E t (successor_patch E file d (settings w2)) ;;;
                  clearRecurrenceRule E file ;;;
                  Notice ("Created next recurrence: " ++ successor_fileName E file d) ;;;
                  ret true) w2 Q (fun w' => wp
                (lift (logger_error "[TPS GCM] Failed to create next recurrence instance:") ;;;
                 Notice "Failed to create next recurrence instance" ;;;
                 ret false) w' Q (fun _ => False))).
      apply wp_bind, wp_processFrontMatter; [now apply Hhandler|]. intros n2 Hn2.
      apply wp_bind.
      eapply wp_conseq;
        [apply Hclear; [now apply Evo_write_new | exact Hrule]| |].
      * intros _ w' [HE' (n0 & Hn0 & Hv')].
        apply wp_bind, wp_lift, wp_ret. split; [now apply Evo_emit|].
        intros _. split; [exact Hrule|]. exists n0. split; [exact Hn0|].
        frame_simpl. exact Hv'.
      * intros w' HE'. now apply Hhandler.
  - (* no date *)
    fold (wp (A := bool)).
    change (wp (lift (logger_warn "[TPS GCM] Could not calculate next recurrence date") ;;;
                clearRecurrenceRule E file ;;; ret true) w1 Q (fun w' => wp
                (lift (logger_error "[TPS GCM] Failed to create next recurrence instance:") ;;;
                 Notice "Failed to create next recurrence instance" ;;;
                 ret false) w' Q (fun _ => False))).
    apply wp_bind, wp_lift, wp_bind.
    eapply wp_conseq; [apply Hclear; [now apply Evo_logger_warn | exact Hrule]| |].
    + intros _ w' [HE' Hn']. apply wp_ret. split; auto.
    + intros w' HE'. now apply Hhandler.
Qed.

(** The same, read from the world before the call. *)
Lemma createNext_total E file fm carry w :
  exists b w',
    createNextRecurrenceInstance E file fm carry w = Ret b w'
    /\ Evo (path file) w w'
    /\ In (EvCreateNext (path file) carry) (trace w')
    /\ (b = true ->
        has_rule fm = true
        /\ exists n0, vault w !! path file = Some n0
             /\ vault w' !! path file
                = Some (mkNote (strip_rule (frontmatter n0)) (body n0))).
Proof.
  pose proof (createNext_effect E file fm carry w) as H. unfold wp in H.
  destruct (createNextRecurrenceInstance E file fm carry w) as [b w'| | |];
    try contradiction.
  destruct H as [HE Hb]. exists b, w'. split; [reflexivity|].
  destruct HE as (H1 & H2 & H3 & H4 & H5 & H6 & H7 & H8 & H9 & H9' & evs & H10).
  cbn [emit set_trace settings modifiedFiles sessionDuration clock answers checklistAnswers
       loggingEnabled vault metadataCache trace] in *.
  split; [|split; [|exact Hb]].
  - unfold Evo. repeat (split; [assumption|]).
    exists (evs ++ [EvCreateNext (path file) carry])%list.
    now rewrite H10, <- app_assoc.
  - rewrite H10. apply in_or_app. right. now left.
Qed.

(** ** Rules for invariants *)

Lemma preserves_ret {A} (P : World -> Prop) (a : A) : preserves P (ret a).
Proof. intros w H. exact H. Qed.

Lemma preserves_lift (P : World -> Prop) f :
  (forall w, P w -> P (f w)) -> preserves P (lift f).
Proof. intros Hf w H. now apply Hf. Qed.

Lemma preserves_bind {A B} (P : World -> Prop) (m : M A) (k : A -> M B) :
  preserves P m -> (forall a, preserves P (k a)) -> preserves P (bind m k).
Proof.
  intros Hm Hk w H. unfold bind. specialize (Hm w H).
  destruct (m w) as [a w'| | |]; auto. now apply Hk.
Qed.

Lemma preserves_try_catch {A} (P : World -> Prop) (m h : M A) :
  preserves P m -> preserves P h -> preserves P (try_catch m h).
Proof.
  intros Hm Hh w H. unfold try_catch. specialize (Hm w H).
  destruct (m w) as [a w'|w'| |]; auto. now apply Hh.
Qed.

Lemma preserves_processFrontMatter E (P : World -> Prop) p fn :
  (forall w n b, P w -> vault w !! p = Some n ->
     P (reindex E p (set_vault (<[p := mkNote (fn (frontmatter n)) (body n)]> (vault w))
                       (set_frontmatterBlock b w)))) ->
  preserves P (processFrontMatter E p fn).
Proof.
  intros Hp w H.
  destruct (processFrontMatter_cases E p fn w) as [-> | (n & Hn & _ & ->)]; auto.
  now apply Hp.
Qed.

Lemma preserves_wasRecentlyModified (P : World -> Prop) p :
  storage_only P -> preserves P (wasRecentlyModified p).
Proof.
  intros HP w H. unfold wasRecentlyModified.
  destruct (TrackerFacts.lookup_frame p w) as (E1 & E2 & E3 & _).
  destruct (SessionTracker.wasRecentlyModified p w) as [b w']. cbn [snd] in *.
  now apply (HP w).
Qed.

Lemma preserves_promptUser (P : World -> Prop) desc file :
  storage_only P -> preserves P (promptUser desc file).
Proof.
  intros HP w H. unfold promptUser. cbn [answers emit set_trace].
  destruct (answers w); now apply (HP w).
Qed.

Lemma preserves_mark (P : World -> Prop) p :
  storage_only P -> preserves P (lift (SessionTracker.markAsModified p)).
Proof. intros HP. apply preserves_lift. intros w H. now apply (HP w). Qed.

Lemma preserves_Notice (P : World -> Prop) msg : storage_only P -> preserves P (Notice msg).
Proof. intros HP. apply preserves_lift. intros w H. now apply (HP w). Qed.

Lemma preserves_logger_error (P : World -> Prop) msg :
  storage_only P -> preserves P (lift (logger_error msg)).
Proof.
  intros HP. apply preserves_lift. intros w H.
  destruct (logger_error_fields msg w) as (E1 & E2 & E3 & _). now apply (HP w).
Qed.

(** [applyToFiles] keeps an invariant that every single step keeps. *)
Lemma applyToFiles_from_invariant E (P : World -> Prop) cb files :
  (forall w p, P w -> P (markFileAsModified p w)) ->
  (forall w msg, P w -> P (logger_error msg w)) ->
  (forall f w n b, In f files -> P w -> vault w !! path f = Some n ->
     P (reindex E (path f)
          (set_vault (<[path f := mkNote (cb (frontmatter n) f) (body n)]> (vault w))
             (set_frontmatterBlock b w)))) ->
  forall count, preserves P (applyToFiles_from E count files cb).
Proof.
  intros Hmark Hlog. induction files as [|f rest IH]; intros Hstep count.
  - apply preserves_ret.
  - cbn [applyToFiles_from]. destruct (negb (is_markdown f)).
    + apply IH. intros g w n b Hg. apply Hstep. now right.
    + apply preserves_bind.
      * apply preserves_try_catch.
        -- apply preserves_bind; [apply preserves_lift; intros w; apply Hmark|]. intros _.
           apply preserves_bind; [|intros _; apply preserves_ret].
           apply preserves_processFrontMatter. intros w n b. apply (Hstep f). now left.
        -- apply preserves_bind; [apply preserves_lift; intros w; apply Hlog|].
           intros _. apply preserves_ret.
      * intros c. apply IH. intros g w n b Hg. apply Hstep. now right.
Qed.

(** What is written of the blocks does not show in the vault, the cache
    or the settings. *)
Lemma block_blind E p v b w :
  vault (reindex E p (set_vault v (set_frontmatterBlock b w)))
  = vault (reindex E p (set_vault v w))
  /\ metadataCache (reindex E p (set_vault v (set_frontmatterBlock b w)))
     = metadataCache (reindex E p (set_vault v w))
  /\ settings (reindex E p (set_vault v (set_frontmatterBlock b w)))
     = settings (reindex E p (set_vault v w)).
Proof.
  unfold reindex. cbn [vault set_vault].
  destruct (eager_index E); [destruct (v !! p)|]; repeat split; reflexivity.
Qed.

Lemma storage_only_block E (P : World -> Prop) p v b w :
  storage_only P ->
  P (reindex E p (set_vault v w)) ->
  P (reindex E p (set_vault v (set_frontmatterBlock b w))).
Proof.
  intros HP H. destruct (block_blind E p v b w) as (H1 & H2 & H3).
  now apply (HP (reindex E p (set_vault v w))).
Qed.

Lemma applyToFiles_from_preserves E (P : World -> Prop) cb files :
  storage_only P ->
  (forall f w n, In f files -> P w -> vault w !! path f = Some n ->
     P (reindex E (path f)
          (set_vault (<[path f := mkNote (cb (frontmatter n) f) (body n)]> (vault w)) w))) ->
  forall count, preserves P (applyToFiles_from E count files cb).
Proof.
  intros HP Hstep. apply applyToFiles_from_invariant.
  - intros w p H. now apply (HP w).
  - intros w msg H. destruct (logger_error_fields msg w) as (E1 & E2 & E3 & _).
    now apply (HP w).
  - intros f w n b Hf H Hn. apply storage_only_block; [exact HP|]. now apply Hstep.
Qed.

Lemma applyToFiles_keeps_trace E cb files count w n w' :
  applyToFiles_from E count files cb w = Ret n w' -> trace w' = trace w.
Proof.
  intros Hrun.
  pose proof (applyToFiles_from_invariant E (fun w1 => trace w1 = trace w) cb files) as H.
  specialize (H ltac:(intros w1 p H1; exact H1)).
  specialize (H ltac:(intros w1 msg H1; destruct (logger_error_fields msg w1)
                        as (_ & _ & _ & _ & _ & _ & _ & E8 & _); congruence)).
  specialize (H ltac:(intros f w1 n1 b _ H1 _; frame_simpl; exact H1) count w eq_refl).
  now rewrite Hrun in H.
Qed.

(** [applyToFiles] resolves, always. *)
Lemma applyToFiles_resolves E cb files count w :
  exists n w', applyToFiles_from E count files cb w = Ret n w'.
Proof.
  destruct (applyToFiles_from_marks E cb files count w) as (n & w' & H & _). eauto.
Qed.

(** ** Completing recurring notes *)

Lemma Evo_clean pN w w' f : Evo pN w w' -> clean w f -> clean w' f.
Proof.
  intros (_ & _ & _ & _ & _ & _ & _ & H8 & H9 & _) (n & Hn & Hc). unfold clean.
  destruct (decide (path f = pN)) as [Heq|Hne].
  - rewrite Heq in *. destruct (H9 n Hn) as (fm' & Hv & [->| ->]).
    + eexists. split; [exact Hv|]. exact Hc.
    + eexists. split; [exact Hv|]. apply strip_rule_has_rule.
  - destruct (H8 (path f) n Hne Hn) as [Hv _]. exists n. auto.
Qed.

Lemma Evo_seen pN w w' f :
  Evo pN w w' ->
  (forall n', vault w' !! pN = Some n' -> has_rule (frontmatter n') = false) ->
  seen w f -> seen w' f.
Proof.
  intros HE Hclean (n & Hn & Hs).
  destruct HE as (_ & _ & _ & _ & _ & _ & _ & H8 & H9 & _). unfold seen.
  destruct (decide (path f = pN)) as [Heq|Hne].
  - rewrite Heq in *. destruct (H9 n Hn) as (fm' & Hv & _).
    eexists. split; [exact Hv|]. left. now apply (Hclean _ Hv).
  - destruct (H8 (path f) n Hne Hn) as [Hv Hc]. exists n. split; [exact Hv|].
    rewrite Hc. exact Hs.
Qed.

Lemma Evo_trans_fields pN w w' :
  Evo pN w w' ->
  settings w' = settings w /\ modifiedFiles w' = modifiedFiles w
  /\ sessionDuration w' = sessionDuration w /\ clock w' = clock w
  /\ answers w' = answers w /\ checklistAnswers w' = checklistAnswers w
  /\ exists evs, trace w' = (evs ++ trace w)%list.
Proof. intros (H1 & H2 & H3 & H4 & H5 & H6 & _ & _ & _ & _ & H10). auto 10. Qed.

(** One turn of the recurrence loop of [setStatus] on a rule-bearing
    snapshot: successor creation, then the explicit clearing when it was
    not handled. *)
Lemma complete_one E file fm carry w :
  io_fails E OpPatch (path file) = false ->
  is_Some (vault w !! path file) ->
  exists w',
    (handled <- createNextRecurrenceInstance E file fm carry ;;
     if handled : bool then ret tt else clearRecurrenceRule E file) w = Ret tt w'
    /\ Evo (path file) w w'
    /\ In (EvCreateNext (path file) carry) (trace w')
    /\ exists n', vault w' !! path file = Some n' /\ has_rule (frontmatter n') = false.
Proof.
  intros Hio [n Hn].
  destruct (createNext_total E file fm carry w) as (b & w1 & Hrun & HE & Hev & Hb).
  unfold bind. rewrite Hrun. destruct b.
  - destruct (Hb eq_refl) as (_ & n0 & Hn0 & Hv). exists w1. cbn [ret].
    split; [reflexivity|]. split; [exact HE|]. split; [exact Hev|].
    eexists. split; [exact Hv|]. apply strip_rule_has_rule.
  - assert (Hn1 : exists n1, vault w1 !! path file = Some n1).
    { destruct HE as (_ & _ & _ & _ & _ & _ & _ & _ & H9 & _).
      destruct (H9 n Hn) as (fm' & Hv & _). eauto. }
    destruct Hn1 as [n1 Hn1].
    rewrite (clearRecurrenceRule_ok E file w1 n1 Hn1 Hio).
    eexists. split; [reflexivity|]. split; [now apply Evo_strip|].
    split; [frame_simpl; exact Hev|].
    eexists. frame_simpl. split; [apply lookup_insert_eq|]. apply strip_rule_has_rule.
Qed.

Lemma complete_recurrences_spec E files :
  forall w,
  (forall f, In f files -> io_fails E OpPatch (path f) = false) ->
  (forall f, In f files -> seen w f) ->
  exists w',
    complete_recurrences E files w = Ret tt w'
    /\ (forall f, In f files -> clean w' f)
    /\ (forall f, seen w f -> seen w' f)
    /\ (forall f, clean w f -> clean w' f)
    /\ settings w' = settings w /\ modifiedFiles w' = modifiedFiles w
    /\ sessionDuration w' = sessionDuration w /\ clock w' = clock w
    /\ answers w' = answers w /\ checklistAnswers w' = checklistAnswers w
    /\ (exists evs, trace w' = (evs ++ trace w)%list)
    /\ (forall f fm, In f files -> metadataCache w !! path f = Some fm ->
          has_rule fm = true ->
          In (EvCreateNext (path f) (js_or (fm !! "status") (Some (VAtom ANull))))
             (trace w')).
Proof.
  induction files as [|g rest IH]; intros w Hio Hseen.
  - exists w. cbn. repeat (split; [now auto|]). split; [now exists []|]. intros f fm [].
  - cbn [complete_recurrences]. unfold getFileCache.
    assert (Hio_rest : forall f, In f rest -> io_fails E OpPatch (path f) = false)
      by (intros f Hf; apply Hio; now right).
    destruct (metadataCache w !! path g) as [fm|] eqn:Hc;
      [destruct (has_rule fm) eqn:Hr|].
    + (* the cache shows a rule *)
      destruct (Hseen g (or_introl eq_refl)) as (n & Hn & _).
      destruct (complete_one E g fm (js_or (fm !! "status") (Some (VAtom ANull))) w
                  (Hio g (or_introl eq_refl)) (ex_intro _ n Hn))
        as (w1 & Hrun & HE & Hev & n1 & Hn1 & Hclean1).
      assert (Hclean_at : forall n', vault w1 !! path g = Some n' ->
                                     has_rule (frontmatter n') = false) by congruence.
      destruct (IH w1 Hio_rest) as (w' & Hrest & Hcl & Hse & Hpres & F1 & F2 & F3 & F4 & F5
                                    & F6 & (evs & F7) & Hevs).
      { intros f Hf. apply (Evo_seen (path g) w w1); auto. apply Hseen. now right. }
      destruct (Evo_trans_fields _ _ _ HE) as (G1 & G2 & G3 & G4 & G5 & G6 & evs1 & G7).
      exists w'. split.
      { rewrite <- Hrest. rewrite <- bind_assoc. unfold bind at 1. now rewrite Hrun. }
      split.
      { intros f [<-|Hf]; [|now apply Hcl]. apply Hpres. exists n1. auto. }
      split. { intros f Hf. apply Hse. now apply (Evo_seen (path g) w w1). }
      split. { intros f Hf. apply Hpres. now apply (Evo_clean (path g) w w1). }
      repeat (split; [congruence|]).
      split. { exists (evs ++ evs1)%list. now rewrite F7, G7, app_assoc. }
      intros f fm' [<-|Hf] Hcf Hrf.
      * rewrite Hc in Hcf. injection Hcf as <-. rewrite F7. apply in_or_app. now right.
      * destruct (decide (path f = path g)) as [Heq|Hne].
        -- rewrite Heq in *. rewrite Hc in Hcf. injection Hcf as <-.
           rewrite F7. apply in_or_app. now right.
        -- apply Hevs; [exact Hf| |exact Hrf].
           destruct (Hseen f (or_intror Hf)) as (nf & Hnf & _).
           destruct HE as (_ & _ & _ & _ & _ & _ & _ & H8 & _).
           destruct (H8 (path f) nf Hne Hnf) as [_ ->]. exact Hcf.
    + (* the cache shows no rule *)
      destruct (IH w Hio_rest) as (w' & Hrest & Hcl & Hse & Hpres & Hframe).
      { intros f Hf. apply Hseen. now right. }
      exists w'. split; [exact Hrest|]. split.
      { intros f [<-|Hf]; [|now apply Hcl]. apply Hpres.
        destruct (Hseen g (or_introl eq_refl)) as (n & Hn & [Hcn|(fm' & Hfm' & Hr')]).
        - exists n. auto.
        - rewrite Hc in Hfm'. injection Hfm' as <-. congruence. }
      split; [exact Hse|]. split; [exact Hpres|].
      destruct Hframe as (F1 & F2 & F3 & F4 & F5 & F6 & F7 & Hevs).
      repeat (split; [assumption|]).
      intros f fm' [<-|Hf] Hcf Hrf; [congruence|]. now apply Hevs.
    + destruct (IH w Hio_rest) as (w' & Hrest & Hcl & Hse & Hpres & Hframe).
      { intros f Hf. apply Hseen. now right. }
      exists w'. split; [exact Hrest|]. split.
      { intros f [<-|Hf]; [|now apply Hcl]. apply Hpres.
        destruct (Hseen g (or_introl eq_refl)) as (n & Hn & [Hcn|(fm' & Hfm' & Hr')]).
        - exists n. auto.
        - congruence. }
      split; [exact Hse|]. split; [exact Hpres|].
      destruct Hframe as (F1 & F2 & F3 & F4 & F5 & F6 & F7 & Hevs).
      repeat (split; [assumption|]).
      intros f fm' [<-|Hf] Hcf Hrf; [congruence|]. now apply Hevs.
Qed.

Lemma lookup_apply_updates updates fm k :
  apply_updates updates fm !! k
  = match updates !! k with
    | Some v => if is_null v then None else Some v
    | None => fm !! k
    end.
Proof. unfold apply_updates. rewrite lookup_merge. destruct (updates !! k), (fm !! k); reflexivity. Qed.

Lemma has_rule_apply_updates updates fm :
  updates !! "recurrenceRule" = None -> updates !! "recurrence" = None ->
  has_rule (apply_updates updates fm) = has_rule fm.
Proof.
  intros H1 H2. unfold has_rule, rule_of. now rewrite !lookup_apply_updates, H1, H2.
Qed.

(** With a [status] key among the updates, the prompt loop of
    [updateFrontmatter] passes over every file. *)
Lemma prompts_skip_status E inner files updates w :
  is_Some (updates !! "status") ->
  updateFrontmatter_prompts E inner files updates w = Ret false w.
Proof.
  intros Hs. induction files as [|f rest IH]; [reflexivity|].
  cbn [updateFrontmatter_prompts].
  destruct (getFileCache f w) as [fm|]; [|exact IH].
  destruct (has_rule fm); [|exact IH].
  destruct (status_is_done fm); [exact IH|].
  now rewrite bool_decide_eq_true_2.
Qed.

(** When the host accepts every patch, each markdown file of the batch ends
    with whatever the callback establishes. *)
Lemma applyToFiles_establishes E cb (Pe : gmap string value -> Prop) files :
  (forall fm f, Pe (cb fm f)) ->
  forall count w,
  (forall f, In f files -> is_markdown f = true ->
     io_fails E OpPatch (path f) = false /\ is_Some (vault w !! path f)) ->
  exists n w',
    applyToFiles_from E count files cb w = Ret n w'
    /\ forall f, In f files -> is_markdown f = true ->
         exists n', vault w' !! path f = Some n' /\ Pe (frontmatter n').
Proof.
  intros Hcb. induction files as [|f rest IH]; intros count w Hok.
  - exists count, w. split; [reflexivity|]. intros f [].
  - cbn [applyToFiles_from]. destruct (is_markdown f) eqn:Hmd; cbn [negb].
    + destruct (Hok f (or_introl eq_refl) Hmd) as [Hio [n Hn]].
      unfold bind at 1, try_catch, bind, lift.
      rewrite (processFrontMatter_ok E (path f) _ (markFileAsModified (path f) w) n)
        by (cbn; auto).
      cbn [ret].
      set (wx := reindex E (path f) _).
      assert (Hvx : vault wx = <[path f := mkNote (cb (frontmatter n) f) (body n)]> (vault w))
        by (unfold wx; frame_simpl; reflexivity).
      destruct (IH (S count) wx) as (m & w' & Hrun & Hrest).
      { intros g Hg Hgmd. destruct (Hok g (or_intror Hg) Hgmd) as [Hgio [ng Hng]].
        split; [exact Hgio|]. rewrite Hvx.
        destruct (decide (path g = path f)) as [->|Hne];
          [rewrite lookup_insert_eq | rewrite lookup_insert_ne by congruence]; eauto. }
      exists m, w'. split; [exact Hrun|].
      intros g [<-|Hg] Hgmd; [|now apply Hrest].
      pose proof (applyToFiles_from_preserves E
                    (fun w => exists n', vault w !! path f = Some n' /\ Pe (frontmatter n'))
                    cb rest) as Hpres.
      specialize (Hpres ltac:(intros w1 w2 Hv _ _; rewrite Hv; auto)).
      assert (Hstep : forall (f0 : TFile) (w0 : World) (n0 : Note),
                 In f0 rest ->
                 (exists n', vault w0 !! path f = Some n' /\ Pe (frontmatter n')) ->
                 vault w0 !! path f0 = Some n0 ->
                 exists n', vault (reindex E (path f0)
                                     (set_vault (<[path f0 := mkNote (cb (frontmatter n0) f0)
                                                                (body n0)]> (vault w0)) w0))
                              !! path f = Some n' /\ Pe (frontmatter n')).
      { intros f0 w0 n0 _ (n' & Hn' & HPe) Hn0. frame_simpl.
        destruct (decide (path f0 = path f)) as [->|Hne].
        - rewrite lookup_insert_eq. eexists. split; [reflexivity|]. apply Hcb.
        - rewrite lookup_insert_ne by congruence. eauto. }
      specialize (Hpres Hstep (S count) wx). rewrite Hrun in Hpres. apply Hpres.
      rewrite Hvx, lookup_insert_eq. eexists. split; [reflexivity|]. apply Hcb.
    + destruct (IH count w) as (m & w' & Hrun & Hrest).
      { intros g Hg. apply Hok. now right. }
      exists m, w'. split; [exact Hrun|].
      intros g [<-|Hg] Hgmd; [congruence|now apply Hrest].
Qed.

(** [applyToFiles] keeps a rule-free note rule-free when the callback
    leaves the rule fields alone. *)
Lemma applyToFiles_keeps_clean E cb files count w n w' f :
  (forall fm g, has_rule (cb fm g) = has_rule fm) ->
  applyToFiles_from E count files cb w = Ret n w' ->
  clean w f -> clean w' f.
Proof.
  intros Hcb Hrun Hclean.
  pose proof (applyToFiles_from_preserves E (fun w => clean w f) cb files) as Hpres.
  specialize (Hpres ltac:(intros w1 w2 Hv _ _; unfold clean; rewrite Hv; auto)).
  assert (Hstep : forall (f0 : TFile) (w0 : World) (n0 : Note),
             In f0 files -> clean w0 f -> vault w0 !! path f0 = Some n0 ->
             clean (reindex E (path f0)
                      (set_vault (<[path f0 := mkNote (cb (frontmatter n0) f0) (body n0)]>
                                    (vault w0)) w0)) f).
  { intros f0 w0 n0 _ (n1 & Hn1 & Hc1) Hn0. unfold clean. frame_simpl.
    destruct (decide (path f0 = path f)) as [Heq|Hne].
    - rewrite Heq in *. rewrite lookup_insert_eq. eexists. split; [reflexivity|].
      cbn [frontmatter]. rewrite Hcb. congruence.
    - rewrite lookup_insert_ne by congruence. eauto. }
  specialize (Hpres Hstep count w Hclean). now rewrite Hrun in Hpres.
Qed.

(** C1, the claim as stated, fails: with the default settings, setting the
    single completed recurring note to "complete" while it has an open
    checklist item and the user picks "Open Note" ends the call with 0
    before the recurrence loop; successor creation is never invoked and the
    note stays both terminal and rule-bearing. *)
Lemma checklist_abort_skips_recurrence :
  result_of (setStatus Sample.calm 2 [Sample.water_plants] "complete" Sample.chore_world)
  = Some O
  /\ (trace <$> world_of (setStatus Sample.calm 2 [Sample.water_plants] "complete"
                            Sample.chore_world))
     = Some [EvOpenFile "Tasks/Water plants.md";
             EvChecklistPrompt "Tasks/Water plants.md" ["buy soil"]]
  /\ (vault <$> world_of (setStatus Sample.calm 2 [Sample.water_plants] "complete"
                            Sample.chore_world))
     = Some (vault Sample.chore_world)
  /\ has_rule (frontmatter Sample.chore_note) = true
  /\ includes_string "complete" (recurrenceStatuses DEFAULT_SETTINGS) = true
  /\ is_str (frontmatter Sample.chore_note !! "status") "complete" = true.
Proof. repeat split; vm_compute; reflexivity. Qed.

(** C1, the claim as stated, fails in a second way: the recurrence loop
    reads the metadata cache, not the file.  A recurring note the host has
    not indexed yet is set to "complete" without any successor creation
    and keeps its rule. *)
Lemma unindexed_note_keeps_rule :
  result_of (setStatus Sample.calm 2 [Sample.water_plants] "complete" Sample.unindexed_garden)
  = Some 1%nat
  /\ (trace <$> world_of (setStatus Sample.calm 2 [Sample.water_plants] "complete"
                            Sample.unindexed_garden))
     = Some []
  /\ ((fun w' => frontmatter <$> vault w' !! path Sample.water_plants)
        <$> world_of (setStatus Sample.calm 2 [Sample.water_plants] "complete"
                        Sample.unindexed_garden))
     = Some (Some (<["status" := VAtom (AStr "complete")]> Sample.water_plants_fm))
  /\ has_rule (<["status" := VAtom (AStr "complete")]> Sample.water_plants_fm) = true
  /\ includes_string "complete" (recurrenceStatuses DEFAULT_SETTINGS) = true
  /\ enableRecurrence DEFAULT_SETTINGS = true.
Proof. repeat split; vm_compute; reflexivity. Qed.

(** C1, amended. Let [setStatus] be called with recurrence enabled and a
    status of the configured terminal set, let the checklist block hand
    over (it did not end the call), let the files of the batch exist and
    the metadata cache show a rule for each of them that carries one when
    it does, and let the host accept the frontmatter patches of these
    files.  Then the call resolves; for every file of the batch for which
    the cache showed a rule, [createNextRecurrenceInstance] was invoked
    with the status the cache showed (or null), so it was invoked for
    every file that carried a rule; afterwards no file of the batch
    carries a rule, and every markdown file of the batch has the new
    status. *)
Theorem setStatus_leaves_no_completed_rule (E : Env) (fuel : nat) (files : list TFile)
    (status : string) (w w0 : World) :
  (enableRecurrence (settings w)
   && includes_string status (recurrenceStatuses (settings w)))%bool = true ->
  checklist_gate E files status w = Ret false w0 ->
  (forall f, In f files -> io_fails E OpPatch (path f) = false) ->
  (forall f, In f files -> seen w0 f) ->
  exists n w',
    setStatus E (S fuel) files status w = Ret n w'
    /\ (forall f fm, In f files -> metadataCache w0 !! path f = Some fm ->
          has_rule fm = true ->
          In (EvCreateNext (path f) (js_or (fm !! "status") (Some (VAtom ANull))))
             (trace w'))
    /\ (forall f note, In f files -> vault w0 !! path f = Some note ->
          has_rule (frontmatter note) = true ->
          exists carry, In (EvCreateNext (path f) carry) (trace w'))
    /\ (forall f, In f files ->
          exists note', vault w' !! path f = Some note'
                        /\ has_rule (frontmatter note') = false)
    /\ (forall f, In f files -> is_markdown f = true ->
          exists note', vault w' !! path f = Some note'
                        /\ frontmatter note' !! "status" = Some (VAtom (AStr status))).
Proof.
  intros Hflags Hgate Hio Hseen0.
  destruct (complete_recurrences_spec E files w0 Hio Hseen0)
    as (w1 & Hloop & Hclean1 & _ & _ & Hs1 & _ & _ & _ & _ & _ & _ & Hev1).
  set (updates := <["status" := VAtom (AStr status)]> (∅ : gmap string value)).
  assert (Hupd_status : updates !! "status" = Some (VAtom (AStr status)))
    by apply lookup_insert_eq.
  assert (Hupd_rule : updates !! "recurrenceRule" = None)
    by (unfold updates; rewrite lookup_insert_ne by discriminate; apply lookup_empty).
  assert (Hupd_rec : updates !! "recurrence" = None)
    by (unfold updates; rewrite lookup_insert_ne by discriminate; apply lookup_empty).
  set (cb := fun (fm : gmap string value) (_ : TFile) => apply_updates updates fm).
  destruct (applyToFiles_establishes E cb
              (fun fm => fm !! "status" = Some (VAtom (AStr status))) files
              ltac:(intros fm f; unfold cb; now rewrite lookup_apply_updates, Hupd_status)
              O w1)
    as (n & w' & Hrun & Hstatus).
  { intros f Hf _. split; [now apply Hio|].
    destruct (Hclean1 f Hf) as (n1 & Hn1 & _). eauto. }
  exists n, w'. split.
  { unfold setStatus, bind. rewrite Hgate, Hflags, Hloop.
    cbn [updateFrontmatter]. unfold updateFrontmatter_body, bind.
    assert (Hnp : (if (enableRecurrence (settings w1) && promptOnRecurrenceEdit (settings w1))%bool
                   then updateFrontmatter_prompts E (updateFrontmatter E fuel) files updates
                   else ret false) w1 = Ret false w1).
    { destruct (enableRecurrence (settings w1) && promptOnRecurrenceEdit (settings w1))%bool;
        [|reflexivity]. apply prompts_skip_status. eauto. }
    fold updates. rewrite Hnp. exact Hrun. }
  split.
  { intros f fm Hf Hc0 Hr.
    rewrite (applyToFiles_keeps_trace E cb files O w1 n w' Hrun).
    now apply Hev1. }
  split.
  { intros f note Hf Hn Hr.
    rewrite (applyToFiles_keeps_trace E cb files O w1 n w' Hrun).
    destruct (Hseen0 f Hf) as (n0 & Hn0 & [Hclean|(fm & Hc0 & Hrule)]);
      [congruence|].
    eexists. now apply (Hev1 f fm). }
  split.
  { intros f Hf.
    apply (applyToFiles_keeps_clean E cb files O w1 n w' f); auto.
    intros fm g. unfold cb. now apply has_rule_apply_updates. }
  exact Hstatus.
Qed.

Lemma setStatus_leaves_no_completed_rule_witness :
  exists n w',
    setStatus Sample.read_only 1 [Sample.water_plants] "complete"
      (Sample.garden DEFAULT_SETTINGS []) = Ret n w'
    /\ (forall f fm, In f [Sample.water_plants] ->
          metadataCache (Sample.garden DEFAULT_SETTINGS []) !! path f = Some fm ->
          has_rule fm = true ->
          In (EvCreateNext (path f) (js_or (fm !! "status") (Some (VAtom ANull))))
             (trace w'))
    /\ (forall f note, In f [Sample.water_plants] ->
          vault (Sample.garden DEFAULT_SETTINGS []) !! path f = Some note ->
          has_rule (frontmatter note) = true ->
          exists carry, In (EvCreateNext (path f) carry) (trace w'))
    /\ (forall f, In f [Sample.water_plants] ->
          exists note', vault w' !! path f = Some note'
                        /\ has_rule (frontmatter note') = false)
    /\ (forall f, In f [Sample.water_plants] -> is_markdown f = true ->
          exists note', vault w' !! path f = Some note'
                        /\ frontmatter note' !! "status" = Some (VAtom (AStr "complete"))).
Proof.
  apply (setStatus_leaves_no_completed_rule Sample.read_only 0 [Sample.water_plants] "complete"
           (Sample.garden DEFAULT_SETTINGS []) (Sample.garden DEFAULT_SETTINGS [])).
  - vm_compute; reflexivity.
  - vm_compute; reflexivity.
  - intros f [<-|[]]. reflexivity.
  - intros f [<-|[]]. exists Sample.water_plants_note.
    split; [vm_compute; reflexivity|]. right. exists Sample.water_plants_fm.
    split; vm_compute; reflexivity.
Defined.

(** ** Invariants of the prompt cycle *)

Lemma apply_rule_nulls fm : apply_updates rule_nulls fm = strip_rule fm.
Proof.
  apply map_eq. intros k. rewrite lookup_apply_updates. unfold rule_nulls.
  destruct (decide (k = "recurrenceRule")) as [->|H1].
  - rewrite lookup_insert_eq. cbn. now destruct (strip_rule_lookup fm) as [-> _].
  - rewrite lookup_insert_ne by congruence.
    destruct (decide (k = "recurrence")) as [->|H2].
    + rewrite lookup_insert_eq. cbn. now destruct (strip_rule_lookup fm) as [_ ->].
    + rewrite lookup_insert_ne by congruence. rewrite lookup_empty.
      now rewrite strip_rule_other.
Qed.

Section CycleInvariant.

Context (E : Env).
Context (P : World -> Prop).
Context (F : TFile -> Prop).
Hypothesis P_storage : storage_only P.

(** Successor creation from the snapshot the cache holds keeps [P]. *)
Hypothesis P_createNext :
  forall f fm carry w, F f -> P w -> getFileCache f w = Some fm ->
    match createNextRecurrenceInstance E f fm carry w with
    | Ret _ w' | Throw w' | Pending w' => P w'
    | OutOfFuel => True
    end.

(** Deleting the rule fields of a file of [F] keeps [P]. *)
Hypothesis P_strip :
  forall f w n, F f -> P w -> vault w !! path f = Some n ->
    P (reindex E (path f)
         (set_vault (<[path f := mkNote (strip_rule (frontmatter n)) (body n)]> (vault w)) w)).

Lemma applyToFiles_nulls_preserves files :
  Forall F files ->
  preserves P (applyToFiles E files (fun fm _ => apply_updates rule_nulls fm)).
Proof.
  intros HF. unfold applyToFiles. apply applyToFiles_from_preserves; [exact P_storage|].
  intros f w n Hf HP Hn. rewrite apply_rule_nulls. apply P_strip; auto.
  rewrite Forall_forall in HF. apply HF. now apply list_elem_of_In.
Qed.

Section Inner.

Context (inner : list TFile -> gmap string value -> M nat).
Hypothesis inner_nulls : forall f, F f -> preserves P (inner [f] rule_nulls).

Lemma splitInstance_with_preserves f :
  F f -> preserves P (splitInstance_with E inner f).
Proof.
  intros Hf w HP. unfold splitInstance_with.
  destruct (getFileCache f w) as [fm|] eqn:Hc; [|exact HP].
  unfold bind at 1.
  pose proof (P_createNext f fm None w Hf HP Hc) as H1.
  destruct (createNextRecurrenceInstance E f fm None w) as [b w1|w1|w1|]; auto.
  apply (preserves_bind P (inner [f] rule_nulls)); auto.
  intros _. now apply preserves_Notice.
Qed.

Lemma promptForFrontmatterChange_with_preserves f desc :
  F f -> preserves P (promptForFrontmatterChange_with E inner f desc).
Proof.
  intros Hf. unfold promptForFrontmatterChange_with.
  apply preserves_bind; [now apply preserves_wasRecentlyModified|].
  intros [|]; [apply preserves_ret|].
  apply preserves_bind; [now apply preserves_promptUser|].
  intros [| |].
  - apply preserves_bind; [now apply preserves_mark|]. intros _. apply preserves_ret.
  - apply preserves_bind; [now apply splitInstance_with_preserves|]. intros _.
    apply preserves_bind; [now apply preserves_mark|]. intros _. apply preserves_ret.
  - apply preserves_ret.
Qed.

Lemma updateFrontmatter_prompts_preserves files updates :
  Forall F files -> preserves P (updateFrontmatter_prompts E inner files updates).
Proof.
  induction files as [|f rest IH]; intros HF; [apply preserves_ret|].
  apply Forall_cons in HF as [Hf Hrest]. specialize (IH Hrest).
  cbn [updateFrontmatter_prompts]. intros w HP.
  destruct (getFileCache f w) as [fm|]; [|now apply IH].
  destruct (has_rule fm); [|now apply IH].
  destruct (status_is_done fm); [now apply IH|].
  destruct (bool_decide (is_Some (updates !! "status"))); [now apply IH|].
  revert w HP. apply preserves_bind; [now apply promptForFrontmatterChange_with_preserves|].
  intros [| |]; auto. apply preserves_ret.
Qed.

Lemma updateFrontmatter_body_nulls_preserves files :
  Forall F files -> preserves P (updateFrontmatter_body E inner files rule_nulls).
Proof.
  intros HF w HP. unfold updateFrontmatter_body.
  assert (H : preserves P
                (cancelled <-
                   (if (enableRecurrence (settings w)
                        && promptOnRecurrenceEdit (settings w))%bool
                    then updateFrontmatter_prompts E inner files rule_nulls
                    else ret false) ;;
                 if cancelled : bool then ret O
                 else applyToFiles E files (fun fm _ => apply_updates rule_nulls fm))).
  { apply preserves_bind.
    - destruct (enableRecurrence (settings w) && promptOnRecurrenceEdit (settings w))%bool;
        [now apply updateFrontmatter_prompts_preserves|apply preserves_ret].
    - intros [|]; [apply preserves_ret | now apply applyToFiles_nulls_preserves]. }
  exact (H w HP).
Qed.

End Inner.

(** Striking the rule fields through [updateFrontmatter], prompts and
    nested splits included, keeps [P]. *)
Lemma updateFrontmatter_nulls_preserves fuel :
  forall files, Forall F files -> preserves P (updateFrontmatter E fuel files rule_nulls).
Proof.
  induction fuel as [|k IH]; intros files HF; [intros w _; exact I|].
  cbn [updateFrontmatter]. apply updateFrontmatter_body_nulls_preserves; [|exact HF].
  intros f Hf. apply IH. now constructor.
Qed.

Lemma splitInstance_preserves fuel f : F f -> preserves P (splitInstance E fuel f).
Proof.
  intros Hf. apply splitInstance_with_preserves; [|exact Hf].
  intros g Hg. apply updateFrontmatter_nulls_preserves. now constructor.
Qed.

Lemma promptForFrontmatterChange_preserves fuel f desc :
  F f -> preserves P (promptForFrontmatterChange E fuel f desc).
Proof.
  intros Hf. apply promptForFrontmatterChange_with_preserves; [|exact Hf].
  intros g Hg. apply updateFrontmatter_nulls_preserves. now constructor.
Qed.

Lemma prompts_preserve fuel files updates :
  Forall F files ->
  preserves P (updateFrontmatter_prompts E (updateFrontmatter E fuel) files updates).
Proof.
  intros HF. apply updateFrontmatter_prompts_preserves; [|exact HF].
  intros g Hg. apply updateFrontmatter_nulls_preserves. now constructor.
Qed.

Lemma tag_prompts_preserve fuel files desc :
  Forall F files -> preserves P (tag_prompts E fuel files desc).
Proof.
  induction files as [|f rest IH]; intros HF; [apply preserves_ret|].
  apply Forall_cons in HF as [Hf Hrest]. specialize (IH Hrest).
  cbn [tag_prompts]. intros w HP.
  destruct (getFileCache f w) as [fm|]; [|now apply IH].
  destruct (has_rule fm && negb (status_is_done fm))%bool; [|now apply IH].
  revert w HP. apply preserves_bind; [now apply promptForFrontmatterChange_preserves|].
  intros [| |]; apply preserves_ret.
Qed.

End CycleInvariant.

(** ** Cancelling a frontmatter mutation *)

Lemma only_stripped_refl w : only_stripped w w.
Proof. intros p n Hn. exists (frontmatter n). destruct n. auto. Qed.

Lemma only_stripped_trans w1 w2 w3 :
  only_stripped w1 w2 -> only_stripped w2 w3 -> only_stripped w1 w3.
Proof.
  intros H12 H23 p n Hn. destruct (H12 p n Hn) as (fm2 & Hv2 & Hfm2).
  destruct (H23 p _ Hv2) as (fm3 & Hv3 & Hfm3). cbn [frontmatter body] in *.
  exists fm3. split; [exact Hv3|].
  destruct Hfm2 as [->| ->], Hfm3 as [->| ->]; auto. right. apply strip_rule_idem.
Qed.

Lemma Evo_only_stripped pN w w' : Evo pN w w' -> only_stripped w w'.
Proof.
  intros (_ & _ & _ & _ & _ & _ & _ & H8 & H9 & _) p n Hn.
  destruct (decide (p = pN)) as [->|Hne]; [now apply H9|].
  destruct (H8 p n Hne Hn) as [Hv _]. exists (frontmatter n). destruct n. auto.
Qed.

(** The whole prompt cycle can only strike rules: whatever the user
    answers, every note that existed keeps its body and keeps its
    frontmatter or loses exactly the rule fields. *)
Lemma prompts_only_strip E fuel files updates w :
  match updateFrontmatter_prompts E (updateFrontmatter E fuel) files updates w with
  | Ret _ w' | Throw w' | Pending w' => only_stripped w w'
  | OutOfFuel => True
  end.
Proof.
  apply (prompts_preserve E (fun w' => only_stripped w w') (fun _ => True)).
  - intros w1 w2 Hv _ _ H p n Hn. rewrite Hv. now apply H.
  - intros f fm carry w1 _ H1 _.
    destruct (createNext_total E f fm carry w1) as (b & w2 & -> & HE & _).
    apply (only_stripped_trans w w1 w2 H1). now apply (Evo_only_stripped (path f)).
  - intros f w1 n _ H1 Hn. apply (only_stripped_trans w w1 _ H1).
    intros p n1 Hn1. frame_simpl.
    destruct (decide (p = path f)) as [->|Hne].
    + rewrite lookup_insert_eq. assert (n1 = n) as -> by congruence. eauto.
    + rewrite lookup_insert_ne by congruence. exists (frontmatter n1). destruct n1. auto.
  - apply Forall_forall. auto.
  - apply only_stripped_refl.
Qed.

Lemma promptForFrontmatterChange_with_cancel E inner f desc w rest :
  (SessionTracker.wasRecentlyModified (path f) w).1 = false ->
  answers w = Cancel :: rest ->
  promptForFrontmatterChange_with E inner f desc w
  = Ret Cancel
      (set_answers rest
         (emit (EvPrompt (path f) desc) (SessionTracker.wasRecentlyModified (path f) w).2)).
Proof.
  intros Hq Ha.
  destruct (TrackerFacts.lookup_frame (path f) w) as (_ & _ & _ & _ & _ & _ & _ & _ & Hans & _).
  unfold promptForFrontmatterChange_with, bind, wasRecentlyModified.
  destruct (SessionTracker.wasRecentlyModified (path f) w) as [b w1].
  cbn [fst snd] in *. subst b. unfold promptUser. cbn [answers emit set_trace].
  now rewrite Hans, Ha.
Qed.

Lemma prompts_skip_non_candidates E inner updates pre l w :
  Forall (fun g => update_candidate updates g w = false) pre ->
  updateFrontmatter_prompts E inner (pre ++ l) updates w
  = updateFrontmatter_prompts E inner l updates w.
Proof.
  induction 1 as [|g pre Hg _ IH]; [reflexivity|].
  cbn [app updateFrontmatter_prompts]. unfold update_candidate, getFileCache in *.
  destruct (metadataCache w !! path g) as [fm|]; [|exact IH].
  destruct (has_rule fm); [|exact IH].
  destruct (status_is_done fm); [exact IH|].
  destruct (bool_decide (is_Some (updates !! "status"))); [exact IH|discriminate].
Qed.

Lemma tag_prompts_skip_non_candidates E fuel desc pre l w :
  Forall (fun g => tag_candidate g w = false) pre ->
  tag_prompts E fuel (pre ++ l) desc w = tag_prompts E fuel l desc w.
Proof.
  induction 1 as [|g pre Hg _ IH]; [reflexivity|].
  cbn [app tag_prompts]. unfold tag_candidate, getFileCache in *.
  destruct (metadataCache w !! path g) as [fm|]; [|exact IH].
  now rewrite Hg.
Qed.

(** The user cancels the prompt of [addTag] or [removeTag]. *)
Lemma tag_prompts_cancel E fuel desc pre f post w rest :
  Forall (fun g => tag_candidate g w = false) pre ->
  tag_candidate f w = true ->
  (SessionTracker.wasRecentlyModified (path f) w).1 = false ->
  answers w = Cancel :: rest ->
  tag_prompts E fuel (pre ++ f :: post) desc w
  = Ret true
      (set_answers rest
         (emit (EvPrompt (path f) desc) (SessionTracker.wasRecentlyModified (path f) w).2)).
Proof.
  intros Hpre Hf Hq Ha. rewrite tag_prompts_skip_non_candidates by exact Hpre.
  cbn [tag_prompts]. unfold tag_candidate, getFileCache in *.
  destruct (metadataCache w !! path f) as [fm|]; [|discriminate]. rewrite Hf.
  unfold bind, promptForFrontmatterChange.
  now rewrite (promptForFrontmatterChange_with_cancel E _ f desc w rest Hq Ha).
Qed.

(** C5. With the prompts enabled, let [f] be the first file of the batch
    the operation asks about, let the tracker not report it as recent (so
    the prompt is really shown) and let the user answer cancel.  Then
    [updateFrontmatter], [addTag] and [removeTag] each resolve to 0 and the
    vault and the metadata cache are exactly as before: the mutation reached
    no file.  For [updateFrontmatter], which may have asked about earlier
    files: whenever its prompt loop ends through cancel, the call resolves
    to 0 in the world the loop left, without ever entering [applyToFiles],
    and all that the earlier answers can have done to existing notes is
    strike their rule fields. *)
Theorem cancel_is_inert (E : Env) (fuel : nat) (pre post : list TFile) (f : TFile)
    (updates : gmap string value) (tag key : string) (w : World) (rest : list Choice) :
  (enableRecurrence (settings w) && promptOnRecurrenceEdit (settings w))%bool = true ->
  (SessionTracker.wasRecentlyModified (path f) w).1 = false ->
  answers w = Cancel :: rest ->
  (Forall (fun g => update_candidate updates g w = false) pre ->
   update_candidate updates f w = true ->
   exists w',
     updateFrontmatter E (S fuel) (pre ++ f :: post) updates w = Ret O w'
     /\ vault w' = vault w /\ metadataCache w' = metadataCache w)
  /\ (Forall (fun g => tag_candidate g w = false) pre ->
      tag_candidate f w = true ->
      exists w',
        addTag E fuel (pre ++ f :: post) tag key w = Ret O w'
        /\ vault w' = vault w /\ metadataCache w' = metadataCache w)
  /\ (Forall (fun g => tag_candidate g w = false) pre ->
      tag_candidate f w = true ->
      exists w',
        removeTag E fuel (pre ++ f :: post) tag key w = Ret O w'
        /\ vault w' = vault w /\ metadataCache w' = metadataCache w)
  /\ (forall files w1,
        updateFrontmatter_prompts E (updateFrontmatter E fuel) files updates w = Ret true w1 ->
        updateFrontmatter E (S fuel) files updates w = Ret O w1 /\ only_stripped w w1).
Proof.
  intros Hflags Hq Ha.
  destruct (TrackerFacts.lookup_frame (path f) w) as (_ & Hv & Hmc & _).
  split; [|split; [|split]].
  - intros Hpre Hf. eexists. split.
    + cbn [updateFrontmatter]. unfold updateFrontmatter_body, bind. rewrite Hflags.
      rewrite prompts_skip_non_candidates by exact Hpre.
      cbn [updateFrontmatter_prompts]. unfold update_candidate, getFileCache in *.
      destruct (metadataCache w !! path f) as [fm|]; [|discriminate].
      destruct (has_rule fm); [|discriminate].
      destruct (status_is_done fm); [discriminate|].
      destruct (bool_decide (is_Some (updates !! "status"))); [discriminate|].
      unfold bind.
      rewrite (promptForFrontmatterChange_with_cancel E _ f _ w rest Hq Ha). reflexivity.
    + frame_simpl. auto.
  - intros Hpre Hf. eexists. split.
    + unfold addTag, bind. rewrite Hflags.
      rewrite (tag_prompts_cancel E fuel _ pre f post w rest Hpre Hf Hq Ha). reflexivity.
    + frame_simpl. auto.
  - intros Hpre Hf. eexists. split.
    + unfold removeTag, bind. rewrite Hflags.
      rewrite (tag_prompts_cancel E fuel _ pre f post w rest Hpre Hf Hq Ha). reflexivity.
    + frame_simpl. auto.
  - intros files w1 Hloop. split.
    + cbn [updateFrontmatter]. unfold updateFrontmatter_body, bind.
      now rewrite Hflags, Hloop.
    + pose proof (prompts_only_strip E fuel files updates w) as H. now rewrite Hloop in H.
Qed.

(** ** The prompt cycle comes to rest *)

Lemma settled_mono {A} (j k : nat) (o : Outcome A) :
  settled j o -> (j <= k)%nat -> settled k o.
Proof. destruct o; cbn; auto; lia. Qed.

Lemma bounded_sbounded {A} k (m : M A) : bounded k m -> sbounded k m.
Proof. intros H w Hw. apply H. lia. Qed.

Lemma bounded_ret {A} k (a : A) : bounded k (ret a).
Proof. intros w _. cbn. lia. Qed.

Lemma bounded_lift k f :
  (forall w, answers (f w) = answers w) -> bounded k (lift f).
Proof. intros Hf w _. cbn. rewrite Hf. lia. Qed.

Lemma bounded_bind {A B} k (m : M A) (K : A -> M B) :
  bounded k m -> (forall a, bounded k (K a)) -> bounded k (bind m K).
Proof.
  intros Hm HK w Hw. unfold bind. specialize (Hm w Hw).
  destruct (m w) as [a w'|w'|w'|]; cbn in *; auto.
  apply (settled_mono (List.length (answers w'))); [|exact Hm]. apply HK. lia.
Qed.

Lemma sbounded_bind {A B} k (m : M A) (K : A -> M B) :
  sbounded k m -> (forall a, sbounded k (K a)) -> sbounded k (bind m K).
Proof.
  intros Hm HK w Hw. unfold bind. specialize (Hm w Hw).
  destruct (m w) as [a w'|w'|w'|]; cbn in *; auto.
  apply (settled_mono (List.length (answers w'))); [|exact Hm]. apply HK. lia.
Qed.

Lemma bounded_wasRecentlyModified k p : bounded k (wasRecentlyModified p).
Proof.
  intros w _. unfold wasRecentlyModified.
  destruct (TrackerFacts.lookup_frame p w) as (_ & _ & _ & _ & _ & _ & _ & _ & Ha & _).
  destruct (SessionTracker.wasRecentlyModified p w) as [b w']. cbn in *. rewrite Ha. lia.
Qed.

Lemma bounded_createNext E k f fm carry :
  bounded k (createNextRecurrenceInstance E f fm carry).
Proof.
  intros w _. destruct (createNext_total E f fm carry w) as (b & w' & -> & HE & _).
  destruct (Evo_trans_fields _ _ _ HE) as (_ & _ & _ & _ & Ha & _). cbn. rewrite Ha. lia.
Qed.

Lemma applyToFiles_keeps_answers E cb files count w n w' :
  applyToFiles_from E count files cb w = Ret n w' -> answers w' = answers w.
Proof.
  intros Hrun.
  pose proof (applyToFiles_from_invariant E (fun w1 => answers w1 = answers w) cb files) as H.
  specialize (H ltac:(intros w1 p H1; exact H1)).
  specialize (H ltac:(intros w1 msg H1; destruct (logger_error_fields msg w1)
                        as (_ & _ & _ & _ & _ & _ & _ & _ & E9 & _); congruence)).
  specialize (H ltac:(intros f w1 n1 b _ H1 _; frame_simpl; exact H1) count w eq_refl).
  now rewrite Hrun in H.
Qed.

Lemma bounded_applyToFiles E k files cb : bounded k (applyToFiles E files cb).
Proof.
  intros w _. unfold applyToFiles.
  destruct (applyToFiles_resolves E cb files O w) as (n & w' & Hrun).
  rewrite Hrun. cbn. rewrite (applyToFiles_keeps_answers E cb files O w n w' Hrun). lia.
Qed.

(** After the dialog, one answer fewer is pending. *)
Lemma bounded_promptUser_bind {B} k desc f (K : Choice -> M B) :
  (forall c, sbounded k (K c)) -> bounded k (bind (promptUser desc f) K).
Proof.
  intros HK w Hw. unfold bind, promptUser. cbn [answers emit set_trace].
  destruct (answers w) as [|c rest] eqn:Ha; [cbn; rewrite Ha; cbn; lia|].
  cbn [List.length] in *.
  apply (settled_mono (List.length rest)); [|lia].
  specialize (HK c (set_answers rest (set_trace (EvPrompt (path f) desc :: trace w) w))).
  cbn [answers set_answers] in HK. apply HK. lia.
Qed.

Section Rest.

Context (E : Env) (k : nat).
Context (inner : list TFile -> gmap string value -> M nat).
Hypothesis inner_rests : forall files updates, sbounded k (inner files updates).

Lemma splitInstance_with_rests f : sbounded k (splitInstance_with E inner f).
Proof.
  intros w Hw. unfold splitInstance_with.
  destruct (getFileCache f w) as [fm|]; [|cbn; lia].
  revert w Hw. apply sbounded_bind; [apply bounded_sbounded, bounded_createNext|].
  intros _. apply sbounded_bind; [apply inner_rests|].
  intros _. apply bounded_sbounded, bounded_lift. reflexivity.
Qed.

Lemma promptForFrontmatterChange_with_rests f desc :
  bounded k (promptForFrontmatterChange_with E inner f desc).
Proof.
  unfold promptForFrontmatterChange_with.
  apply bounded_bind; [apply bounded_wasRecentlyModified|].
  intros [|]; [apply bounded_ret|].
  apply bounded_promptUser_bind. intros [| |].
  - apply bounded_sbounded, bounded_bind; [now apply bounded_lift|].
    intros _. apply bounded_ret.
  - apply sbounded_bind; [apply splitInstance_with_rests|]. intros _.
    apply bounded_sbounded, bounded_bind; [now apply bounded_lift|].
    intros _. apply bounded_ret.
  - apply bounded_sbounded, bounded_ret.
Qed.

Lemma updateFrontmatter_prompts_rests files updates :
  bounded k (updateFrontmatter_prompts E inner files updates).
Proof.
  induction files as [|f rest IH]; [apply bounded_ret|].
  cbn [updateFrontmatter_prompts]. intros w Hw.
  destruct (getFileCache f w) as [fm|]; [|now apply IH].
  destruct (has_rule fm); [|now apply IH].
  destruct (status_is_done fm); [now apply IH|].
  destruct (bool_decide (is_Some (updates !! "status"))); [now apply IH|].
  revert w Hw. apply bounded_bind; [apply promptForFrontmatterChange_with_rests|].
  intros [| |]; auto. apply bounded_ret.
Qed.

Lemma updateFrontmatter_body_rests files updates :
  bounded k (updateFrontmatter_body E inner files updates).
Proof.
  intros w Hw. unfold updateFrontmatter_body.
  assert (H : bounded k
                (cancelled <-
                   (if (enableRecurrence (settings w)
                        && promptOnRecurrenceEdit (settings w))%bool
                    then updateFrontmatter_prompts E inner files updates
                    else ret false) ;;
                 if cancelled : bool then ret O
                 else applyToFiles E files (fun fm _ => apply_updates updates fm))).
  { apply bounded_bind.
    - destruct (enableRecurrence (settings w) && promptOnRecurrenceEdit (settings w))%bool;
        [apply updateFrontmatter_prompts_rests | apply bounded_ret].
    - intros [|]; [apply bounded_ret | apply bounded_applyToFiles]. }
  exact (H w Hw).
Qed.

End Rest.

(** With more fuel than pending answers, [updateFrontmatter] comes to
    rest: it resolves, or waits on a prompt nobody answers. *)
Lemma updateFrontmatter_rests E fuel :
  forall files updates, sbounded fuel (updateFrontmatter E fuel files updates).
Proof.
  induction fuel as [|k IH]; intros files updates w Hw; [lia|].
  cbn [updateFrontmatter].
  apply (updateFrontmatter_body_rests E k (updateFrontmatter E k) IH files updates w). lia.
Qed.

Lemma splitInstance_rests E fuel f : sbounded fuel (splitInstance E fuel f).
Proof. apply splitInstance_with_rests, updateFrontmatter_rests. Qed.

(** ** Splitting an instance *)

Lemma getNextOccurrence_scheduled E r sched w1 w2 :
  field_truthy sched = true ->
  (getNextOccurrence E r sched w1).1 = (getNextOccurrence E r sched w2).1.
Proof.
  intros Hs. unfold getNextOccurrence, startDate_of.
  destruct sched as [v|]; [|discriminate]. cbn in Hs. rewrite Hs.
  destruct (RRule_parseString E r) as [o|]; [|reflexivity].
  destruct (RRule_after E _ _ false); reflexivity.
Qed.

Lemma createNext_no_rule E f fm carry w :
  has_rule fm = false ->
  createNextRecurrenceInstance E f fm carry w
  = Ret false (emit (EvCreateNext (path f) carry) w).
Proof.
  intros Hr. unfold createNextRecurrenceInstance, createNextRecurrenceInstance_try.
  unfold has_rule in Hr. unfold bind, lift, try_catch.
  destruct (rule_of fm) as [r|]; [|reflexivity].
  cbn in Hr. now rewrite Hr.
Qed.

Lemma cache_after_lookup E p fm c :
  cache_after E p fm c !! p = Some fm \/ cache_after E p fm c = c.
Proof.
  unfold cache_after. destruct (eager_index E); [left; apply lookup_insert_eq | now right].
Qed.

Lemma cache_after_other E p q fm c : p <> q -> cache_after E q fm c !! p = c !! p.
Proof.
  intros H. unfold cache_after. destruct (eager_index E); [|reflexivity].
  now rewrite lookup_insert_ne.
Qed.

(** [splitInstance] on a recurring note with a schedule, a computable next
    date and a free successor path, on a host that accepts the calls: it
    comes to rest, and wherever it rests the vault is the old one plus the
    patched copy at the successor's path, with the rule fields struck from
    the source. *)
Lemma splitInstance_spawns E fuel N w fm r d n :
  getFileCache N w = Some fm ->
  rule_of fm = Some r ->
  truthy r = true ->
  field_truthy (fm !! "scheduled") = true ->
  (getNextOccurrence E r (fm !! "scheduled") w).1 = Some d ->
  vault w !! path N = Some n ->
  vault w !! successor_path E N d = None ->
  io_fails E OpExists (successor_path E N d) = false ->
  io_fails E OpRead (path N) = false ->
  io_fails E OpCreate (successor_path E N d) = false ->
  io_fails E OpPatch (successor_path E N d) = false ->
  io_fails E OpPatch (path N) = false ->
  (List.length (answers w) < fuel)%nat ->
  settled (List.length (answers w)) (splitInstance E fuel N w)
  /\ forall w', world_of (splitInstance E fuel N w) = Some w' ->
       vault w'
       = <[path N := mkNote (strip_rule (frontmatter n)) (body n)]>
           (<[successor_path E N d
              := mkNote (successor_patch E N d (settings w) (frontmatter n)) (body n)]>
              (vault w)).
Proof.
  intros Hc Hr Ht Hsched Hd Hn Hfree Hioe Hior Hioc Hiop Hio Hfuel.
  set (t := successor_path E N d) in *.
  set (V := <[path N := mkNote (strip_rule (frontmatter n)) (body n)]>
              (<[t := mkNote (successor_patch E N d (settings w) (frontmatter n)) (body n)]>
                 (vault w))).
  assert (Hne : t <> path N) by congruence.
  set (P := fun w1 : World =>
              vault w1 = V
              /\ (metadataCache w1 !! path N = Some fm
                  \/ exists c, metadataCache w1 !! path N = Some c /\ has_rule c = false)).
  assert (HVN : V !! path N = Some (mkNote (strip_rule (frontmatter n)) (body n)))
    by apply lookup_insert_eq.
  assert (HVt : is_Some (V !! t)).
  { unfold V. rewrite lookup_insert_ne, lookup_insert_eq by congruence. eauto. }
  assert (Hcache_step : forall w1 x,
            metadataCache w1 !! path N = Some fm
            \/ (exists c, metadataCache w1 !! path N = Some c /\ has_rule c = false) ->
            cache_after E (path N) (strip_rule x) (metadataCache w1) !! path N = Some fm
            \/ exists c, cache_after E (path N) (strip_rule x) (metadataCache w1) !! path N
                         = Some c /\ has_rule c = false).
  { intros w1 x H1.
    destruct (cache_after_lookup E (path N) (strip_rule x) (metadataCache w1)) as [->| ->];
      [right; eexists; split; [reflexivity | apply strip_rule_has_rule] | exact H1]. }
  assert (P_storage : storage_only P).
  { intros w1 w2 Hv Hm _ [H1 H2]. unfold P. now rewrite Hv, Hm. }
  assert (P_create : forall f fm1 carry w1, f = N -> P w1 -> getFileCache f w1 = Some fm1 ->
            match createNextRecurrenceInstance E f fm1 carry w1 with
            | Ret _ w' | Throw w' | Pending w' => P w'
            | OutOfFuel => True
            end).
  { intros f fm1 carry w1 -> [Hv1 Hc1] Hg. unfold getFileCache in Hg.
    destruct Hc1 as [Hc1|(c & Hc1 & Hrc)]; rewrite Hc1 in Hg; injection Hg as <-.
    - destruct (createNext_target_exists E N fm carry w1 r d
                  (mkNote (strip_rule (frontmatter n)) (body n)) Hr Ht)
        as (w2 & -> & Hv2 & _ & _ & _ & _ & _ & _ & _ & Hm2);
        try (rewrite ?Hv1; assumption).
      { rewrite <- Hd. now apply getNextOccurrence_scheduled. }
      cbn [frontmatter body] in *. split.
      + rewrite Hv2, Hv1, strip_rule_idem. now apply insert_id.
      + rewrite Hm2. apply Hcache_step. now left.
    - rewrite createNext_no_rule by exact Hrc. split; [exact Hv1|]. right. eauto. }
  assert (P_strip : forall f w1 n1, f = N -> P w1 -> vault w1 !! path f = Some n1 ->
            P (reindex E (path f)
                 (set_vault (<[path f := mkNote (strip_rule (frontmatter n1)) (body n1)]>
                               (vault w1)) w1))).
  { intros f w1 n1 -> [Hv1 Hc1] Hn1. split.
    - frame_simpl. rewrite Hv1 in *. rewrite HVN in Hn1. injection Hn1 as <-.
      cbn [frontmatter body]. rewrite strip_rule_idem. now apply insert_id.
    - erewrite reindex_metadataCache by (cbn [vault set_vault rewrite_block
          put_block set_frontmatterBlock]; apply lookup_insert_eq).
      cbn [frontmatter metadataCache set_vault rewrite_block
            put_block set_frontmatterBlock]. now apply Hcache_step. }
  destruct (createNext_fresh E N fm None w r d n Hr Ht Hd Hfree Hioe Hn Hior Hioc Hiop Hio)
    as (w1 & Hrun & Hv1 & _ & _ & _ & _ & Ha1 & _ & _ & Hm1).
  fold t in Hv1, Hm1. fold V in Hv1.
  assert (HP1 : P w1).
  { split; [exact Hv1|]. rewrite Hm1.
    destruct (cache_after_lookup E (path N) (strip_rule (frontmatter n))
                (cache_after E t (successor_patch E N d (settings w) (frontmatter n))
                   (metadataCache w))) as [->| ->].
    - right. eexists. split; [reflexivity | apply strip_rule_has_rule].
    - left. rewrite cache_after_other by congruence. exact Hc. }
  assert (Heq : splitInstance E fuel N w
                = (updateFrontmatter E fuel [N] rule_nulls ;;;
                   Notice "Split recurring event. Next instance created.") w1).
  { unfold splitInstance, splitInstance_with. rewrite Hc. unfold bind at 1.
    now rewrite Hrun. }
  rewrite Heq. split.
  - rewrite <- Ha1.
    apply (sbounded_bind fuel (updateFrontmatter E fuel [N] rule_nulls)).
    + apply updateFrontmatter_rests.
    + intros _. apply bounded_sbounded, bounded_lift. reflexivity.
    + now rewrite Ha1.
  - intros w' Hw'.
    assert (Hpres : preserves P
                      (updateFrontmatter E fuel [N] rule_nulls ;;;
                       Notice "Split recurring event. Next instance created.")).
    { apply preserves_bind; [|intros _; now apply preserves_Notice].
      apply (updateFrontmatter_nulls_preserves E P (fun f => f = N) P_storage P_create
               P_strip fuel [N]). now constructor. }
    specialize (Hpres w1 HP1).
    destruct (bind (updateFrontmatter E fuel [N] rule_nulls) _ w1) as [a wx|wx|wx|];
      cbn in Hw'; try discriminate; injection Hw' as <-; apply Hpres.
Qed.

Lemma split_done_intro E N d s n v :
  successor_path E N d <> path N ->
  split_done E N d s n v
    (<[path N := mkNote (strip_rule (frontmatter n)) (body n)]>
       (<[successor_path E N d := mkNote (successor_patch E N d s (frontmatter n)) (body n)]>
          v)).
Proof.
  intros Hne. split; [|split].
  - eexists. split; [rewrite lookup_insert_ne, lookup_insert_eq by congruence; reflexivity|].
    unfold successor_of, successor_patch, successor_baseName. cbn [frontmatter body].
    split; [reflexivity|]. split.
    { rewrite !lookup_insert_ne by discriminate. now rewrite lookup_insert_eq. }
    split. { rewrite lookup_insert_ne by discriminate. now rewrite lookup_insert_eq. }
    split. { now rewrite lookup_insert_eq. }
    intros k H1 H2 H3. now rewrite !lookup_insert_ne by congruence.
  - eexists. split; [apply lookup_insert_eq|]. unfold standalone_of. cbn [frontmatter body].
    destruct (strip_rule_lookup (frontmatter n)) as [-> ->].
    repeat (split; [reflexivity|]). intros k H1 H2. now apply strip_rule_other.
  - intros p H1 H2. now rewrite !lookup_insert_ne by congruence.
Qed.

(** C4, the claim as stated, fails: when a file already sits at the derived
    path, split creates nothing; the file found there is not a copy of the
    note and receives none of the three fields, while the note still loses
    its rule. *)
Lemma split_onto_existing_file_creates_nothing :
  successor_path Sample.calm Sample.water_plants Sample.next_week
  = "Tasks/Water plants 2024-01-08.md"
  /\ ((fun w' => vault w' !! "Tasks/Water plants 2024-01-08.md") <$>
        world_of (promptOnFocus Sample.calm 3 Sample.water_plants Sample.crowded_world))
     = Some (Some Sample.other_note)
  /\ frontmatter Sample.other_note !! "scheduled" = None
  /\ body Sample.other_note <> body Sample.water_plants_note
  /\ ((fun w' => has_rule <$> (frontmatter <$> vault w' !! path Sample.water_plants)) <$>
        world_of (promptOnFocus Sample.calm 3 Sample.water_plants Sample.crowded_world))
     = Some (Some false).
Proof.
  split; [vm_compute; reflexivity|]. split; [vm_compute; reflexivity|].
  split; [vm_compute; reflexivity|]. split; [discriminate|]. vm_compute; reflexivity.
Qed.

(** C4, amended. Let the user answer split on a recurrence prompt (the focus prompt,
    the edit prompt, or the prompt of a frontmatter mutation that is really
    shown) for a note [N] whose indexed frontmatter carries a rule and a
    schedule, let the evaluator yield the next date [d], let the successor's
    path (the base name without a trailing date, a blank, the date, ".md",
    in the folder of [N]) be free, and let the host accept the calls.  With
    more fuel than pending answers the prompt comes to rest (it resolves, or
    waits on a further prompt), and wherever it rests: the successor's path
    holds a copy of [N] in which scheduled is the full timestamp of [d],
    title the base name and status the configured default ("open" when
    empty), every other field and the body being those of [N]; [N] itself
    has neither rule field, its other fields and its body are unchanged; no
    other file changed. *)
Theorem split_strips_and_spawns (E : Env) (fuel : nat) (N : TFile) (w : World)
    (fm : gmap string value) (r : value) (d : Z) (n : Note) (rest : list Choice)
    (desc : string) :
  answers w = Split :: rest ->
  getFileCache N w = Some fm ->
  rule_of fm = Some r ->
  truthy r = true ->
  field_truthy (fm !! "scheduled") = true ->
  (getNextOccurrence E r (fm !! "scheduled") w).1 = Some d ->
  vault w !! path N = Some n ->
  vault w !! successor_path E N d = None ->
  io_fails E OpExists (successor_path E N d) = false ->
  io_fails E OpRead (path N) = false ->
  io_fails E OpCreate (successor_path E N d) = false ->
  io_fails E OpPatch (successor_path E N d) = false ->
  io_fails E OpPatch (path N) = false ->
  (List.length rest < fuel)%nat ->
  (settled (List.length rest) (promptOnFocus E fuel N w)
   /\ forall w', world_of (promptOnFocus E fuel N w) = Some w' ->
        split_done E N d (settings w) n (vault w) (vault w'))
  /\ (settled (List.length rest) (promptForContentChange E fuel N w)
      /\ forall w', world_of (promptForContentChange E fuel N w) = Some w' ->
           split_done E N d (settings w) n (vault w) (vault w'))
  /\ ((SessionTracker.wasRecentlyModified (path N) w).1 = false ->
      settled (List.length rest) (promptForFrontmatterChange E fuel N desc w)
      /\ forall w', world_of (promptForFrontmatterChange E fuel N desc w) = Some w' ->
           split_done E N d (settings w) n (vault w) (vault w')).
Proof.
  intros Ha Hc Hr Ht Hsched Hd Hn Hfree Hioe Hior Hioc Hiop Hio Hfuel.
  assert (Hne : successor_path E N d <> path N) by congruence.
  (* the split itself, from any world that differs in tracker, trace and answers only *)
  assert (Hsplit : forall ws,
            vault ws = vault w -> metadataCache ws = metadataCache w ->
            settings ws = settings w -> answers ws = rest ->
            forall {A} (K : M A),
              (forall w1, exists a w2, K w1 = Ret a w2 /\ vault w2 = vault w1
                                       /\ answers w2 = answers w1) ->
              settled (List.length rest) (bind (splitInstance E fuel N) (fun _ => K) ws)
              /\ forall w', world_of (bind (splitInstance E fuel N) (fun _ => K) ws) = Some w' ->
                   split_done E N d (settings w) n (vault w) (vault w')).
  { intros ws Hv Hm Hs Hans A K HK.
    destruct (splitInstance_spawns E fuel N ws fm r d n) as [Hrest Hvault];
      try (rewrite ?Hv; assumption).
    { unfold getFileCache in *. now rewrite Hm. }
    { rewrite <- Hd. now apply getNextOccurrence_scheduled. }
    { now rewrite Hans. }
    rewrite Hans in Hrest. rewrite Hs, Hv in Hvault. unfold bind.
    destruct (splitInstance E fuel N ws) as [[] w1|w1|w1|]; cbn in Hrest; try contradiction.
    - destruct (HK w1) as (a & w2 & -> & Hv2 & Ha2). cbn. rewrite Ha2. split; [exact Hrest|].
      intros w' [= <-]. rewrite Hv2, (Hvault w1 eq_refl). now apply split_done_intro.
    - split; [exact Hrest|]. intros w' [= <-]. rewrite (Hvault w1 eq_refl).
      now apply split_done_intro. }
  assert (Hmark : forall w1, exists (a : unit) w2,
            lift (SessionTracker.markAsModified (path N)) w1 = Ret a w2
            /\ vault w2 = vault w1 /\ answers w2 = answers w1).
  { intros w1. eexists _, _. split; [reflexivity|]. auto. }
  split; [|split].
  - assert (Heq : promptOnFocus E fuel N w
                  = (splitInstance E fuel N ;;;
                     lift (SessionTracker.markAsModified (path N)))
                      (set_answers rest (emit (EvPrompt (path N) "focus") w))).
    { unfold promptOnFocus, bind at 1, promptUser. cbn [answers emit set_trace].
      now rewrite Ha. }
    rewrite Heq. now apply Hsplit.
  - assert (Heq : promptForContentChange E fuel N w
                  = (splitInstance E fuel N ;;;
                     lift (SessionTracker.markAsModified (path N)))
                      (set_answers rest (emit (EvPrompt (path N) "editing") w))).
    { unfold promptForContentChange, bind at 1, promptUser. cbn [answers emit set_trace].
      now rewrite Ha. }
    rewrite Heq. now apply Hsplit.
  - intros Hq.
    destruct (TrackerFacts.lookup_frame (path N) w)
      as (Hs & Hv & Hm & _ & _ & _ & _ & _ & Hans & _).
    assert (Heq : promptForFrontmatterChange E fuel N desc w
                  = (splitInstance E fuel N ;;;
                     (lift (SessionTracker.markAsModified (path N)) ;;; ret Split))
                      (set_answers rest
                         (emit (EvPrompt (path N) desc)
                            (SessionTracker.wasRecentlyModified (path N) w).2))).
    { unfold promptForFrontmatterChange, promptForFrontmatterChange_with, bind at 1,
        wasRecentlyModified.
      destruct (SessionTracker.wasRecentlyModified (path N) w) as [b wl].
      cbn [fst snd] in *. subst b.
      unfold bind at 1, promptUser. cbn [answers emit set_trace]. now rewrite Hans, Ha. }
    rewrite Heq. apply Hsplit; auto.
    intros w1. eexists _, _. split; [reflexivity|]. auto.
Qed.

(** ** Witnesses for the prompt theorems *)

Lemma split_strips_and_spawns_witness :
  (settled (List.length [UpdateAll])
     (promptOnFocus Sample.calm 2 Sample.water_plants Sample.split_world)
   /\ forall w',
        world_of (promptOnFocus Sample.calm 2 Sample.water_plants Sample.split_world)
        = Some w' ->
        split_done Sample.calm Sample.water_plants Sample.next_week
          (settings Sample.split_world) Sample.water_plants_note
          (vault Sample.split_world) (vault w'))
  /\ (settled (List.length [UpdateAll])
        (promptForContentChange Sample.calm 2 Sample.water_plants Sample.split_world)
      /\ forall w',
           world_of (promptForContentChange Sample.calm 2 Sample.water_plants
                       Sample.split_world) = Some w' ->
           split_done Sample.calm Sample.water_plants Sample.next_week
             (settings Sample.split_world) Sample.water_plants_note
             (vault Sample.split_world) (vault w'))
  /\ ((SessionTracker.wasRecentlyModified (path Sample.water_plants) Sample.split_world).1
      = false ->
      settled (List.length [UpdateAll])
        (promptForFrontmatterChange Sample.calm 2 Sample.water_plants "updating"
           Sample.split_world)
      /\ forall w',
           world_of (promptForFrontmatterChange Sample.calm 2 Sample.water_plants "updating"
                       Sample.split_world) = Some w' ->
           split_done Sample.calm Sample.water_plants Sample.next_week
             (settings Sample.split_world) Sample.water_plants_note
             (vault Sample.split_world) (vault w')).
Proof.
  apply (split_strips_and_spawns Sample.calm 2 Sample.water_plants Sample.split_world
           Sample.water_plants_fm (VAtom (AStr "RRULE:FREQ=WEEKLY")) Sample.next_week
           Sample.water_plants_note [UpdateAll] "updating");
    first [vm_compute; reflexivity | cbn; lia].
Defined.

Lemma cancel_is_inert_witness :
  (exists w',
     updateFrontmatter Sample.calm 1 [Sample.water_plants] Sample.raise_priority
       Sample.cancel_world = Ret O w'
     /\ vault w' = vault Sample.cancel_world
     /\ metadataCache w' = metadataCache Sample.cancel_world)
  /\ (exists w',
        addTag Sample.calm 0 [Sample.water_plants] "urgent" "tags" Sample.cancel_world
        = Ret O w'
        /\ vault w' = vault Sample.cancel_world
        /\ metadataCache w' = metadataCache Sample.cancel_world)
  /\ (exists w',
        removeTag Sample.calm 0 [Sample.water_plants] "garden" "tags" Sample.cancel_world
        = Ret O w'
        /\ vault w' = vault Sample.cancel_world
        /\ metadataCache w' = metadataCache Sample.cancel_world).
Proof.
  split; [|split].
  - apply (proj1 (cancel_is_inert Sample.calm 0 [] [] Sample.water_plants
                    Sample.raise_priority "urgent" "tags" Sample.cancel_world []
                    eq_refl eq_refl eq_refl));
      [constructor | vm_compute; reflexivity].
  - apply (proj1 (proj2 (cancel_is_inert Sample.calm 0 [] [] Sample.water_plants
                           Sample.raise_priority "urgent" "tags" Sample.cancel_world []
                           eq_refl eq_refl eq_refl)));
      [constructor | vm_compute; reflexivity].
  - apply (proj1 (proj2 (proj2 (cancel_is_inert Sample.calm 0 [] [] Sample.water_plants
                                  Sample.raise_priority "garden" "tags" Sample.cancel_world []
                                  eq_refl eq_refl eq_refl))));
      [constructor | vm_compute; reflexivity].
Defined.

(** * Further properties *)

(** ** Bulk patches *)

(** One round of the loop of [applyToFiles] on a markdown file. *)
Lemma applyToFiles_step E cb f count w :
  exists c wx,
    try_catch
      (bind (lift (markFileAsModified (path f)))
         (fun _ => bind (processFrontMatter E (path f) (fun fm => cb fm f))
                     (fun _ => ret (S count))))
      (bind (lift (logger_error ("[TPS GCM] Failed to update " ++ path f ++ ":")))
         (fun _ => ret count)) w = Ret c wx
    /\ settings wx = settings w /\ trace wx = trace w /\ answers wx = answers w
    /\ checklistAnswers wx = checklistAnswers w /\ loggingEnabled wx = loggingEnabled w
    /\ clock wx = clock w
    /\ ((io_fails E OpPatch (path f) = false
         /\ exists n, vault w !! path f = Some n
              /\ c = S count
              /\ vault wx = <[path f := mkNote (cb (frontmatter n) f) (body n)]> (vault w)
              /\ metadataCache wx
                 = cache_after E (path f) (cb (frontmatter n) f) (metadataCache w)
              /\ console wx = console w)
        \/ ((io_fails E OpPatch (path f) = true \/ vault w !! path f = None)
            /\ c = count /\ vault wx = vault w /\ metadataCache wx = metadataCache w
            /\ console wx
               = if loggingEnabled w then failure_entry f :: console w else console w)).
Proof.
  unfold try_catch, bind, lift, ret, processFrontMatter.
  cbn [vault markFileAsModified SessionTracker.markAsModified set_modifiedFiles].
  destruct (io_fails E OpPatch (path f)) eqn:Hio.
  - eexists _, _. split; [reflexivity|].
    destruct (logger_error_fields ("[TPS GCM] Failed to update " ++ path f ++ ":")
                (markFileAsModified (path f) w))
      as (Hs & Hv & Hmc & _ & _ & Hc & Hl & Ht & Ha & Hk).
    unfold markFileAsModified, SessionTracker.markAsModified in *.
    rewrite Hs, Ht, Ha, Hk, Hl, Hc. repeat (split; [reflexivity|]).
    right. split; [auto|]. split; [reflexivity|]. rewrite Hv, Hmc.
    split; [reflexivity|]. split; [reflexivity|].
    rewrite logger_error_console. reflexivity.
  - destruct (vault w !! path f) as [n|] eqn:Hn.
    + eexists _, _. split; [reflexivity|]. frame_simpl.
      repeat (split; [reflexivity|]).
      left. split; [reflexivity|]. exists n. split; [reflexivity|]. split; [reflexivity|].
      split; [reflexivity|].
      erewrite reindex_metadataCache by (cbn [vault set_vault rewrite_block
            put_block set_frontmatterBlock]; apply lookup_insert_eq).
      split; reflexivity.
    + eexists _, _. split; [reflexivity|].
      destruct (logger_error_fields ("[TPS GCM] Failed to update " ++ path f ++ ":")
                  (markFileAsModified (path f) w))
        as (Hs & Hv & Hmc & _ & _ & Hc & Hl & Ht & Ha & Hk).
      unfold markFileAsModified, SessionTracker.markAsModified in *.
      rewrite Hs, Ht, Ha, Hk, Hl, Hc. repeat (split; [reflexivity|]).
      right. split; [auto|]. split; [reflexivity|]. rewrite Hv, Hmc.
      split; [reflexivity|]. split; [reflexivity|].
      rewrite logger_error_console. reflexivity.
Qed.

Lemma patch_accepted_ext E w1 w2 f :
  (forall p, is_Some (vault w1 !! p) <-> is_Some (vault w2 !! p)) ->
  patch_accepted E w1 f = patch_accepted E w2 f.
Proof.
  intros H. unfold patch_accepted. f_equal. apply bool_decide_ext, H.
Qed.

Lemma filter_ext_all {A} (f g : A -> bool) l :
  (forall x, f x = g x) -> List.filter f l = List.filter g l.
Proof. intros H. induction l as [|a l IH]; cbn; [reflexivity|]. now rewrite H, IH. Qed.

(** What a run of the loop of [applyToFiles] does, for any callback. *)
Lemma applyToFiles_from_run E cb files :
  forall count w,
  exists w',
    applyToFiles_from E count files cb w
    = Ret (count + List.length (List.filter (patch_accepted E w) files))%nat w'
    /\ settings w' = settings w /\ trace w' = trace w /\ answers w' = answers w
    /\ checklistAnswers w' = checklistAnswers w /\ loggingEnabled w' = loggingEnabled w
    /\ clock w' = clock w
    /\ console w'
       = (if loggingEnabled w
          then (List.map failure_entry (rev (List.filter (patch_refused E w) files))
                  ++ console w)%list
          else console w)
    /\ (forall p, is_Some (vault w' !! p) <-> is_Some (vault w !! p))
    /\ (forall p n0, vault w !! p = Some n0 ->
          exists n', vault w' !! p = Some n' /\ body n' = body n0)
    /\ (forall p, (forall f, In f files -> is_markdown f = true -> path f <> p) ->
          vault w' !! p = vault w !! p /\ metadataCache w' !! p = metadataCache w !! p).
Proof.
  induction files as [|f rest IH]; intros count w.
  - exists w. cbn. rewrite Nat.add_0_r. repeat (split; [reflexivity|]).
    split; [now destruct (loggingEnabled w)|].
    split; [tauto|]. split; [eauto|]. auto.
  - cbn [applyToFiles_from List.filter].
    destruct (is_markdown f) eqn:Hmd; cbn [negb andb].
    + destruct (applyToFiles_step E cb f count w)
        as (c & wx & Hrun & Hs & Ht & Ha & Hk & Hl & Hc & Hcase).
      unfold bind at 1. rewrite Hrun.
      destruct (IH c wx) as (w' & Hrest & Hs' & Ht' & Ha' & Hk' & Hl' & Hc' & Hco' & Hdom'
                             & Hbody' & Hout').
      exists w'.
      destruct Hcase as [(Hio & n & Hn & -> & Hvx & Hmx & Hcx)
                        | (Hbad & -> & Hvx & Hmx & Hcx)].
      * assert (Hsame : forall p, is_Some (vault wx !! p) <-> is_Some (vault w !! p)).
        { intros p. rewrite Hvx. destruct (decide (p = path f)) as [->|Hne].
          - rewrite lookup_insert_eq, Hn. split; eauto.
          - now rewrite lookup_insert_ne by congruence. }
        assert (Hpa : patch_accepted E w f = true).
        { unfold patch_accepted. rewrite Hmd, Hio, Hn.
          now rewrite bool_decide_eq_true_2 by eauto. }
        unfold patch_refused at 1. rewrite Hpa, Hmd. cbn [negb andb length].
        rewrite Hrest.
        rewrite (filter_ext_all _ _ rest (fun g => patch_accepted_ext E wx w g Hsame)).
        split; [f_equal; lia|].
        split; [congruence|]. split; [congruence|]. split; [congruence|].
        split; [congruence|]. split; [congruence|]. split; [congruence|].
        split.
        { rewrite Hco', Hl, Hcx.
          assert (Hr : List.filter (patch_refused E wx) rest
                       = List.filter (patch_refused E w) rest).
          { apply filter_ext_all. intros g. unfold patch_refused.
            now rewrite (patch_accepted_ext E wx w g Hsame). }
          now rewrite Hr. }
        split; [intros p; rewrite Hdom'; apply Hsame|].
        split.
        { intros p n0 Hp. destruct (decide (p = path f)) as [->|Hne].
          - destruct (Hbody' (path f) (mkNote (cb (frontmatter n) f) (body n)))
              as (n' & Hn' & Hb'); [rewrite Hvx; apply lookup_insert_eq|].
            exists n'. split; [exact Hn'|]. cbn in Hb'. congruence.
          - apply Hbody'. rewrite Hvx, lookup_insert_ne by congruence. exact Hp. }
        intros p Hp.
        destruct (Hout' p) as [Hv Hm]; [intros g Hg; apply Hp; now right|].
        assert (Hne : path f <> p) by (apply Hp; [now left|exact Hmd]).
        rewrite Hv, Hm, Hvx, Hmx. split; [now apply lookup_insert_ne|].
        apply cache_after_other. congruence.
      * assert (Hsame : forall p, is_Some (vault wx !! p) <-> is_Some (vault w !! p))
          by (intros p; now rewrite Hvx).
        assert (Hacc : (negb (io_fails E OpPatch (path f))
                        && bool_decide (is_Some (vault w !! path f)))%bool = false).
        { destruct Hbad as [->| ->]; [reflexivity|].
          rewrite bool_decide_eq_false_2 by apply is_Some_None. apply andb_false_r. }
        assert (Hpa : patch_accepted E w f = false).
        { unfold patch_accepted. now rewrite Hmd, <- andb_assoc, Hacc. }
        unfold patch_refused at 1. rewrite Hpa, Hmd. cbn [negb andb length rev].
        rewrite Hrest.
        rewrite (filter_ext_all _ _ rest (fun g => patch_accepted_ext E wx w g Hsame)).
        split; [reflexivity|].
        split; [congruence|]. split; [congruence|]. split; [congruence|].
        split; [congruence|]. split; [congruence|]. split; [congruence|].
        split.
        { rewrite Hco', Hl, Hcx.
          assert (Hr : List.filter (patch_refused E wx) rest
                       = List.filter (patch_refused E w) rest).
          { apply filter_ext_all. intros g. unfold patch_refused.
            now rewrite (patch_accepted_ext E wx w g Hsame). }
          rewrite Hr. destruct (loggingEnabled w); [|reflexivity].
          rewrite map_app. cbn [List.map]. now rewrite <- app_assoc. }
        split; [intros p; rewrite Hdom'; apply Hsame|].
        split; [intros p n0 Hp; apply Hbody'; now rewrite Hvx|].
        intros p Hp.
        destruct (Hout' p) as [Hv Hm]; [intros g Hg; apply Hp; now right|].
        now rewrite Hv, Hm, Hvx, Hmx.
    + destruct (IH count w) as (w' & Hrest & Hs' & Ht' & Ha' & Hk' & Hl' & Hc' & Hco' & Hdom'
                                & Hbody' & Hout').
      assert (Hpa : patch_accepted E w f = false)
        by (unfold patch_accepted; now rewrite Hmd).
      unfold patch_refused at 1. rewrite Hpa, Hmd. cbn [negb andb].
      exists w'. split; [exact Hrest|].
      repeat (split; [assumption|]).
      intros p Hp. apply Hout'. intros g Hg. apply Hp. now right.
Qed.

(** The vault after a run of [applyToFiles] with a callback that does not
    look at the file and is idempotent. *)
Lemma applyToFiles_from_exact E g files :
  (forall fm, g (g fm) = g fm) ->
  forall count w,
  exists n w',
    applyToFiles_from E count files (fun fm _ => g fm) w = Ret n w'
    /\ forall p,
         vault w' !! p
         = (fun note => if touched E files p
                        then mkNote (g (frontmatter note)) (body note) else note)
             <$> (vault w !! p).
Proof.
  intros Hidem. induction files as [|f rest IH]; intros count w.
  - exists count, w. split; [reflexivity|]. intros p. cbn.
    now destruct (vault w !! p).
  - cbn [applyToFiles_from touched existsb].
    destruct (is_markdown f) eqn:Hmd; cbn [negb andb orb].
    + destruct (applyToFiles_step E (fun fm _ => g fm) f count w)
        as (c & wx & Hrun & _ & _ & _ & _ & _ & _ & Hcase).
      unfold bind at 1. rewrite Hrun.
      destruct (IH c wx) as (n & w' & Hrest & Hv').
      exists n, w'. split; [exact Hrest|]. intros p. rewrite Hv'. fold (touched E rest p).
      destruct Hcase as [(Hio & n0 & Hn0 & _ & Hvx & _) | (Hbad & _ & Hvx & _)].
      * rewrite Hvx, Hio. cbn [negb andb].
        destruct (String.eqb_spec (path f) p) as [<-|Hne]; cbn [orb].
        -- rewrite lookup_insert_eq, Hn0. cbn. rewrite Hidem.
           now destruct (touched E rest (path f)).
        -- now rewrite lookup_insert_ne by congruence.
      * rewrite Hvx. destruct Hbad as [Hio|Hnone].
        -- rewrite Hio. reflexivity.
        -- destruct (String.eqb_spec (path f) p) as [<-|Hne].
           ++ now rewrite Hnone.
           ++ now rewrite andb_false_r.
    + apply IH.
Qed.

Lemma apply_updates_idem updates fm :
  apply_updates updates (apply_updates updates fm) = apply_updates updates fm.
Proof.
  apply map_eq. intros k. rewrite !lookup_apply_updates.
  destruct (updates !! k); reflexivity.
Qed.

Lemma apply_updates_singleton k v fm :
  is_null v = false -> apply_updates (<[k := v]> ∅) fm = <[k := v]> fm.
Proof.
  intros Hv. apply map_eq. intros j. rewrite lookup_apply_updates.
  destruct (decide (j = k)) as [->|Hne].
  - rewrite !lookup_insert_eq. now rewrite Hv.
  - rewrite !lookup_insert_ne by congruence. now rewrite lookup_empty.
Qed.

(** The prompt loop of [updateFrontmatter] is passed without a prompt when
    prompting is off or no file of the batch is a candidate. *)
Lemma updateFrontmatter_unprompted E fuel files updates w :
  ((enableRecurrence (settings w) && promptOnRecurrenceEdit (settings w))%bool = true ->
   Forall (fun f => update_candidate updates f w = false) files) ->
  updateFrontmatter E (S fuel) files updates w
  = applyToFiles E files (fun fm _ => apply_updates updates fm) w.
Proof.
  intros H. cbn [updateFrontmatter]. unfold updateFrontmatter_body.
  destruct (enableRecurrence (settings w) && promptOnRecurrenceEdit (settings w))%bool.
  - unfold bind at 1.
    pose proof (prompts_skip_non_candidates E (updateFrontmatter E fuel) updates files [] w
                  (H eq_refl)) as Hskip.
    rewrite app_nil_r in Hskip. rewrite Hskip. reflexivity.
  - reflexivity.
Qed.

(** X1.  [applyToFiles] always resolves, whatever the host does to the
    single patches: its result is the number of entries of the batch that
    are markdown files present in the vault and whose patch the host
    accepts.  Every other markdown entry is passed over with one error
    entry naming its path (written when logging is on) and the loop goes on
    with the next file.  Nothing is shown to the user. *)
Theorem applyToFiles_counts_accepted_patches (E : Env) (files : list TFile)
    (cb : gmap string value -> TFile -> gmap string value) (w : World) :
  exists w',
    applyToFiles E files cb w
    = Ret (List.length (List.filter (patch_accepted E w) files)) w'
    /\ console w'
       = (if loggingEnabled w
          then (List.map failure_entry (rev (List.filter (patch_refused E w) files))
                  ++ console w)%list
          else console w)
    /\ trace w' = trace w.
Proof.
  destruct (applyToFiles_from_run E cb files O w)
    as (w' & Hrun & _ & Ht & _ & _ & _ & _ & Hco & _).
  exists w'. unfold applyToFiles. rewrite Hrun. auto.
Qed.

(** X2.  [applyToFiles] edits frontmatter only: it creates and deletes no
    file, the text below the frontmatter of every note stays as it was, and
    a file that is not a markdown entry of the batch is left exactly as it
    was; the settings and the user's pending answers are not touched. *)
Theorem applyToFiles_edits_frontmatter_only (E : Env) (files : list TFile)
    (cb : gmap string value -> TFile -> gmap string value) (w : World) :
  exists n w',
    applyToFiles E files cb w = Ret n w'
    /\ dom (vault w') = dom (vault w)
    /\ (forall p note, vault w !! p = Some note ->
          exists note', vault w' !! p = Some note' /\ body note' = body note)
    /\ (forall p, (forall f, In f files -> is_markdown f = true -> path f <> p) ->
          vault w' !! p = vault w !! p)
    /\ settings w' = settings w
    /\ answers w' = answers w.
Proof.
  destruct (applyToFiles_from_run E cb files O w)
    as (w' & Hrun & Hs & _ & Ha & _ & _ & _ & _ & Hdom & Hbody & Hout).
  eexists _, w'. split; [exact Hrun|].
  split; [apply set_eq; intros p; rewrite !elem_of_dom; apply Hdom|].
  split; [exact Hbody|]. split; [intros p Hp; now apply Hout|]. auto.
Qed.

(** X3.  When prompting is switched off, or no file of the batch is a
    candidate for the recurrence dialog (the cache shows a rule, the status
    is neither complete nor wont-do, and no status is being set),
    [updateFrontmatter] shows no dialog and consumes no answer; it returns
    the number of accepted patches, and every patched note ends with the
    updates applied to the frontmatter it had (a null entry deletes its
    key, any other entry overwrites it, the other keys stay), also when the
    file is listed more than once.  Every other note is unchanged. *)
Theorem updateFrontmatter_writes_updates (E : Env) (fuel : nat) (files : list TFile)
    (updates : gmap string value) (w : World) :
  ((enableRecurrence (settings w) && promptOnRecurrenceEdit (settings w))%bool = true ->
   Forall (fun f => update_candidate updates f w = false) files) ->
  exists w',
    updateFrontmatter E (S fuel) files updates w
    = Ret (List.length (List.filter (patch_accepted E w) files)) w'
    /\ trace w' = trace w
    /\ answers w' = answers w
    /\ forall p note, vault w !! p = Some note ->
         vault w' !! p
         = Some (if touched E files p
                 then mkNote (apply_updates updates (frontmatter note)) (body note)
                 else note).
Proof.
  intros H. rewrite (updateFrontmatter_unprompted E fuel files updates w H).
  unfold applyToFiles.
  destruct (applyToFiles_from_run E (fun fm _ => apply_updates updates fm) files O w)
    as (w' & Hrun & _ & Ht & Ha & _).
  destruct (applyToFiles_from_exact E (apply_updates updates) files
              (apply_updates_idem updates) O w) as (n & w2 & Hrun2 & Hv).
  rewrite Hrun in Hrun2. injection Hrun2 as _ <-.
  exists w'. split; [exact Hrun|]. split; [exact Ht|]. split; [exact Ha|].
  intros p note Hp. now rewrite Hv, Hp.
Qed.

(** X4.  A status change that is outside the checklist block (the
    checklist setting is off or the status is not complete) and outside
    the recurrence flow (recurrence is off or the status is not terminal)
    is a plain write: [setStatus] shows nothing, creates no successor,
    returns the number of accepted patches, and every patched note gets the
    new status while keeping its recurrence rule; other notes stay. *)
Theorem setStatus_without_recurrence (E : Env) (fuel : nat) (files : list TFile)
    (status : string) (w : World) :
  (checkOpenChecklistItems (settings w) && String.eqb status "complete")%bool = false ->
  (enableRecurrence (settings w)
   && includes_string status (recurrenceStatuses (settings w)))%bool = false ->
  exists w',
    setStatus E (S fuel) files status w
    = Ret (List.length (List.filter (patch_accepted E w) files)) w'
    /\ trace w' = trace w
    /\ answers w' = answers w
    /\ forall p note, vault w !! p = Some note ->
         exists note',
           vault w' !! p = Some note'
           /\ note' = (if touched E files p
                       then mkNote (<["status" := VAtom (AStr status)]> (frontmatter note))
                              (body note)
                       else note)
           /\ rule_of (frontmatter note') = rule_of (frontmatter note).
Proof.
  intros Hgate Hrec.
  assert (Hg : checklist_gate E files status w = Ret false w).
  { unfold checklist_gate. rewrite Hgate. now destruct files as [|? [|? ?]]. }
  unfold setStatus, bind at 1. rewrite Hg, Hrec. unfold bind at 1, ret.
  rewrite (updateFrontmatter_unprompted E fuel files _ w).
  2:{ intros _. apply Forall_forall. intros f _. unfold update_candidate.
      destruct (metadataCache w !! path f); [|reflexivity].
      rewrite lookup_insert_eq.
      rewrite (bool_decide_eq_true_2 (is_Some (Some _))) by eauto.
      apply andb_false_r. }
  unfold applyToFiles.
  destruct (applyToFiles_from_run E
              (fun fm _ => apply_updates (<["status" := VAtom (AStr status)]> ∅) fm)
              files O w) as (w' & Hrun & _ & Ht & Ha & _).
  destruct (applyToFiles_from_exact E
              (apply_updates (<["status" := VAtom (AStr status)]> ∅)) files
              (apply_updates_idem _) O w) as (n & w2 & Hrun2 & Hv).
  rewrite Hrun in Hrun2. injection Hrun2 as _ <-.
  exists w'. split; [exact Hrun|]. split; [exact Ht|]. split; [exact Ha|].
  intros p note Hp. rewrite Hv, Hp. cbn [fmap option_fmap option_map].
  eexists. split; [reflexivity|].
  rewrite apply_updates_singleton by reflexivity.
  split; [reflexivity|].
  destruct (touched E files p); [|reflexivity].
  cbn [frontmatter]. unfold rule_of.
  now rewrite !lookup_insert_ne by discriminate.
Qed.

Lemma updateFrontmatter_writes_updates_witness :
  exists w',
    updateFrontmatter Sample.calm 1 [Sample.picture; Sample.water_plants]
      Sample.raise_priority (Sample.garden_in "complete" DEFAULT_SETTINGS [])
    = Ret (List.length
             (List.filter
                (patch_accepted Sample.calm (Sample.garden_in "complete" DEFAULT_SETTINGS []))
                [Sample.picture; Sample.water_plants])) w'
    /\ trace w' = trace (Sample.garden_in "complete" DEFAULT_SETTINGS [])
    /\ answers w' = answers (Sample.garden_in "complete" DEFAULT_SETTINGS [])
    /\ forall p note,
         vault (Sample.garden_in "complete" DEFAULT_SETTINGS []) !! p = Some note ->
         vault w' !! p
         = Some (if touched Sample.calm [Sample.picture; Sample.water_plants] p
                 then mkNote (apply_updates Sample.raise_priority (frontmatter note))
                        (body note)
                 else note).
Proof.
  apply (updateFrontmatter_writes_updates Sample.calm 0
           [Sample.picture; Sample.water_plants] Sample.raise_priority
           (Sample.garden_in "complete" DEFAULT_SETTINGS [])).
  intros _. repeat constructor.
Defined.

Lemma setStatus_without_recurrence_witness :
  exists w',
    setStatus Sample.calm 1 [Sample.water_plants] "in-progress"
      (Sample.garden DEFAULT_SETTINGS [])
    = Ret (List.length
             (List.filter (patch_accepted Sample.calm (Sample.garden DEFAULT_SETTINGS []))
                [Sample.water_plants])) w'
    /\ trace w' = trace (Sample.garden DEFAULT_SETTINGS [])
    /\ answers w' = answers (Sample.garden DEFAULT_SETTINGS [])
    /\ forall p note, vault (Sample.garden DEFAULT_SETTINGS []) !! p = Some note ->
         exists note',
           vault w' !! p = Some note'
           /\ note' = (if touched Sample.calm [Sample.water_plants] p
                       then mkNote (<["status" := VAtom (AStr "in-progress")]>
                                      (frontmatter note)) (body note)
                       else note)
           /\ rule_of (frontmatter note') = rule_of (frontmatter note).
Proof.
  apply (setStatus_without_recurrence Sample.calm 0 [Sample.water_plants] "in-progress"
           (Sample.garden DEFAULT_SETTINGS [])); reflexivity.
Defined.

Lemma change_description_priority prio :
  change_description (<["priority" := VAtom (AStr prio)]> ∅) = "changing the priority of".
Proof.
  unfold change_description.
  rewrite lookup_insert_ne by discriminate. rewrite lookup_empty.
  rewrite (bool_decide_eq_false_2 (is_Some None)) by apply is_Some_None.
  rewrite lookup_insert_eq.
  now rewrite (bool_decide_eq_true_2 (is_Some (Some _))) by eauto.
Qed.

(** The prompt of [promptForFrontmatterChange] answered with update-all. *)
Lemma promptForFrontmatterChange_with_update_all E inner f desc w rest :
  (SessionTracker.wasRecentlyModified (path f) w).1 = false ->
  answers w = UpdateAll :: rest ->
  exists w1,
    promptForFrontmatterChange_with E inner f desc w = Ret UpdateAll w1
    /\ settings w1 = settings w /\ vault w1 = vault w /\ metadataCache w1 = metadataCache w
    /\ clock w1 = clock w /\ sessionDuration w1 = sessionDuration w
    /\ loggingEnabled w1 = loggingEnabled w /\ console w1 = console w
    /\ checklistAnswers w1 = checklistAnswers w
    /\ trace w1 = EvPrompt (path f) desc :: trace w
    /\ answers w1 = rest
    /\ modifiedFiles w1 !! path f = Some (clock w).
Proof.
  intros Hrec Hans.
  unfold promptForFrontmatterChange_with, bind, wasRecentlyModified.
  destruct (TrackerFacts.lookup_frame (path f) w)
    as (Hs & Hv & Hmc & Hsd & Hc & Hl & Hco & Ht & Ha & Hk).
  destruct (SessionTracker.wasRecentlyModified (path f) w) as [b w0].
  cbn [fst snd] in *. subst b.
  unfold promptUser. cbn [answers emit set_trace]. rewrite Ha, Hans.
  unfold lift, ret. eexists. split; [reflexivity|].
  unfold SessionTracker.markAsModified. cbn.
  rewrite lookup_insert_eq. rewrite Hs, Hv, Hmc, Hc, Hsd, Hl, Hco, Hk, Ht. auto 12.
Qed.

(** X5.  [setPriority] on an open recurring note asks with the wording
    for a priority change; when the user answers update-all, the priority
    is written, the recurrence rule stays on the note, one file is
    reported, the answer is consumed and the note is stamped in the
    tracker with the time of the edit. *)
Theorem setPriority_edit_series (E : Env) (fuel : nat) (f : TFile) (priority : string)
    (w : World) (rest : list Choice) (fm : gmap string value) (note : Note) :
  (enableRecurrence (settings w) && promptOnRecurrenceEdit (settings w))%bool = true ->
  getFileCache f w = Some fm ->
  has_rule fm = true ->
  status_is_done fm = false ->
  (SessionTracker.wasRecentlyModified (path f) w).1 = false ->
  answers w = UpdateAll :: rest ->
  is_markdown f = true ->
  vault w !! path f = Some note ->
  io_fails E OpPatch (path f) = false ->
  exists w',
    setPriority E (S fuel) [f] priority w = Ret 1%nat w'
    /\ vault w'
       = <[path f := mkNote (<["priority" := VAtom (AStr priority)]> (frontmatter note))
                       (body note)]> (vault w)
    /\ rule_of (<["priority" := VAtom (AStr priority)]> (frontmatter note))
       = rule_of (frontmatter note)
    /\ trace w' = EvPrompt (path f) "changing the priority of" :: trace w
    /\ answers w' = rest
    /\ modifiedFiles w' !! path f = Some (clock w).
Proof.
  intros Hflags Hcache Hrule Hdone Hrec Hans Hmd Hnote Hio.
  unfold setPriority. cbn [updateFrontmatter]. unfold updateFrontmatter_body.
  rewrite Hflags. unfold bind at 1. cbn [updateFrontmatter_prompts].
  rewrite Hcache, Hrule, Hdone.
  rewrite lookup_insert_ne by discriminate. rewrite lookup_empty.
  rewrite (bool_decide_eq_false_2 (is_Some None)) by apply is_Some_None.
  rewrite change_description_priority.
  destruct (promptForFrontmatterChange_with_update_all E (updateFrontmatter E fuel) f
              "changing the priority of" w rest Hrec Hans)
    as (w1 & Hrun & Hs & Hv & Hmc & Hc & Hsd & Hl & Hco & Hk & Ht & Ha & Hm).
  unfold bind at 1. rewrite Hrun. unfold ret at 1.
  destruct (applyToFiles_from_run E
              (fun fm _ => apply_updates (<["priority" := VAtom (AStr priority)]> ∅) fm)
              [f] O w1) as (w' & Hrun' & _ & Ht' & Ha' & _ & _ & Hc' & _).
  assert (Hacc : patch_accepted E w1 f = true).
  { unfold patch_accepted. rewrite Hmd, Hio, Hv, Hnote.
    now rewrite bool_decide_eq_true_2 by eauto. }
  cbn [List.filter] in Hrun'. rewrite Hacc in Hrun'. cbn [length Nat.add] in Hrun'.
  destruct (applyToFiles_from_exact E
              (apply_updates (<["priority" := VAtom (AStr priority)]> ∅)) [f]
              (apply_updates_idem _) O w1) as (n & w2 & Hrun2 & Hvx).
  unfold applyToFiles. rewrite Hrun' in Hrun2. injection Hrun2 as _ <-.
  destruct (applyToFiles_from_marks E
              (fun fm _ => apply_updates (<["priority" := VAtom (AStr priority)]> ∅) fm)
              [f] O w1) as (n3 & w3 & Hrun3 & _ & _ & Hm3).
  rewrite Hrun' in Hrun3. injection Hrun3 as _ <-.
  exists w'. split; [exact Hrun'|].
  split.
  { apply map_eq. intros p. rewrite Hvx, Hv. cbn [touched existsb].
    rewrite Hmd, Hio. cbn [negb andb orb].
    destruct (String.eqb_spec (path f) p) as [<-|Hne].
    - rewrite Hnote, lookup_insert_eq. cbn.
      now rewrite apply_updates_singleton by reflexivity.
    - rewrite lookup_insert_ne by congruence. now destruct (vault w !! p). }
  split; [unfold rule_of; now rewrite !lookup_insert_ne by discriminate|].
  split; [congruence|]. split; [congruence|].
  rewrite Hm3. cbn [existsb]. rewrite Hmd, String.eqb_refl. cbn. now rewrite Hc.
Qed.

Lemma setPriority_edit_series_witness :
  exists w',
    setPriority Sample.calm 1 [Sample.water_plants] "high"
      (Sample.garden DEFAULT_SETTINGS [UpdateAll]) = Ret 1%nat w'
    /\ vault w'
       = <[path Sample.water_plants
           := mkNote (<["priority" := VAtom (AStr "high")]>
                        (frontmatter Sample.water_plants_note))
                (body Sample.water_plants_note)]>
           (vault (Sample.garden DEFAULT_SETTINGS [UpdateAll]))
    /\ rule_of (<["priority" := VAtom (AStr "high")]> (frontmatter Sample.water_plants_note))
       = rule_of (frontmatter Sample.water_plants_note)
    /\ trace w' = EvPrompt (path Sample.water_plants) "changing the priority of"
                  :: trace (Sample.garden DEFAULT_SETTINGS [UpdateAll])
    /\ answers w' = []
    /\ modifiedFiles w' !! path Sample.water_plants
       = Some (clock (Sample.garden DEFAULT_SETTINGS [UpdateAll])).
Proof.
  apply (setPriority_edit_series Sample.calm 0 Sample.water_plants "high"
           (Sample.garden DEFAULT_SETTINGS [UpdateAll]) [] Sample.water_plants_fm
           Sample.water_plants_note); reflexivity.
Defined.

(** ** Text and its characters *)

Lemma cut_concat l : forall p, (fst (cut p l) ++ concat (snd (cut p l)))%list = l.
Proof.
  induction l as [|c r IH]; intros p; [reflexivity|]. cbn [cut].
  destruct p as [|k].
  - specialize (IH (lead_width c)). destruct (cut (lead_width c) r) as [t cs].
    cbn in *. now rewrite IH.
  - destruct (is_continuation c).
    + specialize (IH k). destruct (cut k r) as [t cs]. cbn in *. now rewrite IH.
    + specialize (IH (lead_width c)). destruct (cut (lead_width c) r) as [t cs].
      cbn in *. now rewrite IH.
Qed.

Lemma cut_zero l : fst (cut 0 l) = [].
Proof. destruct l as [|c r]; [reflexivity|]. cbn. now destruct (cut (lead_width c) r). Qed.

Lemma concat_chars s : concat (chars s) = list_ascii_of_string s.
Proof.
  unfold chars. pose proof (cut_concat (list_ascii_of_string s) 0) as H.
  now rewrite cut_zero in H.
Qed.

Lemma text_chars s : text (chars s) = s.
Proof. unfold text. rewrite concat_chars. apply string_of_list_ascii_of_string. Qed.

Lemma list_ascii_text cs : list_ascii_of_string (text cs) = concat cs.
Proof. unfold text. apply list_ascii_of_string_of_list_ascii. Qed.

Lemma cut_plain c r p : plain c -> cut p (c :: r) = ([], [c] :: snd (cut 0 r)).
Proof.
  intros [Hc Hw]. cbn [cut]. rewrite Hc, Hw.
  pose proof (cut_zero r) as Hz. destruct (cut 0 r) as [t cs]. cbn in *. subst t.
  now destruct p.
Qed.

Lemma cut_app_plain a c b :
  plain c ->
  forall p, cut p (a ++ c :: b) = (fst (cut p a), (snd (cut p a) ++ [c] :: snd (cut 0 b))%list).
Proof.
  intros Hc. induction a as [|x a IH]; intros p.
  - cbn [app]. rewrite (cut_plain c b p Hc). now destruct p.
  - cbn [app cut]. destruct p as [|k].
    + rewrite IH. now destruct (cut (lead_width x) a).
    + destruct (is_continuation x); rewrite IH;
        [now destruct (cut k a) | now destruct (cut (lead_width x) a)].
Qed.

(** Bytes of the same kind are cut alike. *)
Lemma cut_alike (R : ascii -> ascii -> Prop) l l' :
  (forall a b, R a b -> is_continuation a = is_continuation b /\ lead_width a = lead_width b) ->
  Forall2 R l l' ->
  forall p, Forall2 R (fst (cut p l)) (fst (cut p l'))
            /\ Forall2 (Forall2 R) (snd (cut p l)) (snd (cut p l')).
Proof.
  intros HR H. induction H as [|a b l l' Hab _ IH]; intros p; [now split; constructor|].
  destruct (HR a b Hab) as [Hc Hw]. cbn [cut]. rewrite <- Hc, <- Hw.
  destruct p as [|k].
  - destruct (IH (lead_width a)) as [H1 H2].
    destruct (cut (lead_width a) l), (cut (lead_width a) l'). cbn in *.
    split; [constructor|]. constructor; [now constructor|assumption].
  - destruct (is_continuation a).
    + destruct (IH k) as [H1 H2]. destruct (cut k l), (cut k l'). cbn in *.
      split; [now constructor|assumption].
    + destruct (IH (lead_width a)) as [H1 H2].
      destruct (cut (lead_width a) l), (cut (lead_width a) l'). cbn in *.
      split; [constructor|]. constructor; [now constructor|assumption].
Qed.

Lemma same_shape_concat {A} (xs ys : list (list A)) :
  Forall2 (fun x y => List.length x = List.length y) xs ys ->
  concat xs = concat ys -> xs = ys.
Proof.
  induction 1 as [|x y xs ys Hxy _ IH]; [reflexivity|]. cbn [concat]. intros H.
  apply app_inj_1 in H as [-> H]; [|exact Hxy]. now rewrite (IH H).
Qed.

Lemma is_mark_plain m : is_mark m -> plain m.
Proof. intros [->| ->]; split; reflexivity. Qed.

Lemma marked_chars_bytes m cs cs' :
  marked_chars m cs cs' -> only_boxes_marked m (concat cs) (concat cs').
Proof.
  induction 1 as [|a b cs cs' Hab _ IH]; [constructor|]. cbn [concat].
  apply Forall2_app; [|exact IH].
  destruct Hab as [->|[-> ->]].
  - clear. induction a; constructor; auto.
  - constructor; [now right|constructor].
Qed.

(** Marking boxes moves no boundary between characters. *)
Lemma chars_marked m s cs' :
  is_mark m -> marked_chars m (chars s) cs' -> chars (text cs') = cs'.
Proof.
  intros Hm Hrel.
  pose proof (marked_chars_bytes m _ _ Hrel) as Hbytes. rewrite concat_chars in Hbytes.
  assert (HR : forall a b, (b = a \/ a = " "%char /\ b = m) ->
                 is_continuation a = is_continuation b /\ lead_width a = lead_width b).
  { intros a b [->|[-> ->]]; [auto|]. destruct (is_mark_plain m Hm) as [-> ->]. now split. }
  destruct (cut_alike _ _ _ HR Hbytes 0) as [_ Hcut].
  fold (chars s) in Hcut.
  unfold chars at 1. rewrite list_ascii_text.
  symmetry. apply same_shape_concat.
  - clear Hbytes. revert Hcut. generalize (snd (cut 0 (concat cs'))). intros ys.
    revert ys. induction Hrel as [|a b cs cs' Hab _ IH]; intros ys Hys.
    + inversion Hys. constructor.
    + inversion Hys as [|? y ? ys' Hay Hrest]; subst. constructor; [|now apply IH].
      apply Forall2_length in Hay. rewrite <- Hay.
      destruct Hab as [->|[-> ->]]; reflexivity.
  - pose proof (cut_concat (concat cs') 0) as H. rewrite cut_zero in H. cbn in H.
    congruence.
Qed.

(** ** Checklist text *)

Lemma take_skip_ws l : (take_ws l ++ skip_ws l)%list = l.
Proof.
  induction l as [|c r IH]; [reflexivity|]. cbn [take_ws skip_ws].
  destruct (is_ws c); [cbn; now rewrite IH | reflexivity].
Qed.

Lemma take_ws_all_ws l : all_ws (take_ws l).
Proof.
  induction l as [|c r IH]; [constructor|]. cbn [take_ws].
  destruct (is_ws c) eqn:Hc; [now constructor | constructor].
Qed.

Lemma skip_ws_app u t : all_ws u -> skip_ws (u ++ t) = skip_ws t.
Proof. induction 1 as [|c u Hc _ IH]; [reflexivity|]. cbn [app skip_ws]. now rewrite Hc. Qed.

Lemma take_ws_app u t : all_ws u -> take_ws (u ++ t) = (u ++ take_ws t)%list.
Proof.
  induction 1 as [|c u Hc _ IH]; [reflexivity|]. cbn [app take_ws]. now rewrite Hc, IH.
Qed.

Lemma drop_dash l l1 : drop_prefix dash l = Some l1 <-> l = (["-"%char] :: l1).
Proof.
  change dash with [["-"%char]].
  destruct l as [|b l']; cbn [drop_prefix]; [split; congruence|].
  case_bool_decide; cbn [drop_prefix]; naive_solver.
Qed.

Lemma drop_open_box l l2 :
  drop_prefix open_box l = Some l2
  <-> l = (["["%char] :: [" "%char] :: ["]"%char] :: l2).
Proof.
  change open_box with [["["%char]; [" "%char]; ["]"%char]].
  destruct l as [|a [|b [|c l']]]; cbn [drop_prefix];
    repeat (case_bool_decide; cbn [drop_prefix]); naive_solver.
Qed.

(** A successful attempt of the box pattern, spelled out. *)
Lemma match_open_box_Some l pre rest :
  match_open_box l = Some (pre, rest) ->
  exists u v, all_ws u /\ all_ws v /\ pre = (u ++ dash ++ v)%list
              /\ l = (pre ++ open_box ++ rest)%list.
Proof.
  unfold match_open_box.
  destruct (drop_prefix dash (skip_ws l)) as [l1|] eqn:H1; [|discriminate].
  destruct (drop_prefix open_box (skip_ws l1)) as [l2|] eqn:H2; [|discriminate].
  intros H. injection H as <- <-.
  apply drop_dash in H1. apply drop_open_box in H2.
  exists (take_ws l), (take_ws l1).
  split; [apply take_ws_all_ws|]. split; [apply take_ws_all_ws|]. split; [reflexivity|].
  rewrite <- (take_skip_ws l) at 1. rewrite H1.
  rewrite <- (take_skip_ws l1) at 1. rewrite H2.
  change dash with [["-"%char]]. change open_box with [["["%char]; [" "%char]; ["]"%char]].
  cbn [app]. rewrite <- !app_assoc. reflexivity.
Qed.

Lemma match_open_box_intro u v rest :
  all_ws u -> all_ws v ->
  match_open_box (u ++ dash ++ v ++ open_box ++ rest)
  = Some ((u ++ dash ++ v)%list, rest).
Proof.
  intros Hu Hv.
  change (u ++ dash ++ v ++ open_box ++ rest)%list
    with (u ++ ["-"%char] :: (v ++ ["["%char] :: [" "%char] :: ["]"%char] :: rest))%list.
  change (u ++ dash ++ v)%list with (u ++ ["-"%char] :: v)%list.
  unfold match_open_box.
  rewrite (skip_ws_app u _ Hu), (take_ws_app u _ Hu).
  change (skip_ws (["-"%char] :: (v ++ ["["%char] :: [" "%char] :: ["]"%char] :: rest))%list)
    with (["-"%char] :: (v ++ ["["%char] :: [" "%char] :: ["]"%char] :: rest))%list.
  change (take_ws (["-"%char] :: (v ++ ["["%char] :: [" "%char] :: ["]"%char] :: rest))%list)
    with (@nil Char).
  change (drop_prefix dash
            (["-"%char] :: (v ++ ["["%char] :: [" "%char] :: ["]"%char] :: rest))%list)
    with (Some (v ++ ["["%char] :: [" "%char] :: ["]"%char] :: rest)%list).
  cbn iota.
  rewrite (skip_ws_app v _ Hv), (take_ws_app v _ Hv).
  change (skip_ws (["["%char] :: [" "%char] :: ["]"%char] :: rest))
    with (["["%char] :: [" "%char] :: ["]"%char] :: rest).
  change (take_ws (["["%char] :: [" "%char] :: ["]"%char] :: rest)) with (@nil Char).
  change (drop_prefix open_box (["["%char] :: [" "%char] :: ["]"%char] :: rest))
    with (Some rest).
  cbn iota. now rewrite !app_nil_r.
Qed.

Lemma match_open_box_ws u t :
  all_ws u -> match_open_box t = None -> match_open_box (u ++ t) = None.
Proof.
  intros Hu Ht. unfold match_open_box in *. rewrite (skip_ws_app u t Hu).
  destruct (drop_prefix dash (skip_ws t)) as [l1|]; [|reflexivity].
  destruct (drop_prefix open_box (skip_ws l1)); [discriminate|reflexivity].
Qed.

Lemma marked_chars_refl m l : marked_chars m l l.
Proof. induction l; constructor; auto. Qed.

(** The replace of [updateChecklistItems] writes the mark over blanks and
    changes nothing else. *)
Lemma replace_open_boxes_marks fuel m :
  forall b l, marked_chars m l (replace_open_boxes fuel [m] b l).
Proof.
  induction fuel as [|fuel IH]; intros b l; [apply marked_chars_refl|].
  destruct l as [|c r]; [constructor|]. cbn [replace_open_boxes].
  destruct (if b then match_open_box (c :: r) else None) as [[pre rest]|] eqn:Hm.
  - destruct b; [|discriminate].
    destruct (match_open_box_Some _ _ _ Hm) as (u & v & _ & _ & _ & ->).
    unfold marked_chars. apply Forall2_app; [apply marked_chars_refl|].
    change (open_box ++ rest)%list with (["["%char] :: [" "%char] :: ["]"%char] :: rest).
    change (chars "[" ++ [m] :: chars "]" ++ replace_open_boxes fuel [m] false rest)%list
      with (["["%char] :: [m] :: ["]"%char] :: replace_open_boxes fuel [m] false rest).
    constructor; [now left|]. constructor; [now right|].
    constructor; [now left|]. apply IH.
  - constructor; [now left|apply IH].
Qed.

Lemma marked_same m la lb :
  marked_chars m la lb -> Forall (fun b => b <> [m]) lb -> la = lb.
Proof.
  induction 1 as [|a b la lb Hab _ IH]; intros Hne; [reflexivity|].
  apply Forall_cons_1 in Hne as [Hb Hrest]. rewrite (IH Hrest).
  destruct Hab as [->|[_ ->]]; [reflexivity|contradiction].
Qed.

Lemma is_mark_not_ws m : is_mark m -> is_ws [m] = false.
Proof. now intros [->| ->]. Qed.

Lemma all_ws_not_mark m u : is_mark m -> all_ws u -> Forall (fun b => b <> [m]) u.
Proof.
  intros Hm Hu. eapply Forall_impl; [exact Hu|].
  intros c Hc ->. cbn beta in Hc. rewrite (is_mark_not_ws _ Hm) in Hc. discriminate.
Qed.

(** Marking creates no new match of the box pattern. *)
Lemma no_new_box m l out y :
  is_mark m -> marked_chars m l out ->
  match_open_box out = Some y -> exists y', match_open_box l = Some y'.
Proof.
  intros Hm Hrel Hout. destruct y as [pre rest].
  destruct (match_open_box_Some _ _ _ Hout) as (u & v & Hu & Hv & -> & ->).
  unfold marked_chars in Hrel.
  rewrite <- !app_assoc in Hrel.
  apply Forall2_app_inv_r in Hrel as (lu & l1 & Hru & Hr1 & ->).
  apply Forall2_app_inv_r in Hr1 as (ld & l2 & Hrd & Hr2 & ->).
  apply Forall2_app_inv_r in Hr2 as (lv & l3 & Hrv & Hr3 & ->).
  apply Forall2_app_inv_r in Hr3 as (lb & lrest & Hrb & _ & ->).
  rewrite (marked_same m lu u Hru (all_ws_not_mark m u Hm Hu)).
  rewrite (marked_same m lv v Hrv (all_ws_not_mark m v Hm Hv)).
  rewrite (marked_same m ld dash Hrd).
  2:{ repeat constructor. destruct Hm as [->| ->]; discriminate. }
  rewrite (marked_same m lb open_box Hrb).
  2:{ repeat constructor; destruct Hm as [->| ->]; discriminate. }
  eexists. apply match_open_box_intro; assumption.
Qed.

Lemma no_box_weaken b l : no_box_at_line_starts true l -> no_box_at_line_starts b l.
Proof. destruct l as [|c r]; [auto|]. cbn. intros [H1 H2]. split; auto. Qed.

Lemma no_box_head l : no_box_at_line_starts true l -> match_open_box l = None.
Proof. destruct l as [|c r]; [reflexivity|]. cbn. intros [H _]. auto. Qed.

Lemma no_box_ws_prefix u t b :
  all_ws u -> match_open_box t = None -> no_box_at_line_starts true t ->
  no_box_at_line_starts b (u ++ t).
Proof.
  intros Hu Ht Hc. revert b. induction Hu as [|c u Hcw Hu IH]; intros b.
  - now apply no_box_weaken.
  - cbn [app no_box_at_line_starts]. split; [|apply IH].
    intros _. apply (match_open_box_ws (c :: u) t); [now constructor | exact Ht].
Qed.

(** After the replace, the box pattern matches at no line start. *)
Lemma replace_open_boxes_complete m :
  is_mark m ->
  forall fuel b l, (List.length l < fuel)%nat ->
    no_box_at_line_starts b (replace_open_boxes fuel [m] b l).
Proof.
  intros Hm. induction fuel as [|fuel IH]; intros b l Hlen; [lia|].
  destruct l as [|c r]; [exact I|]. cbn [replace_open_boxes].
  destruct (if b then match_open_box (c :: r) else None) as [[pre rest]|] eqn:Hmatch.
  - destruct b; [|discriminate].
    destruct (match_open_box_Some _ _ _ Hmatch) as (u & v & Hu & Hv & -> & Hl).
    assert (Hrest : (List.length rest < fuel)%nat).
    { apply (f_equal (@List.length Char)) in Hl. rewrite !length_app in Hl.
      cbn in Hl. cbn in Hlen. lia. }
    specialize (IH false rest Hrest).
    set (R := replace_open_boxes fuel [m] false rest) in *.
    change (chars "[" ++ [m] :: chars "]" ++ R)%list
      with (["["%char] :: [m] :: ["]"%char] :: R).
    rewrite <- !app_assoc.
    assert (Hbox : match_open_box (["["%char] :: [m] :: ["]"%char] :: R) = None)
      by reflexivity.
    assert (Hmk : match_open_box ([m] :: ["]"%char] :: R) = None)
      by (destruct Hm as [->| ->]; reflexivity).
    assert (Hclose : match_open_box (["]"%char] :: R) = None) by reflexivity.
    assert (Hc2 : no_box_at_line_starts true (["["%char] :: [m] :: ["]"%char] :: R)).
    { cbn [no_box_at_line_starts]. split; [auto|]. split; [discriminate|].
      split; [auto|]. exact IH. }
    assert (Hdash : match_open_box (dash ++ v ++ ["["%char] :: [m] :: ["]"%char] :: R) = None).
    { unfold match_open_box.
      change (skip_ws (dash ++ v ++ ["["%char] :: [m] :: ["]"%char] :: R))
        with (["-"%char] :: (v ++ ["["%char] :: [m] :: ["]"%char] :: R))%list.
      change (drop_prefix dash (["-"%char] :: (v ++ ["["%char] :: [m] :: ["]"%char] :: R))%list)
        with (Some (v ++ ["["%char] :: [m] :: ["]"%char] :: R)%list).
      cbn iota. rewrite (skip_ws_app v _ Hv).
      change (skip_ws (["["%char] :: [m] :: ["]"%char] :: R))
        with (["["%char] :: [m] :: ["]"%char] :: R).
      destruct (drop_prefix open_box (["["%char] :: [m] :: ["]"%char] :: R)) eqn:Hd;
        [|reflexivity].
      apply drop_open_box in Hd. injection Hd as Hd _. destruct Hm; subst; discriminate. }
    apply no_box_ws_prefix; [exact Hu|exact Hdash|].
    change (dash ++ v ++ ["["%char] :: [m] :: ["]"%char] :: R)%list
      with (["-"%char] :: (v ++ ["["%char] :: [m] :: ["]"%char] :: R))%list.
    cbn [no_box_at_line_starts]. split; [intros _; exact Hdash|].
    apply no_box_ws_prefix; assumption.
  - cbn [no_box_at_line_starts]. split.
    + intros ->.
      destruct (match_open_box (c :: replace_open_boxes fuel [m] (is_line_terminator c) r))
        as [y|] eqn:Hy; [|reflexivity].
      destruct (no_new_box m (c :: r)
                  (c :: replace_open_boxes fuel [m] (is_line_terminator c) r) y Hm)
        as (y' & Hy'); [|exact Hy|congruence].
      constructor; [now left|apply replace_open_boxes_marks].
    + apply IH. cbn in Hlen. lia.
Qed.

Lemma item_implies_box line x :
  match_incomplete_item line = Some x -> exists y, match_open_box line = Some y.
Proof.
  unfold match_incomplete_item, match_open_box.
  destruct (drop_prefix dash (skip_ws line)) as [l1|]; [|discriminate].
  destruct (drop_prefix open_box (skip_ws l1)) as [l2|]; [|discriminate].
  eauto.
Qed.

Lemma box_prefix_mono line t y :
  match_open_box line = Some y -> exists y', match_open_box (line ++ t) = Some y'.
Proof.
  destruct y as [pre rest]. intros H.
  destruct (match_open_box_Some _ _ _ H) as (u & v & Hu & Hv & -> & ->).
  rewrite <- !app_assoc. eexists. apply match_open_box_intro; assumption.
Qed.

Lemma no_item_without_box line t :
  match_open_box (line ++ t) = None -> match_incomplete_item line = None.
Proof.
  intros H. destruct (match_incomplete_item line) as [x|] eqn:Hx; [|reflexivity].
  destruct (item_implies_box _ _ Hx) as (y & Hy).
  destruct (box_prefix_mono line t y Hy) as (y' & Hy'). congruence.
Qed.

(** A text without a box at any line start has no open item on any line. *)
Lemma no_box_no_items l :
  forall cur b,
    no_box_at_line_starts b l ->
    match_open_box (rev cur ++ l) = None ->
    Forall (fun line => match_incomplete_item line = None) (split_lines cur l).
Proof.
  induction l as [|c r IH]; intros cur b Hclean Hhead; cbn [split_lines].
  - constructor; [|constructor]. apply (no_item_without_box _ []). exact Hhead.
  - destruct Hclean as [_ Hclean].
    case_bool_decide as Hc.
    + constructor; [apply (no_item_without_box _ (c :: r)); exact Hhead|].
      subst c. change (is_line_terminator (utf8 [10%nat])) with true in Hclean.
      apply (IH [] true Hclean). cbn [rev app]. now apply no_box_head.
    + apply (IH (c :: cur) (is_line_terminator c) Hclean).
      cbn [rev]. now rewrite <- app_assoc.
Qed.

(** Once the open boxes are marked, no line counts as an open item. *)
Lemma marked_text_has_no_items m content :
  is_mark m -> incomplete_items (mark_checklist m content) = [].
Proof.
  intros Hm. unfold incomplete_items, mark_checklist.
  rewrite (chars_marked m content) by (auto using replace_open_boxes_marks).
  set (l := chars content).
  pose proof (replace_open_boxes_complete m Hm (S (List.length l)) true l
                ltac:(lia)) as Hclean.
  pose proof (no_box_no_items _ [] true Hclean (no_box_head _ Hclean)) as Hall.
  induction Hall as [|line lines Hline _ IH]; [reflexivity|].
  cbn [omap list_omap]. rewrite Hline. cbn. exact IH.
Qed.






(** ** The checklist of a file *)

Lemma string_of_list_app a b :
  string_of_list_ascii (a ++ b) = string_of_list_ascii a ++ string_of_list_ascii b.
Proof.
  induction a as [|c a IH]; [reflexivity|]. cbn [app string_of_list_ascii].
  change (String c (string_of_list_ascii a) ++ string_of_list_ascii b)
    with (String c (string_of_list_ascii a ++ string_of_list_ascii b)).
  now rewrite IH.
Qed.

Lemma text_take_drop k t : text_take k t ++ text_drop k t = t.
Proof.
  unfold text_take, text_drop. rewrite <- string_of_list_app, firstn_skipn.
  apply string_of_list_ascii_of_string.
Qed.

(** The host reads back the text it was given. *)
Lemma content_text_of_text E t : content_text (content_of_text E t) = t.
Proof. unfold content_text, content_of_text. cbn. apply text_take_drop. Qed.

Lemma file_text_store E p c w : file_text p (store E p c w) = Some (content_text c).
Proof.
  unfold file_text, block_at, store. frame_simpl. rewrite !lookup_insert_eq. reflexivity.
Qed.


Lemma file_text_Some p w c :
  vault w !! p = Some c -> file_text p w = Some (block_at p w ++ body c).
Proof. intros H. unfold file_text. now rewrite H. Qed.

Lemma updateChecklistItems_ok E file mark w t :
  file_text (path file) w = Some t ->
  io_fails E OpRead (path file) = false ->
  io_fails E OpModify (path file) = false ->
  updateChecklistItems E file mark w
  = Ret tt (store E (path file) (content_of_text E (mark_checklist mark t)) w).
Proof.
  unfold file_text. intros Ht Hr Hm.
  destruct (vault w !! path file) as [c|] eqn:Hc; [|discriminate]. injection Ht as <-.
  unfold updateChecklistItems, bind.
  rewrite (vault_read_ok E _ w c Hc Hr). unfold vault_modify. now rewrite Hm, Hc.
Qed.

Lemma scanChecklistItems_ok E file w t :
  file_text (path file) w = Some t ->
  io_fails E OpRead (path file) = false ->
  scanChecklistItems E file w = Ret (incomplete_items t) w.
Proof.
  unfold file_text. intros Ht Hr. destruct (vault w !! path file) as [c|] eqn:Hc; [|discriminate].
  injection Ht as <-. unfold scanChecklistItems, bind. now rewrite (vault_read_ok E _ w c Hc Hr).
Qed.

(** X6.  After [updateChecklistItems] has marked a file, with either of
    its two marks, [scanChecklistItems] finds no open item in it: what the
    replace leaves behind never matches the item pattern of the scan. *)
Theorem marked_items_are_not_rescanned (E : Env) (file : TFile) (mark : ascii)
    (w : World) (c : Note) :
  is_mark mark ->
  vault w !! path file = Some c ->
  io_fails E OpRead (path file) = false ->
  io_fails E OpModify (path file) = false ->
  exists w',
    updateChecklistItems E file mark w = Ret tt w'
    /\ scanChecklistItems E file w' = Ret [] w'.
Proof.
  intros Hm Hc Hr Hmod. eexists.
  split; [apply (updateChecklistItems_ok E file mark w _ (file_text_Some _ _ _ Hc) Hr Hmod)|].
  erewrite scanChecklistItems_ok; [|apply file_text_store|exact Hr].
  now rewrite content_text_of_text, marked_text_has_no_items.
Qed.



Lemma marked_items_are_not_rescanned_witness :
  exists w',
    updateChecklistItems Sample.calm Cases.musings "x"%char (Cases.musings_world []) = Ret tt w'
    /\ scanChecklistItems Sample.calm Cases.musings w' = Ret [] w'.
Proof.
  apply (marked_items_are_not_rescanned Sample.calm Cases.musings "x"%char
           (Cases.musings_world []) Cases.musings_note); [now left | reflexivity..].
Defined.


(** The checklist dialog of [setStatus] up to the user's answer. *)
Lemma checklist_gate_asks E file w t act rest :
  checkOpenChecklistItems (settings w) = true ->
  file_text (path file) w = Some t ->
  io_fails E OpRead (path file) = false ->
  incomplete_items t <> [] ->
  checklistAnswers w = act :: rest ->
  checklist_gate E [file] "complete" w
  = (match act with
     | ActCancel => ret true
     | ActOpen => lift (emit (EvOpenFile (path file))) ;;; ret true
     | ActComplete => updateChecklistItems E file "x"%char ;;; ret false
     | ActProgress => updateChecklistItems E file "?"%char ;;; ret false
     | ActIgnore => ret false
     end)
      (set_checklistAnswers rest
         (emit (EvChecklistPrompt (path file) (incomplete_items t)) w)).
Proof.
  intros Hflag Ht Hr Hitems Hans. unfold checklist_gate. rewrite Hflag.
  cbn [andb String.eqb Ascii.eqb Bool.eqb]. unfold bind at 1.
  rewrite (scanChecklistItems_ok E file w t Ht Hr).
  destruct (incomplete_items t) as [|i items]; [contradiction|].
  unfold bind at 1, checklistPrompt. cbn [checklistAnswers emit set_trace]. rewrite Hans.
  reflexivity.
Qed.

(** X8.  When the checklist dialog of [setStatus] is answered with
    cancel or with open note, the call resolves to 0 for whatever fuel:
    the files, the metadata cache, the tracker and the pending recurrence
    answers are as before, no successor is attempted; the trace holds the
    dialog with the open items found in the text of the file (frontmatter
    block included) and, for open note only, the opening of the file. *)
Theorem checklist_abort_is_inert (E : Env) (fuel : nat) (file : TFile) (w : World)
    (t : string) (act : ChecklistAction) (rest : list ChecklistAction) :
  checkOpenChecklistItems (settings w) = true ->
  file_text (path file) w = Some t ->
  io_fails E OpRead (path file) = false ->
  incomplete_items t <> [] ->
  checklistAnswers w = act :: rest ->
  act = ActCancel \/ act = ActOpen ->
  exists w',
    setStatus E fuel [file] "complete" w = Ret O w'
    /\ vault w' = vault w
    /\ frontmatterBlock w' = frontmatterBlock w
    /\ metadataCache w' = metadataCache w
    /\ modifiedFiles w' = modifiedFiles w
    /\ answers w' = answers w
    /\ checklistAnswers w' = rest
    /\ trace w'
       = (match act with ActOpen => [EvOpenFile (path file)] | _ => [] end
            ++ EvChecklistPrompt (path file) (incomplete_items t) :: trace w)%list.
Proof.
  intros Hflag Ht Hr Hitems Hans Hact.
  unfold setStatus, bind at 1.
  rewrite (checklist_gate_asks E file w t act rest Hflag Ht Hr Hitems Hans).
  destruct Hact as [-> | ->]; cbn; eexists; (split; [reflexivity|]); cbn; auto 10.
Qed.

Lemma checklist_abort_is_inert_witness :
  exists w',
    setStatus Sample.calm 0 [Cases.musings] "complete" (Cases.musings_world [ActCancel])
    = Ret O w'
    /\ vault w' = vault (Cases.musings_world [ActCancel])
    /\ frontmatterBlock w' = frontmatterBlock (Cases.musings_world [ActCancel])
    /\ metadataCache w' = metadataCache (Cases.musings_world [ActCancel])
    /\ modifiedFiles w' = modifiedFiles (Cases.musings_world [ActCancel])
    /\ answers w' = answers (Cases.musings_world [ActCancel])
    /\ checklistAnswers w' = []
    /\ trace w'
       = (match ActCancel with ActOpen => [EvOpenFile (path Cases.musings)] | _ => [] end
            ++ EvChecklistPrompt (path Cases.musings) (incomplete_items Cases.musings_text)
            :: trace (Cases.musings_world [ActCancel]))%list.
Proof.
  apply (checklist_abort_is_inert Sample.calm 0 Cases.musings
           (Cases.musings_world [ActCancel]) Cases.musings_text ActCancel []);
    [reflexivity | vm_compute; reflexivity | reflexivity | vm_compute; discriminate
    | reflexivity | now left].
Defined.

Lemma status_update_unprompted E fuel files status w :
  updateFrontmatter E (S fuel) files (<["status" := VAtom (AStr status)]> ∅) w
  = applyToFiles E files
      (fun fm _ => apply_updates (<["status" := VAtom (AStr status)]> ∅) fm) w.
Proof.
  apply updateFrontmatter_unprompted. intros _. apply Forall_forall. intros f _.
  unfold update_candidate. destruct (metadataCache w !! path f); [|reflexivity].
  rewrite lookup_insert_eq.
  rewrite (bool_decide_eq_true_2 (is_Some (Some _))) by eauto.
  apply andb_false_r.
Qed.

Lemma answered_text E act content :
  act <> ActIgnore -> act <> ActCancel -> act <> ActOpen ->
  incomplete_items (content_text (answered E act content)) = [].
Proof.
  intros H1 H2 H3. destruct act; try contradiction; cbn [answered];
    rewrite content_text_of_text; apply marked_text_has_no_items; [now left|now right].
Qed.

(** X9.  For a single file with open checklist items, where neither the
    metadata cache nor the file as the host reads it after the answer
    shows a recurrence rule, [setStatus] to complete shows the checklist
    dialog once, with the items found in the text of the file; on the
    answers complete, progress and ignore it reports one file; the text
    is rewritten with the boxes marked with x, marked with ?, or not at
    all, and holds no open item after the first two; then the status is
    written into the frontmatter the host reads from that text. *)
Theorem setStatus_applies_checklist_answer (E : Env) (fuel : nat) (file : TFile)
    (w : World) (c : Note) (act : ChecklistAction) (rest : list ChecklistAction) :
  checkOpenChecklistItems (settings w) = true ->
  is_markdown file = true ->
  vault w !! path file = Some c ->
  (forall fm, metadataCache w !! path file = Some fm -> has_rule fm = false) ->
  has_rule (frontmatter (content_note
              (answered E act (mkFileContent (block_at (path file) w) c)))) = false ->
  incomplete_items (block_at (path file) w ++ body c) <> [] ->
  checklistAnswers w = act :: rest ->
  act = ActComplete \/ act = ActProgress \/ act = ActIgnore ->
  io_fails E OpRead (path file) = false ->
  io_fails E OpModify (path file) = false ->
  io_fails E OpPatch (path file) = false ->
  exists w',
    setStatus E (S fuel) [file] "complete" w = Ret 1%nat w'
    /\ vault w'
       = <[path file
           := mkNote (<["status" := VAtom (AStr "complete")]>
                        (frontmatter (content_note
                           (answered E act (mkFileContent (block_at (path file) w) c)))))
                (body (content_note
                         (answered E act (mkFileContent (block_at (path file) w) c))))]>
           (vault w)
    /\ trace w'
       = EvChecklistPrompt (path file) (incomplete_items (block_at (path file) w ++ body c))
         :: trace w
    /\ (act <> ActIgnore ->
        incomplete_items
          (content_text (answered E act (mkFileContent (block_at (path file) w) c))) = []).
Proof.
  intros Hflag Hmd Hc Hcache Hrule Hitems Hans Hact Hr Hmod Hp.
  set (content := mkFileContent (block_at (path file) w) c) in *.
  set (t := (block_at (path file) w ++ body c)%string) in *.
  assert (Ht : file_text (path file) w = Some t) by now apply file_text_Some.
  set (wq := set_checklistAnswers rest
               (emit (EvChecklistPrompt (path file) (incomplete_items t)) w)).
  assert (Htq : file_text (path file) wq = Some t) by exact Ht.
  assert (Hgate : exists w0,
             checklist_gate E [file] "complete" w = Ret false w0
             /\ vault w0 = <[path file := content_note (answered E act content)]> (vault w)
             /\ (forall fm, metadataCache w0 !! path file = Some fm -> has_rule fm = false)
             /\ settings w0 = settings w
             /\ trace w0 = EvChecklistPrompt (path file) (incomplete_items t) :: trace w).
  { rewrite (checklist_gate_asks E file w t act rest Hflag Ht Hr Hitems Hans). fold wq.
    assert (Hstore : forall m,
              content_of_text E (mark_checklist m t) = answered E act content ->
              let w0 := store E (path file) (content_of_text E (mark_checklist m t)) wq in
              vault w0 = <[path file := content_note (answered E act content)]> (vault w)
              /\ (forall fm, metadataCache w0 !! path file = Some fm -> has_rule fm = false)
              /\ settings w0 = settings w
              /\ trace w0 = EvChecklistPrompt (path file) (incomplete_items t) :: trace w).
    { intros m Hm w0. unfold w0, store. rewrite Hm. frame_simpl.
      split; [reflexivity|]. split; [|auto].
      erewrite reindex_metadataCache
        by (cbn [vault set_vault put_block set_frontmatterBlock]; apply lookup_insert_eq).
      cbn [metadataCache set_vault put_block set_frontmatterBlock].
      destruct (cache_after_lookup E (path file)
                  (frontmatter (content_note (answered E act content))) (metadataCache wq))
        as [H| ->].
      - intros fm Hfm. rewrite H in Hfm. injection Hfm as <-. exact Hrule.
      - exact Hcache. }
    destruct Hact as [-> | [-> | ->]].
    - unfold bind. rewrite (updateChecklistItems_ok E file _ wq t Htq Hr Hmod).
      eexists. split; [reflexivity|]. now apply Hstore.
    - unfold bind. rewrite (updateChecklistItems_ok E file _ wq t Htq Hr Hmod).
      eexists. split; [reflexivity|]. now apply Hstore.
    - exists wq. split; [reflexivity|]. cbn [answered content content_note].
      split; [cbn; now rewrite insert_id|]. auto. }
  destruct Hgate as (w0 & Hg & Hv0 & Hc0 & Hs0 & Ht0).
  unfold setStatus, bind at 1. rewrite Hg. unfold bind at 1.
  assert (Hloop : (if (enableRecurrence (settings w)
                       && includes_string "complete" (recurrenceStatuses (settings w)))%bool
                   then complete_recurrences E [file] else ret tt) w0 = Ret tt w0).
  { destruct (_ && _)%bool; [|reflexivity].
    cbn [complete_recurrences]. unfold getFileCache.
    destruct (metadataCache w0 !! path file) as [fm|] eqn:Hfm; [|reflexivity].
    now rewrite (Hc0 fm eq_refl). }
  rewrite Hloop. rewrite status_update_unprompted. unfold applyToFiles.
  destruct (applyToFiles_from_run E
              (fun fm _ => apply_updates (<["status" := VAtom (AStr "complete")]> ∅) fm)
              [file] O w0) as (w' & Hrun & _ & Ht' & _).
  assert (Hacc : patch_accepted E w0 file = true).
  { unfold patch_accepted. rewrite Hmd, Hp, Hv0, lookup_insert_eq.
    now rewrite bool_decide_eq_true_2 by eauto. }
  cbn [List.filter] in Hrun. rewrite Hacc in Hrun. cbn [length Nat.add] in Hrun.
  destruct (applyToFiles_from_exact E
              (apply_updates (<["status" := VAtom (AStr "complete")]> ∅)) [file]
              (apply_updates_idem _) O w0) as (n & w2 & Hrun2 & Hvx).
  rewrite Hrun in Hrun2. injection Hrun2 as _ <-.
  exists w'. split; [exact Hrun|].
  split.
  { apply map_eq. intros p. rewrite Hvx, Hv0. cbn [touched existsb].
    rewrite Hmd, Hp. cbn [negb andb orb].
    destruct (String.eqb_spec (path file) p) as [<-|Hne].
    - rewrite !lookup_insert_eq. cbn.
      now rewrite apply_updates_singleton by reflexivity.
    - rewrite !lookup_insert_ne by congruence. now destruct (vault w !! p). }
  split; [congruence|].
  intros Hne. apply answered_text; [exact Hne| |]; destruct Hact as [-> | [-> | ->]]; discriminate.
Qed.

Lemma setStatus_applies_checklist_answer_witness :
  exists w',
    setStatus Sample.calm 1 [Cases.musings] "complete" (Cases.musings_world [ActComplete])
    = Ret 1%nat w'
    /\ vault w'
       = <[path Cases.musings
           := mkNote (<["status" := VAtom (AStr "complete")]>
                        (frontmatter (content_note
                           (answered Sample.calm ActComplete
                              (mkFileContent
                                 (block_at (path Cases.musings)
                                    (Cases.musings_world [ActComplete]))
                                 Cases.musings_note)))))
                (body (content_note
                         (answered Sample.calm ActComplete
                            (mkFileContent
                               (block_at (path Cases.musings)
                                  (Cases.musings_world [ActComplete]))
                               Cases.musings_note))))]>
           (vault (Cases.musings_world [ActComplete]))
    /\ trace w'
       = EvChecklistPrompt (path Cases.musings)
           (incomplete_items
              (block_at (path Cases.musings) (Cases.musings_world [ActComplete])
               ++ body Cases.musings_note))
         :: trace (Cases.musings_world [ActComplete])
    /\ (ActComplete <> ActIgnore ->
        incomplete_items
          (content_text
             (answered Sample.calm ActComplete
                (mkFileContent
                   (block_at (path Cases.musings) (Cases.musings_world [ActComplete]))
                   Cases.musings_note))) = []).
Proof.
  apply (setStatus_applies_checklist_answer Sample.calm 0 Cases.musings
           (Cases.musings_world [ActComplete]) Cases.musings_note ActComplete []);
    [reflexivity | reflexivity | reflexivity | intros fm H; vm_compute in H; now injection H as <-
    | vm_compute; reflexivity | vm_compute; discriminate
    | reflexivity | now left | reflexivity | reflexivity | reflexivity].
Defined.

(** ** Tags *)

Lemma add_tag_cb_tags tag key fm :
  tags_of (add_tag_cb tag key fm !! key)
  = if includes_atom (AStr tag) (tags_of (fm !! key)) then tags_of (fm !! key)
    else (tags_of (fm !! key) ++ [AStr tag])%list.
Proof.
  unfold add_tag_cb. fold (tags_of (fm !! key)).
  destruct (includes_atom (AStr tag) (tags_of (fm !! key))); [reflexivity|].
  now rewrite lookup_insert_eq.
Qed.

Lemma add_tag_cb_other tag key fm k : k <> key -> add_tag_cb tag key fm !! k = fm !! k.
Proof.
  intros Hne. unfold add_tag_cb.
  destruct (includes_atom _ _); [reflexivity|]. now rewrite lookup_insert_ne by congruence.
Qed.

Lemma includes_atom_In a l : includes_atom a l = true <-> In a l.
Proof.
  unfold includes_atom. rewrite existsb_exists. split.
  - intros (x & Hx & Hd). apply bool_decide_eq_true in Hd. now subst.
  - intros H. exists a. split; [exact H|]. now apply bool_decide_eq_true.
Qed.

Lemma add_tag_cb_idem tag key fm :
  add_tag_cb tag key (add_tag_cb tag key fm) = add_tag_cb tag key fm.
Proof.
  unfold add_tag_cb at 1. fold (tags_of (add_tag_cb tag key fm !! key)).
  rewrite add_tag_cb_tags.
  destruct (includes_atom (AStr tag) (tags_of (fm !! key))) eqn:Hin.
  - now rewrite Hin.
  - assert (H : includes_atom (AStr tag) (tags_of (fm !! key) ++ [AStr tag]) = true).
    { apply includes_atom_In, in_or_app. right. now left. }
    now rewrite H.
Qed.

Lemma tag_prompts_none E fuel files desc w :
  Forall (fun f => tag_candidate f w = false) files ->
  tag_prompts E fuel files desc w = Ret false w.
Proof.
  intros H. pose proof (tag_prompts_skip_non_candidates E fuel desc files [] w H) as Hs.
  now rewrite app_nil_r in Hs.
Qed.

(** X10.  When no recurrence dialog is due, [addTag] shows nothing and
    returns the number of accepted patches; every patched note then lists
    the tag under the key: the tags it had keep their order, the new tag
    is appended at the end only if it was not there, a note that already
    had it is left exactly as it was, a single truthy scalar counts as a
    list of one; the body and the other keys stay. *)
Theorem addTag_appends_once (E : Env) (fuel : nat) (files : list TFile)
    (tag key : string) (w : World) :
  ((enableRecurrence (settings w) && promptOnRecurrenceEdit (settings w))%bool = true ->
   Forall (fun f => tag_candidate f w = false) files) ->
  exists w',
    addTag E fuel files tag key w
    = Ret (List.length (List.filter (patch_accepted E w) files)) w'
    /\ trace w' = trace w
    /\ forall p note, vault w !! p = Some note -> touched E files p = true ->
         exists note',
           vault w' !! p = Some note'
           /\ body note' = body note
           /\ In (AStr tag) (tags_of (frontmatter note' !! key))
           /\ tags_of (frontmatter note' !! key)
              = (if includes_atom (AStr tag) (tags_of (frontmatter note !! key))
                 then tags_of (frontmatter note !! key)
                 else (tags_of (frontmatter note !! key) ++ [AStr tag])%list)
           /\ (In (AStr tag) (tags_of (frontmatter note !! key)) -> note' = note)
           /\ forall k, k <> key -> frontmatter note' !! k = frontmatter note !! k.
Proof.
  intros H.
  assert (Hskip : addTag E fuel files tag key w
                  = applyToFiles E files (fun fm _ => add_tag_cb tag key fm) w).
  { unfold addTag.
    destruct (enableRecurrence (settings w) && promptOnRecurrenceEdit (settings w))%bool;
      [|reflexivity].
    unfold bind at 1. now rewrite (tag_prompts_none E fuel files _ w (H eq_refl)). }
  rewrite Hskip. unfold applyToFiles.
  destruct (applyToFiles_from_run E (fun fm _ => add_tag_cb tag key fm) files O w)
    as (w' & Hrun & _ & Ht & _).
  destruct (applyToFiles_from_exact E (add_tag_cb tag key) files
              (add_tag_cb_idem tag key) O w) as (n & w2 & Hrun2 & Hv).
  rewrite Hrun in Hrun2. injection Hrun2 as _ <-.
  exists w'. split; [exact Hrun|]. split; [exact Ht|].
  intros p note Hp Htouched. rewrite Hv, Hp, Htouched. cbn [fmap option_fmap option_map].
  eexists. split; [reflexivity|]. cbn [body frontmatter]. split; [reflexivity|].
  rewrite add_tag_cb_tags.
  split.
  { destruct (includes_atom (AStr tag) (tags_of (frontmatter note !! key))) eqn:Hin.
    - now apply includes_atom_In.
    - apply in_or_app. right. now left. }
  split; [reflexivity|].
  split.
  { intros Hin. apply includes_atom_In in Hin. unfold add_tag_cb.
    fold (tags_of (frontmatter note !! key)). rewrite Hin. now destruct note. }
  intros k Hk. now apply add_tag_cb_other.
Qed.

Lemma remove_tag_cb_tags tag key fm :
  tags_of (remove_tag_cb tag key fm !! key)
  = List.filter (fun t => negb (bool_decide (t = AStr tag))) (tags_of (fm !! key)).
Proof.
  unfold remove_tag_cb, tags_of.
  destruct (fm !! key) as [v|] eqn:Hv; [|now rewrite Hv].
  destruct (truthy v) eqn:Ht; [|now rewrite Hv, Ht].
  now rewrite lookup_insert_eq.
Qed.

Lemma remove_tag_cb_other tag key fm k :
  k <> key -> remove_tag_cb tag key fm !! k = fm !! k.
Proof.
  intros Hne. unfold remove_tag_cb.
  destruct (fm !! key) as [v|]; [|reflexivity].
  destruct (truthy v); [|reflexivity]. now rewrite lookup_insert_ne by congruence.
Qed.

Lemma filter_filter_same {A} (f : A -> bool) l :
  List.filter f (List.filter f l) = List.filter f l.
Proof.
  induction l as [|a l IH]; [reflexivity|]. cbn.
  destruct (f a) eqn:Ha; [cbn; now rewrite Ha, IH | exact IH].
Qed.

Lemma remove_tag_cb_idem tag key fm :
  remove_tag_cb tag key (remove_tag_cb tag key fm) = remove_tag_cb tag key fm.
Proof.
  unfold remove_tag_cb.
  destruct (fm !! key) as [v|] eqn:Hv; [|now rewrite Hv].
  destruct (truthy v) eqn:Ht; [|now rewrite Hv, Ht].
  rewrite lookup_insert_eq. cbn [truthy]. rewrite insert_insert_eq.
  now rewrite filter_filter_same.
Qed.

(** X11.  When no recurrence dialog is due, [removeTag] shows nothing
    and returns the number of accepted patches; every patched note ends
    with the tags it had minus every occurrence of the tag, in their old
    order; a note whose key is absent or falsy is left exactly as it was;
    the body and the other keys stay. *)
Theorem removeTag_removes_every_occurrence (E : Env) (fuel : nat) (files : list TFile)
    (tag key : string) (w : World) :
  ((enableRecurrence (settings w) && promptOnRecurrenceEdit (settings w))%bool = true ->
   Forall (fun f => tag_candidate f w = false) files) ->
  exists w',
    removeTag E fuel files tag key w
    = Ret (List.length (List.filter (patch_accepted E w) files)) w'
    /\ trace w' = trace w
    /\ forall p note, vault w !! p = Some note -> touched E files p = true ->
         exists note',
           vault w' !! p = Some note'
           /\ body note' = body note
           /\ ~ In (AStr tag) (tags_of (frontmatter note' !! key))
           /\ tags_of (frontmatter note' !! key)
              = List.filter (fun t => negb (bool_decide (t = AStr tag)))
                  (tags_of (frontmatter note !! key))
           /\ (field_truthy (frontmatter note !! key) = false -> note' = note)
           /\ forall k, k <> key -> frontmatter note' !! k = frontmatter note !! k.
Proof.
  intros H.
  assert (Hskip : removeTag E fuel files tag key w
                  = applyToFiles E files (fun fm _ => remove_tag_cb tag key fm) w).
  { unfold removeTag.
    destruct (enableRecurrence (settings w) && promptOnRecurrenceEdit (settings w))%bool;
      [|reflexivity].
    unfold bind at 1. now rewrite (tag_prompts_none E fuel files _ w (H eq_refl)). }
  rewrite Hskip. unfold applyToFiles.
  destruct (applyToFiles_from_run E (fun fm _ => remove_tag_cb tag key fm) files O w)
    as (w' & Hrun & _ & Ht & _).
  destruct (applyToFiles_from_exact E (remove_tag_cb tag key) files
              (remove_tag_cb_idem tag key) O w) as (n & w2 & Hrun2 & Hv).
  rewrite Hrun in Hrun2. injection Hrun2 as _ <-.
  exists w'. split; [exact Hrun|]. split; [exact Ht|].
  intros p note Hp Htouched. rewrite Hv, Hp, Htouched. cbn [fmap option_fmap option_map].
  eexists. split; [reflexivity|]. cbn [body frontmatter]. split; [reflexivity|].
  rewrite remove_tag_cb_tags.
  split.
  { intros Hin. apply filter_In in Hin as [_ Hd].
    now rewrite bool_decide_eq_true_2 in Hd. }
  split; [reflexivity|].
  split.
  { intros Hf. unfold remove_tag_cb, field_truthy in *.
    destruct (frontmatter note !! key) as [v|]; [rewrite Hf|]; now destruct note. }
  intros k Hk. now apply remove_tag_cb_other.
Qed.

Lemma addTag_appends_once_witness :
  exists w',
    addTag Sample.calm 0 [Sample.picture; Sample.water_plants; Sample.water_plants]
      "urgent" "tags" (Sample.garden Cases.quiet_settings [])
    = Ret (List.length
             (List.filter (patch_accepted Sample.calm (Sample.garden Cases.quiet_settings []))
                [Sample.picture; Sample.water_plants; Sample.water_plants])) w'
    /\ trace w' = trace (Sample.garden Cases.quiet_settings [])
    /\ forall p note,
         vault (Sample.garden Cases.quiet_settings []) !! p = Some note ->
         touched Sample.calm [Sample.picture; Sample.water_plants; Sample.water_plants] p
         = true ->
         exists note',
           vault w' !! p = Some note'
           /\ body note' = body note
           /\ In (AStr "urgent") (tags_of (frontmatter note' !! "tags"))
           /\ tags_of (frontmatter note' !! "tags")
              = (if includes_atom (AStr "urgent") (tags_of (frontmatter note !! "tags"))
                 then tags_of (frontmatter note !! "tags")
                 else (tags_of (frontmatter note !! "tags") ++ [AStr "urgent"])%list)
           /\ (In (AStr "urgent") (tags_of (frontmatter note !! "tags")) -> note' = note)
           /\ forall k, k <> "tags" -> frontmatter note' !! k = frontmatter note !! k.
Proof.
  apply (addTag_appends_once Sample.calm 0
           [Sample.picture; Sample.water_plants; Sample.water_plants] "urgent" "tags"
           (Sample.garden Cases.quiet_settings [])).
  discriminate.
Defined.

Lemma removeTag_removes_every_occurrence_witness :
  exists w',
    removeTag Sample.calm 0 [Sample.water_plants] "garden" "tags"
      (Sample.garden_in "wont-do" DEFAULT_SETTINGS [])
    = Ret (List.length
             (List.filter
                (patch_accepted Sample.calm (Sample.garden_in "wont-do" DEFAULT_SETTINGS []))
                [Sample.water_plants])) w'
    /\ trace w' = trace (Sample.garden_in "wont-do" DEFAULT_SETTINGS [])
    /\ forall p note,
         vault (Sample.garden_in "wont-do" DEFAULT_SETTINGS []) !! p = Some note ->
         touched Sample.calm [Sample.water_plants] p = true ->
         exists note',
           vault w' !! p = Some note'
           /\ body note' = body note
           /\ ~ In (AStr "garden") (tags_of (frontmatter note' !! "tags"))
           /\ tags_of (frontmatter note' !! "tags")
              = List.filter (fun t => negb (bool_decide (t = AStr "garden")))
                  (tags_of (frontmatter note !! "tags"))
           /\ (field_truthy (frontmatter note !! "tags") = false -> note' = note)
           /\ forall k, k <> "tags" -> frontmatter note' !! k = frontmatter note !! k.
Proof.
  apply (removeTag_removes_every_occurrence Sample.calm 0 [Sample.water_plants]
           "garden" "tags" (Sample.garden_in "wont-do" DEFAULT_SETTINGS [])).
  intros _. repeat constructor.
Defined.

(** ** The direct setters *)

Lemma set_recurrence_cb_lookup rule fm k :
  set_recurrence_cb rule fm !! k
  = if String.eqb k "recurrence" then None
    else if String.eqb k "recurrenceRule"
         then (if str_truthy rule then VAtom <$> (AStr <$> rule) else None)
         else fm !! k.
Proof.
  unfold set_recurrence_cb, str_truthy.
  destruct (String.eqb_spec k "recurrence") as [->|Hk1].
  { destruct rule as [r|]; [destruct (negb (String.eqb r ""))|]; apply lookup_delete_eq. }
  destruct (String.eqb_spec k "recurrenceRule") as [->|Hk2];
    destruct rule as [r|]; try destruct (negb (String.eqb r ""));
    rewrite ?lookup_delete_ne by congruence;
    rewrite ?lookup_insert_eq, ?lookup_delete_eq, ?lookup_insert_ne by congruence;
    rewrite ?lookup_delete_ne by congruence; reflexivity.
Qed.

Lemma set_recurrence_cb_idem rule fm :
  set_recurrence_cb rule (set_recurrence_cb rule fm) = set_recurrence_cb rule fm.
Proof.
  apply map_eq. intros k. rewrite !set_recurrence_cb_lookup.
  destruct (String.eqb k "recurrence"); [reflexivity|].
  now destruct (String.eqb k "recurrenceRule").
Qed.

(** X12.  [setRecurrence] never asks and creates no successor before it
    resolves: it returns the number of accepted patches, and every patched
    note ends without the legacy [recurrence] field and with
    [recurrenceRule] equal to the rule, or without both fields when the
    rule is null or empty; body and other keys stay.  It sets one timer
    per file of the batch exactly when the rule is truthy and recurrence
    is enabled, each carrying the terminal statuses configured at that
    moment. *)
Theorem setRecurrence_writes_one_rule_field (E : Env) (files : list TFile)
    (rule : option string) (w : World) :
  exists w',
    setRecurrence E files rule w
    = Ret (List.length (List.filter (patch_accepted E w) files),
           if (str_truthy rule && enableRecurrence (settings w))%bool
           then List.map (fun f => mkTimer f (recurrenceStatuses (settings w))) files
           else []) w'
    /\ trace w' = trace w
    /\ answers w' = answers w
    /\ forall p note, vault w !! p = Some note -> touched E files p = true ->
         exists note',
           vault w' !! p = Some note'
           /\ body note' = body note
           /\ frontmatter note' !! "recurrence" = None
           /\ frontmatter note' !! "recurrenceRule"
              = (if str_truthy rule then VAtom <$> (AStr <$> rule) else None)
           /\ has_rule (frontmatter note') = str_truthy rule
           /\ forall k, k <> "recurrence" -> k <> "recurrenceRule" ->
                frontmatter note' !! k = frontmatter note !! k.
Proof.
  unfold setRecurrence, applyToFiles.
  destruct (applyToFiles_from_run E (fun fm _ => set_recurrence_cb rule fm) files O w)
    as (w' & Hrun & Hs & Ht & Ha & _).
  destruct (applyToFiles_from_exact E (set_recurrence_cb rule) files
              (set_recurrence_cb_idem rule) O w) as (n & w2 & Hrun2 & Hv).
  rewrite Hrun in Hrun2. injection Hrun2 as _ <-.
  exists w'. unfold bind. rewrite Hrun, Hs. cbn [Nat.add].
  split; [now destruct (str_truthy rule && enableRecurrence (settings w))%bool|].
  split; [exact Ht|]. split; [exact Ha|].
  intros p note Hp Htouched. rewrite Hv, Hp, Htouched. cbn [fmap option_fmap option_map].
  eexists. split; [reflexivity|]. cbn [body frontmatter]. split; [reflexivity|].
  split; [now rewrite set_recurrence_cb_lookup|].
  split; [now rewrite set_recurrence_cb_lookup|].
  split.
  { unfold has_rule, rule_of, js_or. rewrite !set_recurrence_cb_lookup. cbn.
    destruct rule as [r|]; [|reflexivity]. cbn.
    destruct (String.eqb r "") eqn:Hr; cbn; [reflexivity|]. rewrite Hr. cbn. now rewrite Hr. }
  intros k Hk1 Hk2. rewrite set_recurrence_cb_lookup.
  destruct (String.eqb_spec k "recurrence"); [contradiction|].
  now destruct (String.eqb_spec k "recurrenceRule").
Qed.

Lemma set_scheduled_cb_lookup date fm k :
  set_scheduled_cb date fm !! k
  = if String.eqb k "scheduled"
    then (if str_truthy date then VAtom <$> (AStr <$> date) else None)
    else fm !! k.
Proof.
  unfold set_scheduled_cb, str_truthy.
  destruct (String.eqb_spec k "scheduled") as [->|Hk];
    destruct date as [d|]; try destruct (negb (String.eqb d ""));
    rewrite ?lookup_insert_eq, ?lookup_delete_eq, ?lookup_insert_ne, ?lookup_delete_ne
      by congruence; reflexivity.
Qed.

Lemma set_scheduled_cb_idem date fm :
  set_scheduled_cb date (set_scheduled_cb date fm) = set_scheduled_cb date fm.
Proof.
  apply map_eq. intros k. rewrite !set_scheduled_cb_lookup.
  now destruct (String.eqb k "scheduled").
Qed.

(** X13.  [setScheduled] writes the date (or deletes the field for a
    null or empty date) on every accepted file without ever asking, also
    for an open recurring note for which [updateFrontmatter] would ask; it
    consumes no answer and leaves the rule, the body and every other key
    alone. *)
Theorem setScheduled_never_prompts (E : Env) (files : list TFile)
    (date : option string) (w : World) :
  exists w',
    setScheduled E files date w
    = Ret (List.length (List.filter (patch_accepted E w) files)) w'
    /\ trace w' = trace w
    /\ answers w' = answers w
    /\ forall p note, vault w !! p = Some note -> touched E files p = true ->
         exists note',
           vault w' !! p = Some note'
           /\ body note' = body note
           /\ frontmatter note' !! "scheduled"
              = (if str_truthy date then VAtom <$> (AStr <$> date) else None)
           /\ rule_of (frontmatter note') = rule_of (frontmatter note)
           /\ forall k, k <> "scheduled" -> frontmatter note' !! k = frontmatter note !! k.
Proof.
  unfold setScheduled, applyToFiles.
  destruct (applyToFiles_from_run E (fun fm _ => set_scheduled_cb date fm) files O w)
    as (w' & Hrun & Hs & Ht & Ha & _).
  destruct (applyToFiles_from_exact E (set_scheduled_cb date) files
              (set_scheduled_cb_idem date) O w) as (n & w2 & Hrun2 & Hv).
  rewrite Hrun in Hrun2. injection Hrun2 as _ <-.
  exists w'. split; [exact Hrun|]. split; [exact Ht|]. split; [exact Ha|].
  intros p note Hp Htouched. rewrite Hv, Hp, Htouched. cbn [fmap option_fmap option_map].
  eexists. split; [reflexivity|]. cbn [body frontmatter]. split; [reflexivity|].
  split; [now rewrite set_scheduled_cb_lookup|].
  split; [unfold rule_of; now rewrite !set_scheduled_cb_lookup|].
  intros k Hk. rewrite set_scheduled_cb_lookup.
  now destruct (String.eqb_spec k "scheduled").
Qed.

Lemma update_scheduled_cb_lookup scheduled timeEstimate allDay key fm k :
  update_scheduled_cb scheduled timeEstimate allDay key fm !! k
  = if String.eqb k "allDay" then (if allDay then Some (VAtom (ABool true)) else None)
    else if String.eqb k "timeEstimate"
         then match timeEstimate with
              | Some (JSNum n) => Some (VAtom (ANum n))
              | _ => None
              end
    else if String.eqb k key
         then (if str_truthy scheduled then VAtom <$> (AStr <$> scheduled) else None)
    else fm !! k.
Proof.
  unfold update_scheduled_cb, str_truthy.
  destruct (String.eqb_spec k "allDay") as [->|Hk1].
  { destruct allDay; [apply lookup_insert_eq | apply lookup_delete_eq]. }
  assert (H1 : forall m : gmap string value,
             (if allDay then <["allDay" := VAtom (ABool true)]> m else delete "allDay" m) !! k
             = m !! k).
  { intros m. destruct allDay;
      [now rewrite lookup_insert_ne by congruence
      | now rewrite lookup_delete_ne by congruence]. }
  rewrite H1.
  destruct (String.eqb_spec k "timeEstimate") as [->|Hk2].
  { destruct timeEstimate as [[n|]|];
      [apply lookup_insert_eq | apply lookup_delete_eq | apply lookup_delete_eq]. }
  assert (H2 : forall m : gmap string value,
             match timeEstimate with
             | Some (JSNum n) => <["timeEstimate" := VAtom (ANum n)]> m
             | _ => delete "timeEstimate" m
             end !! k = m !! k).
  { intros m. destruct timeEstimate as [[n|]|];
      [now rewrite lookup_insert_ne by congruence
      | now rewrite lookup_delete_ne by congruence
      | now rewrite lookup_delete_ne by congruence]. }
  rewrite H2.
  destruct (String.eqb_spec k key) as [->|Hk3];
    destruct scheduled as [s|]; try destruct (negb (String.eqb s ""));
    rewrite ?lookup_insert_eq, ?lookup_delete_eq, ?lookup_insert_ne, ?lookup_delete_ne
      by congruence; reflexivity.
Qed.

Lemma update_scheduled_cb_idem scheduled timeEstimate allDay key fm :
  update_scheduled_cb scheduled timeEstimate allDay key
    (update_scheduled_cb scheduled timeEstimate allDay key fm)
  = update_scheduled_cb scheduled timeEstimate allDay key fm.
Proof.
  apply map_eq. intros k. rewrite !update_scheduled_cb_lookup.
  destruct (String.eqb k "allDay"); [reflexivity|].
  destruct (String.eqb k "timeEstimate"); [reflexivity|].
  now destruct (String.eqb k key).
Qed.

(** X14.  [updateScheduledDetails] never asks; on every accepted file
    it leaves exactly this: [allDay] is true or absent (never false),
    [timeEstimate] is the number or absent for null and NaN, the date key
    holds the date or is absent for a null or empty one, and every other
    key and the body are as before.  When the date key is one of the other
    two names, the later assignment wins. *)
Theorem updateScheduledDetails_sets_three_fields (E : Env) (files : list TFile)
    (scheduled : option string) (timeEstimate : option JSNumber) (allDay : bool)
    (key : string) (w : World) :
  exists w',
    updateScheduledDetails E files scheduled timeEstimate allDay key w
    = Ret (List.length (List.filter (patch_accepted E w) files)) w'
    /\ trace w' = trace w
    /\ answers w' = answers w
    /\ forall p note, vault w !! p = Some note -> touched E files p = true ->
         exists note',
           vault w' !! p = Some note'
           /\ body note' = body note
           /\ forall k,
                frontmatter note' !! k
                = if String.eqb k "allDay"
                  then (if allDay then Some (VAtom (ABool true)) else None)
                  else if String.eqb k "timeEstimate"
                       then match timeEstimate with
                            | Some (JSNum n) => Some (VAtom (ANum n))
                            | _ => None
                            end
                  else if String.eqb k key
                       then (if str_truthy scheduled
                             then VAtom <$> (AStr <$> scheduled) else None)
                  else frontmatter note !! k.
Proof.
  unfold updateScheduledDetails, applyToFiles.
  destruct (applyToFiles_from_run E
              (fun fm _ => update_scheduled_cb scheduled timeEstimate allDay key fm)
              files O w) as (w' & Hrun & Hs & Ht & Ha & _).
  destruct (applyToFiles_from_exact E
              (update_scheduled_cb scheduled timeEstimate allDay key) files
              (update_scheduled_cb_idem scheduled timeEstimate allDay key) O w)
    as (n & w2 & Hrun2 & Hv).
  rewrite Hrun in Hrun2. injection Hrun2 as _ <-.
  exists w'. split; [exact Hrun|]. split; [exact Ht|]. split; [exact Ha|].
  intros p note Hp Htouched. rewrite Hv, Hp, Htouched. cbn [fmap option_fmap option_map].
  eexists. split; [reflexivity|]. cbn [body frontmatter]. split; [reflexivity|].
  intros k. apply update_scheduled_cb_lookup.
Qed.

(** X15.  The deferred check of [setRecurrence] tests the status the
    cache shows against the terminal statuses the timer carries: when the
    status is not among them (or the file is not indexed) the timer does
    nothing at all; when it is, the rule yields a date, the successor's
    path is free and the host accepts the calls, the successor is created
    and the source loses its rule. *)
Theorem setRecurrence_timer_rolls_terminal_notes (E : Env) (t : Timer) (w : World) :
  ((forall fm, getFileCache (timer_file t) w = Some fm ->
               status_in (timer_statuses t) fm = false) ->
   setRecurrence_timer E t w = Ret tt w)
  /\ (forall fm r d n,
        getFileCache (timer_file t) w = Some fm ->
        status_in (timer_statuses t) fm = true ->
        rule_of fm = Some r ->
        truthy r = true ->
        (getNextOccurrence E r (fm !! "scheduled") w).1 = Some d ->
        vault w !! path (timer_file t) = Some n ->
        vault w !! successor_path E (timer_file t) d = None ->
        (forall op p, io_fails E op p = false) ->
        exists w',
          setRecurrence_timer E t w = Ret tt w'
          /\ vault w'
             = <[path (timer_file t) := mkNote (strip_rule (frontmatter n)) (body n)]>
                 (<[successor_path E (timer_file t) d
                    := mkNote (successor_patch E (timer_file t) d (settings w)
                                 (frontmatter n)) (body n)]>
                    (vault w))).
Proof.
  split.
  - intros H. unfold setRecurrence_timer.
    destruct (getFileCache (timer_file t) w) as [fm|]; [|reflexivity].
    now rewrite (H fm eq_refl).
  - intros fm r d n Hc Hst Hr Ht Hd Hn Hfree Hio.
    unfold setRecurrence_timer. rewrite Hc, Hst.
    destruct (createNext_fresh E (timer_file t) fm None w r d n Hr Ht Hd Hfree
                (Hio _ _) Hn (Hio _ _) (Hio _ _) (Hio _ _) (Hio _ _))
      as (w' & Hrun & Hv & _).
    exists w'. unfold bind. rewrite Hrun. split; [reflexivity|exact Hv].
Qed.

Lemma setRecurrence_timer_rolls_terminal_notes_witness :
  exists w',
    setRecurrence_timer Sample.calm (mkTimer Sample.water_plants ["complete"; "wont-do"])
      (Sample.garden_in "complete" DEFAULT_SETTINGS []) = Ret tt w'
    /\ vault w'
       = <[path Sample.water_plants
           := mkNote (strip_rule (frontmatter (Sample.with_status "complete")))
                (body (Sample.with_status "complete"))]>
           (<[successor_path Sample.calm Sample.water_plants Sample.next_week
              := mkNote (successor_patch Sample.calm Sample.water_plants Sample.next_week
                           (settings (Sample.garden_in "complete" DEFAULT_SETTINGS []))
                           (frontmatter (Sample.with_status "complete")))
                   (body (Sample.with_status "complete"))]>
              (vault (Sample.garden_in "complete" DEFAULT_SETTINGS []))).
Proof.
  apply (proj2 (setRecurrence_timer_rolls_terminal_notes Sample.calm
                  (mkTimer Sample.water_plants ["complete"; "wont-do"])
                  (Sample.garden_in "complete" DEFAULT_SETTINGS []))
           (frontmatter (Sample.with_status "complete"))
           (VAtom (AStr "RRULE:FREQ=WEEKLY")) Sample.next_week
           (Sample.with_status "complete"));
    try reflexivity.
Defined.

(** ** The startup scan *)

Lemma has_rule_rule_of fm :
  has_rule fm = true -> exists r, rule_of fm = Some r /\ truthy r = true.
Proof.
  unfold has_rule, field_truthy. destruct (rule_of fm) as [r|]; [eauto|discriminate].
Qed.

(** No next date: the rule is cleared and the call counts as handled. *)
Lemma createNext_no_date E file fm carry w r n :
  rule_of fm = Some r ->
  truthy r = true ->
  (getNextOccurrence E r (fm !! "scheduled") w).1 = None ->
  vault w !! path file = Some n ->
  io_fails E OpPatch (path file) = false ->
  exists w',
    createNextRecurrenceInstance E file fm carry w = Ret true w'
    /\ vault w' = <[path file := mkNote (strip_rule (frontmatter n)) (body n)]> (vault w).
Proof.
  intros Hr Ht Hnone Hn Hio.
  unfold createNextRecurrenceInstance, createNextRecurrenceInstance_try.
  rewrite Hr. rewrite Ht. cbn [negb].
  unfold bind at 1. unfold lift at 1. unfold try_catch.
  set (w0 := emit (EvCreateNext (path file) carry) w).
  assert (Hnone0 : (getNextOccurrence E r (fm !! "scheduled") w0).1 = None).
  { rewrite <- Hnone. now apply getNextOccurrence_clock. }
  destruct (getNextOccurrence E r (fm !! "scheduled") w0) as [nd w1] eqn:Hg.
  cbn in Hnone0. subst nd.
  assert (Hw1 : w1 = (getNextOccurrence E r (fm !! "scheduled") w0).2)
    by (rewrite Hg; reflexivity).
  destruct (getNextOccurrence_frame E r (fm !! "scheduled") w0)
    as (_ & Hv1 & _). rewrite <- Hw1 in Hv1.
  set (msg := "[TPS GCM] Could not calculate next recurrence date").
  destruct (logger_warn_fields msg w1) as (_ & Hv2 & _).
  unfold bind, lift.
  rewrite (clearRecurrenceRule_ok E file (logger_warn msg w1) n)
    by (rewrite ?Hv2, ?Hv1; auto).
  cbn [ret]. eexists. split; [reflexivity|].
  rewrite reindex_vault. cbn [vault set_vault rewrite_block
        put_block set_frontmatterBlock]. rewrite Hv2, Hv1. reflexivity.
Qed.

(** On a host that accepts every call, successor creation for an existing
    rule-bearing note is always handled, and strips the rule. *)
Lemma createNext_handled E file fm carry w n :
  (forall op p, io_fails E op p = false) ->
  vault w !! path file = Some n ->
  has_rule fm = true ->
  exists w',
    createNextRecurrenceInstance E file fm carry w = Ret true w'
    /\ Evo (path file) w w'
    /\ vault w' !! path file = Some (mkNote (strip_rule (frontmatter n)) (body n)).
Proof.
  intros Hio Hn Hrule.
  destruct (has_rule_rule_of fm Hrule) as (r & Hr & Ht).
  destruct (createNext_total E file fm carry w) as (b & w' & Hrun & Hevo & _ & _).
  assert (Htrue : exists w2,
             createNextRecurrenceInstance E file fm carry w = Ret true w2
             /\ vault w2 !! path file = Some (mkNote (strip_rule (frontmatter n)) (body n))).
  { destruct (getNextOccurrence E r (fm !! "scheduled") w).1 as [d|] eqn:Hd.
    - destruct (vault w !! successor_path E file d) as [x|] eqn:Hx.
      + destruct (createNext_target_exists E file fm carry w r d n Hr Ht Hd
                    ltac:(rewrite Hx; eauto) (Hio _ _) Hn (Hio _ _))
          as (w2 & H2 & Hv2 & _).
        exists w2. split; [exact H2|]. rewrite Hv2. apply lookup_insert_eq.
      + destruct (createNext_fresh E file fm carry w r d n Hr Ht Hd Hx
                    (Hio _ _) Hn (Hio _ _) (Hio _ _) (Hio _ _) (Hio _ _))
          as (w2 & H2 & Hv2 & _).
        exists w2. split; [exact H2|]. rewrite Hv2. apply lookup_insert_eq.
    - destruct (createNext_no_date E file fm carry w r n Hr Ht Hd Hn (Hio _ _))
        as (w2 & H2 & Hv2).
      exists w2. split; [exact H2|]. rewrite Hv2. apply lookup_insert_eq. }
  destruct Htrue as (w2 & H2 & Hv2).
  rewrite H2 in Hrun. injection Hrun as <- <-.
  exists w2. auto.
Qed.

Lemma filter_ext_In {A} (f g : A -> bool) l :
  (forall x, In x l -> f x = g x) -> List.filter f l = List.filter g l.
Proof.
  induction l as [|a l IH]; intros H; cbn; [reflexivity|].
  rewrite (H a (or_introl eq_refl)), IH; [reflexivity|]. intros x Hx. apply H. now right.
Qed.

(** The loop of [checkMissingRecurrences] on a host that accepts every
    call. *)
Lemma heal_recurrences_spec E statuses files :
  (forall op p, io_fails E op p = false) ->
  forall count w,
  List.NoDup (List.map path files) ->
  (forall f, In f files -> is_Some (vault w !! path f)) ->
  exists w',
    heal_recurrences E statuses files count w
    = Ret (count + List.length (List.filter (heal_target statuses w) files))%nat w'
    /\ settings w' = settings w /\ answers w' = answers w
    /\ modifiedFiles w' = modifiedFiles w /\ loggingEnabled w' = loggingEnabled w
    /\ (forall f n0, In f files -> heal_target statuses w f = true ->
          vault w !! path f = Some n0 ->
          vault w' !! path f = Some (mkNote (strip_rule (frontmatter n0)) (body n0)))
    /\ (forall p n0, vault w !! p = Some n0 ->
          (forall f, In f files -> heal_target statuses w f = true -> path f <> p) ->
          vault w' !! p = Some n0 /\ metadataCache w' !! p = metadataCache w !! p).
Proof.
  intros Hio. induction files as [|f rest IH]; intros count w Hnd Hex.
  - exists w. cbn. rewrite Nat.add_0_r. repeat (split; [reflexivity|]).
    split; [intros f n0 []|]. auto.
  - cbn [List.map] in Hnd. apply List.NoDup_cons_iff in Hnd as [Hnotin Hnd].
    cbn [heal_recurrences List.filter].
    assert (Hne : forall g, In g rest -> path g <> path f).
    { intros g Hg Heq. apply Hnotin. rewrite <- Heq. now apply in_map. }
    unfold heal_target at 1, getFileCache.
    destruct (metadataCache w !! path f) as [fm|] eqn:Hcache.
    2:{ destruct (IH count w Hnd ltac:(intros g Hg; apply Hex; now right))
          as (w' & Hrun & Hs & Ha & Hm & Hl & Hb & Hc).
        exists w'. split; [exact Hrun|]. repeat (split; [assumption|]).
        split.
        - intros g n0 [<-|Hg] Htg Hn0; [|now apply (Hb g)].
          unfold heal_target in Htg. now rewrite Hcache in Htg.
        - intros p n0 Hp Hout. apply Hc; [exact Hp|]. intros g Hg. apply Hout. now right. }
    destruct (has_rule fm && status_in statuses fm)%bool eqn:Htarget.
    2:{ destruct (IH count w Hnd ltac:(intros g Hg; apply Hex; now right))
          as (w' & Hrun & Hs & Ha & Hm & Hl & Hb & Hc).
        exists w'. split; [exact Hrun|]. repeat (split; [assumption|]).
        split.
        - intros g n0 [<-|Hg] Htg Hn0; [|now apply (Hb g)].
          unfold heal_target in Htg. rewrite Hcache in Htg. congruence.
        - intros p n0 Hp Hout. apply Hc; [exact Hp|]. intros g Hg. apply Hout. now right. }
    destruct (Hex f (or_introl eq_refl)) as [nf Hnf].
    apply andb_true_iff in Htarget as Htarget'. destruct Htarget' as [Hrule _].
    destruct (createNext_handled E f fm None w nf Hio Hnf Hrule)
      as (w1 & Hrun1 & Hevo & Hv1).
    unfold bind at 1. rewrite Hrun1.
    pose proof Hevo as (Hs1 & Hm1 & _ & _ & Ha1 & _ & Hl1 & Hother & _).
    assert (Hex1 : forall g, In g rest -> is_Some (vault w1 !! path g)).
    { intros g Hg. destruct (Hex g (or_intror Hg)) as [ng Hng].
      destruct (Hother (path g) ng (Hne g Hg) Hng) as [H _]. eauto. }
    assert (Htg1 : forall g, In g rest ->
                     heal_target statuses w1 g = heal_target statuses w g).
    { intros g Hg. destruct (Hex g (or_intror Hg)) as [ng Hng].
      destruct (Hother (path g) ng (Hne g Hg) Hng) as [_ H].
      unfold heal_target. now rewrite H. }
    destruct (IH (S count) w1 Hnd Hex1) as (w' & Hrun & Hs & Ha & Hm & Hl & Hb & Hc).
    exists w'. rewrite Hrun. rewrite (filter_ext_In _ _ rest Htg1). cbn [length].
    split; [f_equal; lia|].
    split; [congruence|]. split; [congruence|]. split; [congruence|]. split; [congruence|].
    split.
    + intros g n0 [<-|Hg] Htg Hn0.
      * assert (n0 = nf) by congruence. subst n0.
        apply (Hc (path f) _ Hv1). intros g Hg _. now apply Hne.
      * apply (Hb g n0 Hg); [now rewrite Htg1|].
        now destruct (Hother (path g) n0 (Hne g Hg) Hn0).
    + intros p n0 Hp Hout.
      assert (Hpf : p <> path f).
      { intros ->. apply (Hout f (or_introl eq_refl)); [|reflexivity].
        unfold heal_target. now rewrite Hcache. }
      destruct (Hother p n0 Hpf Hp) as [Hv Hmc].
      destruct (Hc p n0 Hv) as [Hv' Hmc'].
      { intros g Hg Htg. apply Hout; [now right|]. now rewrite <- Htg1. }
      split; [exact Hv'|congruence].
Qed.

(** X16.  On a host that accepts every call, the startup scan resolves
    and heals exactly its targets: every listed file for which the cache
    shows a rule together with a status of the configured terminal set
    ends with both rule fields removed and nothing else changed, and every
    other note that existed (open recurring notes among them) is exactly
    as it was.  Nothing is asked and the tracker is not touched. *)
Theorem checkMissingRecurrences_heals (E : Env) (markdownFiles : list TFile) (w : World) :
  (forall op p, io_fails E op p = false) ->
  enableRecurrence (settings w) = true ->
  List.NoDup (List.map path markdownFiles) ->
  (forall f, In f markdownFiles -> is_Some (vault w !! path f)) ->
  exists w',
    checkMissingRecurrences E markdownFiles w = Ret tt w'
    /\ answers w' = answers w
    /\ modifiedFiles w' = modifiedFiles w
    /\ (forall f note, In f markdownFiles ->
          heal_target (recurrenceStatuses (settings w)) w f = true ->
          vault w !! path f = Some note ->
          vault w' !! path f = Some (mkNote (strip_rule (frontmatter note)) (body note)))
    /\ (forall p note, vault w !! p = Some note ->
          (forall f, In f markdownFiles ->
             heal_target (recurrenceStatuses (settings w)) w f = true -> path f <> p) ->
          vault w' !! p = Some note).
Proof.
  intros Hio Hen Hnd Hex. unfold checkMissingRecurrences. rewrite Hen. cbn [negb].
  destruct (heal_recurrences_spec E (recurrenceStatuses (settings w)) markdownFiles Hio
              O w Hnd Hex) as (w1 & Hrun & _ & Ha & Hm & _ & Hb & Hc).
  unfold bind. rewrite Hrun.
  destruct (Nat.ltb 0 _).
  - unfold lift, logger_log. eexists. split; [reflexivity|].
    destruct (loggingEnabled w1); cbn; (split; [exact Ha|]); (split; [exact Hm|]);
      (split; [exact Hb|]); intros p note Hp Hout; now destruct (Hc p note Hp Hout).
  - exists w1. split; [reflexivity|]. split; [exact Ha|]. split; [exact Hm|].
    split; [exact Hb|]. intros p note Hp Hout. now destruct (Hc p note Hp Hout).
Qed.

Lemma checkMissingRecurrences_heals_witness :
  exists w',
    checkMissingRecurrences Sample.calm [Cases.errands; Sample.water_plants; Cases.feed_cat]
      Cases.startup_world = Ret tt w'
    /\ answers w' = answers Cases.startup_world
    /\ modifiedFiles w' = modifiedFiles Cases.startup_world
    /\ (forall f note, In f [Cases.errands; Sample.water_plants; Cases.feed_cat] ->
          heal_target (recurrenceStatuses (settings Cases.startup_world))
            Cases.startup_world f = true ->
          vault Cases.startup_world !! path f = Some note ->
          vault w' !! path f = Some (mkNote (strip_rule (frontmatter note)) (body note)))
    /\ (forall p note, vault Cases.startup_world !! p = Some note ->
          (forall f, In f [Cases.errands; Sample.water_plants; Cases.feed_cat] ->
             heal_target (recurrenceStatuses (settings Cases.startup_world))
               Cases.startup_world f = true -> path f <> p) ->
          vault w' !! p = Some note).
Proof.
  apply (checkMissingRecurrences_heals Sample.calm
           [Cases.errands; Sample.water_plants; Cases.feed_cat] Cases.startup_world).
  - reflexivity.
  - reflexivity.
  - repeat (constructor; [cbn; intuition discriminate|]). constructor.
  - intros f [<-|[<-|[<-|[]]]]; vm_compute; eauto.
Defined.

(** ** The listeners *)

(** The modal answered with update-all or cancel. *)
Lemma promptUser_answer changeType file w c rest :
  answers w = c :: rest ->
  promptUser changeType file w
  = Ret c (set_answers rest (emit (EvPrompt (path file) changeType) w)).
Proof. intros H. unfold promptUser. cbn [answers emit set_trace]. now rewrite H. Qed.

Lemma marked_is_recent p t w :
  modifiedFiles w !! p = Some (clock w) ->
  clock w <> 0 ->
  forall w', modifiedFiles w' = modifiedFiles w -> sessionDuration w' = sessionDuration w ->
    clock w' = t -> t <= clock w + sessionDuration w ->
    SessionTracker.wasRecentlyModified p w' = (true, w').
Proof.
  intros Hm Hnz w' Hm' Hd' Hc' Hle. unfold SessionTracker.wasRecentlyModified.
  rewrite Hm', Hm. destruct (Z.eqb_spec (clock w) 0) as [|_]; [contradiction|].
  rewrite Hd', Hc'. destruct (Z.gtb_spec (t - clock w) (sessionDuration w)); [lia|reflexivity].
Qed.

Lemma answered_prompt_marks (E : Env) (fuel : nat) (f : TFile) (w : World)
    (fm : gmap string value) (c : Choice) (rest : list Choice) :
  clock w <> 0 ->
  (SessionTracker.wasRecentlyModified (path f) w).1 = false ->
  getFileCache f w = Some fm ->
  has_rule fm = true ->
  status_is_done fm = false ->
  answers w = c :: rest ->
  c = UpdateAll \/ c = Cancel ->
  forall handler changeType,
    (handler = handleFileFocus E fuel /\ changeType = "focus")
    \/ (handler = handleFileModification E fuel /\ changeType = "editing") ->
    exists w',
      handler f w = Ret tt w'
      /\ vault w' = vault w
      /\ metadataCache w' = metadataCache w
      /\ trace w' = EvPrompt (path f) changeType :: trace w
      /\ answers w' = rest
      /\ modifiedFiles w' !! path f = Some (clock w)
      /\ forall t, t <= clock w + sessionDuration w ->
           handleFileFocus E fuel f (set_clock t w') = Ret tt (set_clock t w')
           /\ handleFileModification E fuel f (set_clock t w') = Ret tt (set_clock t w').
Proof.
  intros Hnz Hrec Hcache Hrule Hdone Hans Hc handler changeType Hh.
  destruct (TrackerFacts.lookup_frame (path f) w)
    as (Hs & Hv & Hmc & Hsd & Hck & Hl & Hco & Ht & Ha & Hk).
  destruct (SessionTracker.wasRecentlyModified (path f) w) as [b w0] eqn:Hw0.
  cbn [fst snd] in *. subst b.
  set (w1 := SessionTracker.markAsModified (path f)
               (set_answers rest (emit (EvPrompt (path f) changeType) w0))).
  assert (Hrun : handler f w = Ret tt w1).
  { destruct Hh as [[-> ->]|[-> ->]].
    - unfold handleFileFocus, bind, wasRecentlyModified. rewrite Hw0.
      unfold getFileCache in *. rewrite Hmc, Hcache, Hrule, Hdone. cbn [negb].
      unfold promptOnFocus, bind.
      rewrite (promptUser_answer "focus" f w0 c rest) by congruence.
      destruct Hc as [-> | ->]; reflexivity.
    - unfold handleFileModification, bind, wasRecentlyModified. rewrite Hw0.
      unfold getFileCache in *. rewrite Hmc, Hcache, Hrule, Hdone. cbn [negb].
      unfold promptForContentChange, bind.
      rewrite (promptUser_answer "editing" f w0 c rest) by congruence.
      destruct Hc as [-> | ->]; reflexivity. }
  exists w1. split; [exact Hrun|].
  assert (Hmark : modifiedFiles w1 !! path f = Some (clock w)).
  { unfold w1, SessionTracker.markAsModified. cbn. rewrite lookup_insert_eq. congruence. }
  unfold w1 at 1 2 3 4. unfold SessionTracker.markAsModified. cbn.
  split; [exact Hv|]. split; [exact Hmc|]. split; [now rewrite Ht|].
  split; [reflexivity|]. split; [exact Hmark|].
  intros t Hle.
  assert (Hc1 : clock w1 = clock w) by (unfold w1, SessionTracker.markAsModified; cbn; congruence).
  assert (Hd1 : sessionDuration w1 = sessionDuration w)
    by (unfold w1, SessionTracker.markAsModified; cbn; congruence).
  assert (Hrecent : SessionTracker.wasRecentlyModified (path f) (set_clock t w1)
                    = (true, set_clock t w1)).
  { apply (marked_is_recent (path f) t w1);
      [congruence | congruence | reflexivity | reflexivity | reflexivity
      | rewrite Hc1, Hd1; exact Hle]. }
  destruct (recent_skips_focus E fuel f (set_clock t w1) Hrecent) as (H1 & H2 & _).
  auto.
Qed.

(** X17.  When the focus listener or the edit listener asks about an
    open recurring note and the user answers update-all or cancel, the
    listener resolves with the vault and the cache untouched, consumes the
    answer and stamps the note in the tracker; for the whole window after
    that neither listener asks about the note again. *)
Theorem answered_prompt_is_not_repeated (E : Env) (fuel : nat) (f : TFile) (w : World)
    (fm : gmap string value) (c : Choice) (rest : list Choice) :
  clock w <> 0 ->
  (SessionTracker.wasRecentlyModified (path f) w).1 = false ->
  getFileCache f w = Some fm ->
  has_rule fm = true ->
  status_is_done fm = false ->
  answers w = c :: rest ->
  c = UpdateAll \/ c = Cancel ->
  (exists w',
     handleFileFocus E fuel f w = Ret tt w'
     /\ vault w' = vault w
     /\ metadataCache w' = metadataCache w
     /\ trace w' = EvPrompt (path f) "focus" :: trace w
     /\ answers w' = rest
     /\ modifiedFiles w' !! path f = Some (clock w)
     /\ forall t, t <= clock w + sessionDuration w ->
          handleFileFocus E fuel f (set_clock t w') = Ret tt (set_clock t w')
          /\ handleFileModification E fuel f (set_clock t w') = Ret tt (set_clock t w'))
  /\ (exists w',
        handleFileModification E fuel f w = Ret tt w'
        /\ vault w' = vault w
        /\ metadataCache w' = metadataCache w
        /\ trace w' = EvPrompt (path f) "editing" :: trace w
        /\ answers w' = rest
        /\ modifiedFiles w' !! path f = Some (clock w)
        /\ forall t, t <= clock w + sessionDuration w ->
             handleFileFocus E fuel f (set_clock t w') = Ret tt (set_clock t w')
             /\ handleFileModification E fuel f (set_clock t w')
                = Ret tt (set_clock t w')).
Proof.
  intros Hnz Hrec Hcache Hrule Hdone Hans Hc. split.
  - apply (answered_prompt_marks E fuel f w fm c rest Hnz Hrec Hcache Hrule Hdone Hans Hc
             (handleFileFocus E fuel) "focus"). now left.
  - apply (answered_prompt_marks E fuel f w fm c rest Hnz Hrec Hcache Hrule Hdone Hans Hc
             (handleFileModification E fuel) "editing"). now right.
Qed.

Lemma answered_prompt_is_not_repeated_witness :
  exists w',
    handleFileFocus Sample.calm 0 Sample.water_plants (Sample.garden DEFAULT_SETTINGS [Cancel])
    = Ret tt w'
    /\ vault w' = vault (Sample.garden DEFAULT_SETTINGS [Cancel])
    /\ metadataCache w' = metadataCache (Sample.garden DEFAULT_SETTINGS [Cancel])
    /\ trace w' = EvPrompt (path Sample.water_plants) "focus"
                  :: trace (Sample.garden DEFAULT_SETTINGS [Cancel])
    /\ answers w' = []
    /\ modifiedFiles w' !! path Sample.water_plants
       = Some (clock (Sample.garden DEFAULT_SETTINGS [Cancel]))
    /\ forall t,
         t <= clock (Sample.garden DEFAULT_SETTINGS [Cancel])
              + sessionDuration (Sample.garden DEFAULT_SETTINGS [Cancel]) ->
         handleFileFocus Sample.calm 0 Sample.water_plants (set_clock t w')
         = Ret tt (set_clock t w')
         /\ handleFileModification Sample.calm 0 Sample.water_plants (set_clock t w')
            = Ret tt (set_clock t w').
Proof.
  apply (proj1 (answered_prompt_is_not_repeated Sample.calm 0 Sample.water_plants
                  (Sample.garden DEFAULT_SETTINGS [Cancel]) Sample.water_plants_fm Cancel []
                  ltac:(discriminate) eq_refl eq_refl eq_refl eq_refl eq_refl
                  (or_intror eq_refl))).
Defined.

Lemma quiet_or_due fuel (prompt : nat -> TFile -> M unit) f w :
  (exists fm, getFileCache f w = Some fm /\ has_rule fm = true
              /\ status_is_done fm = false
              /\ (SessionTracker.wasRecentlyModified (path f) w).1 = false)
  \/ (exists w',
        (recent <- wasRecentlyModified (path f) ;;
         if recent : bool then ret tt
         else fun w0 =>
           match getFileCache f w0 with
           | None => Ret tt w0
           | Some fm =>
               if negb (has_rule fm) then Ret tt w0
               else if status_is_done fm then Ret tt w0
               else prompt fuel f w0
           end) w = Ret tt w'
        /\ trace w' = trace w /\ vault w' = vault w /\ answers w' = answers w).
Proof.
  destruct (TrackerFacts.lookup_frame (path f) w)
    as (Hs & Hv & Hmc & Hsd & Hck & Hl & Hco & Ht & Ha & Hk).
  unfold bind, wasRecentlyModified, getFileCache.
  destruct (SessionTracker.wasRecentlyModified (path f) w) as [b w0].
  cbn [fst snd] in *. destruct b.
  { right. exists w0. auto. }
  rewrite Hmc. destruct (metadataCache w !! path f) as [fm|]; [|right; exists w0; auto].
  destruct (has_rule fm) eqn:Hrule; cbn [negb]; [|right; exists w0; auto].
  destruct (status_is_done fm) eqn:Hdone; [right; exists w0; auto|].
  left. exists fm. auto.
Qed.

(** X18.  A listener that does not find all of this resolves without
    showing anything and without touching vault or answers: the event
    names a file whose extension is exactly md, the cache shows a truthy
    rule for it and a status that is neither complete nor wont-do, and the
    file was not stamped within the window. *)
Theorem listeners_ask_only_about_open_recurring_notes (E : Env) (fuel : nat) (w : World) :
  (forall active : option TFile,
     (exists f fm, active = Some f /\ extension f = "md"
                   /\ getFileCache f w = Some fm /\ has_rule fm = true
                   /\ status_is_done fm = false
                   /\ (SessionTracker.wasRecentlyModified (path f) w).1 = false)
     \/ (exists w',
           on_active_leaf_change E fuel active w = Ret tt w'
           /\ trace w' = trace w /\ vault w' = vault w /\ answers w' = answers w))
  /\ (forall file : TFile + string,
        (exists f fm, file = inl f /\ extension f = "md"
                      /\ getFileCache f w = Some fm /\ has_rule fm = true
                      /\ status_is_done fm = false
                      /\ (SessionTracker.wasRecentlyModified (path f) w).1 = false)
        \/ (exists w',
              on_modify E fuel file w = Ret tt w'
              /\ trace w' = trace w /\ vault w' = vault w /\ answers w' = answers w)).
Proof.
  split.
  - intros [f|]; [|right; exists w; auto]. unfold on_active_leaf_change.
    destruct (String.eqb_spec (extension f) "md") as [Hext|_]; [|right; exists w; auto].
    destruct (quiet_or_due fuel (promptOnFocus E) f w) as [(fm & H)|H].
    + left. exists f, fm. auto.
    + right. exact H.
  - intros [f|p]; [|right; exists w; auto]. unfold on_modify.
    destruct (String.eqb_spec (extension f) "md") as [Hext|_]; [|right; exists w; auto].
    destruct (quiet_or_due fuel (promptForContentChange E) f w) as [(fm & H)|H].
    + left. exists f, fm. auto.
    + right. exact H.
Qed.

(** ** The tracker and the timeout setting *)

(** X19.  [updateSettings] re-times the entries already recorded: a
    path stamped at T counts as recent at time t exactly when t - T is at
    most the configured minutes times 60000, whatever the window was when
    it was stamped; after [cleanup], and in a newly constructed service,
    no path counts as recent. *)
Theorem timeout_applies_to_recorded_entries (p : string) (T t : Z) (w : World) :
  modifiedFiles w !! p = Some T ->
  T <> 0 ->
  (SessionTracker.wasRecentlyModified p (set_clock t (updateSettings w))).1
  = bool_decide (t - T <= recurrencePromptTimeout (settings w) * 60 * 1000)
  /\ (SessionTracker.wasRecentlyModified p (set_clock t (cleanup w))).1 = false
  /\ (SessionTracker.wasRecentlyModified p (set_clock t (RecurrenceService_new w))).1 = false.
Proof.
  intros Hm Hnz. split; [|split; reflexivity].
  unfold SessionTracker.wasRecentlyModified, updateSettings, SessionTracker.updateDuration.
  cbn. rewrite Hm. destruct (Z.eqb_spec T 0) as [|_]; [contradiction|].
  destruct (Z.gtb_spec (t - T) (recurrencePromptTimeout (settings w) * 60 * 1000)).
  - now rewrite bool_decide_eq_false_2 by lia.
  - now rewrite bool_decide_eq_true_2 by lia.
Qed.

Lemma timeout_applies_to_recorded_entries_witness :
  (SessionTracker.wasRecentlyModified "a.md"
     (set_clock 60001
        (updateSettings
           (SessionTracker.markAsModified "a.md"
              (Sample.world Cases.one_minute [] 1 [] []))))).1
  = bool_decide (60001 - 1 <= recurrencePromptTimeout
                                (settings (SessionTracker.markAsModified "a.md"
                                             (Sample.world Cases.one_minute [] 1 [] [])))
                              * 60 * 1000)
  /\ (SessionTracker.wasRecentlyModified "a.md"
        (set_clock 60001
           (cleanup (SessionTracker.markAsModified "a.md"
                       (Sample.world Cases.one_minute [] 1 [] []))))).1 = false
  /\ (SessionTracker.wasRecentlyModified "a.md"
        (set_clock 60001
           (RecurrenceService_new
              (SessionTracker.markAsModified "a.md"
                 (Sample.world Cases.one_minute [] 1 [] []))))).1 = false.
Proof.
  apply (timeout_applies_to_recorded_entries "a.md" 1 60001
           (SessionTracker.markAsModified "a.md" (Sample.world Cases.one_minute [] 1 [] [])));
    [reflexivity | discriminate].
Defined.

(** ** File names of a series *)

Lemma is_date_suffix_length s : is_date_suffix s = true -> String.length s = 11%nat.
Proof.
  unfold is_date_suffix. intros H.
  rewrite <- (string_of_list_ascii_of_string s).
  destruct (list_ascii_of_string s) as [|c0 [|c1 [|c2 [|c3 [|c4 [|c5 [|c6 [|c7 [|c8 [|c9
    [|c10 [|c11 l]]]]]]]]]]]]; try discriminate.
  reflexivity.
Qed.

Lemma string_length_app a b :
  String.length (a ++ b) = (String.length a + String.length b)%nat.
Proof.
  induction a as [|c a IH]; [reflexivity|].
  change (String c a ++ b) with (String c (a ++ b)). cbn [String.length]. now rewrite IH.
Qed.

(** A date suffix appended to a name is the one [strip_date_suffix]
    takes off again. *)
Lemma strip_date_suffix_app x sfx :
  is_date_suffix sfx = true -> strip_date_suffix (x ++ sfx) = x.
Proof.
  intros H. pose proof (is_date_suffix_length sfx H) as Hlen.
  induction x as [|c x IH].
  - change ("" ++ sfx) with sfx. destruct sfx as [|c r]; [discriminate|].
    cbn [strip_date_suffix]. now rewrite H.
  - change (String c x ++ sfx) with (String c (x ++ sfx)). cbn [strip_date_suffix].
    destruct (is_date_suffix (String c (x ++ sfx))) eqn:Hd.
    + apply is_date_suffix_length in Hd. cbn [String.length] in Hd.
      rewrite string_length_app in Hd. lia.
    + now rewrite IH.
Qed.

(** X20.  File names of a series do not pile up dates: when moment
    prints the date in the shape YYYY-MM-DD, the successor's base name
    without its date is the base name of the source again, so the
    successor of a successor gets the same path as a successor of the
    source for the same date, and the title stays the same over the
    generations. *)
Theorem successor_names_keep_one_date (E : Env) (file : TFile) (d : Z) :
  is_date_suffix (" " ++ moment_format E d "YYYY-MM-DD") = true ->
  successor_baseName (successor_file E file d) = successor_baseName file
  /\ (forall d', successor_path E (successor_file E file d) d' = successor_path E file d')
  /\ successor_baseName (successor_file E (successor_file E file d) d)
     = successor_baseName file.
Proof.
  intros H.
  assert (H1 : successor_baseName (successor_file E file d) = successor_baseName file).
  { unfold successor_baseName at 1. cbn [basename successor_file].
    now apply strip_date_suffix_app. }
  split; [exact H1|]. split.
  - intros d'. unfold successor_path, successor_fileName. rewrite H1. reflexivity.
  - unfold successor_baseName at 1. cbn [basename successor_file].
    rewrite H1. now apply strip_date_suffix_app.
Qed.

Lemma successor_names_keep_one_date_witness :
  successor_baseName (successor_file Sample.calm Sample.water_plants Sample.next_week)
  = successor_baseName Sample.water_plants
  /\ (forall d',
        successor_path Sample.calm
          (successor_file Sample.calm Sample.water_plants Sample.next_week) d'
        = successor_path Sample.calm Sample.water_plants d')
  /\ successor_baseName
       (successor_file Sample.calm
          (successor_file Sample.calm Sample.water_plants Sample.next_week) Sample.next_week)
     = successor_baseName Sample.water_plants.
Proof.
  apply (successor_names_keep_one_date Sample.calm Sample.water_plants Sample.next_week).
  reflexivity.
Defined.

(** ** The statuses field of the settings tab *)

Lemma list_ascii_app a b :
  list_ascii_of_string (a ++ b) = (list_ascii_of_string a ++ list_ascii_of_string b)%list.
Proof.
  induction a as [|c a IH]; [reflexivity|].
  change (String c a ++ b) with (String c (a ++ b)). cbn [list_ascii_of_string app].
  now rewrite IH.
Qed.

Lemma chars_app_plain x c rest :
  plain c -> chars (x ++ String c rest) = (chars x ++ [c] :: chars rest)%list.
Proof.
  intros Hc. unfold chars. rewrite list_ascii_app. cbn [list_ascii_of_string].
  now rewrite (cut_app_plain _ c _ Hc).
Qed.

Lemma chars_nil s : chars s = [] -> s = "".
Proof.
  intros H. rewrite <- (text_chars s), H. reflexivity.
Qed.

Lemma no_comma_chars s :
  ~ In ","%char (list_ascii_of_string s) -> ~ In [","%char] (chars s).
Proof.
  intros Hno Hin. apply Hno. rewrite <- concat_chars.
  apply in_concat. exists [","%char]. split; [exact Hin|now left].
Qed.

Lemma split_commas_plain x : forall cur,
  ~ In [","%char] x -> split_commas cur x = [(rev cur ++ x)%list].
Proof.
  induction x as [|c x IH]; intros cur Hno; cbn [split_commas].
  - now rewrite app_nil_r.
  - case_bool_decide as Hc; [exfalso; apply Hno; left; exact Hc|].
    rewrite IH by (intros Hin; apply Hno; now right).
    cbn [rev]. now rewrite <- app_assoc.
Qed.

Lemma split_commas_at x rest : forall cur,
  ~ In [","%char] x ->
  split_commas cur (x ++ [","%char] :: rest)
  = (rev cur ++ x)%list :: split_commas [] rest.
Proof.
  induction x as [|c x IH]; intros cur Hno; cbn [split_commas app].
  - rewrite bool_decide_eq_true_2 by reflexivity. now rewrite app_nil_r.
  - case_bool_decide as Hc; [exfalso; apply Hno; left; exact Hc|].
    rewrite IH by (intros Hin; apply Hno; now right).
    cbn [rev]. now rewrite <- app_assoc.
Qed.

Lemma trim_ws_prefix pre x : all_ws pre -> trim (pre ++ x) = trim x.
Proof. intros H. unfold trim. now rewrite (skip_ws_app pre x H). Qed.

Lemma show_statuses_pieces l :
  l <> [] -> Forall status_word l ->
  forall pre, all_ws pre ->
    List.map trim (split_commas (rev pre) (chars (show_statuses l)))
    = List.map chars l.
Proof.
  induction l as [|x rest IH]; intros Hne Hall pre Hpre; [contradiction|].
  apply Forall_cons_1 in Hall as [(Hx1 & Hx2 & Hx3) Hrest].
  apply no_comma_chars in Hx2.
  destruct rest as [|y rest].
  - cbn [show_statuses List.map]. rewrite split_commas_plain by exact Hx2.
    cbn [List.map]. rewrite rev_involutive, trim_ws_prefix by exact Hpre. now rewrite Hx3.
  - change (show_statuses (x :: y :: rest))
      with (x ++ String ","%char (String " "%char (show_statuses (y :: rest)))).
    rewrite chars_app_plain by (split; reflexivity).
    change (String " "%char (show_statuses (y :: rest)))
      with ("" ++ String " "%char (show_statuses (y :: rest))).
    rewrite (chars_app_plain "" " "%char) by (split; reflexivity).
    change (chars "") with (@nil Char). cbn [app].
    rewrite split_commas_at by exact Hx2.
    cbn [List.map]. rewrite rev_involutive, trim_ws_prefix by exact Hpre. rewrite Hx3.
    f_equal. cbn [split_commas].
    rewrite bool_decide_eq_false_2 by discriminate.
    apply (IH ltac:(discriminate) Hrest [[" "%char]]).
    repeat constructor.
Qed.

(** X21.  The statuses field of the settings tab reads back what it
    shows: for statuses that are not empty, hold no comma and no white
    space at either end (white space as [trim] knows it, the no-break
    space included), parsing the shown text gives the same list.  A text
    of white space and commas only parses to the empty list, for which
    the terminal statuses fall back to complete and wont-do. *)
Theorem statuses_field_round_trip (l : list string) (blank : string) :
  (Forall status_word l -> parse_statuses (show_statuses l) = l)
  /\ (Forall (fun c => is_ws c = true \/ c = [","%char]) (chars blank) ->
      parse_statuses blank = []
      /\ forall s, recurrenceCompletionStatuses s = parse_statuses blank ->
           recurrenceStatuses s = ["complete"; "wont-do"]).
Proof.
  split.
  - intros Hall. unfold parse_statuses. destruct l as [|x rest]; [reflexivity|].
    pose proof (show_statuses_pieces (x :: rest) ltac:(discriminate) Hall [] ltac:(constructor))
      as Hp.
    cbn [rev] in Hp. rewrite Hp.
    assert (Hf : forall k : list string, Forall status_word k ->
               List.map text
                 (List.filter (fun piece => negb (Nat.eqb (List.length piece) 0))
                    (List.map chars k)) = k).
    { induction k as [|s k IHk]; intros Hk; [reflexivity|].
      apply Forall_cons_1 in Hk as [(Hs1 & _ & _) Hk]. cbn [List.map List.filter].
      destruct (chars s) as [|c cs] eqn:Hs; [now apply chars_nil in Hs|].
      cbn [List.length Nat.eqb negb List.map]. rewrite <- Hs.
      now rewrite text_chars, IHk. }
    now apply Hf.
  - intros Hblank.
    assert (Hnil : parse_statuses blank = []).
    { unfold parse_statuses.
      assert (Hgen : forall txt cur, all_ws cur ->
                 Forall (fun c => is_ws c = true \/ c = [","%char]) txt ->
                 List.filter (fun piece => negb (Nat.eqb (List.length piece) 0))
                   (List.map trim (split_commas cur txt)) = []).
      { assert (Htrim : forall u, all_ws u -> trim u = []).
        { intros u Hu. unfold trim.
          rewrite <- (app_nil_r u), (skip_ws_app u [] Hu). reflexivity. }
        induction txt as [|c txt IHl]; intros cur Hcur Hl; cbn [split_commas].
        - cbn [List.map List.filter]. rewrite Htrim; [reflexivity|].
          apply Forall_rev. exact Hcur.
        - apply Forall_cons_1 in Hl as [Hc Hl].
          case_bool_decide as Hcomma.
          + cbn [List.map List.filter]. rewrite Htrim by (apply Forall_rev; exact Hcur).
            cbn [List.length Nat.eqb negb]. apply IHl; [constructor|exact Hl].
          + destruct Hc as [Hc|Hc]; [|contradiction].
            apply IHl; [now constructor|exact Hl]. }
      rewrite (Hgen _ [] ltac:(constructor) Hblank). reflexivity. }
    split; [exact Hnil|]. intros s Hs. unfold recurrenceStatuses. now rewrite Hs, Hnil.
Qed.

Lemma statuses_field_round_trip_witness :
  parse_statuses (show_statuses ["complete"; "wont-do"; "on hold"])
  = ["complete"; "wont-do"; "on hold"].
Proof.
  apply (proj1 (statuses_field_round_trip ["complete"; "wont-do"; "on hold"] " , ")).
  repeat constructor; try discriminate; cbn; intuition discriminate.
Defined.

(** ** When the host refuses *)

(** X22.  When the existence check, the read of the source or the
    creation of the file is rejected, [createNextRecurrenceInstance]
    resolves to false with the vault unchanged (the source keeps its
    rule), shows the failure notice and logs one error.  When only the
    patch of the new file is rejected, it resolves to false too, the new
    file stays behind as an unpatched copy of the source, and the source
    keeps its rule. *)
Theorem failed_creation_keeps_the_source (E : Env) (file : TFile)
    (fm : gmap string value) (carry : option value) (w : World)
    (r : value) (d : Z) (n : Note) :
  rule_of fm = Some r ->
  truthy r = true ->
  (getNextOccurrence E r (fm !! "scheduled") w).1 = Some d ->
  vault w !! path file = Some n ->
  vault w !! successor_path E file d = None ->
  (io_fails E OpExists (successor_path E file d) = true
   \/ (io_fails E OpExists (successor_path E file d) = false
       /\ (io_fails E OpRead (path file) = true
           \/ io_fails E OpCreate (successor_path E file d) = true)) ->
   exists w',
     createNextRecurrenceInstance E file fm carry w = Ret false w'
     /\ vault w' = vault w
     /\ trace w' = EvNotice "Failed to create next recurrence instance"
                   :: EvCreateNext (path file) carry :: trace w
     /\ console w'
        = if loggingEnabled w
          then (LvlError, "[TPS GCM] Failed to create next recurrence instance:") :: console w
          else console w)
  /\ (io_fails E OpExists (successor_path E file d) = false ->
      io_fails E OpRead (path file) = false ->
      io_fails E OpCreate (successor_path E file d) = false ->
      io_fails E OpPatch (successor_path E file d) = true ->
      exists w',
        createNextRecurrenceInstance E file fm carry w = Ret false w'
        /\ vault w' = <[successor_path E file d := n]> (vault w)
        /\ vault w' !! path file = Some n
        /\ trace w' = EvNotice "Failed to create next recurrence instance"
                      :: EvCreateNext (path file) carry :: trace w).
Proof.
  intros Hr Ht Hd Hn Hfree.
  destruct (createNext_with_date E file fm carry w r d Hr Ht Hd)
    as (w1 & Hv & Hmc & Hs & Hm & Hsd & Hc & Ha & Hl & Hk & Htr & Hca & ->).
  set (t := successor_path E file d) in *.
  assert (Hcatch : forall wx,
             (lift (logger_error "[TPS GCM] Failed to create next recurrence instance:") ;;;
              Notice "Failed to create next recurrence instance" ;;; ret false) wx
             = Ret false
                 (emit (EvNotice "Failed to create next recurrence instance")
                    (logger_error "[TPS GCM] Failed to create next recurrence instance:" wx)))
    by reflexivity.
  split.
  - intros Hfail. unfold try_catch, bind at 1, adapter_exists.
    destruct Hfail as [He | (He & Hrc)]; rewrite He.
    + rewrite Hcatch. eexists. split; [reflexivity|].
      destruct (logger_error_fields
                  "[TPS GCM] Failed to create next recurrence instance:" w1)
        as (_ & Hv2 & _ & _ & _ & _ & _ & Ht2 & _).
      cbn [vault trace emit set_trace console]. rewrite Hv2, Ht2, Hv, Htr.
      split; [reflexivity|]. split; [reflexivity|].
      rewrite logger_error_console. now rewrite Hl, Hk.
    + rewrite Hv. rewrite bool_decide_eq_false_2 by (rewrite Hfree; apply is_Some_None).
      assert (Hthrow : (content <- vault_read E (path file) ;;
                        vault_create E t content ;;;
                        fun w2 =>
                          match vault w2 !! t with
                          | None =>
                              Ret false
                                (logger_error "[TPS GCM] Could not get newly created file" w2)
                          | Some _ =>
                              (processFrontMatter E t (successor_patch E file d (settings w2)) ;;;
                               clearRecurrenceRule E file ;;;
                               Notice ("Created next recurrence: "
                                       ++ successor_fileName E file d) ;;;
                               ret true) w2
                          end) w1 = Throw w1).
      { unfold bind at 1, vault_read. destruct Hrc as [Hread | Hcreate].
        - now rewrite Hread.
        - destruct (io_fails E OpRead (path file)); [reflexivity|].
          rewrite Hv, Hn. unfold bind at 1, vault_create. now rewrite Hcreate. }
      rewrite Hthrow, Hcatch. eexists. split; [reflexivity|].
      destruct (logger_error_fields
                  "[TPS GCM] Failed to create next recurrence instance:" w1)
        as (_ & Hv2 & _ & _ & _ & _ & _ & Ht2 & _).
      cbn [vault trace emit set_trace console]. rewrite Hv2, Ht2, Hv, Htr.
      split; [reflexivity|]. split; [reflexivity|].
      rewrite logger_error_console. now rewrite Hl, Hk.
  - intros He Hread Hcreate Hpatch.
    unfold try_catch, bind. rewrite (adapter_exists_ok E _ w1 He).
    rewrite Hv. rewrite bool_decide_eq_false_2 by (rewrite Hfree; apply is_Some_None).
    rewrite (vault_read_ok E _ w1 n) by (rewrite ?Hv; auto).
    rewrite (vault_create_ok E t _ w1) by (rewrite ?Hv; auto).
    set (w2 := store E t _ w1).
    assert (Hv2 : vault w2 = <[t:=n]> (vault w)) by (unfold w2; frame_simpl; congruence).
    rewrite Hv2, lookup_insert_eq.
    unfold processFrontMatter at 1. rewrite Hpatch.
    unfold lift, Notice, ret. eexists. split; [reflexivity|].
    destruct (logger_error_fields
                "[TPS GCM] Failed to create next recurrence instance:" w2)
      as (_ & Hv3 & _ & _ & _ & _ & _ & Ht3 & _).
    cbn [vault trace emit set_trace]. rewrite Hv3, Ht3, Hv2.
    split; [reflexivity|].
    split; [rewrite lookup_insert_ne by congruence; exact Hn|].
    unfold w2. frame_simpl. now rewrite Htr.
Qed.

Lemma failed_creation_keeps_the_source_witness :
  exists w',
    createNextRecurrenceInstance Sample.read_only Sample.water_plants Sample.water_plants_fm
      None (Sample.garden Sample.logging_settings []) = Ret false w'
    /\ vault w' = vault (Sample.garden Sample.logging_settings [])
    /\ trace w' = EvNotice "Failed to create next recurrence instance"
                  :: EvCreateNext (path Sample.water_plants) None
                  :: trace (Sample.garden Sample.logging_settings [])
    /\ console w'
       = if loggingEnabled (Sample.garden Sample.logging_settings [])
         then (LvlError, "[TPS GCM] Failed to create next recurrence instance:")
              :: console (Sample.garden Sample.logging_settings [])
         else console (Sample.garden Sample.logging_settings []).
Proof.
  apply (proj1 (failed_creation_keeps_the_source Sample.read_only Sample.water_plants
                  Sample.water_plants_fm None (Sample.garden Sample.logging_settings [])
                  (VAtom (AStr "RRULE:FREQ=WEEKLY")) Sample.next_week
                  Sample.water_plants_note eq_refl eq_refl eq_refl eq_refl eq_refl)).
  right. split; [reflexivity|]. now right.
Defined.

(** ** Logging switched off *)

Lemma silent_logger c msg w :
  silent c w ->
  silent c (logger_error msg w) /\ silent c (logger_warn msg w) /\ silent c (logger_log msg w).
Proof.
  intros [Hl Hc]. unfold logger_error, logger_warn, logger_log. rewrite Hl.
  repeat split; assumption.
Qed.

Lemma silent_frame c w w' :
  loggingEnabled w' = loggingEnabled w -> console w' = console w -> silent c w -> silent c w'.
Proof. intros Hl Hc [H1 H2]. split; congruence. Qed.

Lemma silent_getNextOccurrence E c r sched w :
  silent c w -> silent c (getNextOccurrence E r sched w).2.
Proof.
  intros H. unfold getNextOccurrence.
  destruct (RRule_parseString E r); [destruct (RRule_after E _ _ false)|]; cbn [snd];
    try exact H; now apply silent_logger.
Qed.

Lemma preserves_silent_patch E c p fn : preserves (silent c) (processFrontMatter E p fn).
Proof.
  apply preserves_processFrontMatter. intros w n b H _.
  apply (silent_frame c w); [now rewrite reindex_loggingEnabled
                            | now rewrite reindex_console | exact H].
Qed.

Lemma preserves_silent_createNext E c file fm carry :
  preserves (silent c) (createNextRecurrenceInstance E file fm carry).
Proof.
  unfold createNextRecurrenceInstance.
  apply preserves_bind; [apply preserves_lift; intros w H; exact H|]. intros _.
  apply preserves_try_catch.
  2:{ apply preserves_bind; [apply preserves_lift; intros w H; now apply silent_logger|].
      intros _. apply preserves_bind; [apply preserves_lift; intros w H; exact H|].
      intros _. apply preserves_ret. }
  unfold createNextRecurrenceInstance_try.
  destruct (rule_of fm) as [r|]; [|apply preserves_ret].
  destruct (negb (truthy r)); [apply preserves_ret|].
  intros w H.
  pose proof (silent_getNextOccurrence E c r (fm !! "scheduled") w H) as H1.
  destruct (getNextOccurrence E r (fm !! "scheduled") w) as [[d|] w1]; cbn [snd] in H1.
  - revert w1 H1. change (preserves (silent c)
      (found <- adapter_exists E (successor_path E file d) ;;
       if found : bool then
         lift (logger_warn "[TPS GCM] Next recurrence already exists, skipping creation:") ;;;
         clearRecurrenceRule E file ;;; ret true
       else
         content <- vault_read E (path file) ;;
         vault_create E (successor_path E file d) content ;;;
         fun w2 =>
           match vault w2 !! successor_path E file d with
           | None => Ret false (logger_error "[TPS GCM] Could not get newly created file" w2)
           | Some _ =>
               (processFrontMatter E (successor_path E file d)
                  (successor_patch E file d (settings w2)) ;;;
                clearRecurrenceRule E file ;;;
                Notice ("Created next recurrence: " ++ successor_fileName E file d) ;;;
                ret true) w2
           end)).
    apply preserves_bind.
    { intros w0 H0. unfold adapter_exists. now destruct (io_fails E OpExists _). }
    intros [|].
    + apply preserves_bind; [apply preserves_lift; intros w0 H0; now apply silent_logger|].
      intros _. apply preserves_bind; [apply preserves_silent_patch|]. intros _.
      apply preserves_ret.
    + apply preserves_bind.
      { intros w0 H0. unfold vault_read.
        destruct (io_fails E OpRead _); [exact H0|]. now destruct (vault w0 !! path file). }
      intros content. apply preserves_bind.
      { intros w0 H0. unfold vault_create.
        destruct (io_fails E OpCreate _); [exact H0|].
        destruct (vault w0 !! successor_path E file d); [exact H0|].
        apply (silent_frame c w0); [unfold store; now rewrite reindex_loggingEnabled
                                   | unfold store; now rewrite reindex_console | exact H0]. }
      intros _ w2 H2.
      destruct (vault w2 !! successor_path E file d); [|now apply silent_logger].
      assert (Hp : forall s,
                 preserves (silent c)
                   (processFrontMatter E (successor_path E file d)
                      (successor_patch E file d s) ;;;
                    clearRecurrenceRule E file ;;;
                    Notice ("Created next recurrence: " ++ successor_fileName E file d) ;;;
                    ret true)).
      { intros s. apply preserves_bind; [apply preserves_silent_patch|]. intros _.
        apply preserves_bind; [apply preserves_silent_patch|]. intros _.
        apply preserves_bind; [apply preserves_lift; intros w0 H0; exact H0|]. intros _.
        apply preserves_ret. }
      exact (Hp (settings w2) w2 H2).
  - revert w1 H1.
    change (preserves (silent c)
              (lift (logger_warn "[TPS GCM] Could not calculate next recurrence date") ;;;
               clearRecurrenceRule E file ;;; ret true)).
    apply preserves_bind; [apply preserves_lift; intros w0 H0; now apply silent_logger|].
    intros _. apply preserves_bind; [apply preserves_silent_patch|]. intros _.
    apply preserves_ret.
Qed.

Lemma heal_recurrences_total E statuses files c :
  forall count w,
  exists n w',
    heal_recurrences E statuses files count w = Ret n w'
    /\ (silent c w -> silent c w').
Proof.
  induction files as [|f rest IH]; intros count w; cbn [heal_recurrences].
  - exists count, w. split; [reflexivity|auto].
  - destruct (getFileCache f w) as [fm|]; [|apply IH].
    destruct (has_rule fm && status_in statuses fm)%bool; [|apply IH].
    destruct (createNext_total E f fm None w) as (b & w1 & Hrun & _).
    pose proof (preserves_silent_createNext E c f fm None w) as Hs. rewrite Hrun in Hs.
    unfold bind at 1. rewrite Hrun.
    destruct (IH (if b then S count else count) w1) as (n & w' & Hrest & Hs').
    exists n, w'. split; [exact Hrest|auto].
Qed.

(** X23.  With logging off, successor creation, bulk patches, the
    startup scan and the deferred check of [setRecurrence] all resolve and
    leave the console exactly as it was, also on the paths that report a
    failure. *)
Theorem logging_off_writes_nothing (E : Env) (w : World) :
  loggingEnabled w = false ->
  (forall file fm carry,
     exists handled w',
       createNextRecurrenceInstance E file fm carry w = Ret handled w'
       /\ console w' = console w)
  /\ (forall files cb,
        exists n w', applyToFiles E files cb w = Ret n w' /\ console w' = console w)
  /\ (forall markdownFiles,
        exists w', checkMissingRecurrences E markdownFiles w = Ret tt w'
                   /\ console w' = console w)
  /\ (forall t,
        exists w', setRecurrence_timer E t w = Ret tt w' /\ console w' = console w).
Proof.
  intros Hoff.
  assert (Hsil : silent (console w) w) by (split; [exact Hoff|reflexivity]).
  assert (Hcreate : forall file fm carry,
             exists handled w',
               createNextRecurrenceInstance E file fm carry w = Ret handled w'
               /\ console w' = console w).
  { intros file fm carry.
    destruct (createNext_total E file fm carry w) as (b & w' & Hrun & _).
    pose proof (preserves_silent_createNext E (console w) file fm carry w Hsil) as Hs.
    rewrite Hrun in Hs. exists b, w'. split; [exact Hrun|apply Hs]. }
  split; [exact Hcreate|]. split; [|split].
  - intros files cb.
    destruct (applyToFiles_from_run E cb files O w) as (w' & Hrun & _ & _ & _ & _ & _ & _
                                                      & Hco & _).
    eexists _, w'. split; [exact Hrun|]. now rewrite Hco, Hoff.
  - intros files. unfold checkMissingRecurrences.
    destruct (negb (enableRecurrence (settings w))); [exists w; auto|].
    destruct (heal_recurrences_total E (recurrenceStatuses (settings w)) files (console w)
                O w) as (n & w1 & Hrun & Hs).
    unfold bind. rewrite Hrun. destruct (Hs Hsil) as [Hl1 Hc1].
    destruct (Nat.ltb 0 n).
    + unfold lift, logger_log. rewrite Hl1. exists w1. auto.
    + exists w1. auto.
  - intros t. unfold setRecurrence_timer.
    destruct (getFileCache (timer_file t) w) as [fm|]; [|exists w; auto].
    destruct (status_in (timer_statuses t) fm); [|exists w; auto].
    destruct (Hcreate (timer_file t) fm None) as (b & w' & Hrun & Hc).
    exists w'. unfold bind. rewrite Hrun. auto.
Qed.

Lemma logging_off_writes_nothing_witness :
  exists w',
    checkMissingRecurrences Sample.calm [Cases.errands; Sample.water_plants; Cases.feed_cat]
      Cases.startup_world = Ret tt w'
    /\ console w' = console Cases.startup_world.
Proof.
  apply (proj1 (proj2 (proj2 (logging_off_writes_nothing Sample.calm Cases.startup_world
                                eq_refl)))).
Defined.

(** ** One prompt for a batch of tags *)

(** X24.  [addTag] asks once for a whole batch: it asks about the first
    file for which a dialog is due, and when the answer is update-all it
    adds the tag to every accepted file of the batch, the other recurring
    notes included, without a second dialog; rules stay on the notes. *)
Theorem addTag_prompts_once (E : Env) (fuel : nat) (pre post : list TFile) (f : TFile)
    (tag key : string) (w : World) (rest : list Choice) :
  (enableRecurrence (settings w) && promptOnRecurrenceEdit (settings w))%bool = true ->
  Forall (fun g => tag_candidate g w = false) pre ->
  tag_candidate f w = true ->
  (SessionTracker.wasRecentlyModified (path f) w).1 = false ->
  answers w = UpdateAll :: rest ->
  exists w',
    addTag E fuel (pre ++ f :: post) tag key w
    = Ret (List.length (List.filter (patch_accepted E w) (pre ++ f :: post))) w'
    /\ trace w'
       = EvPrompt (path f) ("adding tag " ++ dquote ++ tag ++ dquote ++ " to") :: trace w
    /\ answers w' = rest
    /\ forall p note, vault w !! p = Some note -> touched E (pre ++ f :: post) p = true ->
         exists note',
           vault w' !! p = Some note'
           /\ In (AStr tag) (tags_of (frontmatter note' !! key))
           /\ (key <> "recurrenceRule" -> key <> "recurrence" ->
               rule_of (frontmatter note') = rule_of (frontmatter note)).
Proof.
  intros Hflags Hpre Hcand Hrec Hans.
  set (desc := "adding tag " ++ dquote ++ tag ++ dquote ++ " to").
  destruct (promptForFrontmatterChange_with_update_all E (updateFrontmatter E fuel) f desc
              w rest Hrec Hans)
    as (w1 & Hrun1 & Hs & Hv & Hmc & Hc & Hsd & Hl & Hco & Hk & Ht & Ha & Hm).
  assert (Hprompts : tag_prompts E fuel (pre ++ f :: post) desc w = Ret false w1).
  { rewrite (tag_prompts_skip_non_candidates E fuel desc pre (f :: post) w Hpre).
    cbn [tag_prompts]. unfold tag_candidate in Hcand. unfold getFileCache.
    destruct (metadataCache w !! path f) as [fm|]; [|discriminate].
    rewrite Hcand. unfold bind, promptForFrontmatterChange. now rewrite Hrun1. }
  unfold addTag. rewrite Hflags. fold desc. unfold bind at 1. rewrite Hprompts.
  unfold applyToFiles.
  destruct (applyToFiles_from_run E (fun fm _ => add_tag_cb tag key fm) (pre ++ f :: post)
              O w1) as (w' & Hrun & _ & Ht' & Ha' & _).
  destruct (applyToFiles_from_exact E (add_tag_cb tag key) (pre ++ f :: post)
              (add_tag_cb_idem tag key) O w1) as (n & w2 & Hrun2 & Hvx).
  rewrite Hrun in Hrun2. injection Hrun2 as _ <-.
  assert (Hacc : List.filter (patch_accepted E w1) (pre ++ f :: post)
                 = List.filter (patch_accepted E w) (pre ++ f :: post)).
  { apply filter_ext_all. intros g. apply patch_accepted_ext. intros p. now rewrite Hv. }
  rewrite Hacc in Hrun.
  exists w'. split; [exact Hrun|]. split; [congruence|]. split; [congruence|].
  intros p note Hp Htouched. rewrite Hvx, Hv, Hp, Htouched.
  cbn [fmap option_fmap option_map].
  eexists. split; [reflexivity|]. cbn [frontmatter].
  split.
  - rewrite add_tag_cb_tags.
    destruct (includes_atom (AStr tag) (tags_of (frontmatter note !! key))) eqn:Hin.
    + now apply includes_atom_In.
    + apply in_or_app. right. now left.
  - intros Hk1 Hk2. unfold rule_of. now rewrite !add_tag_cb_other by congruence.
Qed.

Lemma addTag_prompts_once_witness :
  exists w',
    addTag Sample.calm 0 ([Cases.errands] ++ Sample.water_plants :: [Cases.feed_cat])
      "urgent" "tags" (Cases.busy_world [UpdateAll])
    = Ret (List.length
             (List.filter (patch_accepted Sample.calm (Cases.busy_world [UpdateAll]))
                ([Cases.errands] ++ Sample.water_plants :: [Cases.feed_cat]))) w'
    /\ trace w'
       = EvPrompt (path Sample.water_plants)
           ("adding tag " ++ dquote ++ "urgent" ++ dquote ++ " to")
         :: trace (Cases.busy_world [UpdateAll])
    /\ answers w' = []
    /\ forall p note,
         vault (Cases.busy_world [UpdateAll]) !! p = Some note ->
         touched Sample.calm ([Cases.errands] ++ Sample.water_plants :: [Cases.feed_cat]) p
         = true ->
         exists note',
           vault w' !! p = Some note'
           /\ In (AStr "urgent") (tags_of (frontmatter note' !! "tags"))
           /\ ("tags" <> "recurrenceRule" -> "tags" <> "recurrence" ->
               rule_of (frontmatter note') = rule_of (frontmatter note)).
Proof.
  apply (addTag_prompts_once Sample.calm 0 [Cases.errands] [Cases.feed_cat]
           Sample.water_plants "urgent" "tags" (Cases.busy_world [UpdateAll]) []);
    [reflexivity | repeat constructor | reflexivity | reflexivity | reflexivity].
Defined.

(** ** A rule set on a completed note *)

Lemma strip_set_recurrence rule fm :
  strip_rule (set_recurrence_cb rule fm) = strip_rule fm.
Proof.
  apply map_eq. intros k.
  destruct (decide (k = "recurrenceRule")) as [->|H1].
  { destruct (strip_rule_lookup (set_recurrence_cb rule fm)) as [-> _].
    now destruct (strip_rule_lookup fm) as [-> _]. }
  destruct (decide (k = "recurrence")) as [->|H2].
  { destruct (strip_rule_lookup (set_recurrence_cb rule fm)) as [_ ->].
    now destruct (strip_rule_lookup fm) as [_ ->]. }
  rewrite !strip_rule_other by assumption. rewrite set_recurrence_cb_lookup.
  destruct (String.eqb_spec k "recurrence"); [contradiction|].
  now destruct (String.eqb_spec k "recurrenceRule").
Qed.

(** X25.  On a host that indexes at once and accepts every call,
    setting a rule on a note whose status is terminal first writes the
    rule and sets one timer; when the timer runs, the successor is created
    at the derived path carrying the rule and the next date, and the
    completed note is left without a rule, as it was before. *)
Theorem rule_on_completed_note_moves_on (E : Env) (f : TFile) (rule : string)
    (w : World) (n : Note) (d : Z) :
  eager_index E = true ->
  (forall op p, io_fails E op p = false) ->
  enableRecurrence (settings w) = true ->
  rule <> "" ->
  is_markdown f = true ->
  vault w !! path f = Some n ->
  status_in (recurrenceStatuses (settings w)) (frontmatter n) = true ->
  (getNextOccurrence E (VAtom (AStr rule)) (frontmatter n !! "scheduled") w).1 = Some d ->
  vault w !! successor_path E f d = None ->
  exists w1 w2,
    setRecurrence E [f] (Some rule) w
    = Ret (1%nat, [mkTimer f (recurrenceStatuses (settings w))]) w1
    /\ vault w1 !! path f
       = Some (mkNote (set_recurrence_cb (Some rule) (frontmatter n)) (body n))
    /\ setRecurrence_timer E (mkTimer f (recurrenceStatuses (settings w))) w1 = Ret tt w2
    /\ vault w2 !! path f = Some (mkNote (strip_rule (frontmatter n)) (body n))
    /\ exists successor,
         vault w2 !! successor_path E f d = Some successor
         /\ body successor = body n
         /\ frontmatter successor !! "recurrenceRule" = Some (VAtom (AStr rule))
         /\ frontmatter successor !! "scheduled"
            = Some (VAtom (AStr (moment_format E d "YYYY-MM-DDTHH:mm:ss"))).
Proof.
  intros Heager Hio Hen Hrule Hmd Hn Hst Hd Hfree.
  assert (Hneq : String.eqb rule "" = false)
    by (destruct (String.eqb_spec rule ""); [contradiction|reflexivity]).
  assert (Htruthy : str_truthy (Some rule) = true) by (cbn; now rewrite Hneq).
  assert (Htruthy' : truthy (VAtom (AStr rule)) = true) by (cbn; now rewrite Hneq).
  set (fm1 := set_recurrence_cb (Some rule) (frontmatter n)).
  destruct (applyToFiles_step E (fun fm _ => set_recurrence_cb (Some rule) fm) f O w)
    as (c & w1 & Hrun & Hs & Ht & Ha & Hk & Hl & Hc & Hcase).
  destruct Hcase as [(_ & n' & Hn' & -> & Hv1 & Hmc1 & _) | ([Hbad|Hbad] & _)];
    [| rewrite Hio in Hbad; discriminate | congruence].
  assert (n' = n) by congruence. subst n'. fold fm1 in Hv1, Hmc1.
  assert (Hset : setRecurrence E [f] (Some rule) w
                 = Ret (1%nat, [mkTimer f (recurrenceStatuses (settings w))]) w1).
  { unfold setRecurrence, applyToFiles. cbn [applyToFiles_from]. rewrite Hmd. cbn [negb].
    unfold bind at 1, bind at 1. rewrite Hrun. unfold ret at 1.
    rewrite Htruthy, Hs, Hen. reflexivity. }
  assert (Hcache1 : getFileCache f w1 = Some fm1).
  { unfold getFileCache. rewrite Hmc1. unfold cache_after. rewrite Heager.
    apply lookup_insert_eq. }
  assert (Hst1 : status_in (recurrenceStatuses (settings w)) fm1 = true).
  { unfold status_in, fm1. rewrite set_recurrence_cb_lookup. exact Hst. }
  assert (Hr1 : rule_of fm1 = Some (VAtom (AStr rule))).
  { unfold rule_of, js_or, fm1. rewrite !set_recurrence_cb_lookup.
    change (String.eqb "recurrenceRule" "recurrence") with false.
    change (String.eqb "recurrence" "recurrence") with true.
    change (String.eqb "recurrenceRule" "recurrenceRule") with true.
    cbn iota. rewrite Htruthy. cbn. now rewrite Hneq. }
  assert (Hd1 : (getNextOccurrence E (VAtom (AStr rule)) (fm1 !! "scheduled") w1).1 = Some d).
  { unfold fm1. rewrite set_recurrence_cb_lookup.
    change (String.eqb "scheduled" "recurrence") with false.
    change (String.eqb "scheduled" "recurrenceRule") with false. cbn iota.
    rewrite <- Hd. now apply getNextOccurrence_clock. }
  assert (Hne : successor_path E f d <> path f) by congruence.
  destruct (createNext_fresh E f fm1 None w1 (VAtom (AStr rule)) d
              (mkNote fm1 (body n)) Hr1 Htruthy' Hd1)
    as (w2 & Hrun2 & Hv2 & _);
    try apply Hio.
  { rewrite Hv1, lookup_insert_ne by congruence. exact Hfree. }
  { rewrite Hv1. apply lookup_insert_eq. }
  exists w1, w2. split; [exact Hset|].
  split; [rewrite Hv1; apply lookup_insert_eq|].
  split.
  { unfold setRecurrence_timer. cbn [timer_file timer_statuses].
    rewrite Hcache1, Hst1. unfold bind. now rewrite Hrun2. }
  rewrite Hv2. cbn [frontmatter body].
  split.
  { rewrite lookup_insert_eq. unfold fm1. now rewrite strip_set_recurrence. }
  eexists. split; [rewrite lookup_insert_ne by congruence; apply lookup_insert_eq|].
  cbn [body frontmatter]. split; [reflexivity|].
  unfold successor_patch. split.
  - rewrite !lookup_insert_ne by discriminate. unfold fm1.
    rewrite set_recurrence_cb_lookup.
    change (String.eqb "recurrenceRule" "recurrence") with false.
    change (String.eqb "recurrenceRule" "recurrenceRule") with true. cbn iota.
    now rewrite Htruthy.
  - rewrite lookup_insert_ne by discriminate. rewrite lookup_insert_ne by discriminate.
    apply lookup_insert_eq.
Qed.

Lemma rule_on_completed_note_moves_on_witness :
  exists w1 w2,
    setRecurrence Sample.eager [Cases.taxes] (Some "FREQ=WEEKLY") Cases.taxes_world
    = Ret (1%nat, [mkTimer Cases.taxes (recurrenceStatuses (settings Cases.taxes_world))]) w1
    /\ vault w1 !! path Cases.taxes
       = Some (mkNote (set_recurrence_cb (Some "FREQ=WEEKLY") (frontmatter Cases.taxes_note))
                 (body Cases.taxes_note))
    /\ setRecurrence_timer Sample.eager
         (mkTimer Cases.taxes (recurrenceStatuses (settings Cases.taxes_world))) w1
       = Ret tt w2
    /\ vault w2 !! path Cases.taxes
       = Some (mkNote (strip_rule (frontmatter Cases.taxes_note)) (body Cases.taxes_note))
    /\ exists successor,
         vault w2 !! successor_path Sample.eager Cases.taxes Sample.next_week = Some successor
         /\ body successor = body Cases.taxes_note
         /\ frontmatter successor !! "recurrenceRule" = Some (VAtom (AStr "FREQ=WEEKLY"))
         /\ frontmatter successor !! "scheduled"
            = Some (VAtom (AStr (moment_format Sample.eager Sample.next_week
                                   "YYYY-MM-DDTHH:mm:ss"))).
Proof.
  apply (rule_on_completed_note_moves_on Sample.eager Cases.taxes "FREQ=WEEKLY"
           Cases.taxes_world Cases.taxes_note Sample.next_week);
    try reflexivity. discriminate.
Defined.

(** ** Editing one instance of a series *)

Lemma applyToFiles_single E cb f w n :
  is_markdown f = true ->
  io_fails E OpPatch (path f) = false ->
  vault w !! path f = Some n ->
  exists w',
    applyToFiles E [f] cb w = Ret 1%nat w'
    /\ vault w' = <[path f := mkNote (cb (frontmatter n) f) (body n)]> (vault w)
    /\ metadataCache w' = cache_after E (path f) (cb (frontmatter n) f) (metadataCache w)
    /\ settings w' = settings w /\ trace w' = trace w /\ answers w' = answers w
    /\ clock w' = clock w.
Proof.
  intros Hmd Hio Hn.
  destruct (applyToFiles_step E cb f O w)
    as (c & w1 & Hrun & Hs & Ht & Ha & _ & _ & Hc & Hcase).
  destruct Hcase as [(_ & n' & Hn' & -> & Hv1 & Hmc1 & _) | ([Hbad|Hbad] & _)];
    [| congruence | congruence].
  assert (n' = n) by congruence. subst n'.
  exists w1. unfold applyToFiles. cbn [applyToFiles_from]. rewrite Hmd. cbn [negb].
  unfold bind at 1. rewrite Hrun. unfold ret. auto 10.
Qed.

(** X26.  On a host that indexes at once and accepts every call, the
    answer split to the dialog of [updateFrontmatter] makes the requested
    change apply to this instance only: the successor is created from the
    note as it was, without the change, and the note itself ends with the
    rule fields removed and the change applied; one file is reported and
    no second dialog is shown. *)
Theorem split_edits_this_instance_only (E : Env) (fuel : nat) (N : TFile)
    (updates : gmap string value) (w : World) (r : value) (d : Z) (n : Note)
    (rest : list Choice) :
  eager_index E = true ->
  (forall op p, io_fails E op p = false) ->
  (enableRecurrence (settings w) && promptOnRecurrenceEdit (settings w))%bool = true ->
  is_markdown N = true ->
  vault w !! path N = Some n ->
  metadataCache w !! path N = Some (frontmatter n) ->
  rule_of (frontmatter n) = Some r ->
  truthy r = true ->
  status_is_done (frontmatter n) = false ->
  updates !! "status" = None ->
  (SessionTracker.wasRecentlyModified (path N) w).1 = false ->
  answers w = Split :: rest ->
  (getNextOccurrence E r (frontmatter n !! "scheduled") w).1 = Some d ->
  vault w !! successor_path E N d = None ->
  exists w',
    updateFrontmatter E (S (S fuel)) [N] updates w = Ret 1%nat w'
    /\ vault w'
       = <[path N := mkNote (apply_updates updates (strip_rule (frontmatter n))) (body n)]>
           (<[successor_path E N d
              := mkNote (successor_patch E N d (settings w) (frontmatter n)) (body n)]>
              (vault w))
    /\ answers w' = rest
    /\ trace w'
       = EvNotice "Split recurring event. Next instance created."
         :: EvNotice ("Created next recurrence: " ++ successor_fileName E N d)
         :: EvCreateNext (path N) None
         :: EvPrompt (path N) (change_description updates)
         :: trace w.
Proof.
  intros Heager Hio Hflags Hmd Hn Hcache Hr Ht Hdone Hstatus Hrec Hans Hd Hfree.
  set (t := successor_path E N d) in *.
  assert (Hne : t <> path N) by congruence.
  assert (Hrule : has_rule (frontmatter n) = true) by (eapply rule_of_truthy; eauto).
  (* the prompt *)
  destruct (TrackerFacts.lookup_frame (path N) w)
    as (Hs0 & Hv0 & Hmc0 & Hsd0 & Hc0 & Hl0 & Hco0 & Ht0 & Ha0 & Hk0).
  destruct (SessionTracker.wasRecentlyModified (path N) w) as [b w0] eqn:Hw0.
  cbn [fst snd] in *. subst b.
  set (wq := set_answers rest (emit (EvPrompt (path N) (change_description updates)) w0)).
  (* successor creation *)
  assert (Hdq : (getNextOccurrence E r (frontmatter n !! "scheduled") wq).1 = Some d).
  { rewrite <- Hd. apply getNextOccurrence_clock. exact Hc0. }
  destruct (createNext_fresh E N (frontmatter n) None wq r d n Hr Ht Hdq)
    as (w1 & Hrun1 & Hv1 & Hs1 & Hm1 & Hsd1 & Hc1 & Ha1 & Hco1 & Ht1 & Hmc1);
    try apply Hio; try (cbn; rewrite Hv0; assumption).
  unfold wq in Hv1, Hs1, Ha1, Ht1.
  cbn [settings set_answers emit set_trace vault trace answers] in Hv1, Hs1, Ha1, Ht1.
  rewrite Hs0 in Hv1. rewrite Hv0 in Hv1.
  (* the rule fields are deleted a second time, without a prompt *)
  assert (Hc1N : metadataCache w1 !! path N = Some (strip_rule (frontmatter n))).
  { rewrite Hmc1. unfold cache_after at 1. rewrite Heager. apply lookup_insert_eq. }
  assert (Hinner : exists w2,
             updateFrontmatter E (S fuel) [N] rule_nulls w1 = Ret 1%nat w2
             /\ vault w2 = vault w1 /\ settings w2 = settings w1
             /\ trace w2 = trace w1 /\ answers w2 = answers w1 /\ clock w2 = clock w1).
  { rewrite (updateFrontmatter_unprompted E fuel [N] rule_nulls w1).
    2:{ intros _. repeat constructor. unfold update_candidate. rewrite Hc1N.
        now rewrite strip_rule_has_rule. }
    destruct (applyToFiles_single E (fun fm _ => apply_updates rule_nulls fm) N w1
                (mkNote (strip_rule (frontmatter n)) (body n)) Hmd (Hio _ _))
      as (w2 & Hrun2 & Hv2 & _ & Hs2 & Ht2 & Ha2 & Hc2).
    { rewrite Hv1. apply lookup_insert_eq. }
    exists w2. split; [exact Hrun2|]. split; [|auto].
    rewrite Hv2. cbn [frontmatter body]. rewrite apply_rule_nulls, strip_rule_idem.
    apply insert_id. rewrite Hv1. apply lookup_insert_eq. }
  destruct Hinner as (w2 & Hrun2 & Hv2 & Hs2 & Ht2 & Ha2 & Hc2).
  set (w4 := SessionTracker.markAsModified (path N)
               (emit (EvNotice "Split recurring event. Next instance created.") w2)).
  assert (Hprompt : promptForFrontmatterChange_with E (updateFrontmatter E (S fuel)) N
                      (change_description updates) w = Ret Split w4).
  { unfold promptForFrontmatterChange_with, bind at 1, wasRecentlyModified. rewrite Hw0.
    unfold bind at 1.
    rewrite (promptUser_answer (change_description updates) N w0 Split rest)
      by congruence.
    fold wq. unfold bind at 1, splitInstance_with.
    assert (Hcq : getFileCache N wq = Some (frontmatter n))
      by (unfold getFileCache; cbn; congruence).
    rewrite Hcq. unfold bind at 1. rewrite Hrun1. unfold bind at 1. rewrite Hrun2.
    reflexivity. }
  (* the requested update *)
  destruct (applyToFiles_single E (fun fm _ => apply_updates updates fm) N w4
              (mkNote (strip_rule (frontmatter n)) (body n)) Hmd (Hio _ _))
    as (w5 & Hrun5 & Hv5 & _ & _ & Ht5 & Ha5 & _).
  { unfold w4, SessionTracker.markAsModified. cbn. rewrite Hv2, Hv1. apply lookup_insert_eq. }
  exists w5. split.
  { change (updateFrontmatter E (S (S fuel)) [N] updates w)
      with (updateFrontmatter_body E (updateFrontmatter E (S fuel)) [N] updates w).
    unfold updateFrontmatter_body at 1. rewrite Hflags.
    unfold bind at 1. cbn [updateFrontmatter_prompts]. unfold getFileCache.
    rewrite Hcache, Hrule, Hdone, Hstatus.
    rewrite (bool_decide_eq_false_2 (is_Some None)) by apply is_Some_None.
    unfold bind at 1.
    rewrite Hprompt. exact Hrun5. }
  split.
  { rewrite Hv5. cbn [frontmatter body]. unfold w4, SessionTracker.markAsModified. cbn.
    rewrite Hv2, Hv1. apply insert_insert_eq. }
  split.
  { rewrite Ha5. unfold w4, SessionTracker.markAsModified. cbn. rewrite Ha2, Ha1.
    reflexivity. }
  rewrite Ht5. unfold w4, SessionTracker.markAsModified. cbn. rewrite Ht2, Ht1, Ht0.
  reflexivity.
Qed.

Lemma split_edits_this_instance_only_witness :
  exists w',
    updateFrontmatter Sample.eager 2 [Sample.water_plants] Sample.raise_priority
      (Sample.garden DEFAULT_SETTINGS [Split]) = Ret 1%nat w'
    /\ vault w'
       = <[path Sample.water_plants
           := mkNote (apply_updates Sample.raise_priority
                        (strip_rule (frontmatter Sample.water_plants_note)))
                (body Sample.water_plants_note)]>
           (<[successor_path Sample.eager Sample.water_plants Sample.next_week
              := mkNote (successor_patch Sample.eager Sample.water_plants Sample.next_week
                           (settings (Sample.garden DEFAULT_SETTINGS [Split]))
                           (frontmatter Sample.water_plants_note))
                   (body Sample.water_plants_note)]>
              (vault (Sample.garden DEFAULT_SETTINGS [Split])))
    /\ answers w' = []
    /\ trace w'
       = EvNotice "Split recurring event. Next instance created."
         :: EvNotice ("Created next recurrence: "
                      ++ successor_fileName Sample.eager Sample.water_plants Sample.next_week)
         :: EvCreateNext (path Sample.water_plants) None
         :: EvPrompt (path Sample.water_plants) (change_description Sample.raise_priority)
         :: trace (Sample.garden DEFAULT_SETTINGS [Split]).
Proof.
  apply (split_edits_this_instance_only Sample.eager 0 Sample.water_plants
           Sample.raise_priority (Sample.garden DEFAULT_SETTINGS [Split])
           (VAtom (AStr "RRULE:FREQ=WEEKLY")) Sample.next_week Sample.water_plants_note []);
    reflexivity.
Defined.

(** ** One prompt for every recurring note of a batch *)

Lemma update_all_tracker E inner f desc w rest :
  modifiedFiles w !! path f = None ->
  answers w = UpdateAll :: rest ->
  exists w1,
    promptForFrontmatterChange_with E inner f desc w = Ret UpdateAll w1
    /\ modifiedFiles w1 = <[path f := clock w]> (modifiedFiles w)
    /\ vault w1 = vault w /\ metadataCache w1 = metadataCache w
    /\ settings w1 = settings w /\ clock w1 = clock w
    /\ trace w1 = EvPrompt (path f) desc :: trace w
    /\ answers w1 = rest.
Proof.
  intros Hnone Hans.
  unfold promptForFrontmatterChange_with, bind, wasRecentlyModified.
  rewrite (TrackerFacts.unknown_path (path f) w Hnone).
  rewrite (promptUser_answer desc f w UpdateAll rest Hans).
  unfold lift, ret. eexists. split; [reflexivity|].
  unfold SessionTracker.markAsModified. cbn. auto 10.
Qed.

Lemma prompts_update_all E inner updates files :
  forall w rest,
  List.NoDup (List.map path files) ->
  (forall f, In f files -> modifiedFiles w !! path f = None) ->
  answers w
  = (List.repeat UpdateAll
       (List.length (List.filter (fun f => update_candidate updates f w) files))
     ++ rest)%list ->
  exists w',
    updateFrontmatter_prompts E inner files updates w = Ret false w'
    /\ vault w' = vault w /\ metadataCache w' = metadataCache w
    /\ settings w' = settings w
    /\ answers w' = rest
    /\ trace w'
       = (rev (List.map (fun f => EvPrompt (path f) (change_description updates))
                 (List.filter (fun f => update_candidate updates f w) files))
          ++ trace w)%list.
Proof.
  induction files as [|f files IH]; intros w rest Hnd Hnone Hans.
  - exists w. cbn in *. auto 10.
  - cbn [List.map] in Hnd. apply List.NoDup_cons_iff in Hnd as [Hnotin Hnd].
    assert (Hne : forall g, In g files -> path g <> path f).
    { intros g Hg Heq. apply Hnotin. rewrite <- Heq. now apply in_map. }
    cbn [List.filter] in Hans |- *.
    assert (Hskip : update_candidate updates f w = false ->
              updateFrontmatter_prompts E inner (f :: files) updates w
              = updateFrontmatter_prompts E inner files updates w).
    { intros Hc. apply (prompts_skip_non_candidates E inner updates [f] files w).
      now repeat constructor. }
    destruct (update_candidate updates f w) eqn:Hcand.
    + cbn [List.length List.repeat app] in Hans.
      destruct (update_all_tracker E inner f (change_description updates) w _
                  (Hnone f (or_introl eq_refl)) Hans)
        as (w1 & Hrun1 & Hm1 & Hv1 & Hmc1 & Hs1 & Hc1 & Ht1 & Ha1).
      assert (Hc1' : forall g, update_candidate updates g w1 = update_candidate updates g w)
        by (intros g; unfold update_candidate; now rewrite Hmc1).
      destruct (IH w1 rest Hnd) as (w' & Hrun & Hv & Hmc & Hs & Ha & Ht).
      { intros g Hg. rewrite Hm1, lookup_insert_ne by (apply not_eq_sym; now apply Hne).
        apply Hnone. now right. }
      { rewrite Ha1. now rewrite (filter_ext_all _ _ files Hc1'). }
      exists w'. split.
      { cbn [updateFrontmatter_prompts]. unfold update_candidate in Hcand.
        unfold getFileCache. destruct (metadataCache w !! path f) as [fm|]; [|discriminate].
        apply andb_true_iff in Hcand as [Hcand Hst].
        apply andb_true_iff in Hcand as [Hrule Hdone].
        rewrite Hrule. apply negb_true_iff in Hdone, Hst. rewrite Hdone, Hst.
        unfold bind at 1. rewrite Hrun1. exact Hrun. }
      split; [congruence|]. split; [congruence|]. split; [congruence|].
      split; [exact Ha|].
      rewrite Ht, Ht1, (filter_ext_all _ _ files Hc1'). cbn [List.map rev].
      now rewrite <- app_assoc.
    + rewrite (Hskip eq_refl). apply IH; [exact Hnd | | exact Hans].
      intros g Hg. apply Hnone. now right.
Qed.

(** X27.  [updateFrontmatter] asks once for every candidate of the
    batch, in order: for a batch of distinct files none of which is
    stamped, answering update-all each time consumes exactly as many
    answers as there are candidates, shows exactly their dialogs and then
    patches the whole batch. *)
Theorem updateFrontmatter_asks_about_every_candidate (E : Env) (fuel : nat)
    (files : list TFile) (updates : gmap string value) (w : World) (rest : list Choice) :
  (enableRecurrence (settings w) && promptOnRecurrenceEdit (settings w))%bool = true ->
  List.NoDup (List.map path files) ->
  (forall f, In f files -> modifiedFiles w !! path f = None) ->
  answers w
  = (List.repeat UpdateAll
       (List.length (List.filter (fun f => update_candidate updates f w) files))
     ++ rest)%list ->
  exists w',
    updateFrontmatter E (S fuel) files updates w
    = Ret (List.length (List.filter (patch_accepted E w) files)) w'
    /\ answers w' = rest
    /\ trace w'
       = (rev (List.map (fun f => EvPrompt (path f) (change_description updates))
                 (List.filter (fun f => update_candidate updates f w) files))
          ++ trace w)%list.
Proof.
  intros Hflags Hnd Hnone Hans.
  destruct (prompts_update_all E (updateFrontmatter E fuel) updates files w rest
              Hnd Hnone Hans) as (w1 & Hrun1 & Hv1 & _ & _ & Ha1 & Ht1).
  cbn [updateFrontmatter]. unfold updateFrontmatter_body. rewrite Hflags.
  unfold bind at 1. rewrite Hrun1. unfold applyToFiles.
  destruct (applyToFiles_from_run E (fun fm _ => apply_updates updates fm) files O w1)
    as (w' & Hrun & _ & Ht & Ha & _).
  assert (Hacc : List.filter (patch_accepted E w1) files
                 = List.filter (patch_accepted E w) files).
  { apply filter_ext_all. intros g. apply patch_accepted_ext. intros p. now rewrite Hv1. }
  rewrite Hacc in Hrun.
  exists w'. split; [exact Hrun|]. split; congruence.
Qed.

Lemma updateFrontmatter_asks_about_every_candidate_witness :
  exists w',
    updateFrontmatter Sample.calm 1 [Cases.errands; Sample.water_plants; Cases.feed_cat]
      Sample.raise_priority (Cases.busy_world [UpdateAll; UpdateAll; Cancel])
    = Ret (List.length
             (List.filter
                (patch_accepted Sample.calm
                   (Cases.busy_world [UpdateAll; UpdateAll; Cancel]))
                [Cases.errands; Sample.water_plants; Cases.feed_cat])) w'
    /\ answers w' = [Cancel]
    /\ trace w'
       = (rev (List.map
                 (fun f => EvPrompt (path f) (change_description Sample.raise_priority))
                 (List.filter
                    (fun f => update_candidate Sample.raise_priority f
                                (Cases.busy_world [UpdateAll; UpdateAll; Cancel]))
                    [Cases.errands; Sample.water_plants; Cases.feed_cat]))
          ++ trace (Cases.busy_world [UpdateAll; UpdateAll; Cancel]))%list.
Proof.
  apply (updateFrontmatter_asks_about_every_candidate Sample.calm 0
           [Cases.errands; Sample.water_plants; Cases.feed_cat] Sample.raise_priority
           (Cases.busy_world [UpdateAll; UpdateAll; Cancel]) [Cancel]).
  - reflexivity.
  - repeat (constructor; [cbn; intuition discriminate|]). constructor.
  - intros f _. reflexivity.
  - reflexivity.
Defined.
